(* ===== verification/_CoqProject ===== *)
-Q . S2P
Prelude.v
GoStrings.v
Strconv.v
Throttle.v
Address.v
Base64.v
Smtp.v
Submission.v
Forwarding.v
ForwardRelay.v
DirectRelay.v
Crypto.v
Gorm.v
Model.v
Tenant.v
TenantProofs.v
Config.v
Doctor.v
Email.v
Sms.v
Service.v
Retry.v
Directory.v
Delivery.v
Grpc.v
Client.v
Cli.v
EndToEnd.v
Identity.v
IdentityProofs.v
SenderDomains.v
HttpApi.v
HttpIdentity.v
System.v
Wiring.v
Database.v
Startup.v
Listener.v
Lifetime.v
