(* ===== verification/Prelude.v ===== *)
(** * Pinguin: a verification of the server, its doctor and its clients

    Pinguin (src/) is a Go server that sends e-mail and SMS notifications for
    several tenants, and lets their people send and receive mail under addresses
    of verified domains.  Its parts, and how they call each other:

    - the server reads its configuration (src/internal/config), stores the tenants
      it names (src/internal/tenant) and starts the parts below
      (src/cmd/server/main.go); the doctor (src/internal/doctor) checks such a
      configuration without starting anything;
    - clients create, list, reschedule and cancel notifications over gRPC
      (src/cmd/server/main.go) and HTTP (src/internal/httpapi), for one
      tenant, whose rights are looked up in the tenant repository; both call the
      notification service (src/internal/service) over the notification model and
      its table (src/internal/model), which sends through the tenant's own SMTP server
      and Twilio account; what cannot be sent at once is sent by a retry worker
      through the same service;
    - the gRPC client package (src/pkg/client, src/pkg/attachments) and the command
      line (src/cmd/client) build such requests;
    - owners register sender domains, prove them by DNS records, and create SMTP
      identities, an address with a credential and forwarding recipients
      (src/internal/smtpidentity), over the HTTP API;
    - a submission server (src/internal/smtpsubmission) takes mail over SMTP AUTH
      from those identities, under a throttle, and relays it directly to the
      recipients' MX hosts or through an upstream provider;
    - a forwarding server (src/internal/smtpforwarding) takes mail addressed to
      those identities, rewrites its headers and forwards it;
    - src/cmd/server/main.go wires the identity repository into both servers;
      src/internal/db opens the database all of them share.

    ** Files

    Definitions have the names of the Go functions they translate; a definition in
    lower case with underscores is a loop or a part of such a function.

    - [Prelude]: Go errors, results, effects, machine integers, tactics, hints.
    - [GoStrings], [Strconv], [Base64]: what the code uses of strings, bytes,
      unicode/utf8, sort, strconv, the text of errors, and encoding/base64, defined
      on bytes, with their laws.
    - [Throttle]: smtpsubmission/throttle.go.  The state is the struct with its
      maps as [gmap]; [throttle_step] is one call, and [world] adds the history.
    - [Address]: smtpidentity/address.go and the domain names of sender_domain.go.
    - [Smtp]: what both servers share of server.go: the connection, lines,
      commands, deadlines, and DATA through the 4096-byte read buffer.
    - [Submission]: smtpsubmission/server.go and types.go, from [NewServer] to the
      command handlers and the session loop.
    - [Forwarding], [ForwardRelay]: smtpforwarding/types.go, server.go, relay.go.
    - [DirectRelay]: smtpsubmission/direct_relay.go and relay.go.
    - [Crypto]: the ciphers, the random source and the clock.
    - [Gorm]: the interface to the database.
    - [Model]: model/models.go and notification_request.go.
    - [Tenant] (definitions) and [TenantProofs]: tenant/models.go, secrets.go,
      repository.go with its two caches, and bootstrap.go.
    - [Config]: config/config.go, with [os.Expand].
    - [Doctor]: doctor/doctor.go and the doctor command of main.go.
    - [Email]: service/email_service.go.
    - [Sms]: service/sms_service.go, with the form encoding of net/url.
    - [Service]: service/notification_service.go and notification_retry.go.
    - [Retry]: [StartRetryWorker], the worker's rounds interleaved with the users' calls.
    - [Directory]: what the APIs promise themselves of tenants, as an interface, and
      the state of the running process, which implements it.
    - [Delivery]: the senders the service builds, over [Email] and [Sms]; they are what
      [Directory] takes as providers.
    - [Grpc]: the handlers and interceptors of main.go.
    - [Client]: pkg/client, pkg/attachments and the send command of cmd/client.
    - [Cli]: the command lines of the client and the doctor, from arguments to exit codes.
    - [EndToEnd]: the client over [Cli], [Client], [Grpc], [Service] and [Delivery].
    - [Identity] (definitions) and [IdentityProofs]: smtpidentity/repository.go.
    - [SenderDomains]: smtpidentity/domain_repository.go, dns_verification.go and
      service.go.
    - [HttpApi], [HttpIdentity]: httpapi/server.go and smtp_identity_handler.go.
    - [System]: both APIs and the retry worker acting on one process.
    - [Wiring]: the adapters of main.go and the end-to-end theorems on mail.
    - [Database]: db/db.go, with [filepath.Dir].
    - [Startup]: [runServer] of main.go over its dependencies, and the settings it
      publishes.
    - [Listener]: [Start] and [Serve] of both SMTP servers, with all their sessions.
    - [Lifetime]: the process after its start: goroutines that end, the deferred calls
      and the exit code.

    ** State and effects

    A handler is a function from the state it reads to the state after it.  Code
    that calls out (database, network, clock) is in the monad [eff W]: a function
    on a world [W] that gives the world after it and a [result].  What is not the
    program's own code is a class with the operations the code calls, and laws
    only where the code relies on documented behaviour:

    - text: [Unicode] (case mapping of non-ASCII text; [LowerLaws]: the
      lower case of a trimmed text is trimmed and settled), [ErrorTexts] (quoting, and the text of errors of
      libraries), [NetMail] (net/mail), [CursorCodec] (JSON and time text of a
      cursor; law: round trip), [Timestamps] and [TimeText], [Mime], [Yaml],
      [IdentityPayloads] (JSON bodies), [Sql] (LIKE);
    - [Crypto] (HMAC-SHA-256, AES-GCM; law: opening what was sealed gives it back),
      [Environment] (clock, random source, UUIDs, DNS);
    - [Table], [Upserts] and [Joins] with their laws (gorm over SQLite: any operation
      may fail and then changes nothing; [Reliable] adds that it does not fail);
    - [MXNet] (MX lookup and the SMTP client), [Upstream] (crypto/tls and net/smtp),
      [HttpClient], [WebFramework] (gin and the session validator), [Host], [Machine]
      and [Sqlite] (files, variables, the database file), [Net] (listening sockets; laws:
      a failed listen opens nothing, closing closes, waiting opens nothing), [ServeLaws] (nobody
      but the server closes its listeners), [ClientWorld] and [ClientClock] (a client's
      connection and clock), [Cobra] (which flags were given, in order; laws: they are
      declared ones, with values of their kind);
    - [Scheduler] (the library that drives the retry worker: what it
      reports to the store; laws: it counts one more attempt, and reports a dispatch
      without an error as sent);
    - interfaces inside the program: [Env] and [FwdEnv], the Go interfaces of the two
      SMTP servers, which [Wiring] instantiates by the identity repository;
      [TenantDirectory] with its laws, which the APIs are proved against and the
      tenant repository discharges ([Directory]); [DirectoryFrame], that the steps on
      notifications leave tenants alone ([System]); [Outside] and [Providers] (clock, e-mail
      and SMS senders, tenant lookup), which [Directory] and [Delivery] instantiate; and
      [Gate] with its laws, what a listener asks of the throttle or the session limiter,
      which both discharge ([Listener]).

    Each class has a concrete instance, on which the witnesses evaluate.

    ** Theorems

    - Mail end to end ([Wiring]): [outbound_end_to_end] says that only owners of live
      credentials of verified domains send, as themselves; [inbound_end_to_end]
      that mail goes exactly where the owner of the address said, in both cases by the
      tables at the moment of the login or look-up, whatever else changes them.
    - The whole server ([System]): [every_change_accounted] says of any run, calls of both
      APIs and the worker in any order, that nothing is lost or altered and that every
      change to a tenant's notifications has someone responsible for it.
    - Notifications end to end: [sent_is_delivered] ([Delivery]: a notification stored as
      sent was accepted by the tenant's own provider, and what the provider was told
      is the caller's message, for the retry worker too), and
      [command_line_to_provider] ([EndToEnd]: the same from the arguments of the client
      and its exit code; [command_settings_exact] says which settings the flags give).
    - Submission: [submission_authorized] and [plaintext_never_authenticates],
      [starttls_discards_plaintext], [auth_lockout], [relay_accounting] and
      [session_terminates].  A session is observed by logging every call of its
      interfaces ([logged_env]).
    - Throttle: [reserve_exact] (refinement of a limiter that never forgets),
      [sessions_bounded], [windows_bounded].
    - Wire: [readData_exact] (equal to a reference on whole lines, wherever the
      buffer cuts) and [readData_roundtrip] (dot-stuffing).
    - Forwarding: [forwards_only_resolved] (no open relay),
      [accepted_is_forwarded] (no loss), [rewrite_message_exact] (no header
      injection), [NewRouteSet_complete], [forwarding_session_terminates], and
      [limiter_bounded], by simulation with the throttle.
    - Relays: [direct_relay_delivers], [direct_relay_error_class],
      [lookupTargets_order].
    - Notifications: [SendNotification_outcome], [edits_confined],
      [PendingJobs_exact], [cancelled_not_pending], [senders_isolated],
      [pagination_complete], [NewNotificationRequest_valid],
      [SendEmail_delivered], [buildEmailMessage_headers], [sms_request_exact];
      [retries_bounded] (however polls, attempts and users' calls interleave).
    - Identities: [identities_invariant], [authenticate_sound],
      [created_identity_works], [revocation], [owners_isolated]; domains:
      [domain_registration], [domain_verification], [published_records_verify].
    - Tenants: [caches_invisible] (the repository with its caches refines one that
      reads the tables each time), [bootstrap_source_of_truth] (after a bootstrap the
      tables say what the configuration says).
    - gRPC: [grpc_requires_token], [grpc_tenant_isolated], [grpc_answer_roundtrip].
    - HTTP: [http_requires_session], [http_tenant_access], [http_list_bounded],
      [http_cancel_status], [http_identity_isolated].
    - Configuration and start: [expand_exact], [startup_exact] (what runs is what
      a valid configuration turns on, in a fixed order),
      [startup_serves] (a valid configuration does start), [published_settings],
      [doctor_agrees] and [doctor_verdict] (what the doctor's answer means),
      [sqliteDSN_file] (SQLite opens the file the configuration names).
    - Listeners ([Listener]): [listeners_exact] (the counters of open sessions are exact in
      every reachable state, so no slot is lost or given twice), [start_closes] (when
      [Start] returns, no listener is left open); [no_silent_death] ([Lifetime]: a server
      that ends by itself ends the process).
    - Clients: [cli_request_served] (the command line's request passes the
      interceptors and reaches the service for the tenant the user named),
      [wait_terminates].
    - Some theorems show behaviour the code does not mean to have:
      [subject_injects_header], [stale_attempt_undoes_cancel],
      [responses_omit_recipients], [domain_with_port_unreachable],
      [suspended_tenant_served], [overlapping_reschedule_resends], and parts of [http_cancel_status] and
      [startup_serves].

    ** Bounds and fuel

    Session loops recur on fuel, one more than [conn_measure], the number of bytes
    the peer may still send before and after STARTTLS; each round reads a line, so
    it is enough ([session_terminates]).  [readData] has one unit per byte and one
    more; [readData_exact] and [readData_roundtrip] give its results.  A client's
    wait for a notification has [poll_fuel], one round per two seconds of its
    timeout and two more, which is enough on a clock that a sleep moves on by
    its length ([wait_terminates]).  Other loops recur on their list, or on fuel of its length.
    [collect_pages] is a client that asks for one page per row, and one more.  Times
    are nanoseconds in [Z]; durations computed from seconds wrap at 64 bits, as Go's
    do.

    ** Not modelled

    TLS itself, sockets, and how long the parts take to stop.  The goroutines of sessions,
    servers and the retry worker are steps in any order ([Listener], [Retry], [System],
    [Lifetime]), and what sessions share
    is changed by atomic steps, as the mutex and the database give them; in the
    end-to-end theorems on mail other sessions may change the tables, the clock and the
    outbound side between any two calls, but the throttle a session runs with is its
    own.  Logging is left out.  Error values keep their format templates, operands
    and chain of sentinels; [Strconv.Error] renders their text where the HTTP API and the
    doctor show it.  Accessors of struct fields, which the model reads directly, the parsing of
    arguments, generated code, the libraries (cobra, viper, gin, the YAML
    reader, gorm, the scheduler) and the web front end are outside. *)
From stdpp Require Export base tactics option list gmap strings sorting pretty.
From Stdlib Require Export ZArith Lia Ascii.

(** * Go errors

    A Go error value is modelled by how it was built: [New] is a package-level
    [errors.New] sentinel, [Wrapf] is [fmt.Errorf] with a [%w] operand,
    [WrapfV] the same with a further error shown by [%v] (shown, not wrapped),
    [Text] an error with no sentinel in its chain, [SMTPReply] a
    [*textproto.Error], [DNSFailure] a [*net.DNSError], and [StatusError] a gRPC
    [status.Error] whose message is the text of another error.  Format templates
    and their operands are kept apart instead of being printed. *)
Inductive farg := FStr (s : string) | FInt (z : Z).

Inductive error :=
| New (text : string)
| Text (template : string) (args : list farg)
| Wrapf (template : string) (args : list farg) (inner : error)
| WrapfV (template : string) (args : list farg) (inner shown : error)
| SMTPReply (code : Z) (msg : string)
| DNSFailure (isNotFound : bool) (msg : string)
| StatusError (code : Z) (desc : error).

(** [errors.Is err target], for a sentinel target. *)
Fixpoint errors_Is (err target : error) : bool :=
  match target with
  | New name =>
      match err with
      | New text => bool_decide (text = name)
      | Wrapf _ _ inner => errors_Is inner target
      | WrapfV _ _ inner _ => errors_Is inner target
      | _ => false
      end
  | _ => false
  end.

(** [errors.As err &smtpError] for [*textproto.Error]: the reply code. *)
Fixpoint errors_As_SMTP (err : error) : option Z :=
  match err with
  | SMTPReply code _ => Some code
  | Wrapf _ _ inner | WrapfV _ _ inner _ => errors_As_SMTP inner
  | _ => None
  end.

(** [errors.As err &dnsErr] for [*net.DNSError]: its [IsNotFound]. *)
Fixpoint errors_As_DNS (err : error) : option bool :=
  match err with
  | DNSFailure nf _ => Some nf
  | Wrapf _ _ inner | WrapfV _ _ inner _ => errors_As_DNS inner
  | _ => None
  end.

(** * Results: a value and an error, of which exactly one is meaningful *)
Inductive result (A : Type) := Ok (a : A) | Err (e : error).
Arguments Ok {A} a.
Arguments Err {A} e.

#[export] Instance result_ret : MRet result := @Ok.
#[export] Instance result_bind : MBind result :=
  fun A B f r => match r with Ok a => f a | Err e => Err e end.
#[export] Instance result_fmap : FMap result :=
  fun A B f r => match r with Ok a => Ok (f a) | Err e => Err e end.

Lemma fmap_Ok {A B} (f : A → B) (r : result A) b :
  f <$> r = Ok b → ∃ a, r = Ok a ∧ b = f a.
Proof. destruct r; simpl; intros [=]; eauto. Qed.

Lemma bind_Ok {A B} (f : A → result B) (r : result A) b :
  r ≫= f = Ok b ↔ ∃ a, r = Ok a ∧ f a = Ok b.
Proof.
  destruct r as [a|e]; simpl; split; try (intros (x & Hx & ?); simplify_eq; congruence).
  - eauto.
  - intros [=].
Qed.

Lemma bind_Err {A B} (f : A → result B) (r : result A) e :
  r ≫= f = Err e ↔ r = Err e ∨ ∃ a, r = Ok a ∧ f a = Err e.
Proof.
  destruct r as [a|e0]; simpl; split; [right; eauto|intros [[=]|(x & [= ->] & ?)]; done|..].
  - intros [= ->]. by left.
  - intros [[= ->]|(x & Hx & ?)]; [done|discriminate].
Qed.

(** * Effects: a computation that changes the outside world and may fail *)
Definition eff (W A : Type) : Type := W → W * result A.

#[export] Instance eff_ret {W} : MRet (eff W) := λ A a w, (w, Ok a).
#[export] Instance eff_bind {W} : MBind (eff W) := λ A B f m w,
  let '(w', r) := m w in match r with Ok a => f a w' | Err e => (w', Err e) end.

(** A result computed without touching the world, and a call whose error is
    dropped ([_ = f()]). *)
Definition lift {W A} (r : result A) : eff W A := λ w, (w, r).
Definition ignore {W A} (m : eff W A) : eff W unit := λ w, ((m w).1, Ok ()).

Lemma eff_bind_Ok {W A B} (m : eff W A) (f : A → eff W B) w w' b :
  (m ≫= f) w = (w', Ok b) ↔ ∃ w1 a, m w = (w1, Ok a) ∧ f a w1 = (w', Ok b).
Proof.
  unfold mbind, eff_bind. destruct (m w) as [w1 [a|e]]; split.
  - eauto.
  - intros (? & ? & [= -> ->] & ?). done.
  - intros [=].
  - intros (? & ? & [=] & _).
Qed.

(** A call whose error the caller inspects, a wrapped error, and an operation on a
    part of the world. *)
Definition try_eff {W A} (m : eff W A) : eff W (result A) := λ w, let '(w', r) := m w in (w', Ok r).
Definition map_err {W A} (f : error → error) (m : eff W A) : eff W A := λ w,
  let '(w', r) := m w in (w', match r with Ok a => Ok a | Err e => Err (f e) end).
Definition zoom {W V A} (get : W → V) (put : V → W → W) (m : eff V A) : eff W A := λ w,
  let '(v, r) := m (get w) in (put v w, r).

(** Case analysis of a step: it failed, or the rest ran. *)
Lemma eff_bind_inv {W A B} (m : eff W A) (f : A → eff W B) w w' r :
  (m ≫= f) w = (w', r) →
  (∃ e, m w = (w', Err e) ∧ r = Err e) ∨ ∃ w1 a, m w = (w1, Ok a) ∧ f a w1 = (w', r).
Proof.
  unfold mbind, eff_bind. destruct (m w) as [w1 [a|e]]; [right; eauto|]. intros [= <- <-]. left; eauto.
Qed.

(** Running a step whose outcome is known. *)
Lemma eff_bind_run {W A B} (m : eff W A) (f : A → eff W B) w w1 a :
  m w = (w1, Ok a) → (m ≫= f) w = f a w1.
Proof. unfold mbind, eff_bind. by intros ->. Qed.

Lemma lift_bind {W A B} (a : A) (f : A → eff W B) w : (lift (Ok a) ≫= f) w = f a w.
Proof. done. Qed.

Lemma map_err_run {W A} f (m : eff W A) w w1 a : m w = (w1, Ok a) → map_err f m w = (w1, Ok a).
Proof. unfold map_err. by intros ->. Qed.

Lemma try_eff_inv {W A} (m : eff W A) w w' r :
  try_eff m w = (w', r) → ∃ x, r = Ok x ∧ m w = (w', x).
Proof. unfold try_eff. destruct (m w). intros [= -> <-]. eauto. Qed.

Lemma map_err_inv {W A} f (m : eff W A) w w' r :
  map_err f m w = (w', r) → ∃ x, m w = (w', x) ∧ r = match x with Ok a => Ok a | Err e => Err (f e) end.
Proof. unfold map_err. destruct (m w). intros [= -> <-]. eauto. Qed.

Lemma map_err_Ok {W A} f (m : eff W A) w w' a : map_err f m w = (w', Ok a) ↔ m w = (w', Ok a).
Proof. unfold map_err. destruct (m w) as [w1 [b|e]]; split; congruence. Qed.

Lemma zoom_inv {W V A} get put (m : eff V A) (w w' : W) r :
  zoom get put m w = (w', r) → ∃ v, m (get w) = (v, r) ∧ w' = put v w.
Proof. unfold zoom. destruct (m (get w)). intros [= <- ->]. eauto. Qed.

(** [for _, x := range l { if err := f(x); err != nil { return err } }] *)
Fixpoint for_each {W A} (f : A → eff W unit) (l : list A) : eff W unit :=
  match l with [] => mret () | x :: l => f x;; for_each f l end.

(** [guard_err b e]: the early return [if b { return e }]. *)
Definition guard_err (b : bool) (e : error) : result unit :=
  if b then Err e else Ok ().

Lemma guard_err_Ok b e u : guard_err b e = Ok u ↔ b = false.
Proof. destruct b, u; simpl; naive_solver. Qed.

(** * Machine integers: two's-complement wrap-around at width 32 and 64 *)
Definition wrap (w : Z) (x : Z) : Z :=
  let m := (2 ^ w)%Z in
  let r := (x mod m)%Z in
  if (r <? 2 ^ (w - 1))%Z then r else (r - m)%Z.
Definition int32 := wrap 32.
Definition int64 := wrap 64.

Lemma wrap_id w x : (0 < w)%Z → (- 2 ^ (w - 1) ≤ x < 2 ^ (w - 1))%Z → wrap w x = x.
Proof.
  intros Hw Hx. unfold wrap.
  assert (2 ^ w = 2 * 2 ^ (w - 1))%Z as Hp.
  { replace w with (Z.succ (w - 1))%Z at 1 by lia. rewrite Z.pow_succ_r; lia. }
  destruct (decide (0 ≤ x)%Z).
  - rewrite Z.mod_small by lia.
    destruct (Z.ltb_spec x (2 ^ (w - 1))); lia.
  - replace (x mod 2 ^ w)%Z with (x + 2 ^ w)%Z.
    2: { apply (Z.mod_unique x (2 ^ w) (-1)); lia. }
    destruct (Z.ltb_spec (x + 2 ^ w) (2 ^ (w - 1))); lia.
Qed.

(** [time.Time] is the instant in nanoseconds since the Unix epoch (so
    [UTC()] is the identity), [time.Duration] a 64-bit count of them. *)
Abbreviation Time := Z.
Definition zeroTime : Time := (-62135596800000000000)%Z.
Definition Second : Z := 1000000000%Z.
(** [time.Duration(n) * time.Second], with Go's wrap-around. *)
Definition seconds (n : Z) : Z := int64 (n * Second)%Z.

Definition Minute : Z := (60 * Second)%Z.

(** [if x <= 0 { x = d }], the servers' way of filling in defaults. *)
Definition positive_or (x d : Z) : Z := if (x <=? 0)%Z then d else x.

(** * Automation *)
(** [pinguin] holds what the components promise about each step of theirs (a
    connection that is read shrinks, ...); [gostr] normalises byte strings. *)
Create HintDb pinguin.
Create Rewrite HintDb gostr.

(** Case analysis on the scrutinee of the goal's or a hypothesis' match. *)
Ltac split_match :=
  match goal with
  | |- context [match ?x with _ => _ end] => destruct x eqn:?
  | H : context [match ?x with _ => _ end] |- _ => destruct x eqn:?
  end.

(** Boolean hypotheses to propositions. *)
Ltac to_prop :=
  repeat match goal with
  | H : andb _ _ = true |- _ => apply andb_true_iff in H as [? ?]
  | H : orb _ _ = false |- _ => apply orb_false_iff in H as [? ?]
  | H : negb _ = true |- _ => apply negb_true_iff in H
  | H : negb _ = false |- _ => apply negb_false_iff in H
  | H : bool_decide _ = true |- _ => apply bool_decide_eq_true in H
  | H : bool_decide _ = false |- _ => apply bool_decide_eq_false in H
  | H : (_ =? _)%Z = true |- _ => apply Z.eqb_eq in H
  | H : (_ =? _)%Z = false |- _ => apply Z.eqb_neq in H
  | H : (_ <? _)%Z = true |- _ => apply Z.ltb_lt in H
  | H : (_ <? _)%Z = false |- _ => apply Z.ltb_ge in H
  | H : (_ <=? _)%Z = true |- _ => apply Z.leb_le in H
  | H : (_ <=? _)%Z = false |- _ => apply Z.leb_gt in H
  end.

(** * Boolean filters *)
Lemma filter_all {A} (f : A → bool) l : Forall (λ x, f x = true) l → List.filter f l = l.
Proof. induction 1 as [|x l Hx _ IH]; [done|]. simpl. by rewrite Hx, IH. Qed.

Lemma filter_none {A} (f : A → bool) l : Forall (λ x, f x = false) l → List.filter f l = [].
Proof. induction 1 as [|x l Hx _ IH]; [done|]. simpl. by rewrite Hx. Qed.
