(* ===== verification/GoStrings.v ===== *)
(** The part of Go's [strings], [bytes], [unicode/utf8] and [sort] packages the
    program uses.  A Go string is a sequence of bytes, here a [string] of
    8-bit characters; [explode]/[implode] give the byte list behind it.

    White space is Unicode's: the six ASCII characters and the UTF-8 encodings
    of U+0085, U+00A0, U+1680, U+2000-U+200A, U+2028, U+2029, U+202F, U+205F
    and U+3000.  Case mapping of a string of ASCII bytes is defined here; for a
    string with other bytes it is given by Go's Unicode tables, which are the
    parameter [Unicode]. *)
From S2P Require Import Prelude.

Abbreviation explode := String.list_ascii_of_string.
Abbreviation implode := String.string_of_list_ascii.

Lemma implode_explode s : implode (explode s) = s.
Proof. apply String.string_of_list_ascii_of_string. Qed.
Lemma explode_implode l : explode (implode l) = l.
Proof. apply String.list_ascii_of_string_of_list_ascii. Qed.
#[export] Hint Rewrite implode_explode explode_implode : gostr.

#[export] Instance explode_inj : Inj (=) (=) explode.
Proof. intros s t E. by rewrite <- (implode_explode s), E, implode_explode. Qed.
#[export] Instance implode_inj : Inj (=) (=) implode.
Proof. intros s t E. by rewrite <- (explode_implode s), E, explode_implode. Qed.

Lemma explode_app s t : explode (s ++ t) = explode s ++ explode t.
Proof. induction s; simpl; by f_equal. Qed.
Lemma implode_app l k : implode (l ++ k) = (implode l ++ implode k)%string.
Proof. apply (inj explode). by rewrite explode_app, !explode_implode. Qed.
Lemma explode_nil s : explode s = [] ↔ s = ""%string.
Proof. destruct s; simpl; naive_solver. Qed.
#[export] Hint Rewrite explode_app implode_app : gostr.

Definition code (c : ascii) : Z := Z.of_N (N_of_ascii c).

(** * White space and [strings.TrimSpace] *)
Definition ws1 (c : ascii) : bool :=
  let x := code c in ((9 <=? x) && (x <=? 13) || (x =? 32))%Z.
Definition ws2 (c d : ascii) : bool :=
  ((code c =? 194) && ((code d =? 133) || (code d =? 160)))%Z.
Definition ws3 (c d e : ascii) : bool :=
  let x := code c in let y := code d in let z := code e in
  ((x =? 225) && (y =? 154) && (z =? 128)
   || (x =? 226) && (y =? 128)
      && ((128 <=? z) && (z <=? 138) || (z =? 168) || (z =? 169) || (z =? 175))
   || (x =? 226) && (y =? 129) && (z =? 159)
   || (x =? 227) && (y =? 128) && (z =? 128))%Z.

(** Strip, from the front, every token the three predicates recognise. *)
Fixpoint strip (w1 : ascii → bool) (w2 : ascii → ascii → bool)
    (w3 : ascii → ascii → ascii → bool) (l : list ascii) : list ascii :=
  match l with
  | [] => []
  | c :: l1 =>
      if w1 c then strip w1 w2 w3 l1 else
      match l1 with
      | [] => l
      | d :: l2 =>
          if w2 c d then strip w1 w2 w3 l2 else
          match l2 with
          | [] => l
          | e :: l3 => if w3 c d e then strip w1 w2 w3 l3 else l
          end
      end
  end.

Definition trim_left_b : list ascii → list ascii := strip ws1 ws2 ws3.
Definition trim_right_b (l : list ascii) : list ascii :=
  reverse (strip ws1 (λ c d, ws2 d c) (λ c d e, ws3 e d c) (reverse l)).
Definition TrimSpace_b (l : list ascii) : list ascii := trim_right_b (trim_left_b l).
Definition TrimSpace (s : string) : string := implode (TrimSpace_b (explode s)).

(** A list no token is at the front of. *)
Definition stripped w1 w2 w3 (l : list ascii) : Prop := strip w1 w2 w3 l = l.

Section strip_lemmas.
Context (w1 : ascii → bool) (w2 : ascii → ascii → bool).
Context (w3 : ascii → ascii → ascii → bool).

Lemma strip_ind_b (P : list ascii → Prop) :
  (∀ l, (∀ k, length k < length l → P k) → P l) → ∀ l, P l.
Proof.
  intros H l. remember (length l) as n eqn:E. revert l E.
  induction n as [n IH] using lt_wf_ind. intros l ->. apply H. eauto.
Qed.

Lemma strip_suffix l : strip w1 w2 w3 l `suffix_of` l.
Proof.
  induction l as [l IH] using strip_ind_b.
  destruct l as [|c l]; [done|]. simpl.
  destruct (w1 c). { apply suffix_cons_r, IH. simpl; lia. }
  destruct l as [|d l]; [done|]. destruct (w2 c d).
  { do 2 apply suffix_cons_r. apply IH. simpl; lia. }
  destruct l as [|e l]; [done|]. destruct (w3 c d e); [|done].
  do 3 apply suffix_cons_r. apply IH. simpl; lia.
Qed.

Lemma strip_stripped l : stripped w1 w2 w3 (strip w1 w2 w3 l).
Proof.
  unfold stripped. induction l as [l IH] using strip_ind_b.
  destruct l as [|c l]; [done|]. simpl.
  destruct (w1 c) eqn:E1. { apply IH; simpl; lia. }
  destruct l as [|d l]. { simpl. by rewrite E1. }
  destruct (w2 c d) eqn:E2. { apply IH; simpl; lia. }
  destruct l as [|e l]. { simpl. by rewrite E1, E2. }
  destruct (w3 c d e) eqn:E3. { apply IH; simpl; lia. }
  simpl. by rewrite E1, E2, E3.
Qed.

(** Being stripped is inherited by prefixes: a token at the front of a prefix
    is a token at the front of the whole. *)
Lemma stripped_prefix l k : k `prefix_of` l → stripped w1 w2 w3 l → stripped w1 w2 w3 k.
Proof.
  unfold stripped. intros [r ->] H.
  assert (∀ (x y : list ascii), strip w1 w2 w3 x = y → length y ≤ length x) as Hlen.
  { intros x y <-. destruct (strip_suffix x) as [p Hp].
    apply (f_equal length) in Hp. rewrite length_app in Hp. lia. }
  destruct k as [|c k]; [done|]. simpl in *.
  destruct (w1 c) eqn:E1. { apply Hlen in H. simpl in H. lia. }
  destruct k as [|d k]; [done|]. simpl in *.
  destruct (w2 c d) eqn:E2. { apply Hlen in H. simpl in H. lia. }
  destruct k as [|e k]; [done|]. simpl in *.
  destruct (w3 c d e) eqn:E3; [|done]. apply Hlen in H. simpl in H. lia.
Qed.
End strip_lemmas.

Lemma trim_right_prefix l : trim_right_b l `prefix_of` l.
Proof.
  unfold trim_right_b.
  destruct (strip_suffix ws1 (λ c d, ws2 d c) (λ c d e, ws3 e d c) (reverse l)) as [p Hp].
  exists (reverse p). rewrite <- reverse_app, <- Hp. by rewrite reverse_involutive.
Qed.

Lemma trim_right_idem l : trim_right_b (trim_right_b l) = trim_right_b l.
Proof. unfold trim_right_b. rewrite reverse_involutive. f_equal. apply strip_stripped. Qed.

(** [TrimSpace] is a projection: it removes all the space it removes at once. *)
Lemma TrimSpace_b_idem l : TrimSpace_b (TrimSpace_b l) = TrimSpace_b l.
Proof.
  unfold TrimSpace_b. transitivity (trim_right_b (trim_right_b (trim_left_b l))).
  2: apply trim_right_idem. f_equal.
  apply (stripped_prefix _ _ _ _ _ (trim_right_prefix _)), strip_stripped.
Qed.

Lemma TrimSpace_idem s : TrimSpace (TrimSpace s) = TrimSpace s.
Proof. unfold TrimSpace. by rewrite explode_implode, TrimSpace_b_idem. Qed.
#[export] Hint Rewrite TrimSpace_idem : gostr.

(** Every character of a trimmed string is a character of the original. *)
Lemma TrimSpace_b_elem c l : c ∈ TrimSpace_b l → c ∈ l.
Proof.
  unfold TrimSpace_b. intros H.
  destruct (trim_right_prefix (trim_left_b l)) as [r Hr].
  destruct (strip_suffix ws1 ws2 ws3 l) as [p Hp].
  rewrite Hp. change (strip ws1 ws2 ws3 l) with (trim_left_b l). rewrite Hr. set_solver.
Qed.

Lemma TrimSpace_b_length l : length (TrimSpace_b l) ≤ length l.
Proof.
  unfold TrimSpace_b.
  pose proof (prefix_length _ _ (trim_right_prefix (trim_left_b l))).
  pose proof (suffix_length _ _ (strip_suffix ws1 ws2 ws3 l)).
  unfold trim_left_b in *. lia.
Qed.

(** * Case mapping *)
Definition ascii_only_b (l : list ascii) : bool := forallb (λ c, code c <? 128)%Z l.
Definition lower_ascii (c : ascii) : ascii :=
  if ((65 <=? code c) && (code c <=? 90))%Z then ascii_of_N (N_of_ascii c + 32) else c.
Definition upper_ascii (c : ascii) : ascii :=
  if ((97 <=? code c) && (code c <=? 122))%Z then ascii_of_N (N_of_ascii c - 32) else c.

(** Go's Unicode case tables, used for strings that are not all ASCII. *)
Class Unicode := {
  unicode_ToLower : string → string;
  unicode_ToUpper : string → string;
}.

(** The instance that knows no non-ASCII letter. *)
Definition ascii_unicode : Unicode :=
  {| unicode_ToLower s := implode (lower_ascii <$> explode s);
     unicode_ToUpper s := implode (upper_ascii <$> explode s) |}.

Section case_mapping.
Context `{U : Unicode}.

Definition ToLower (s : string) : string :=
  if ascii_only_b (explode s) then implode (lower_ascii <$> explode s) else unicode_ToLower s.
Definition ToUpper (s : string) : string :=
  if ascii_only_b (explode s) then implode (upper_ascii <$> explode s) else unicode_ToUpper s.
End case_mapping.

(** [strings.EqualFold(s, t)] for a [t] of ASCII letters that no non-ASCII
    character folds to (so neither k nor s occurs in it). *)
Definition EqualFold_ascii (s t : string) : bool :=
  bool_decide ((lower_ascii <$> explode s) = (lower_ascii <$> explode t)).

(** * Searching, cutting, splitting *)
Fixpoint prefix_b (p l : list ascii) : option (list ascii) :=
  match p, l with
  | [], _ => Some l
  | c :: p, d :: l => if decide (c = d) then prefix_b p l else None
  | _ :: _, [] => None
  end.
Definition HasPrefix (s p : string) : bool :=
  match prefix_b (explode p) (explode s) with Some _ => true | None => false end.
Definition TrimPrefix (s p : string) : string :=
  match prefix_b (explode p) (explode s) with Some r => implode r | None => s end.
Definition TrimSuffix (s p : string) : string :=
  match prefix_b (reverse (explode p)) (reverse (explode s)) with
  | Some r => implode (reverse r) | None => s
  end.

(** The first place [sub] occurs in [l]: what is before it and what is after. *)
Fixpoint find_b (sub l : list ascii) : option (list ascii * list ascii) :=
  match prefix_b sub l with
  | Some after => Some ([], after)
  | None =>
      match l with
      | [] => None
      | c :: l => '(before, after) ← find_b sub l; Some (c :: before, after)
      end
  end.
Definition Contains (s sub : string) : bool :=
  match find_b (explode sub) (explode s) with Some _ => true | None => false end.
Definition ContainsAny (s chars : string) : bool :=
  existsb (λ c, bool_decide (c ∈ explode chars)) (explode s).
(** [strings.Cut(s, sep)]. *)
Definition Cut (s sep : string) : string * string * bool :=
  match find_b (explode sep) (explode s) with
  | Some (before, after) => (implode before, implode after, true)
  | None => (s, ""%string, false)
  end.

(** [strings.Split(s, sep)] / [bytes.Split] for a one-byte separator. *)
Fixpoint split_b (sep : ascii) (l : list ascii) : list (list ascii) :=
  match l with
  | [] => [[]]
  | c :: l =>
      if decide (c = sep) then [] :: split_b sep l else
      match split_b sep l with
      | [] => [[c]]
      | w :: ws => (c :: w) :: ws
      end
  end.
Definition Split (s : string) (sep : ascii) : list string :=
  implode <$> split_b sep (explode s).

(** [strings.Fields]: the maximal runs without white space. *)
Definition flush (cur : list ascii) (ws : list (list ascii)) : list (list ascii) :=
  match cur with [] => ws | _ => reverse cur :: ws end.
Fixpoint fields_b (cur l : list ascii) : list (list ascii) :=
  match l with
  | [] => flush cur []
  | c :: l1 =>
      if ws1 c then flush cur (fields_b [] l1) else
      match l1 with
      | [] => flush (c :: cur) []
      | d :: l2 =>
          if ws2 c d then flush cur (fields_b [] l2) else
          match l2 with
          | e :: l3 => if ws3 c d e then flush cur (fields_b [] l3) else fields_b (c :: cur) l1
          | [] => fields_b (c :: cur) l1
          end
      end
  end.
Definition Fields (s : string) : list string := implode <$> fields_b [] (explode s).

(** [strings.TrimRight(s, cutset)] for a cutset of ASCII characters. *)
Fixpoint drop_while (p : ascii → bool) (l : list ascii) : list ascii :=
  match l with [] => [] | c :: k => if p c then drop_while p k else l end.
Definition TrimRight (s cutset : string) : string :=
  implode (reverse (drop_while (λ c, bool_decide (c ∈ explode cutset)) (reverse (explode s)))).

(** * Runes ([for _, r := range s]): a rune is its code point when it is ASCII
      and the bytes it is written with; an invalid byte is U+FFFD. *)
Record rune := Rune { rune_ascii : option Z; rune_bytes : list ascii }.
Definition cont (c : ascii) : bool := ((128 <=? code c) && (code c <=? 191))%Z.
Definition between (lo hi : Z) (c : ascii) : bool := ((lo <=? code c) && (code c <=? hi))%Z.
(** Second-byte ranges of three- and four-byte sequences. *)
Definition second3 (c d : ascii) : bool :=
  if (code c =? 224)%Z then between 160 191 d
  else if (code c =? 237)%Z then between 128 159 d else cont d.
Definition second4 (c d : ascii) : bool :=
  if (code c =? 240)%Z then between 144 191 d
  else if (code c =? 244)%Z then between 128 143 d else cont d.
Definition replacement : list ascii :=
  [ascii_of_N 239; ascii_of_N 191; ascii_of_N 189].
Fixpoint runes_b (l : list ascii) : list rune :=
  match l with
  | [] => []
  | c :: l1 =>
      if (code c <? 128)%Z then Rune (Some (code c)) [c] :: runes_b l1 else
      let bad := Rune None replacement :: runes_b l1 in
      match l1 with
      | [] => bad
      | d :: l2 =>
          if between 194 223 c then
            if cont d then Rune None [c; d] :: runes_b l2 else bad
          else
          match l2 with
          | [] => bad
          | e :: l3 =>
              if between 224 239 c then
                if second3 c d && cont e then Rune None [c; d; e] :: runes_b l3 else bad
              else
              match l3 with
              | [] => bad
              | f :: l4 =>
                  if between 240 244 c && second4 c d && cont e && cont f
                  then Rune None [c; d; e; f] :: runes_b l4 else bad
              end
          end
      end
  end.
Definition RuneCount (s : string) : nat := length (runes_b (explode s)).

(** * [sort.Strings] and Go's [<] on strings (bytewise lexicographic) *)
Definition sort_strings (l : list string) : list string := merge_sort String.le l.
Definition str_ltb (s t : string) : bool := String.ltb s t.

(** * Strings the normalisations leave alone *)

(** An ASCII byte that is not white space. *)
Definition plain_ascii (c : ascii) : bool := (code c <? 128)%Z && negb (ws1 c).

Lemma strip_plain w2 w3 l :
  (∀ c d, plain_ascii c = true → plain_ascii d = true → w2 c d = false) →
  (∀ c d e, plain_ascii c = true → plain_ascii d = true → plain_ascii e = true →
     w3 c d e = false) →
  Forall (λ c, plain_ascii c = true) l → strip ws1 w2 w3 l = l.
Proof.
  intros H2 H3 Hl. destruct Hl as [|c l Hc Hl]; [done|]. simpl.
  assert (ws1 c = false) as ->. { unfold plain_ascii in Hc. to_prop. done. }
  destruct Hl as [|d l Hd Hl]; [done|]. rewrite H2 by done.
  destruct Hl as [|e l He Hl]; [done|]. by rewrite H3.
Qed.

Lemma ws2_plain c d : plain_ascii c = true → ws2 c d = false.
Proof. unfold plain_ascii, ws2. intros. to_prop. lia. Qed.
Lemma ws3_plain c d e : plain_ascii c = true → ws3 c d e = false.
Proof. unfold plain_ascii, ws3. intros. to_prop. lia. Qed.

Lemma TrimSpace_b_plain l : Forall (λ c, plain_ascii c = true) l → TrimSpace_b l = l.
Proof.
  intros Hl. unfold TrimSpace_b, trim_left_b, trim_right_b.
  rewrite (strip_plain ws2 ws3 l); [|eauto using ws2_plain, ws3_plain..|done].
  rewrite strip_plain; [by rewrite reverse_involutive|eauto using ws2_plain, ws3_plain..|].
  by apply Forall_reverse.
Qed.

Lemma TrimSpace_plain s : Forall (λ c, plain_ascii c = true) (explode s) → TrimSpace s = s.
Proof. intros H. unfold TrimSpace. by rewrite TrimSpace_b_plain, implode_explode. Qed.

Lemma ToLower_plain `{U : Unicode} s :
  Forall (λ c, plain_ascii c = true) (explode s) → Forall (λ c, lower_ascii c = c) (explode s) →
  ToLower s = s.
Proof.
  intros Hp Hl. unfold ToLower.
  assert (ascii_only_b (explode s) = true) as ->.
  { unfold ascii_only_b. apply forallb_forall. rewrite List.Forall_forall in Hp. intros c Hc.
    specialize (Hp c Hc). unfold plain_ascii in Hp. to_prop. lia. }
  transitivity (implode (explode s)); [f_equal|apply implode_explode].
  clear Hp. induction Hl; simpl; by f_equal.
Qed.

Lemma prefix_b_Some p l r : prefix_b p l = Some r ↔ l = p ++ r.
Proof.
  revert l. induction p as [|c p IH]; intros l; simpl; [naive_solver|].
  destruct l as [|d l]; [done|]. case_decide as Hcd; [subst; rewrite IH; naive_solver|].
  split; [done|]. by intros [= ??].
Qed.

Lemma TrimSuffix_not s p : (∀ k, explode s = k ++ explode p → False) → TrimSuffix s p = s.
Proof.
  intros H. unfold TrimSuffix.
  destruct (prefix_b (reverse (explode p)) (reverse (explode s))) as [r|] eqn:E; [|done].
  exfalso. apply prefix_b_Some in E. apply (H (reverse r)).
  by rewrite <- (reverse_involutive (explode s)), E, reverse_app, reverse_involutive.
Qed.

Lemma find_b_char c l r : c ∉ l → find_b [c] (l ++ c :: r) = Some (l, r).
Proof.
  induction l as [|d l IH]; intros Hl; cbn [app find_b prefix_b].
  - by rewrite decide_True.
  - rewrite decide_False by set_solver. by rewrite IH by set_solver.
Qed.

(** ** Single characters *)
Lemma contains_char c s : Contains s (String c "") = true ↔ c ∈ explode s.
Proof.
  unfold Contains. simpl. generalize (explode s) as l. clear s. induction l as [|d l IH]; simpl.
  - split; [done|by intros ?%elem_of_nil].
  - case_decide as Hd; [subst; split; [by left|done]|]. rewrite elem_of_cons, <- IH.
    destruct (find_b [c] l) as [[]|]; simpl; naive_solver.
Qed.
Lemma split_b_head sep l : ∃ w ws, split_b sep l = w :: ws ∧ sep ∉ w.
Proof.
  induction l as [|c l (w & ws & Hs & Hw)]; simpl.
  - exists [], []. split; [done|apply not_elem_of_nil].
  - case_decide; [exists [], (split_b sep l); split; [done|apply not_elem_of_nil]|].
    rewrite Hs. exists (c :: w), ws. split; [done|]. apply not_elem_of_cons. auto.
Qed.

(** A prefix that is there and is cut off. *)
Lemma HasPrefix_cut s p t : HasPrefix s p = true ∧ TrimPrefix s p = t ↔ s = (p ++ t)%string.
Proof.
  unfold HasPrefix, TrimPrefix. destruct (prefix_b (explode p) (explode s)) as [r|] eqn:E.
  - apply prefix_b_Some in E. split.
    + intros [_ <-]. apply (f_equal implode) in E. by rewrite implode_explode, implode_app, implode_explode in E.
    + intros ->. split; [done|]. rewrite explode_app in E. apply (inj (app _)) in E. by rewrite <- E, implode_explode.
  - split; [by intros [? _]|]. intros ->. rewrite explode_app in E.
    by rewrite (proj2 (prefix_b_Some (explode p) _ (explode t)) eq_refl) in E.
Qed.

(** ** Lower case and white space *)

Lemma code_lower c : code (lower_ascii c) = if ((65 <=? code c) && (code c <=? 90))%Z then (code c + 32)%Z else code c.
Proof.
  unfold lower_ascii. case_match eqn:E; [|done]. to_prop. unfold code in *.
  rewrite N_ascii_embedding; lia.
Qed.
Lemma lower_lower c : lower_ascii (lower_ascii c) = lower_ascii c.
Proof.
  unfold lower_ascii at 1. rewrite code_lower. case_match eqn:E; [|done].
  unfold lower_ascii. case_match; to_prop; lia.
Qed.

Lemma strip_fmap f w1 w2 w3 l :
  (∀ c, w1 (f c) = w1 c) → (∀ c d, w2 (f c) (f d) = w2 c d) → (∀ c d e, w3 (f c) (f d) (f e) = w3 c d e) →
  strip w1 w2 w3 (f <$> l) = f <$> strip w1 w2 w3 l.
Proof.
  intros H1 H2 H3. induction l as [l IH] using strip_ind_b.
  destruct l as [|c l]; [done|]. simpl. rewrite H1. destruct (w1 c). { apply IH. simpl. lia. }
  destruct l as [|d l]; [done|]. simpl. rewrite H2. destruct (w2 c d). { apply IH. simpl. lia. }
  destruct l as [|e l]; [done|]. simpl. rewrite H3. destruct (w3 c d e); [|done]. apply IH. simpl. lia.
Qed.

Lemma TrimSpace_lower l : TrimSpace_b (lower_ascii <$> l) = lower_ascii <$> TrimSpace_b l.
Proof.
  assert (∀ c, ws1 (lower_ascii c) = ws1 c) as H1.
  { intros c. unfold ws1. rewrite code_lower. case_match; to_prop; lia. }
  assert (∀ c d, ws2 (lower_ascii c) (lower_ascii d) = ws2 c d) as H2.
  { intros c d. unfold ws2. rewrite !code_lower. repeat case_match; to_prop; lia. }
  assert (∀ c d e, ws3 (lower_ascii c) (lower_ascii d) (lower_ascii e) = ws3 c d e) as H3.
  { intros c d e. unfold ws3. rewrite !code_lower. repeat case_match; to_prop; lia. }
  unfold TrimSpace_b, trim_right_b, trim_left_b.
  rewrite strip_fmap, <- fmap_reverse, strip_fmap, fmap_reverse by auto. done.
Qed.

(** What the case tables promise of a trimmed text: its lower case is trimmed, in lower
    case, and not empty. *)
Class LowerLaws `{U : Unicode} : Prop :=
  lower_settled s : TrimSpace s = s → ascii_only_b (explode s) = false →
    ToLower (TrimSpace (unicode_ToLower s)) = unicode_ToLower s ∧ unicode_ToLower s ≠ ""%string.
#[global] Hint Mode LowerLaws ! : typeclass_instances.

Lemma ascii_only_lower l : ascii_only_b (lower_ascii <$> l) = ascii_only_b l.
Proof.
  unfold ascii_only_b. induction l as [|c l IH]; [done|]. rewrite fmap_cons. cbn [forallb]. rewrite IH. f_equal.
  rewrite code_lower. case_match; to_prop; lia.
Qed.
Lemma lower_trimmed s :
  TrimSpace s = s → TrimSpace (implode (lower_ascii <$> explode s)) = implode (lower_ascii <$> explode s).
Proof.
  intros Hs. unfold TrimSpace. rewrite explode_implode, TrimSpace_lower.
  f_equal. f_equal. rewrite <- Hs at 2. unfold TrimSpace. by rewrite explode_implode.
Qed.
Lemma lower_lower_all (l : list ascii) : lower_ascii <$> (lower_ascii <$> l) = lower_ascii <$> l.
Proof. rewrite <- list_fmap_compose. apply list_fmap_ext. intros _ c _. apply lower_lower. Qed.

Lemma ToLower_settled `{LL : LowerLaws} s :
  TrimSpace s = s → ToLower (TrimSpace (ToLower s)) = ToLower s ∧ (ToLower s = ""%string ↔ s = ""%string).
Proof.
  intros Hs. unfold ToLower at 2 3 4. destruct (ascii_only_b (explode s)) eqn:Ea.
  - rewrite lower_trimmed by done. unfold ToLower. rewrite explode_implode, ascii_only_lower, Ea, lower_lower_all.
    split; [done|]. rewrite <- !explode_nil, explode_implode. split; [apply fmap_nil_inv|by intros ->].
  - destruct (lower_settled s Hs Ea) as [H1 H2]. split; [done|]. split; [done|]. intros ->. done.
Qed.

#[export] Instance ascii_lower_laws : LowerLaws (U := ascii_unicode).
Proof.
  intros s Hs Ea. simpl. rewrite lower_trimmed by done. unfold ToLower.
  rewrite explode_implode, ascii_only_lower, Ea. simpl. rewrite explode_implode, lower_lower_all. split; [done|].
  rewrite <- explode_nil, explode_implode. intros ?%fmap_nil_inv. by rewrite H in Ea.
Qed.
