(* ===== verification/Strconv.v ===== *)
(** What the code uses of strconv and fmt: decimal numbers at their machine width, and
    the text of an error value. *)
From S2P Require Import Prelude GoStrings.
Open Scope Z_scope.

(** * Decimal numbers *)
Definition digit_value (c : ascii) : option Z :=
  if (48 <=? code c) && (code c <=? 57) then Some (code c - 48) else None.
Fixpoint parse_digits (acc : Z) (l : list ascii) : option Z :=
  match l with
  | [] => Some acc
  | c :: l => d ← digit_value c; parse_digits (10 * acc + d) l
  end.
Definition ErrSyntax : error := New "invalid syntax".
Definition ErrRange : error := New "value out of range".

(** [strconv.ParseUint(s, 10, 64)]. *)
Definition ParseUint64 (s : string) : result Z :=
  match explode s with
  | [] => Err ErrSyntax
  | l => match parse_digits 0 l with
         | None => Err ErrSyntax
         | Some n => if n <? 2 ^ 64 then Ok n else Err ErrRange
         end
  end.

(** [strconv.Atoi], for a 64-bit [int]: a sign is allowed. *)
Definition split_sign (l : list ascii) : bool * list ascii :=
  match l with
  | "-"%char :: l => (true, l)
  | "+"%char :: l => (false, l)
  | l => (false, l)
  end.
Definition Atoi (s : string) : result Z :=
  let '(negative, l) := split_sign (explode s) in
  match l with
  | [] => Err ErrSyntax
  | _ => match parse_digits 0 l with
         | None => Err ErrSyntax
         | Some n =>
             let n := if negative then - n else n in
             if (- 2 ^ 63 <=? n) && (n <? 2 ^ 63) then Ok n else Err ErrRange
         end
  end.

Lemma digit_value_bound c d : digit_value c = Some d → 0 ≤ d ≤ 9.
Proof. unfold digit_value. case_match; [|done]. intros [= <-]. to_prop. lia. Qed.
Lemma parse_digits_nonneg acc l n : 0 ≤ acc → parse_digits acc l = Some n → 0 ≤ n.
Proof.
  revert acc. induction l as [|c l IH]; intros acc Ha; cbn [parse_digits]; [by intros [= <-]|].
  intros (d & Hd%digit_value_bound & H)%bind_Some. apply IH in H; lia.
Qed.
Lemma ParseUint64_bounds s n : ParseUint64 s = Ok n → 0 ≤ n < 2 ^ 64.
Proof.
  unfold ParseUint64. destruct (explode s) as [|c l]; [done|]. destruct (parse_digits 0 (c :: l)) as [m|] eqn:E; [|done].
  apply parse_digits_nonneg in E; [|lia]. case_match; [|done]. intros [= <-]. to_prop. lia.
Qed.
Lemma Atoi_bounds s n : Atoi s = Ok n → - 2 ^ 63 ≤ n < 2 ^ 63.
Proof.
  unfold Atoi. destruct (split_sign (explode s)) as [neg [|c l]]; [done|]. destruct (parse_digits 0 _); [|done].
  case_match eqn:E; [|done]. intros [= <-]. to_prop. lia.
Qed.

(** Numbers are read as they are written. *)
Lemma digit_value_char (d : N) : (d < 10)%N → digit_value (pretty_N_char d) = Some (Z.of_N d).
Proof.
  intros Hd.
  assert (d = 0 ∨ d = 1 ∨ d = 2 ∨ d = 3 ∨ d = 4 ∨ d = 5 ∨ d = 6 ∨ d = 7 ∨ d = 8 ∨ d = 9)%N as H by lia.
  destruct_or! H; by subst.
Qed.
Lemma parse_digits_pretty_go (x : N) s acc :
  0 ≤ acc → ∃ k, 0 < 10 ^ k ∧
    parse_digits acc (explode (pretty_N_go x s)) = parse_digits (acc * 10 ^ k + Z.of_N x) (explode s).
Proof.
  revert s. induction (N.lt_wf_0 x) as [x _ IH]. intros s Ha.
  destruct (decide (x = 0%N)) as [->|Hx].
  - exists 0. split; [lia|]. rewrite pretty_N_go_0. f_equal. lia.
  - rewrite pretty_N_go_step by lia.
    destruct (IH (x `div` 10)%N ltac:(apply N.div_lt; lia) (String (pretty_N_char (x `mod` 10)) s) Ha) as (k & Hk & ->).
    exists (k + 1). assert (0 ≤ k) by (destruct (Z.le_gt_cases 0 k); [done|rewrite Z.pow_neg_r in Hk; lia]).
    rewrite Z.pow_add_r by lia. split; [lia|]. cbn [explode parse_digits].
    rewrite digit_value_char by (apply N.mod_lt; lia). cbn. f_equal.
    pose proof (N.div_mod x 10 ltac:(lia)). lia.
Qed.
Lemma parse_digits_pretty (x : N) : parse_digits 0 (explode (pretty x)) = Some (Z.of_N x).
Proof.
  unfold pretty, pretty_N. case_decide as Hx; [by subst|].
  destruct (parse_digits_pretty_go x "" 0 ltac:(lia)) as (k & _ & ->). simpl. by rewrite Z.mul_0_l.
Qed.

Lemma parse_digits_digits acc l n : parse_digits acc l = Some n → Forall (λ c, is_Some (digit_value c)) l.
Proof.
  revert acc. induction l as [|c l IH]; intros acc; cbn [parse_digits]; [constructor|].
  intros (d & Hd & H)%bind_Some. constructor; eauto.
Qed.
Lemma pretty_digits (p : positive) : Forall (λ c, is_Some (digit_value c)) (explode (pretty (Zpos p))).
Proof. apply (parse_digits_digits 0 _ (Z.of_N (Npos p))), parse_digits_pretty. Qed.
Lemma Atoi_pretty n : 0 < n < 2 ^ 63 → Atoi (pretty n) = Ok n.
Proof.
  intros Hn. destruct n as [|p|p]; [lia| |lia].
  pose proof (parse_digits_pretty (Npos p)) as Hp. pose proof (pretty_digits p) as Hd.
  change (pretty (Npos p)) with (pretty (Zpos p)) in Hp. unfold Atoi.
  destruct (explode (pretty (Zpos p))) as [|c l] eqn:E; [simpl in Hp; injection Hp; lia|].
  assert (split_sign (c :: l) = (false, c :: l)) as ->.
  { apply Forall_cons in Hd as [[d Hd] _].
    destruct (decide (c = "-"%char)) as [->|]; [discriminate Hd|].
    destruct (decide (c = "+"%char)) as [->|]; [discriminate Hd|].
    unfold split_sign. destruct c as [[] [] [] [] [] [] [] []]; done. }
  rewrite Hp. cbn [Z.of_N]. destruct (_ && _) eqn:Eb; [done|]. apply andb_false_iff in Eb as [Eb|Eb]; to_prop; lia.
Qed.

(** * The text of an error *)

(** Quoting ([%q]), and the texts of errors that are not the program's own. *)
Class ErrorTexts := { Quote : string → string; foreign_text : error → string }.

Section text.
Context `{X : ErrorTexts}.
Definition farg_text (quoted : bool) (a : farg) : string :=
  match a with FStr s => if quoted then Quote s else s | FInt z => pretty z end.
(** Format verbs: [%w] and [%v] show an error where there is one, the others take the
    next operand. *)
Fixpoint render (wrapped shown : option string) (args : list farg) (l : list ascii) : list ascii :=
  match l with
  | "%"%char :: verb :: l =>
      let operand quoted := match args with a :: _ => explode (farg_text quoted a) | [] => [] end in
      if decide (verb = "w"%char) then explode (default ""%string wrapped) ++ render wrapped shown args l
      else match (if decide (verb = "v"%char) then shown else None) with
           | Some text => explode text ++ render wrapped shown args l
           | None => operand (bool_decide (verb = "q"%char)) ++ render wrapped shown (tail args) l
           end
  | c :: l => c :: render wrapped shown args l
  | [] => []
  end.
(** [err.Error()] *)
Fixpoint Error (err : error) : string :=
  match err with
  | New text => text
  | Text template args => implode (render None None args (explode template))
  | Wrapf template args inner =>
      let text := Error inner in implode (render (Some text) (Some text) args (explode template))
  | WrapfV template args inner shown =>
      implode (render (Some (Error inner)) (Some (Error shown)) args (explode template))
  | SMTPReply _ _ | DNSFailure _ _ | StatusError _ _ => foreign_text err
  end.
End text.

Example error_text `{X : ErrorTexts} :
  Error (Wrapf "%w: %s" [FStr "n7"] (New "notification not found")) = "notification not found: n7"%string.
Proof. reflexivity. Qed.
