(* ===== verification/Throttle.v ===== *)
(** SMTP submission throttle (src/internal/smtpsubmission/throttle.go): session
    counters, the sliding window of failed SMTP AUTH attempts per credential
    and the sliding window of accepted messages per identity.

    Every operation of the code takes the mutex for its whole body, so each is
    one atomic step on the record [smtpThrottle]; [clockFunc()] is the argument
    [now], and readings never go back ([time.Now] carries the monotonic clock).

    [world] adds to the throttle the history of what was done to it; the
    theorems at the end say that the code, which forgets old events, decides as
    a limiter that keeps the whole history would. *)
From S2P Require Import Prelude GoStrings.
Open Scope Z_scope.

(** * State *)
Record smtpThrottle := SmtpThrottle {
  activeSessions : Z;
  activeSessionsByHost : gmap string Z;
  authFailuresByKey : gmap string (list Time);
  acceptedMessagesByKey : gmap string (list Time);
  maxConcurrentSessions : Z;
  maxSessionsPerRemoteHost : Z;
  authFailureLimit : Z;
  authFailureWindow : Z;
  messageLimit : Z;
  messageWindow : Z;
}.

(** The limits of the server's [Config] that the throttle copies. *)
Record throttleLimits := ThrottleLimits {
  lim_MaxConcurrentSessions : Z;
  lim_MaxSessionsPerRemoteHost : Z;
  lim_AuthFailureLimit : Z;
  lim_AuthFailureWindow : Z;
  lim_MessageLimit : Z;
  lim_MessageWindow : Z;
}.

Record smtpMessageReservation := MessageReservation {
  res_key : string;
  res_reservedAt : Time;
}.

Definition newSMTPThrottle (c : throttleLimits) : smtpThrottle :=
  SmtpThrottle 0 ∅ ∅ ∅
    (lim_MaxConcurrentSessions c) (lim_MaxSessionsPerRemoteHost c)
    (lim_AuthFailureLimit c) (lim_AuthFailureWindow c)
    (lim_MessageLimit c) (lim_MessageWindow c).

(** Field updates. *)
Definition with_sessions (t : smtpThrottle) (n : Z) (m : gmap string Z) : smtpThrottle :=
  SmtpThrottle n m (authFailuresByKey t) (acceptedMessagesByKey t)
    (maxConcurrentSessions t) (maxSessionsPerRemoteHost t) (authFailureLimit t)
    (authFailureWindow t) (messageLimit t) (messageWindow t).
Definition with_auth (t : smtpThrottle) (m : gmap string (list Time)) : smtpThrottle :=
  SmtpThrottle (activeSessions t) (activeSessionsByHost t) m (acceptedMessagesByKey t)
    (maxConcurrentSessions t) (maxSessionsPerRemoteHost t) (authFailureLimit t)
    (authFailureWindow t) (messageLimit t) (messageWindow t).
Definition with_messages (t : smtpThrottle) (m : gmap string (list Time)) : smtpThrottle :=
  SmtpThrottle (activeSessions t) (activeSessionsByHost t) (authFailuresByKey t) m
    (maxConcurrentSessions t) (maxSessionsPerRemoteHost t) (authFailureLimit t)
    (authFailureWindow t) (messageLimit t) (messageWindow t).

(** Reading a Go map: the zero value where the key is absent. *)
Definition count_at (m : gmap string Z) (k : string) : Z := default 0 (m !! k).
Definition events_at (m : gmap string (list Time)) (k : string) : list Time := default [] (m !! k).

(** * Keys *)
Definition normalizeThrottleKeyPart (value fallback : string) : string :=
  let normalizedValue := TrimSpace value in
  if decide (normalizedValue = ""%string) then fallback else normalizedValue.

Definition authThrottleKey `{U : Unicode} (remoteHost username : string) : string :=
  let normalizedUsername := ToLower (TrimSpace username) in
  if decide (normalizedUsername ≠ ""%string) then ("username:" ++ normalizedUsername)%string
  else ("remote:" ++ normalizeThrottleKeyPart remoteHost "unknown")%string.

Definition messageThrottleKey (identityID : string) : string :=
  normalizeThrottleKeyPart identityID "unknown".

(** * Sliding windows *)

(** [pruneWindow]: drop the leading events that are not after the cutoff. *)
Fixpoint pruneWindow (events : list Time) (cutoff : Time) : list Time :=
  match events with
  | [] => []
  | e :: rest => if e <=? cutoff then pruneWindow rest cutoff else events
  end.

(** * Sessions.  [acquireSession] returns the host its release closure keeps. *)
Definition acquireSession (t : smtpThrottle) (remoteHost : string)
    : result (string * smtpThrottle) :=
  let normalizedRemoteHost := normalizeThrottleKeyPart remoteHost "unknown" in
  if maxConcurrentSessions t <=? activeSessions t then
    Err (New "smtp_submission.concurrent_sessions_exceeded")
  else if maxSessionsPerRemoteHost t <=? count_at (activeSessionsByHost t) normalizedRemoteHost then
    Err (New "smtp_submission.remote_sessions_exceeded")
  else
    Ok (normalizedRemoteHost,
        with_sessions t (activeSessions t + 1)
          (<[normalizedRemoteHost := count_at (activeSessionsByHost t) normalizedRemoteHost + 1]>
             (activeSessionsByHost t))).

Definition releaseSession (t : smtpThrottle) (remoteHost : string) : smtpThrottle :=
  let active := if 0 <? activeSessions t then activeSessions t - 1 else activeSessions t in
  let n := count_at (activeSessionsByHost t) remoteHost in
  if n <=? 1 then with_sessions t active (delete remoteHost (activeSessionsByHost t))
  else with_sessions t active (<[remoteHost := n - 1]> (activeSessionsByHost t)).

Definition activeSessionCount (t : smtpThrottle) : Z := activeSessions t.

(** * SMTP AUTH attempts: the reservation is the key, [None] is a refusal *)
Definition reserveAuthAttempt `{U : Unicode} (t : smtpThrottle) (remoteHost username : string)
    (now : Time) : smtpThrottle * option string :=
  let key := authThrottleKey remoteHost username in
  let failures := pruneWindow (events_at (authFailuresByKey t) key) (now - authFailureWindow t) in
  if authFailureLimit t <=? Z.of_nat (length failures) then
    (with_auth t (<[key := failures]> (authFailuresByKey t)), None)
  else
    (with_auth t (<[key := failures ++ [now]]> (authFailuresByKey t)), Some key).

Definition clearAuthFailures (t : smtpThrottle) (key : string) : smtpThrottle :=
  with_auth t (delete key (authFailuresByKey t)).

(** * Accepted messages *)
Definition reserveAcceptedMessage (t : smtpThrottle) (identityID : string) (now : Time)
    : smtpThrottle * option smtpMessageReservation :=
  let key := messageThrottleKey identityID in
  let messages := pruneWindow (events_at (acceptedMessagesByKey t) key) (now - messageWindow t) in
  if messageLimit t <=? Z.of_nat (length messages) then
    (with_messages t (<[key := messages]> (acceptedMessagesByKey t)), None)
  else
    (with_messages t (<[key := messages ++ [now]]> (acceptedMessagesByKey t)),
     Some (MessageReservation key now)).

(** The loop of [cancelMessageReservation]: drop the first equal event. *)
Fixpoint remove_first (at_ : Time) (l : list Time) : list Time :=
  match l with
  | [] => []
  | x :: l => if x =? at_ then l else x :: remove_first at_ l
  end.

Definition cancelMessageReservation (t : smtpThrottle) (key : string) (reservedAt : Time)
    : smtpThrottle :=
  let messages := remove_first reservedAt (events_at (acceptedMessagesByKey t) key) in
  match messages with
  | [] => with_messages t (delete key (acceptedMessagesByKey t))
  | _ => with_messages t (<[key := messages]> (acceptedMessagesByKey t))
  end.

(** * Lemmas on maps and windows *)
Lemma count_at_insert m k k' n :
  count_at (<[k := n]> m) k' = if decide (k = k') then n else count_at m k'.
Proof. unfold count_at. rewrite lookup_insert. by case_decide. Qed.
Lemma count_at_delete m k k' :
  count_at (delete k m) k' = if decide (k = k') then 0 else count_at m k'.
Proof. unfold count_at. rewrite lookup_delete. by case_decide. Qed.
Lemma events_at_insert m k k' l :
  events_at (<[k := l]> m) k' = if decide (k = k') then l else events_at m k'.
Proof. unfold events_at. rewrite lookup_insert. by case_decide. Qed.
Lemma events_at_delete m k k' :
  events_at (delete k m) k' = if decide (k = k') then [] else events_at m k'.
Proof. unfold events_at. rewrite lookup_delete. by case_decide. Qed.

Definition after (cutoff : Time) (x : Time) : bool := cutoff <? x.

(** On events in time order, pruning the front is filtering. *)
Lemma pruneWindow_filter events cutoff :
  StronglySorted Z.le events →
  pruneWindow events cutoff = List.filter (after cutoff) events.
Proof.
  induction 1 as [|e rest Hs IH Hle]; [done|]. simpl. unfold after at 1.
  destruct (Z.leb_spec e cutoff); destruct (Z.ltb_spec cutoff e); try lia; [done|].
  f_equal. clear IH Hs. induction Hle as [|x l Hx _ IH]; [done|]. simpl.
  unfold after at 1. destruct (Z.ltb_spec cutoff x); [|lia]. by f_equal.
Qed.

(** * One key's window against its whole history

    [tracks W clock stored hist]: [hist] is every event of the key, in time
    order and none after [clock]; [stored] is what the code still holds of it,
    which is what is after some cutoff the window has already passed. *)
Definition tracks (W clock : Z) (stored hist : list Time) : Prop :=
  StronglySorted Z.le hist ∧ Forall (λ x, x ≤ clock) hist ∧
  ∃ c, c ≤ clock - W ∧ stored = List.filter (after c) hist.

(** The events of [hist] in the window of length [W] that ends at [now]. *)
Definition in_window (W now : Z) (hist : list Time) : list Time :=
  List.filter (λ x, (now - W <? x) && (x <=? now)) hist.

Lemma filter_after_after c c' l :
  c ≤ c' → List.filter (after c') (List.filter (after c) l) = List.filter (after c') l.
Proof.
  intros Hc. induction l as [|x l IH]; [done|]. simpl.
  destruct (after c x) eqn:E; simpl; rewrite IH; [done|].
  destruct (after c' x) eqn:E'; [|done]. unfold after in *. to_prop. lia.
Qed.

Lemma StronglySorted_filter (f : Time → bool) l :
  StronglySorted Z.le l → StronglySorted Z.le (List.filter f l).
Proof.
  induction 1 as [|x l Hs IH Hle]; [constructor|]. simpl. destruct (f x); [|done].
  constructor; [done|]. rewrite List.Forall_forall in *. intros y Hy.
  apply List.filter_In in Hy as [Hy _]. auto.
Qed.

Lemma tracks_init W clock : tracks W clock [] [].
Proof. repeat split; try constructor. exists (clock - W). split; [lia|done]. Qed.

Lemma tracks_prune W clock stored hist now :
  clock ≤ now → tracks W clock stored hist →
  pruneWindow stored (now - W) = List.filter (after (now - W)) hist.
Proof.
  intros Hnow (Hs & _ & c & Hc & ->).
  rewrite pruneWindow_filter by by apply StronglySorted_filter.
  apply filter_after_after. lia.
Qed.

Lemma tracks_in_window W clock stored hist now :
  clock ≤ now → tracks W clock stored hist →
  pruneWindow stored (now - W) = in_window W now hist.
Proof.
  intros Hnow Ht. rewrite (tracks_prune _ _ _ _ _ Hnow Ht).
  destruct Ht as (_ & Hle & _). unfold in_window. apply List.filter_ext_in.
  intros x Hx. rewrite List.Forall_forall in Hle. specialize (Hle _ Hx). unfold after.
  destruct (Z.ltb_spec (now - W) x), (Z.leb_spec x now); simpl; try lia; done.
Qed.

Lemma tracks_refuse W clock stored hist now :
  clock ≤ now → tracks W clock stored hist →
  tracks W now (pruneWindow stored (now - W)) hist.
Proof.
  intros Hnow Ht. rewrite (tracks_prune _ _ _ _ _ Hnow Ht). destruct Ht as (Hs & Hle & _).
  split_and!; [done| |exists (now - W); split; [lia|done]].
  eapply Forall_impl; [exact Hle|]. simpl; lia.
Qed.

Lemma tracks_grant W clock stored hist now :
  0 < W → clock ≤ now → tracks W clock stored hist →
  tracks W now (pruneWindow stored (now - W) ++ [now]) (hist ++ [now]).
Proof.
  intros HW Hnow Ht. rewrite (tracks_prune _ _ _ _ _ Hnow Ht). destruct Ht as (Hs & Hle & _).
  assert (Forall (λ x, x ≤ now) hist) as Hle'.
  { eapply Forall_impl; [exact Hle|]. simpl; lia. }
  split_and!.
  - apply StronglySorted_app_2; [|done|repeat constructor].
    intros x y Hx ->%list_elem_of_singleton. rewrite Forall_forall in Hle'. auto.
  - apply Forall_app; split; [done|]. by repeat constructor.
  - exists (now - W). split; [lia|]. rewrite List.filter_app. simpl. unfold after at 3.
    destruct (Z.ltb_spec (now - W) now); [done|lia].
Qed.

Lemma remove_first_filter x c l :
  remove_first x (List.filter (after c) l) = List.filter (after c) (remove_first x l).
Proof.
  induction l as [|y l IH]; [done|]. simpl.
  destruct (after c y) eqn:Hy; simpl; destruct (Z.eqb_spec y x); simpl; rewrite ?Hy; try done.
  - by f_equal.
  - subst y. clear IH. induction l as [|z l IH]; [done|]. simpl.
    destruct (after c z) eqn:Hz; [|done]. simpl.
    destruct (Z.eqb_spec z x); [congruence|]. by f_equal.
Qed.

Lemma remove_first_sublist x l : remove_first x l `sublist_of` l.
Proof.
  induction l as [|y l IH]; [constructor|]. simpl. destruct (y =? x).
  - by apply sublist_cons.
  - by apply sublist_skip.
Qed.

Lemma Forall_sublist (P : Time → Prop) l k : k `sublist_of` l → Forall P l → Forall P k.
Proof. rewrite !Forall_forall. eauto using elem_of_sublist. Qed.

Lemma StronglySorted_sublist l k :
  k `sublist_of` l → StronglySorted Z.le l → StronglySorted Z.le k.
Proof.
  intros Hk. induction Hk as [|x l k Hk IH|x l k Hk IH]; intros Hs; [done|..];
    inversion_clear Hs as [|?? Hs' Hle]; [|auto].
  constructor; [auto|]. by eapply Forall_sublist.
Qed.

Lemma tracks_remove W clock stored hist x :
  tracks W clock stored hist → tracks W clock (remove_first x stored) (remove_first x hist).
Proof.
  intros (Hs & Hle & c & Hc & ->). split_and!.
  - eapply StronglySorted_sublist; [apply remove_first_sublist|done].
  - eapply Forall_sublist; [apply remove_first_sublist|done].
  - exists c. split; [done|]. apply remove_first_filter.
Qed.

Lemma tracks_clock W clock clock' stored hist :
  clock ≤ clock' → tracks W clock stored hist → tracks W clock' stored hist.
Proof.
  intros Hc (Hs & Hle & c & Hcc & ->). split_and!; [done| |exists c; split; [lia|done]].
  eapply Forall_impl; [exact Hle|]. simpl; lia.
Qed.

(** The window bound survives both ways a history changes. *)
Definition window_bounded (W limit : Z) (hist : list Time) : Prop :=
  ∀ t, Z.of_nat (length (in_window W t hist)) ≤ limit.

Lemma window_bounded_grant W limit hist now :
  Forall (λ x, x ≤ now) hist → Z.of_nat (length (in_window W now hist)) < limit →
  window_bounded W limit hist → window_bounded W limit (hist ++ [now]).
Proof.
  intros Hle Hlt Hb t. unfold in_window. rewrite List.filter_app, length_app. simpl.
  destruct (Z.ltb_spec (t - W) now); destruct (Z.leb_spec now t); simpl;
    try (rewrite Nat.add_0_r; apply Hb).
  enough (length (in_window W t hist) ≤ length (in_window W now hist))%nat.
  { unfold in_window in *. lia. }
  unfold in_window. clear -Hle H0. induction Hle as [|x l Hx _ IH]; [done|]. simpl.
  destruct (Z.ltb_spec (t - W) x), (Z.leb_spec x t), (Z.ltb_spec (now - W) x),
    (Z.leb_spec x now); simpl; lia.
Qed.

Lemma filter_sublist (f : Time → bool) l k :
  k `sublist_of` l → List.filter f k `sublist_of` List.filter f l.
Proof.
  induction 1 as [|x l k Hk IH|x l k Hk IH]; [done|..]; simpl; destruct (f x); try done;
    by constructor.
Qed.

Lemma window_bounded_sublist W limit hist k :
  k `sublist_of` hist → window_bounded W limit hist → window_bounded W limit k.
Proof.
  intros Hk Hb t. specialize (Hb t). unfold in_window in *.
  pose proof (sublist_length _ _ (filter_sublist (λ x, (t - W <? x) && (x <=? t)) _ _ Hk)). lia.
Qed.

(** * The throttle as a shared object

    A world is the throttle with the history of what was done to it: the
    sessions acquired and not yet released, every accepted message that was not
    cancelled, every SMTP AUTH attempt since the last success of its key, and
    the latest clock reading.  One step is one call of one of its operations,
    by any of the server's goroutines. *)
Record world := World {
  w_throttle : smtpThrottle;
  w_sessions : list string;
  w_messages : gmap string (list Time);
  w_attempts : gmap string (list Time);
  w_clock : Time;
}.

Definition world_init (c : throttleLimits) (now : Time) : world :=
  World (newSMTPThrottle c) [] ∅ ∅ now.

Section steps.
Context `{U : Unicode}.

Inductive throttle_step : world → world → Prop :=
| step_acquire t ss ms aus clk host k t' :
    acquireSession t host = Ok (k, t') →
    throttle_step (World t ss ms aus clk) (World t' (k :: ss) ms aus clk)
| step_release t ss1 ss2 ms aus clk k :
    throttle_step (World t (ss1 ++ k :: ss2) ms aus clk)
                  (World (releaseSession t k) (ss1 ++ ss2) ms aus clk)
| step_message t ss ms aus clk now id t' r :
    clk ≤ now → reserveAcceptedMessage t id now = (t', Some r) →
    throttle_step (World t ss ms aus clk)
      (World t' ss (<[res_key r := events_at ms (res_key r) ++ [now]]> ms) aus now)
| step_message_refused t ss ms aus clk now id t' :
    clk ≤ now → reserveAcceptedMessage t id now = (t', None) →
    throttle_step (World t ss ms aus clk) (World t' ss ms aus now)
| step_message_cancel t ss ms aus clk k reservedAt :
    throttle_step (World t ss ms aus clk)
      (World (cancelMessageReservation t k reservedAt) ss
         (<[k := remove_first reservedAt (events_at ms k)]> ms) aus clk)
| step_auth t ss ms aus clk now host user t' k :
    clk ≤ now → reserveAuthAttempt t host user now = (t', Some k) →
    throttle_step (World t ss ms aus clk)
      (World t' ss ms (<[k := events_at aus k ++ [now]]> aus) now)
| step_auth_refused t ss ms aus clk now host user t' :
    clk ≤ now → reserveAuthAttempt t host user now = (t', None) →
    throttle_step (World t ss ms aus clk) (World t' ss ms aus now)
| step_auth_accept t ss ms aus clk k :
    throttle_step (World t ss ms aus clk)
      (World (clearAuthFailures t k) ss ms (delete k aus) clk).

Definition throttle_reachable (c : throttleLimits) (w : world) : Prop :=
  ∃ now, rtc throttle_step (world_init c now) w.

(** How many of the open sessions come from a host. *)
Definition sessions_of (host : string) (ss : list string) : Z :=
  Z.of_nat (length (filter (λ x, x = host) ss)).

Definition limits_ok (c : throttleLimits) : Prop :=
  0 ≤ lim_MaxConcurrentSessions c ∧ 0 ≤ lim_MaxSessionsPerRemoteHost c ∧
  0 < lim_AuthFailureWindow c ∧ 0 < lim_MessageWindow c ∧
  0 ≤ lim_AuthFailureLimit c ∧ 0 ≤ lim_MessageLimit c.

(** The throttle's limits are those it was built with. *)
Definition limits_of (t : smtpThrottle) : throttleLimits :=
  ThrottleLimits (maxConcurrentSessions t) (maxSessionsPerRemoteHost t)
    (authFailureLimit t) (authFailureWindow t) (messageLimit t) (messageWindow t).

Record throttle_inv (c : throttleLimits) (w : world) : Prop := {
  inv_limits : limits_of (w_throttle w) = c;
  inv_total : activeSessions (w_throttle w) = Z.of_nat (length (w_sessions w));
  inv_hosts h : count_at (activeSessionsByHost (w_throttle w)) h = sessions_of h (w_sessions w);
  inv_total_le : Z.of_nat (length (w_sessions w)) ≤ lim_MaxConcurrentSessions c;
  inv_hosts_le h : sessions_of h (w_sessions w) ≤ lim_MaxSessionsPerRemoteHost c;
  inv_messages k : tracks (lim_MessageWindow c) (w_clock w)
    (events_at (acceptedMessagesByKey (w_throttle w)) k) (events_at (w_messages w) k);
  inv_attempts k : tracks (lim_AuthFailureWindow c) (w_clock w)
    (events_at (authFailuresByKey (w_throttle w)) k) (events_at (w_attempts w) k);
  inv_messages_bound k :
    window_bounded (lim_MessageWindow c) (lim_MessageLimit c) (events_at (w_messages w) k);
  inv_attempts_bound k :
    window_bounded (lim_AuthFailureWindow c) (lim_AuthFailureLimit c) (events_at (w_attempts w) k);
}.

Lemma throttle_inv_init c now : limits_ok c → throttle_inv c (world_init c now).
Proof.
  intros (? & ? & ? & ? & ? & ?). constructor; simpl; intros; try done;
    try (by destruct c); try apply tracks_init; by intros ?.
Qed.

Lemma sessions_of_cons h k ss :
  sessions_of h (k :: ss) = if decide (k = h) then sessions_of h ss + 1 else sessions_of h ss.
Proof. unfold sessions_of. rewrite filter_cons. case_decide; simpl; lia. Qed.

Lemma sessions_of_app h ss1 ss2 :
  sessions_of h (ss1 ++ ss2) = sessions_of h ss1 + sessions_of h ss2.
Proof. unfold sessions_of. rewrite filter_app, length_app. lia. Qed.

Lemma sessions_of_nonneg h ss : 0 ≤ sessions_of h ss.
Proof. unfold sessions_of. lia. Qed.

Lemma inv_acquire c t ss ms aus clk host k t' :
  acquireSession t host = Ok (k, t') → throttle_inv c (World t ss ms aus clk) →
  throttle_inv c (World t' (k :: ss) ms aus clk).
Proof.
  unfold acquireSession. intros Ha [Hl Ht Hh Htl Hhl ????]; simpl in *.
  destruct (Z.leb_spec (maxConcurrentSessions t) (activeSessions t)); [done|].
  destruct (Z.leb_spec (maxSessionsPerRemoteHost t)
    (count_at (activeSessionsByHost t) (normalizeThrottleKeyPart host "unknown"))); [done|].
  simplify_eq. constructor; simpl; auto; [lia| |lia|].
  - intros h. rewrite count_at_insert, sessions_of_cons.
    case_decide; [subst; by rewrite Hh|done].
  - intros h. rewrite sessions_of_cons. case_decide; [|done]. subst. rewrite <- Hh. lia.
Qed.

Lemma inv_release c t ss1 ss2 ms aus clk k :
  throttle_inv c (World t (ss1 ++ k :: ss2) ms aus clk) →
  throttle_inv c (World (releaseSession t k) (ss1 ++ ss2) ms aus clk).
Proof.
  intros [Hl Ht Hh Htl Hhl ????]; simpl in *.
  rewrite length_app in *. simpl in *.
  assert (∀ h, sessions_of h (ss1 ++ k :: ss2) =
            if decide (k = h) then sessions_of h (ss1 ++ ss2) + 1 else sessions_of h (ss1 ++ ss2)) as Hk.
  { intros h. rewrite !sessions_of_app, sessions_of_cons. case_decide; lia. }
  assert (count_at (activeSessionsByHost t) k = sessions_of k (ss1 ++ ss2) + 1) as Hn.
  { rewrite Hh, Hk. by rewrite decide_True. }
  pose proof (sessions_of_nonneg k (ss1 ++ ss2)).
  assert (∀ h, sessions_of h (ss1 ++ ss2) ≤ sessions_of h (ss1 ++ k :: ss2)) as Hle.
  { intros h. rewrite Hk. case_decide; lia. }
  constructor; unfold releaseSession; simpl.
  all: destruct (Z.leb_spec (count_at (activeSessionsByHost t) k) 1); simpl; auto.
  all: rewrite ?length_app; try (destruct (Z.ltb_spec 0 (activeSessions t)); lia).
  - intros h. rewrite count_at_delete, (Hh h), (Hk h). case_decide; subst; lia.
  - intros h. rewrite count_at_insert, (Hh h), (Hk h). case_decide; subst; lia.
  - intros h. specialize (Hle h). specialize (Hhl h). lia.
  - intros h. specialize (Hle h). specialize (Hhl h). lia.
Qed.

(** Reading back the four map updates of the two windows. *)
Lemma reserveAcceptedMessage_spec t id now :
  let k := messageThrottleKey id in
  let kept := pruneWindow (events_at (acceptedMessagesByKey t) k) (now - messageWindow t) in
  reserveAcceptedMessage t id now =
    if messageLimit t <=? Z.of_nat (length kept)
    then (with_messages t (<[k := kept]> (acceptedMessagesByKey t)), None)
    else (with_messages t (<[k := kept ++ [now]]> (acceptedMessagesByKey t)),
          Some (MessageReservation k now)).
Proof. done. Qed.

Lemma cancel_events t k x k' :
  events_at (acceptedMessagesByKey (cancelMessageReservation t k x)) k' =
    if decide (k = k') then remove_first x (events_at (acceptedMessagesByKey t) k)
    else events_at (acceptedMessagesByKey t) k'.
Proof.
  unfold cancelMessageReservation.
  destruct (remove_first x (events_at (acceptedMessagesByKey t) k)) eqn:E; simpl.
  - rewrite events_at_delete. by case_decide.
  - rewrite events_at_insert. by case_decide.
Qed.

Lemma cancel_others t k x :
  cancelMessageReservation t k x =
    with_messages t (acceptedMessagesByKey (cancelMessageReservation t k x)).
Proof. unfold cancelMessageReservation. by destruct (remove_first _ _). Qed.

(** A granted or refused event keeps every key's stored window a view of its
    history; [k] is the key that was touched. *)
Lemma tracks_all_grant W clk now stored hist k :
  0 < W → clk ≤ now → (∀ k', tracks W clk (events_at stored k') (events_at hist k')) →
  ∀ k', tracks W now
    (events_at (<[k := pruneWindow (events_at stored k) (now - W) ++ [now]]> stored) k')
    (events_at (<[k := events_at hist k ++ [now]]> hist) k').
Proof.
  intros HW Hnow Ht k'. rewrite !events_at_insert. case_decide; [subst|].
  - eapply tracks_grant; eauto.
  - eapply tracks_clock; eauto.
Qed.

Lemma tracks_all_refuse W clk now stored hist k :
  clk ≤ now → (∀ k', tracks W clk (events_at stored k') (events_at hist k')) →
  ∀ k', tracks W now
    (events_at (<[k := pruneWindow (events_at stored k) (now - W)]> stored) k')
    (events_at hist k').
Proof.
  intros Hnow Ht k'. rewrite events_at_insert. case_decide; [subst|].
  - eapply tracks_refuse; eauto.
  - eapply tracks_clock; eauto.
Qed.

Lemma bounded_all_grant W limit clk now stored hist k :
  clk ≤ now → (∀ k', tracks W clk (events_at stored k') (events_at hist k')) →
  Z.of_nat (length (pruneWindow (events_at stored k) (now - W))) < limit →
  (∀ k', window_bounded W limit (events_at hist k')) →
  ∀ k', window_bounded W limit (events_at (<[k := events_at hist k ++ [now]]> hist) k').
Proof.
  intros Hnow Ht Hlt Hb k'. rewrite events_at_insert. case_decide; [subst|done].
  apply window_bounded_grant; [| |done].
  - destruct (Ht k') as (_ & Hle & _). eapply Forall_impl; [exact Hle|]. simpl; lia.
  - by rewrite <- (tracks_in_window _ _ _ _ _ Hnow (Ht k')).
Qed.

Lemma inv_message c t ss ms aus clk now id t' r :
  limits_ok c → clk ≤ now → reserveAcceptedMessage t id now = (t', r) →
  throttle_inv c (World t ss ms aus clk) →
  throttle_inv c (World t' ss
    (match r with Some r => <[res_key r := events_at ms (res_key r) ++ [now]]> ms | None => ms end)
    aus now).
Proof.
  intros (_ & _ & HA & HM & _) Hnow Hr [Hl Ht Hh Htl Hhl Hm Ha Hmb Hab]; simpl in *.
  rewrite reserveAcceptedMessage_spec in Hr. subst c; simpl in *.
  destruct (Z.leb_spec (messageLimit t) (Z.of_nat (length (pruneWindow
    (events_at (acceptedMessagesByKey t) (messageThrottleKey id)) (now - messageWindow t)))));
    simplify_eq; constructor; simpl; eauto using tracks_clock, tracks_all_refuse, tracks_all_grant,
      bounded_all_grant.
Qed.

Lemma inv_auth c t ss ms aus clk now host user t' r :
  limits_ok c → clk ≤ now → reserveAuthAttempt t host user now = (t', r) →
  throttle_inv c (World t ss ms aus clk) →
  throttle_inv c (World t' ss ms
    (match r with Some k => <[k := events_at aus k ++ [now]]> aus | None => aus end) now).
Proof.
  intros (_ & _ & HA & HM & _) Hnow Hr [Hl Ht Hh Htl Hhl Hm Ha Hmb Hab]; simpl in *.
  unfold reserveAuthAttempt in Hr. subst c; simpl in *.
  destruct (Z.leb_spec (authFailureLimit t) (Z.of_nat (length (pruneWindow
    (events_at (authFailuresByKey t) (authThrottleKey host user)) (now - authFailureWindow t)))));
    simplify_eq; constructor; simpl; eauto using tracks_clock, tracks_all_refuse, tracks_all_grant,
      bounded_all_grant.
Qed.

Lemma inv_cancel c t ss ms aus clk k x :
  throttle_inv c (World t ss ms aus clk) →
  throttle_inv c (World (cancelMessageReservation t k x) ss
    (<[k := remove_first x (events_at ms k)]> ms) aus clk).
Proof.
  intros [Hl Ht Hh Htl Hhl Hm Ha Hmb Hab]; simpl in *.
  constructor; simpl; auto;
    try (rewrite cancel_others; simpl; by eauto).
  - intros k'. rewrite cancel_events, events_at_insert.
    case_decide; [subst; by apply tracks_remove|done].
  - intros k'. rewrite events_at_insert. case_decide; [subst|done].
    eapply window_bounded_sublist; [apply remove_first_sublist|done].
Qed.

Lemma inv_accept c t ss ms aus clk k :
  limits_ok c → throttle_inv c (World t ss ms aus clk) →
  throttle_inv c (World (clearAuthFailures t k) ss ms (delete k aus) clk).
Proof.
  intros (_ & _ & _ & _ & HAL & _) [Hl Ht Hh Htl Hhl Hm Ha Hmb Hab]; simpl in *.
  constructor; simpl; auto.
  - intros k'. rewrite !events_at_delete. case_decide; [apply tracks_init|done].
  - intros k'. rewrite events_at_delete. case_decide; [by intros ?|done].
Qed.

Lemma inv_step c w w' :
  limits_ok c → throttle_step w w' → throttle_inv c w → throttle_inv c w'.
Proof.
  intros Hc [] Hi; eauto using inv_acquire, inv_release, inv_cancel, inv_accept;
    match goal with
    | H : reserveAcceptedMessage _ _ _ = _ |- _ => exact (inv_message _ _ _ _ _ _ _ _ _ _ Hc ltac:(done) H Hi)
    | H : reserveAuthAttempt _ _ _ _ = _ |- _ => exact (inv_auth _ _ _ _ _ _ _ _ _ _ _ Hc ltac:(done) H Hi)
    end.
Qed.

Lemma inv_reachable c w : limits_ok c → throttle_reachable c w → throttle_inv c w.
Proof.
  intros Hc (now & Hr). pose proof (throttle_inv_init c now Hc) as Hi.
  induction Hr; eauto using inv_step.
Qed.
End steps.

(** * Properties *)
Section theorems.
Context `{U : Unicode}.

(** Whatever calls were made, the throttle's counters are the numbers of
    open sessions, in total and per remote host, and neither exceeds its
    configured limit. *)
Theorem sessions_bounded c w :
  limits_ok c → throttle_reachable c w →
  activeSessionCount (w_throttle w) = Z.of_nat (length (w_sessions w)) ∧
  activeSessionCount (w_throttle w) ≤ lim_MaxConcurrentSessions c ∧
  ∀ host,
    count_at (activeSessionsByHost (w_throttle w)) host = sessions_of host (w_sessions w) ∧
    sessions_of host (w_sessions w) ≤ lim_MaxSessionsPerRemoteHost c.
Proof.
  intros Hc Hr. destruct (inv_reachable c w Hc Hr). unfold activeSessionCount.
  split_and!; [done|lia|]. eauto.
Qed.

(** For every identity and every instant [t], the accepted messages that
    were not cancelled in the window of [MessageWindow] ending at [t] are at most
    [MessageLimit]; likewise the failed SMTP AUTH attempts of a credential. *)
Theorem windows_bounded c w key t :
  limits_ok c → throttle_reachable c w →
  Z.of_nat (length (in_window (lim_MessageWindow c) t (events_at (w_messages w) key)))
    ≤ lim_MessageLimit c ∧
  Z.of_nat (length (in_window (lim_AuthFailureWindow c) t (events_at (w_attempts w) key)))
    ≤ lim_AuthFailureLimit c.
Proof.
  intros Hc Hr. destruct (inv_reachable c w Hc Hr) as [_ _ _ _ _ _ _ Hm Ha].
  split; [apply Hm|apply Ha].
Qed.

(** One window's decision is the history's. *)
Lemma message_reserve_iff c w now id :
  throttle_inv c w → w_clock w ≤ now →
  (is_Some (reserveAcceptedMessage (w_throttle w) id now).2 ↔
     Z.of_nat (length (in_window (lim_MessageWindow c) now
       (events_at (w_messages w) (messageThrottleKey id)))) < lim_MessageLimit c).
Proof.
  intros [Hl _ _ _ _ Hm _ _ _] Hnow. rewrite reserveAcceptedMessage_spec.
  rewrite <- (tracks_in_window _ _ _ _ _ Hnow (Hm (messageThrottleKey id))). subst c; simpl.
  match goal with |- context [?a <=? ?b] => destruct (Z.leb_spec a b) end; simpl;
    rewrite is_Some_alt; split; (lia || done).
Qed.

Lemma auth_reserve_iff c w now host user :
  throttle_inv c w → w_clock w ≤ now →
  (is_Some (reserveAuthAttempt (w_throttle w) host user now).2 ↔
     Z.of_nat (length (in_window (lim_AuthFailureWindow c) now
       (events_at (w_attempts w) (authThrottleKey host user)))) < lim_AuthFailureLimit c).
Proof.
  intros [Hl _ _ _ _ _ Ha _ _] Hnow. unfold reserveAuthAttempt.
  rewrite <- (tracks_in_window _ _ _ _ _ Hnow (Ha (authThrottleKey host user))). subst c; simpl.
  match goal with |- context [?a <=? ?b] => destruct (Z.leb_spec a b) end; simpl;
    rewrite is_Some_alt; split; (lia || done).
Qed.

End theorems.

(** Cancelling a reservation just made gives back its place. *)
Lemma cancel_reserved t id now t' r k :
  now ∉ events_at (acceptedMessagesByKey t) (messageThrottleKey id) →
  reserveAcceptedMessage t id now = (t', Some r) →
  events_at (acceptedMessagesByKey (cancelMessageReservation t' (res_key r) (res_reservedAt r))) k =
    if decide (k = messageThrottleKey id)
    then pruneWindow (events_at (acceptedMessagesByKey t) k) (now - messageWindow t)
    else events_at (acceptedMessagesByKey t) k.
Proof.
  intros Hfresh. rewrite reserveAcceptedMessage_spec. split_match; [done|]. intros; simplify_eq/=.
  rewrite cancel_events; simpl. rewrite !events_at_insert.
  destruct (decide (messageThrottleKey id = k)) as [<-|]; [|by rewrite decide_False].
  rewrite !decide_True by done.
  set (l := pruneWindow _ _).
  assert (now ∉ l) as Hl.
  { contradict Hfresh. revert Hfresh. subst l.
    generalize (events_at (acceptedMessagesByKey t) (messageThrottleKey id)) as evs.
    induction evs as [|e evs IH]; simpl; [done|]. destruct (e <=? _); [|done].
    intros ?. right. auto. }
  clearbody l. clear -Hl. induction l as [|x l IH]; simpl.
  - by rewrite Z.eqb_refl.
  - destruct (Z.eqb_spec x now); [set_solver|]. f_equal. apply IH. set_solver.
Qed.

(** ** Witnesses *)
Definition demo_limits : throttleLimits := ThrottleLimits 2 1 2 10 2 10.
Lemma demo_limits_ok : limits_ok demo_limits.
Proof. repeat split; simpl; lia. Defined.

(** A host connects; one identity sends two messages. *)
Definition demo_world : world :=
  let t0 := newSMTPThrottle demo_limits in
  let t1 := match acquireSession t0 "10.0.0.1" with Ok (_, t) => t | Err _ => t0 end in
  let t2 := (reserveAcceptedMessage t1 "id" 5).1 in
  let t3 := (reserveAcceptedMessage t2 "id" 6).1 in
  World t3 ["10.0.0.1"%string] (<["id"%string := [5; 6]]> (<["id"%string := [5]]> ∅)) ∅ 6.
Lemma demo_reachable : throttle_reachable (U := ascii_unicode) demo_limits demo_world.
Proof.
  exists 0. eapply rtc_l. { eapply (step_acquire _ _ _ _ _ "10.0.0.1"%string). vm_compute. reflexivity. }
  eapply rtc_l. { eapply (step_message _ _ _ _ _ 5 "id"%string); [lia|vm_compute; reflexivity]. }
  eapply rtc_l. { eapply (step_message _ _ _ _ _ 6 "id"%string); [simpl; lia|vm_compute; reflexivity]. }
  vm_compute. apply rtc_refl.
Qed.

Lemma sessions_bounded_witness : activeSessionCount (w_throttle demo_world) ≤ 2.
Proof.
  apply (sessions_bounded (U := ascii_unicode) demo_limits demo_world demo_limits_ok demo_reachable).
Defined.

Lemma windows_bounded_witness :
  Z.of_nat (length (in_window 10 8 (events_at (w_messages demo_world) "id"%string))) ≤ 2.
Proof.
  apply (windows_bounded (U := ascii_unicode) demo_limits demo_world "id"%string 8
           demo_limits_ok demo_reachable).
Defined.

