(* ===== verification/Address.v ===== *)
(** Sender addresses and sender domains (src/internal/smtpidentity/address.go
    and the validation part of sender_domain.go), and the interface to Go's
    mail parser that address.go, the submission server and the forwarder call.

    RFC 5322 parsing itself is the interface [NetMail]: every theorem holds for
    whatever addresses and header values the parser accepts.  [simple_mail] is
    an instance for plain [local@domain] mailboxes. *)
From S2P Require Import Prelude GoStrings.

(** * [net/mail] *)
Record mail_Address := MailAddress { mail_Name : string; mail_Addr : string }.

(** [textproto.CanonicalMIMEHeaderKey]: unchanged when a byte is not a token
    character, else each word of a hyphenated name capitalised. *)
Definition token_char (c : ascii) : bool :=
  let x := code c in
  ((48 <=? x) && (x <=? 57) || (65 <=? x) && (x <=? 90) || (97 <=? x) && (x <=? 122)
   || bool_decide (c ∈ explode "!#$%&'*+-.^_`|~"))%Z.
Fixpoint canonical_b (upper : bool) (l : list ascii) : list ascii :=
  match l with
  | [] => []
  | c :: l => (if upper then upper_ascii c else lower_ascii c)
                :: canonical_b (bool_decide (c = "-"%char)) l
  end.
Definition CanonicalMIMEHeaderKey (s : string) : string :=
  if forallb token_char (explode s) then implode (canonical_b true (explode s)) else s.

(** The header fields of a message, in order, keys canonical. *)
Definition mail_Header := list (string * string).
Definition Header_Get (h : mail_Header) (key : string) : string :=
  match list_find (λ kv, kv.1 = CanonicalMIMEHeaderKey key) h with
  | Some (_, kv) => kv.2 | None => ""
  end.

Class NetMail := {
  ParseAddress : string → result mail_Address;
  ParseAddressList : string → result (list mail_Address);
  ReadMessage : list ascii → result mail_Header;
  Address_String : mail_Address → string;
}.

(** * address.go *)
Definition ErrInvalidAddress : error := New "smtp_identity.address.invalid".

Record Address := MkAddress { addr_value : string; addr_domain : string }.
#[export] Instance Address_eq_dec : EqDecision Address.
Proof. solve_decision. Defined.

Definition noAddress : Address := MkAddress "" "".

Section address.
Context `{U : Unicode} `{M : NetMail}.

Definition NewAddress (rawAddress : string) : result Address :=
  let trimmedAddress := TrimSpace rawAddress in
  if bool_decide (trimmedAddress = ""%string) || ContainsAny trimmedAddress (implode ["013"%char; "010"%char])
  then Err ErrInvalidAddress else
  match ParseAddress trimmedAddress with
  | Err _ => Err (Wrapf "%w: %s" [FStr trimmedAddress] ErrInvalidAddress)
  | Ok parsedAddress =>
      if bool_decide (mail_Name parsedAddress ≠ ""%string)
         || bool_decide (mail_Addr parsedAddress ≠ trimmedAddress)
      then Err (Wrapf "%w: %s" [FStr trimmedAddress] ErrInvalidAddress) else
      let '(localPart, domainPart, _) := Cut (mail_Addr parsedAddress) "@" in
      let normalizedDomain := ToLower (TrimSpace domainPart) in
      let normalizedLocal := ToLower (TrimSpace localPart) in
      Ok (MkAddress (normalizedLocal ++ "@" ++ normalizedDomain) normalizedDomain)
  end.

Definition ParseHeaderFromAddress (fromHeader : string) : result Address :=
  match ParseAddressList (TrimSpace fromHeader) with
  | Ok [parsed] => NewAddress (mail_Addr parsed)
  | _ => Err (Wrapf "%w: from header" [] ErrInvalidAddress)
  end.
End address.

(** [String], [Domain] and [Equals] of [Address]. *)
Definition String_ (address : Address) : string := addr_value address.
Definition Domain (address : Address) : string := addr_domain address.
Definition Equals (address candidate : Address) : bool :=
  bool_decide (addr_value address = addr_value candidate).

(** The validated SMTP AUTH result (repository.go). *)
Record AuthenticatedIdentity := MkAuthenticated {
  ai_ID : string;
  ai_EmailAddress : Address;
  ai_Username : string;
}.

(** * sender_domain.go: domain names *)
Definition ErrInvalidSenderDomain : error := New "smtp_identity.sender_domain.invalid".

Definition dns_rune (r : rune) : bool :=
  match rune_ascii r with
  | Some x => ((97 <=? x) && (x <=? 122) || (48 <=? x) && (x <=? 57) || (x =? 45))%Z
  | None => false
  end.

Definition valid_label (label : list ascii) : bool :=
  match label with
  | [] => false
  | c :: _ =>
      (length label <=? 63) && negb (bool_decide (c = "-"%char))
      && negb (bool_decide (last label = Some "-"%char))
      && forallb dns_rune (runes_b label)
  end.

Definition validDNSDomainName (domain : string) : bool :=
  (length (explode domain) <=? 253) && forallb valid_label (split_b "."%char (explode domain)).

Definition NormalizeSenderDomain `{U : Unicode} (domain : string) : result string :=
  let normalizedDomain := TrimSuffix (ToLower (TrimSpace domain)) "." in
  if bool_decide (normalizedDomain = ""%string) then Ok ""%string else
  if ContainsAny normalizedDomain (implode (explode "@/\: " ++ ["009"%char; "013"%char; "010"%char]))
     || negb (Contains normalizedDomain ".") || negb (validDNSDomainName normalizedDomain)
  then Err (Wrapf "%w: %s" [FStr (TrimSpace domain)] ErrInvalidSenderDomain)
  else Ok normalizedDomain.

(** * Lemmas *)

(** An accepted address is [local@domain] with the domain kept apart. *)
Lemma NewAddress_shape `{U : Unicode} `{M : NetMail} raw a :
  NewAddress raw = Ok a → ∃ l, addr_value a = (l ++ "@" ++ addr_domain a)%string.
Proof. unfold NewAddress. intros H. repeat (case_match; simplify_eq/=); eauto. Qed.

Lemma NewAddress_nonempty `{U : Unicode} `{M : NetMail} raw a :
  NewAddress raw = Ok a → addr_value a ≠ ""%string.
Proof. intros (l & ->)%NewAddress_shape. by destruct l. Qed.

Lemma Equals_spec a b : Equals a b = true ↔ addr_value a = addr_value b.
Proof. unfold Equals. by rewrite bool_decide_eq_true. Qed.

(** Characters of DNS labels: lower-case letters, digits and the hyphen. *)
Definition ldh (c : ascii) : bool :=
  ((97 <=? code c) && (code c <=? 122) || (48 <=? code c) && (code c <=? 57) || (code c =? 45))%Z.

Lemma runes_ldh l : forallb dns_rune (runes_b l) = true → Forall (λ c, ldh c = true) l.
Proof.
  induction l as [|c l IH]; [constructor|]. simpl.
  destruct (code c <? 128)%Z eqn:E.
  - simpl. intros [Hc Hl]%andb_true_iff. constructor; [exact Hc|auto].
  - destruct l as [|d l]; [done|]. destruct (between 194 223 c). { by destruct (cont d). }
    destruct l as [|e l]; [done|]. destruct (between 224 239 c). { by destruct (second3 c d && cont e). }
    destruct l as [|f l]; [done|]. by destruct (between 240 244 c && second4 c d && cont e && cont f).
Qed.

Lemma split_b_Forall (P : ascii → Prop) sep l :
  Forall (Forall P) (split_b sep l) → Forall (λ c, c = sep ∨ P c) l.
Proof.
  induction l as [|c l IH]; [constructor|]. simpl. case_decide.
  - intros [_ Hl]%Forall_cons. constructor; auto.
  - destruct (split_b sep l) as [|w ws] eqn:E.
    + intros [[Hc _]%Forall_cons _]%Forall_cons. constructor; [auto|]. apply IH. constructor.
    + intros [[Hc Hw]%Forall_cons Hws]%Forall_cons. constructor; [auto|]. apply IH. by constructor.
Qed.

Lemma validDNSDomainName_chars s :
  validDNSDomainName s = true → Forall (λ c, c = "."%char ∨ ldh c = true) (explode s).
Proof.
  intros [_ H]%andb_true_iff. apply split_b_Forall.
  rewrite forallb_forall in H. apply List.Forall_forall. intros w Hw. specialize (H w Hw).
  destruct w as [|c w]; [done|]. simpl in H. to_prop. by apply runes_ldh.
Qed.

(** A name of DNS characters whose last character is not a dot is a fixed
    point of the three normalisations. *)
Lemma dns_plain s :
  Forall (λ c, c = "."%char ∨ ldh c = true) (explode s) →
  Forall (λ c, plain_ascii c = true) (explode s) ∧
  Forall (λ c, lower_ascii c = c) (explode s).
Proof.
  intros H. split; (eapply Forall_impl; [exact H|]); intros c [->|Hc]; try done;
    unfold ldh, plain_ascii, ws1, lower_ascii in *;
    destruct ((65 <=? code c) && (code c <=? 90))%Z eqn:E; try done; lia.
Qed.

Lemma split_b_nonempty sep l : split_b sep l ≠ [].
Proof. destruct l as [|c l]; simpl; [done|]. case_decide; [done|]. by destruct (split_b sep l). Qed.

Lemma split_b_snoc sep l : split_b sep (l ++ [sep]) = split_b sep l ++ [[]].
Proof.
  induction l as [|c l IH]; simpl; [by rewrite decide_True|]. rewrite IH.
  case_decide; [done|]. pose proof (split_b_nonempty sep l). by destruct (split_b sep l).
Qed.

Lemma validDNSDomainName_not_dot l :
  validDNSDomainName (implode (l ++ ["."%char])) = true → False.
Proof.
  intros [_ H]%andb_true_iff. autorewrite with gostr in H.
  rewrite split_b_snoc, forallb_app in H. simpl in H. to_prop. done.
Qed.

(** [NormalizeSenderDomain] accepts exactly what it can return again: a
    non-empty result is a DNS name of at least two labels, each 1 to 63 lower-case
    letters, digits or inner hyphens, 253 bytes at most, and normalising it once
    more changes nothing. *)
Theorem NormalizeSenderDomain_fixpoint `{U : Unicode} raw d :
  NormalizeSenderDomain raw = Ok d → d ≠ ""%string →
  validDNSDomainName d = true ∧ Contains d "." = true ∧
  Forall (λ c, c = "."%char ∨ ldh c = true) (explode d) ∧
  NormalizeSenderDomain d = Ok d.
Proof.
  intros H Hne. assert (validDNSDomainName d = true ∧ Contains d "." = true ∧
    ContainsAny d (implode (explode "@/\: " ++ ["009"%char; "013"%char; "010"%char])) = false)
    as (Hv & Hc & Ha).
  { unfold NormalizeSenderDomain in H. set (n := TrimSuffix _ _) in H.
    destruct (bool_decide (n = ""%string)); [congruence|].
    destruct (ContainsAny n _ || negb (Contains n ".") || negb (validDNSDomainName n)) eqn:E; [done|].
    simplify_eq. to_prop. done. }
  pose proof (validDNSDomainName_chars d Hv) as Hch. split_and!; [done..|].
  destruct (dns_plain d Hch) as [Hp Hl].
  unfold NormalizeSenderDomain. rewrite (TrimSpace_plain d Hp), (ToLower_plain d Hp Hl).
  assert (TrimSuffix d "." = d) as ->.
  { apply TrimSuffix_not. intros k Hk. apply (validDNSDomainName_not_dot k).
    change [_] with (explode "."). by rewrite <- Hk, implode_explode. }
  rewrite bool_decide_false, Ha, Hc, Hv by done. done.
Qed.

Lemma NormalizeSenderDomain_fixpoint_witness :
  NormalizeSenderDomain (U := ascii_unicode) " Example.COM. " = Ok "example.com"%string ∧
  validDNSDomainName "example.com" = true.
Proof.
  split; [vm_compute; reflexivity|].
  apply (NormalizeSenderDomain_fixpoint (U := ascii_unicode) " Example.COM. " "example.com");
    [vm_compute; reflexivity|discriminate].
Defined.

(** * A parser for plain mailboxes and unfolded headers, used in examples *)
Definition atext (c : ascii) : bool :=
  token_char c || bool_decide (c ∈ explode "/=?{}").
Definition simple_ParseAddress (s : string) : result mail_Address :=
  let '(local, domain, found) := Cut s "@" in
  if found && bool_decide (local ≠ ""%string) && bool_decide (domain ≠ ""%string)
     && forallb atext (explode local) && forallb atext (explode domain)
  then Ok (MailAddress "" s) else Err (Text "mail: invalid address" []).
Fixpoint simple_headers (lines : list (list ascii)) : result mail_Header :=
  match lines with
  | [] => Err (Text "EOF" [])
  | line :: lines =>
      let text := TrimSuffix (implode line) (implode ["013"%char]) in
      if decide (text = ""%string) then Ok [] else
      let '(key, value, found) := Cut text ":" in
      if found : bool then
        rest ← simple_headers lines; Ok ((CanonicalMIMEHeaderKey key, TrimSpace value) :: rest)
      else Err (Text "malformed MIME header" [])
  end.
Definition quote : string := implode ["034"%char].
Definition simple_mail : NetMail :=
  {| ParseAddress := simple_ParseAddress;
     ParseAddressList := λ s,
       let '(name, rest, angle) := Cut s "<" in
       if angle : bool then
         a ← simple_ParseAddress (Cut rest ">").1.1; Ok [MailAddress (TrimSpace name) (mail_Addr a)]
       else a ← simple_ParseAddress s; Ok [a];
     ReadMessage := λ data, simple_headers (split_b "010"%char data);
     Address_String := λ a,
       (if decide (mail_Name a = ""%string) then "<" ++ mail_Addr a ++ ">"
        else quote ++ mail_Name a ++ quote ++ " <" ++ mail_Addr a ++ ">")%string |}.
