(* ===== verification/Base64.v ===== *)
(** Go's [encoding/base64], as the program uses it: [StdEncoding] (padded, for
    SMTP AUTH and attachments) and [RawURLEncoding] (unpadded, for page cursors
    and generated credentials).  Decoding skips CR and LF and, like Go's
    non-strict decoder, ignores the unused low bits of the last digit. *)
From S2P Require Import Prelude GoStrings.
Open Scope Z_scope.

Record Encoding := MkEncoding { enc62 : ascii; enc63 : ascii; enc_pad : bool }.
Definition StdEncoding : Encoding := MkEncoding "+" "/" true.
Definition RawURLEncoding : Encoding := MkEncoding "-" "_" false.

Definition byte (z : Z) : ascii := ascii_of_N (Z.to_N z).

Definition digit (e : Encoding) (z : Z) : ascii :=
  if z <? 26 then byte (65 + z) else if z <? 52 then byte (71 + z)
  else if z <? 62 then byte (z - 4) else if z =? 62 then enc62 e else enc63 e.

Definition value (e : Encoding) (c : ascii) : option Z :=
  let x := code c in
  if decide (c = enc62 e) then Some 62 else if decide (c = enc63 e) then Some 63
  else if (65 <=? x) && (x <=? 90) then Some (x - 65)
  else if (97 <=? x) && (x <=? 122) then Some (x - 71)
  else if (48 <=? x) && (x <=? 57) then Some (x + 4) else None.

Definition padding (e : Encoding) (n : nat) : list ascii :=
  if enc_pad e then replicate n "="%char else [].

(** [EncodeToString]. *)
Fixpoint encode (e : Encoding) (l : list ascii) : list ascii :=
  match l with
  | [] => []
  | [a] => let n := code a * 16 in [digit e (n / 64); digit e (n mod 64)] ++ padding e 2
  | [a; b] =>
      let n := (code a * 256 + code b) * 4 in
      [digit e (n / 4096); digit e (n / 64 mod 64); digit e (n mod 64)] ++ padding e 1
  | a :: b :: c :: rest =>
      let n := code a * 65536 + code b * 256 + code c in
      digit e (n / 262144) :: digit e (n / 4096 mod 64) :: digit e (n / 64 mod 64)
        :: digit e (n mod 64) :: encode e rest
  end.

(** The last, short group: one or two bytes of it are data. *)
Definition decode1 (e : Encoding) (a b : ascii) : option (list ascii) :=
  x ← value e a; y ← value e b; Some [byte ((x * 64 + y) / 16)].
Definition decode2 (e : Encoding) (a b c : ascii) : option (list ascii) :=
  x ← value e a; y ← value e b; z ← value e c;
  let n := (x * 4096 + y * 64 + z) / 4 in Some [byte (n / 256); byte (n mod 256)].

Fixpoint decode_groups (e : Encoding) (l : list ascii) : option (list ascii) :=
  match l with
  | [] => Some []
  | [_] => None
  | [a; b] => if enc_pad e then None else decode1 e a b
  | [a; b; c] => if enc_pad e then None else decode2 e a b c
  | a :: b :: c :: d :: rest =>
      if enc_pad e && bool_decide (c = "="%char) then
        if bool_decide (d = "="%char) && bool_decide (rest = []) then decode1 e a b else None
      else if enc_pad e && bool_decide (d = "="%char) then
        if bool_decide (rest = []) then decode2 e a b c else None
      else
        x ← value e a; y ← value e b; z ← value e c; w ← value e d;
        let n := x * 262144 + y * 4096 + z * 64 + w in
        r ← decode_groups e rest;
        Some (byte (n / 65536) :: byte (n / 256 mod 256) :: byte (n mod 256) :: r)
  end.

Definition newline_char (c : ascii) : bool := (code c =? 13) || (code c =? 10).

(** [DecodeString]. *)
Definition decode (e : Encoding) (l : list ascii) : option (list ascii) :=
  decode_groups e (List.filter (λ c, negb (newline_char c)) l).

Definition EncodeToString (e : Encoding) (s : string) : string := implode (encode e (explode s)).
Definition DecodeString (e : Encoding) (s : string) : result string :=
  match decode e (explode s) with
  | Some l => Ok (implode l)
  | None => Err (Text "illegal base64 data" [])
  end.

(** * Round trip *)
Definition std_or_url (e : Encoding) : Prop := e = StdEncoding ∨ e = RawURLEncoding.

Lemma code_range c : 0 ≤ code c < 256.
Proof. unfold code. pose proof (N_ascii_bounded c). lia. Qed.

Lemma byte_code c : byte (code c) = c.
Proof. unfold byte, code. rewrite N2Z.id. apply ascii_N_embedding. Qed.

Lemma byte_code' c z : z = code c → byte z = c.
Proof. intros ->. apply byte_code. Qed.

Definition digits : list Z := Z.of_nat <$> seq 0 64.
Lemma digits_spec z : 0 ≤ z < 64 → z ∈ digits.
Proof.
  intros H. unfold digits. replace z with (Z.of_nat (Z.to_nat z)) by lia.
  apply list_elem_of_fmap_2, elem_of_seq. lia.
Qed.

Definition good_digit (e : Encoding) (z : Z) : bool :=
  bool_decide (value e (digit e z) = Some z) && negb (newline_char (digit e z))
  && negb (bool_decide (digit e z = "="%char)) && plain_ascii (digit e z).

Lemma digit_good e z : std_or_url e → 0 ≤ z < 64 → good_digit e z = true.
Proof.
  intros He Hz. apply digits_spec, list_elem_of_In in Hz. revert z Hz. apply forallb_forall.
  destruct He as [-> | ->]; vm_compute; reflexivity.
Qed.

Lemma digit_facts e z :
  std_or_url e → 0 ≤ z < 64 →
  value e (digit e z) = Some z ∧ newline_char (digit e z) = false ∧ digit e z ≠ "="%char ∧
  plain_ascii (digit e z) = true.
Proof. intros He Hz. pose proof (digit_good e z He Hz) as H. unfold good_digit in H. by to_prop. Qed.

(** Induction by groups of three bytes. *)
Lemma list_ind3 {A} (P : list A → Prop) :
  P [] → (∀ a, P [a]) → (∀ a b, P [a; b]) → (∀ a b c l, P l → P (a :: b :: c :: l)) → ∀ l, P l.
Proof.
  intros H0 H1 H2 H3. fix IH 1. intros [|a [|b [|c l]]]; [done|auto..|]. apply H3, IH.
Qed.

Lemma digit_value e z : std_or_url e → 0 ≤ z < 64 → value e (digit e z) = Some z.
Proof. intros. by apply digit_facts. Qed.
Lemma digit_pad e z : std_or_url e → 0 ≤ z < 64 → bool_decide (digit e z = "="%char) = false.
Proof. intros. apply bool_decide_false. by apply digit_facts. Qed.

(** Arithmetic on digits and bytes. *)
Ltac euclid := Z.to_euclidean_division_equations; lia.

Lemma decode_groups_encode e l : std_or_url e → decode_groups e (encode e l) = Some l.
Proof.
  intros He. induction l as [|a|a b|a b c l IH] using list_ind3; [done|..];
    assert (0 ≤ code a < 256) by apply code_range.
  - cbn -[digit value Z.mul]. unfold padding. destruct (enc_pad e) eqn:Ep; cbn -[digit value Z.mul];
      rewrite ?Ep; cbn -[digit value Z.mul]; unfold decode1;
      rewrite !digit_value by (done || euclid); simpl; do 2 f_equal; apply byte_code'; euclid.
  - assert (0 ≤ code b < 256) by apply code_range.
    cbn -[digit value Z.mul]. unfold padding. destruct (enc_pad e) eqn:Ep; cbn -[digit value Z.mul];
      rewrite ?Ep; cbn -[digit value Z.mul]; rewrite ?digit_pad by (done || euclid);
      unfold decode2; rewrite !digit_value by (done || euclid); simpl;
      do 2 f_equal; [|f_equal| |f_equal]; apply byte_code'; euclid.
  - assert (0 ≤ code b < 256) by apply code_range.
    assert (0 ≤ code c < 256) by apply code_range.
    cbn -[digit value Z.mul]. rewrite !digit_pad by (done || euclid).
    rewrite !andb_false_r, !digit_value by (done || euclid).
    simpl. rewrite IH. simpl. f_equal.
    f_equal; [|f_equal; [|f_equal]]; apply byte_code'; euclid.
Qed.

Lemma digit_newline e z : std_or_url e → 0 ≤ z < 64 → newline_char (digit e z) = false.
Proof. intros. by apply digit_facts. Qed.

Lemma padding_newline e n : Forall (λ c, newline_char c = false) (padding e n).
Proof. unfold padding. destruct (enc_pad e); [by apply Forall_replicate|constructor]. Qed.

Lemma encode_no_newline e l :
  std_or_url e → Forall (λ c, newline_char c = false) (encode e l).
Proof.
  intros He. induction l as [|a|a b|a b c l IH] using list_ind3; [constructor|..];
    pose proof (code_range a); try pose proof (code_range b); try pose proof (code_range c);
    cbn -[digit Z.mul padding]; repeat (constructor; [apply digit_newline; [done|euclid]|]);
    done || apply padding_newline.
Qed.

(** Line breaks anywhere in the text do not change what it decodes to. *)
Lemma decode_breaks e text l :
  std_or_url e → List.filter (λ c, negb (newline_char c)) text = encode e l →
  decode e text = Some l.
Proof. intros He Ht. unfold decode. rewrite Ht. by apply decode_groups_encode. Qed.

Lemma decode_encode e l : std_or_url e → decode e (encode e l) = Some l.
Proof.
  intros He. apply decode_breaks; [done|]. apply filter_all.
  eapply Forall_impl; [by apply encode_no_newline|]. simpl. by intros ? ->.
Qed.

Lemma DecodeString_EncodeToString e s :
  std_or_url e → DecodeString e (EncodeToString e s) = Ok s.
Proof.
  intros He. unfold DecodeString, EncodeToString.
  by rewrite explode_implode, decode_encode, implode_explode.
Qed.

(** The length of the encoding is fixed by the length of the data. *)
Lemma encode_length_std l :
  Z.of_nat (length (encode StdEncoding l)) = 4 * ((Z.of_nat (length l) + 2) / 3).
Proof.
  induction l as [|a|a b|a b c l IH] using list_ind3; try reflexivity.
  cbn [encode length]. rewrite !Nat2Z.inj_succ, IH. euclid.
Qed.

(** The encoding has no white space, so trimming it changes nothing. *)
Lemma encode_plain e l : std_or_url e → Forall (λ c, plain_ascii c = true) (encode e l).
Proof.
  intros He. induction l as [|a|a b|a b c l IH] using list_ind3; [constructor|..];
    pose proof (code_range a); try pose proof (code_range b); try pose proof (code_range c);
    cbn -[digit Z.mul padding]; repeat (constructor; [apply digit_facts; [done|euclid]|]);
    try done; unfold padding; destruct (enc_pad e); by repeat constructor.
Qed.

Lemma TrimSpace_EncodeToString e s : std_or_url e → TrimSpace (EncodeToString e s) = EncodeToString e s.
Proof. intros He. apply TrimSpace_plain. unfold EncodeToString. autorewrite with gostr. by apply encode_plain. Qed.

Lemma EncodeToString_nonempty e s : explode s ≠ [] → EncodeToString e s ≠ ""%string.
Proof.
  intros Hs H. unfold EncodeToString in H. apply (f_equal explode) in H. autorewrite with gostr in H.
  destruct (explode s) as [|a [|b [|c l]]]; done.
Qed.
