(* ===== verification/Smtp.v ===== *)
(** What the two SMTP servers share: the connection, reading and writing of
    lines, command splitting and the reading of message data
    (src/internal/smtpsubmission/server.go; src/internal/smtpforwarding/server.go
    has the same text for these functions).

    A connection is what the peer sends before and after STARTTLS, what the
    server wrote, and how many more writes and deadline calls succeed.  The end
    of the input stands for every read error (EOF, time-out, reset). *)
From S2P Require Import Prelude GoStrings.
Open Scope Z_scope.

(** * Connections *)
Record conn := Conn {
  c_in : list ascii;                        (** bytes not read yet *)
  c_out : list string;                      (** lines written *)
  c_writes : nat;                           (** writes that still succeed *)
  c_deadlines : nat;                        (** SetReadDeadline calls that succeed *)
  c_tls : option (list ascii * nat);        (** after a TLS handshake, if it succeeds *)
}.

(** [writeSMTPLine]: the buffered writer's first error is kept, so no later
    line is written either. *)
Definition writeSMTPLine (c : conn) (line : string) : conn * bool :=
  match c_writes c with
  | O => (c, false)
  | S n => (Conn (c_in c) (c_out c ++ [line]) n (c_deadlines c) (c_tls c), true)
  end.

(** A write whose result the caller ignores. *)
Definition reply (c : conn) (line : string) : conn := (writeSMTPLine c line).1.

Definition setSMTPReadDeadline (c : conn) (timeout : Z) : conn * bool :=
  if timeout <=? 0 then (c, true) else
  match c_deadlines c with
  | O => (c, false)
  | S n => (Conn (c_in c) (c_out c) (c_writes c) n (c_tls c), true)
  end.

Definition LF : ascii := "010".
Definition CR : ascii := "013".

(** Everything up to the first line feed, and the rest. *)
Fixpoint take_line (l : list ascii) : option (list ascii * list ascii) :=
  match l with
  | [] => None
  | c :: l =>
      if decide (c = LF) then Some ([c], l)
      else '(line, rest) ← take_line l; Some (c :: line, rest)
  end.

Definition with_input (c : conn) (l : list ascii) : conn :=
  Conn l (c_out c) (c_writes c) (c_deadlines c) (c_tls c).

(** [reader.ReadString('\n')]; [None] is an error. *)
Definition ReadString (c : conn) : conn * option string :=
  match take_line (c_in c) with
  | Some (line, rest) => (with_input c rest, Some (implode line))
  | None => (with_input c [], None)
  end.

(** * [reader.ReadSlice('\n')] on a buffer of 4096 bytes *)
Definition bufio_size : nat := Z.to_nat 4096.

Inductive slice :=
| Slice (fragment : list ascii) (lineComplete : bool) (rest : list ascii)
| SliceError.

Definition ReadSlice (size : nat) (l : list ascii) : slice :=
  match take_line (take size l) with
  | Some (fragment, _) => Slice fragment true (drop (length fragment) l)
  | None => if (size <=? length l)%nat then Slice (take size l) false (drop size l) else SliceError
  end.

(** * Message data *)
Definition isSMTPDataTerminator (line : list ascii) : bool :=
  bool_decide (line = ["."%char; CR; LF]) || bool_decide (line = ["."%char; LF]).

(** The unstuffing step: a first fragment that starts with two dots loses one. *)
Definition unstuff (fragment : list ascii) : list ascii :=
  match fragment with
  | "."%char :: ("."%char :: _) as rest => rest
  | _ => fragment
  end.

(** One fragment into the buffer, unless the message is or gets too large. *)
Definition absorb (maxBytes : Z) (buffer : list ascii) (tooLarge : bool) (fragment : list ascii)
    : list ascii * bool :=
  if tooLarge then (buffer, true)
  else if maxBytes <? Z.of_nat (length buffer + length fragment) then (buffer, true)
  else (buffer ++ fragment, false).

(** The two nested loops of [readData]: [first] is [firstFragment], which is
    true again after every complete line. *)
Fixpoint readData_loop (size : nat) (maxBytes : Z) (fuel : nat) (l buffer : list ascii)
    (tooLarge first : bool) : option (list ascii * bool * list ascii) :=
  match fuel with
  | O => None
  | S fuel =>
      match ReadSlice size l with
      | SliceError => None
      | Slice fragment lineComplete rest =>
          if first && lineComplete && isSMTPDataTerminator fragment
          then Some (buffer, tooLarge, rest)
          else
            let fragment := if first then unstuff fragment else fragment in
            let '(buffer, tooLarge) := absorb maxBytes buffer tooLarge fragment in
            readData_loop size maxBytes fuel rest buffer tooLarge lineComplete
      end
  end.

(** [readData]: the data, whether it was too large, and what follows.  Every
    fragment has a byte at least, so the input's length is enough fuel. *)
Definition readData (maxBytes : Z) (l : list ascii) : option (list ascii * bool * list ascii) :=
  readData_loop bufio_size maxBytes (S (length l)) l [] false true.

(** * Commands and arguments *)
Section commands.
Context `{U : Unicode}.

Definition splitCommand (line : string) : string * string :=
  let trimmedLine := TrimRight line (implode [CR; LF]) in
  let '(command, argument, hasArgument) := Cut trimmedLine " " in
  if hasArgument : bool then (ToUpper (TrimSpace command), TrimSpace argument)
  else (ToUpper (TrimSpace command), ""%string).

(** The text of [parseSMTPPath] up to the address parser: the path value and
    whether it was in angle brackets. *)
Definition extractSMTPPath (argument expectedPrefix : string) : result (string * bool) :=
  let trimmedArgument := TrimSpace argument in
  if negb (HasPrefix (ToUpper trimmedArgument) expectedPrefix)
  then Err (Text "missing smtp path prefix" []) else
  let path := TrimSpace (implode (drop (length (explode expectedPrefix)) (explode trimmedArgument))) in
  if HasPrefix path "<" then
    match find_b [">"%char] (explode path) with
    | None => Err (Text "unterminated smtp path" [])
    | Some (before, _) => Ok (implode (drop 1 before), true)
    end
  else
    match Fields path with
    | field :: _ => Ok (field, false)
    | [] => Ok (path, false)
    end.
End commands.

(** * Lines *)
Definition is_line (w : list ascii) : Prop := ∃ u, w = u ++ [LF] ∧ LF ∉ u.

Lemma take_line_spec u rest : LF ∉ u → take_line (u ++ LF :: rest) = Some (u ++ [LF], rest).
Proof.
  induction u as [|c u IH]; intros Hu; simpl; [done|].
  rewrite decide_False by set_solver. rewrite IH by set_solver. done.
Qed.

Lemma take_line_Some l w rest : take_line l = Some (w, rest) → is_line w ∧ l = w ++ rest.
Proof.
  revert w rest. induction l as [|c l IH]; intros w rest; simpl; [done|].
  case_decide as Hc.
  - intros [= <- <-]. subst. split; [|done]. exists []. split; [done|]. by intros ?%elem_of_nil.
  - destruct (take_line l) as [[w' rest']|] eqn:E; simpl; [|done]. intros [= <- <-].
    destruct (IH _ _ eq_refl) as [(u & -> & Hu) ->]. split; [|done].
    exists (c :: u). split; [done|]. set_solver.
Qed.

Lemma take_line_None l : take_line l = None ↔ LF ∉ l.
Proof.
  induction l as [|c l IH]; simpl. { split; [|done]. by intros _ ?%elem_of_nil. }
  case_decide as Hc; [split; [done|]; set_solver|].
  destruct (take_line l) as [[w r]|]; simpl.
  - split; [done|]. intros H. exfalso. assert (LF ∉ l) as Hl by set_solver. by apply IH in Hl.
  - split; [|done]. intros _. assert (LF ∉ l) by by apply IH. set_solver.
Qed.

Lemma is_line_pos w : is_line w → (0 < length w)%nat.
Proof. intros (u & -> & _). rewrite length_app. simpl. lia. Qed.

(** ** Fragments of a line *)
Lemma ReadSlice_whole size w rest :
  is_line w → (length w ≤ size)%nat → ReadSlice size (w ++ rest) = Slice w true rest.
Proof.
  intros (u & -> & Hu) Hlen. unfold ReadSlice.
  rewrite take_app_ge by done. rewrite <- app_assoc. simpl.
  rewrite take_line_spec by done. by rewrite drop_app_length.
Qed.

Lemma ReadSlice_part size w rest :
  is_line w → (size < length w)%nat →
  ReadSlice size (w ++ rest) = Slice (take size w) false (drop size w ++ rest).
Proof.
  intros (u & -> & Hu) Hlen. unfold ReadSlice. rewrite length_app in Hlen. simpl in Hlen.
  rewrite take_app_le by (rewrite length_app; simpl; lia).
  assert (take_line (take size (u ++ [LF])) = None) as ->.
  { apply take_line_None. rewrite take_app_le by lia. contradict Hu. rewrite <- (take_drop size u). set_solver. }
  destruct (Nat.leb_spec size (length ((u ++ [LF]) ++ rest))); [|rewrite !length_app in *; simpl in *; lia].
  by rewrite drop_app_le by (rewrite length_app; simpl; lia).
Qed.

Lemma is_line_drop size w : is_line w → (size < length w)%nat → is_line (drop size w).
Proof.
  intros (u & -> & Hu) Hlen. rewrite length_app in Hlen. simpl in Hlen.
  rewrite drop_app_le by lia. exists (drop size u). split; [done|].
  contradict Hu. rewrite <- (take_drop size u). set_solver.
Qed.

(** * The buffer against the whole message *)

(** [rep max d buffer tooLarge]: the data so far is [d]; the buffer is it, or it
    was given up because it exceeds [max]. *)
Definition rep (maxBytes : Z) (d buffer : list ascii) (tooLarge : bool) : Prop :=
  if tooLarge then maxBytes < Z.of_nat (length d)
  else buffer = d ∧ Z.of_nat (length d) ≤ maxBytes.

Lemma absorb_rep maxBytes d buffer tooLarge fragment :
  rep maxBytes d buffer tooLarge →
  rep maxBytes (d ++ fragment) (absorb maxBytes buffer tooLarge fragment).1
    (absorb maxBytes buffer tooLarge fragment).2.
Proof.
  unfold rep, absorb. destruct tooLarge; simpl; [rewrite length_app; lia|].
  intros [-> Hle]. destruct (Z.ltb_spec maxBytes (Z.of_nat (length d + length fragment))); simpl;
    rewrite length_app; [lia|split; [done|lia]].
Qed.

(** What one more line adds: unstuffed when it starts a line. *)
Definition line_data (first : bool) (w : list ascii) : list ascii :=
  if first then unstuff w else w.

Lemma unstuff_app u v : (2 ≤ length u)%nat → unstuff (u ++ v) = unstuff u ++ v.
Proof.
  destruct u as [|a [|b u]]; simpl; try lia. intros _.
  repeat match goal with |- context [match ?x with _ => _ end] => destruct x end; done.
Qed.

Lemma line_data_split first size w :
  (2 ≤ size)%nat → (size < length w)%nat →
  line_data first w = line_data first (take size w) ++ drop size w.
Proof.
  intros Hs Hw. unfold line_data. destruct first; [|by rewrite take_drop].
  rewrite <- (take_drop size w) at 1. apply unstuff_app. rewrite length_take. lia.
Qed.

Section reading.
Context (size : nat) (maxBytes : Z) (Hsize : (3 ≤ size)%nat).

(** A line that is not the terminator goes into the buffer, in however many
    fragments the reader's buffer cuts it. *)
Lemma readData_line fuel w rest d buffer tooLarge first :
  is_line w → rep maxBytes d buffer tooLarge →
  (first = true → isSMTPDataTerminator w = false) → (length (w ++ rest) < fuel)%nat →
  ∃ buffer' tooLarge' fuel', (length rest < fuel')%nat ∧
    rep maxBytes (d ++ line_data first w) buffer' tooLarge' ∧
    readData_loop size maxBytes fuel (w ++ rest) buffer tooLarge first =
      readData_loop size maxBytes fuel' rest buffer' tooLarge' true.
Proof.
  remember (length w) as n eqn:Hn. revert fuel w Hn d buffer tooLarge first.
  induction n as [n IH] using lt_wf_ind. intros fuel w -> d buffer tooLarge first Hw Hrep Hterm Hf.
  destruct fuel as [|fuel]; [lia|]. pose proof (is_line_pos w Hw). rewrite length_app in Hf.
  pose proof (absorb_rep maxBytes d buffer tooLarge) as Habs.
  destruct (decide (length w ≤ size)%nat) as [Hle|Hgt].
  - simpl. rewrite (ReadSlice_whole _ _ _ Hw Hle). simpl.
    assert (first && true && isSMTPDataTerminator w = false) as ->.
    { destruct first; [|done]. by rewrite Hterm. }
    specialize (Habs (line_data first w) Hrep). unfold line_data in *.
    destruct (absorb maxBytes buffer tooLarge _) as [b t]. simpl in *.
    exists b, t, fuel. split_and!; [lia|done|done].
  - simpl. rewrite (ReadSlice_part size w rest Hw) by lia.
    rewrite andb_false_r. simpl.
    specialize (Habs (line_data first (take size w)) Hrep). unfold line_data in Habs.
    destruct (absorb maxBytes buffer tooLarge _) as [b t]. simpl in *.
    destruct (IH (length (drop size w))
      ltac:(rewrite length_drop; lia) fuel (drop size w) eq_refl _ b t false
      ltac:(apply is_line_drop; [done|lia]) Habs ltac:(done)
      ltac:(rewrite length_app, length_drop; lia)) as (b' & t' & f' & Hf' & Hr' & ->).
    exists b', t', f'. split_and!; [done| |done].
    rewrite (line_data_split first size) by lia. by rewrite app_assoc.
Qed.

Lemma readData_lines lines rest fuel d buffer tooLarge :
  Forall is_line lines → Forall (λ w, isSMTPDataTerminator w = false) lines →
  rep maxBytes d buffer tooLarge → (length (concat lines ++ rest) < fuel)%nat →
  ∃ buffer' tooLarge' fuel', (length rest < fuel')%nat ∧
    rep maxBytes (d ++ concat (unstuff <$> lines)) buffer' tooLarge' ∧
    readData_loop size maxBytes fuel (concat lines ++ rest) buffer tooLarge true =
      readData_loop size maxBytes fuel' rest buffer' tooLarge' true.
Proof.
  intros Hl. revert fuel d buffer tooLarge.
  induction Hl as [|w lines Hw Hl IH]; intros fuel d buffer tooLarge Ht Hrep Hf.
  - exists buffer, tooLarge, fuel. simpl. by rewrite app_nil_r.
  - apply Forall_cons in Ht as [Htw Ht]. simpl in *. rewrite <- app_assoc in *.
    destruct (readData_line fuel w (concat lines ++ rest) d buffer tooLarge true Hw Hrep
      (λ _, Htw) Hf) as (b1 & t1 & f1 & Hf1 & Hr1 & ->).
    destruct (IH f1 _ b1 t1 Ht Hr1 Hf1) as (b2 & t2 & f2 & Hf2 & Hr2 & ->).
    exists b2, t2, f2. simpl in Hr2. rewrite <- app_assoc in Hr2. done.
Qed.

Lemma terminator_line w : isSMTPDataTerminator w = true → is_line w ∧ (length w ≤ 3)%nat.
Proof.
  unfold isSMTPDataTerminator. intros [H|H]%orb_true_iff; to_prop; subst w; (split; [|simpl; lia]).
  - exists ["."%char; CR]. split; [done|]. set_solver.
  - exists ["."%char]. split; [done|]. set_solver.
Qed.

Lemma readData_terminator w rest fuel buffer tooLarge :
  isSMTPDataTerminator w = true → (0 < fuel)%nat →
  readData_loop size maxBytes fuel (w ++ rest) buffer tooLarge true = Some (buffer, tooLarge, rest).
Proof.
  intros Hw Hf. destruct (terminator_line w Hw) as [Hline Hlen].
  destruct fuel as [|fuel]; [lia|]. simpl. rewrite ReadSlice_whole by (done || lia).
  by rewrite Hw.
Qed.

(** Without another line feed the reader fails. *)
Lemma readData_tail fuel tail buffer tooLarge first :
  LF ∉ tail → readData_loop size maxBytes fuel tail buffer tooLarge first = None.
Proof.
  revert tail buffer tooLarge first. induction fuel as [|fuel IH]; intros tail buffer tooLarge first Ht; [done|].
  simpl. unfold ReadSlice.
  assert (take_line (take size tail) = None) as ->.
  { apply take_line_None. contradict Ht. rewrite <- (take_drop size tail). set_solver. }
  destruct (size <=? length tail)%nat; [|done]. rewrite andb_false_r. simpl.
  destruct (absorb _ _ _ _). apply IH. contradict Ht. rewrite <- (take_drop size tail). set_solver.
Qed.
End reading.

(** * The reference: lines up to the first terminator *)
Fixpoint split_lines (fuel : nat) (l : list ascii) : list (list ascii) * list ascii :=
  match fuel with
  | O => ([], l)
  | S fuel =>
      match take_line l with
      | None => ([], l)
      | Some (w, rest) => let '(ws, tail) := split_lines fuel rest in (w :: ws, tail)
      end
  end.

Fixpoint message_lines (lines : list (list ascii)) : option (list (list ascii) * list (list ascii)) :=
  match lines with
  | [] => None
  | w :: ws =>
      if isSMTPDataTerminator w then Some ([], ws)
      else '(msg, after) ← message_lines ws; Some (w :: msg, after)
  end.

Lemma split_lines_spec fuel l ws tail :
  (length l < fuel)%nat → split_lines fuel l = (ws, tail) →
  l = concat ws ++ tail ∧ Forall is_line ws ∧ LF ∉ tail.
Proof.
  revert l ws tail. induction fuel as [|fuel IH]; intros l ws tail Hf; simpl; [lia|].
  destruct (take_line l) as [[w rest]|] eqn:E.
  - apply take_line_Some in E as [Hw ->]. pose proof (is_line_pos w Hw). rewrite length_app in Hf.
    destruct (split_lines fuel rest) as [ws' tail'] eqn:E'. intros [= <- <-].
    destruct (IH rest ws' tail' ltac:(lia) E') as (-> & Hws & Ht).
    split_and!; [simpl; by rewrite app_assoc|by constructor|done].
  - intros [= <- <-]. apply take_line_None in E. done.
Qed.

Lemma message_lines_Some ws msg after :
  message_lines ws = Some (msg, after) →
  ∃ t, isSMTPDataTerminator t = true ∧ ws = msg ++ t :: after ∧
       Forall (λ w, isSMTPDataTerminator w = false) msg.
Proof.
  revert msg after. induction ws as [|w ws IH]; intros msg after; simpl; [done|].
  destruct (isSMTPDataTerminator w) eqn:E.
  - intros [= <- <-]. exists w. split_and!; [done|done|constructor].
  - destruct (message_lines ws) as [[m a]|]; simpl; [|done]. intros [= <- <-].
    destruct (IH m a eq_refl) as (t & Ht & -> & Hm). exists t. split_and!; [done|done|by constructor].
Qed.

Lemma message_lines_None ws :
  message_lines ws = None → Forall (λ w, isSMTPDataTerminator w = false) ws.
Proof.
  induction ws as [|w ws IH]; simpl; [constructor|].
  destruct (isSMTPDataTerminator w) eqn:E; [done|].
  destruct (message_lines ws) as [[m a]|]; simpl; [done|]. by constructor; auto.
Qed.

Lemma rep_init maxBytes : 0 ≤ maxBytes → rep maxBytes [] [] false.
Proof. done. Qed.

Lemma bufio_size_ge : (3 ≤ bufio_size)%nat.
Proof. unfold bufio_size. lia. Qed.

(** C13: [readData] is exact and does not depend on how the 4096-byte read
    buffer cuts long lines.  On an input that is the lines [ws] and an unfinished
    [tail], it fails exactly when no line is a terminator; otherwise it stops
    after the first terminator, reports [tooLarge] exactly when the unstuffed
    lines before it exceed the limit in total, and else returns those lines. *)
Theorem readData_exact maxBytes l :
  0 ≤ maxBytes →
  let '(ws, tail) := split_lines (S (length l)) l in
  match message_lines ws with
  | None => readData maxBytes l = None
  | Some (msg, after) =>
      let data := concat (unstuff <$> msg) in
      ∃ buffer,
        readData maxBytes l =
          Some (buffer, maxBytes <? Z.of_nat (length data), concat after ++ tail) ∧
        (Z.of_nat (length data) ≤ maxBytes → buffer = data)
  end.
Proof.
  intros Hmax. destruct (split_lines (S (length l)) l) as [ws tail] eqn:E.
  destruct (split_lines_spec _ _ _ _ (Nat.lt_succ_diag_r _) E) as (Hl & Hws & Ht).
  pose proof bufio_size_ge as Hs. unfold readData. clear E.
  assert (length l < S (length l))%nat as Hfuel by lia. revert Hfuel.
  generalize (S (length l)) as fuel. intros fuel Hfuel. subst l.
  destruct (message_lines ws) as [[msg after]|] eqn:Em.
  - destruct (message_lines_Some _ _ _ Em) as (t & Htt & -> & Hmsg).
    apply Forall_app in Hws as [Hlm _]. rewrite concat_app, <- app_assoc in *. simpl in *.
    destruct (readData_lines bufio_size maxBytes Hs msg ((t ++ concat after) ++ tail)
      fuel [] [] false Hlm Hmsg (rep_init _ Hmax) Hfuel)
      as (b & tl & f & Hf & Hr & Heq).
    rewrite Heq, <- app_assoc, readData_terminator by (done || lia).
    exists b. unfold rep in Hr. simpl in Hr. destruct tl.
    + split; [|lia]. repeat f_equal. symmetry. by apply Z.ltb_lt.
    + destruct Hr as [-> Hle]. split; [|done]. repeat f_equal. symmetry. by apply Z.ltb_ge.
  - apply message_lines_None in Em.
    destruct (readData_lines bufio_size maxBytes Hs ws tail fuel [] [] false Hws Em
      (rep_init _ Hmax) Hfuel) as (b & tl & f & Hf & Hr & Heq).
    rewrite Heq. by apply readData_tail.
Qed.

(** * Lemmas: reading never gives bytes back *)
Definition conn_le (c' c : conn) : Prop :=
  (length (c_in c') ≤ length (c_in c))%nat ∧ c_tls c' = c_tls c.

#[export] Instance conn_le_preorder : PreOrder conn_le.
Proof.
  split; [by intros c; split|]. intros a b c [H1 T1] [H2 T2]. split; [lia|congruence].
Qed.

Lemma reply_le c line : conn_le (reply c line) c.
Proof. unfold reply, writeSMTPLine. destruct (c_writes c); split; done. Qed.
Lemma write_le c line c' ok : writeSMTPLine c line = (c', ok) → conn_le c' c.
Proof. intros E. pose proof (reply_le c line) as H. unfold reply in H. by rewrite E in H. Qed.
Lemma deadline_le c t c' ok : setSMTPReadDeadline c t = (c', ok) → conn_le c' c.
Proof.
  unfold setSMTPReadDeadline. destruct (t <=? 0); [|destruct (c_deadlines c)];
    intros [= <- <-]; split; done.
Qed.
Lemma ReadString_le c c' line :
  ReadString c = (c', line) →
  conn_le c' c ∧ (is_Some line → (length (c_in c') < length (c_in c))%nat).
Proof.
  unfold ReadString. destruct (take_line (c_in c)) as [[w rest]|] eqn:E; intros [= <- <-].
  - apply take_line_Some in E as [Hw Hc]. pose proof (is_line_pos w Hw).
    split; [split; [|done]|]; simpl; rewrite Hc, length_app; [lia|intros _; lia].
  - split; [split; [simpl; lia|done]|]. intros [? [=]].
Qed.

Lemma readData_loop_rest size maxBytes fuel l buffer tl first b t rest :
  readData_loop size maxBytes fuel l buffer tl first = Some (b, t, rest) →
  (length rest ≤ length l)%nat.
Proof.
  revert l buffer tl first. induction fuel as [|fuel IH]; intros l buffer tl first; simpl; [done|].
  destruct (ReadSlice size l) as [fragment complete rest'|] eqn:E; [|done].
  assert (length rest' ≤ length l)%nat.
  { unfold ReadSlice in E. repeat (case_match; simplify_eq/=); rewrite length_drop; lia. }
  case_match; [intros; by simplify_eq|]. destruct (absorb _ _ _ _). intros H'. apply IH in H'. lia.
Qed.

(** The buffer never outgrows the limit. *)
Lemma readData_bound maxBytes l b t rest :
  0 ≤ maxBytes → readData maxBytes l = Some (b, t, rest) → Z.of_nat (length b) ≤ maxBytes.
Proof.
  intros Hmax. unfold readData. assert (Z.of_nat (length (@nil ascii)) ≤ maxBytes) as H by (simpl; lia).
  revert H. generalize (@nil ascii) as buffer. generalize (S (length l)) as fuel. intros fuel.
  generalize false as tl. generalize true as first. revert l.
  induction fuel as [|fuel IH]; intros l first tl buffer Hb; simpl; [done|].
  destruct (ReadSlice bufio_size l) as [fragment complete rest'|]; [|done].
  case_match; [intros; by simplify_eq|].
  destruct (absorb maxBytes buffer tl _) as [b' t'] eqn:E. apply IH.
  assert (b' = (absorb maxBytes buffer tl (if first then unstuff fragment else fragment)).1) as ->
    by by rewrite E.
  unfold absorb. destruct tl; [done|]. destruct (maxBytes <? _) eqn:Elt; [done|].
  to_prop. simpl. rewrite length_app. lia.
Qed.

Lemma with_input_le c l : (length l ≤ length (c_in c))%nat → conn_le (with_input c l) c.
Proof. by split. Qed.
Lemma with_no_input_le c : conn_le (with_input c []) c.
Proof. apply with_input_le. simpl. lia. Qed.
Lemma readData_le maxBytes c b t rest :
  readData maxBytes (c_in c) = Some (b, t, rest) → conn_le (with_input c rest) c.
Proof. intros H. eapply with_input_le, readData_loop_rest, H. Qed.
#[export] Hint Resolve reply_le write_le deadline_le with_no_input_le readData_le : pinguin.

(** Solve [conn_le] goals by chaining the steps the handler took. *)
Ltac conn_chain :=
  repeat match goal with
  | H : readData _ (c_in _) = Some _ |- _ => apply readData_le in H
  | |- conn_le (with_input _ []) _ => etransitivity; [apply with_no_input_le|]
  | H : writeSMTPLine _ _ = _ |- _ => apply write_le in H
  | H : setSMTPReadDeadline _ _ = _ |- _ => apply deadline_le in H
  | H : ReadString _ = _ |- _ => apply ReadString_le in H as [? _]
  | |- conn_le (reply _ _) _ => etransitivity; [apply reply_le|]
  | |- conn_le ?x ?x => reflexivity
  | H : conn_le ?x ?y |- conn_le ?x _ => etransitivity; [exact H|]; clear H
  end.

(** What is left to read, in both phases of the connection. *)
Definition conn_measure (c : conn) : nat :=
  length (c_in c) + match c_tls c with Some (l, _) => S (length l) | None => 0 end.

Lemma conn_le_measure c' c : conn_le c' c → (conn_measure c' ≤ conn_measure c)%nat.
Proof. intros [H1 H2]. unfold conn_measure. rewrite H2. lia. Qed.

#[export] Hint Resolve conn_le_measure : pinguin.

(** ** The client's side of the protocol: RFC 5321 dot-stuffing *)
Definition stuff (w : list ascii) : list ascii :=
  match w with "."%char :: _ => "."%char :: w | _ => w end.

Lemma stuff_cases w : (∃ v, w = "."%char :: v ∧ stuff w = "."%char :: w) ∨
                      (stuff w = w ∧ unstuff w = w ∧ isSMTPDataTerminator w = false).
Proof.
  destruct w as [|c w]; [by right|].
  destruct (decide (c = "."%char)) as [->|Hc]; [left; eauto|right].
  assert (stuff (c :: w) = c :: w ∧ unstuff (c :: w) = c :: w) as [-> ->].
  { destruct c as [[] [] [] [] [] [] [] []]; done. }
  split_and!; [done..|]. unfold isSMTPDataTerminator.
  rewrite !bool_decide_false by congruence. done.
Qed.

Lemma unstuff_stuff w : unstuff (stuff w) = w.
Proof. destruct (stuff_cases w) as [(v & -> & ->)|(-> & -> & _)]; done. Qed.

Lemma stuff_not_terminator w : isSMTPDataTerminator (stuff w) = false.
Proof.
  destruct (stuff_cases w) as [(v & -> & ->)|(-> & _ & H)]; [|done].
  unfold isSMTPDataTerminator. by rewrite !bool_decide_false by done.
Qed.

Lemma stuff_line w : is_line w → is_line (stuff w).
Proof.
  intros (u & -> & Hu). destruct (stuff_cases (u ++ [LF])) as [(v & Hv & ->)|(-> & _)].
  - exists ("."%char :: u). split; [done|]. set_solver.
  - by exists u.
Qed.

(** A message of complete lines that a client sends dot-stuffed, followed by
    the terminator line, is read back byte for byte when it is within the size
    limit, and the reader stops right after the terminator. *)
Theorem readData_roundtrip maxBytes lines rest :
  Forall is_line lines → Z.of_nat (length (concat lines)) ≤ maxBytes →
  readData maxBytes (concat (stuff <$> lines) ++ ["."%char; CR; LF] ++ rest) =
    Some (concat lines, false, rest).
Proof.
  intros Hl Hmax. pose proof bufio_size_ge as Hs. unfold readData.
  destruct (readData_lines bufio_size maxBytes Hs (stuff <$> lines) (["."%char; CR; LF] ++ rest)
    _ [] [] false
    ltac:(apply Forall_fmap; eapply Forall_impl; [exact Hl|]; intros; by apply stuff_line)
    ltac:(apply Forall_fmap; apply Forall_true; intros; apply stuff_not_terminator)
    (rep_init maxBytes ltac:(lia)) (Nat.lt_succ_diag_r _)) as (b & tl & f & Hf & Hr & ->).
  rewrite readData_terminator by (done || lia).
  assert (unstuff <$> (stuff <$> lines) = lines) as Hu.
  { rewrite <- list_fmap_compose. rewrite <- (list_fmap_id lines) at 2.
    apply list_fmap_ext. intros ? w _. apply unstuff_stuff. }
  rewrite Hu in Hr. unfold rep in Hr. simpl in Hr. destruct tl; [lia|].
  destruct Hr as [-> _]. done.
Qed.

Lemma readData_exact_witness :
  readData 3 (explode "..a" ++ LF :: explode "bc" ++ [LF; "."%char; LF]) =
    Some (explode ".a" ++ [LF], true, []).
Proof.
  pose proof (readData_exact 3 (explode "..a" ++ LF :: explode "bc" ++ [LF; "."%char; LF])
    ltac:(lia)) as H.
  vm_compute in H. destruct H as (b & H & _). vm_compute. reflexivity.
Defined.

Lemma readData_roundtrip_witness :
  readData 100 (explode "..a" ++ LF :: ["."%char; CR; LF]) = Some (explode ".a" ++ [LF], false, []).
Proof.
  refine (readData_roundtrip 100 [explode ".a" ++ [LF]] [] _ _); [|vm_compute; discriminate].
  constructor; [|constructor]. exists (explode ".a"). split; [done|]. by apply take_line_None.
Defined.
