(* ===== verification/Submission.v ===== *)
(** The SMTP submission server (src/internal/smtpsubmission/server.go and
    types.go): configuration defaults, the command handlers and the session
    loop.

    The [Authenticator], the [RawRelay] and the clock are the class [Env] over a
    world [W] that they may change.  [server] is what sessions share: the
    throttle and the world.  A handler maps the server, the connection and the
    session to those after it; the reply lines are in the connection. *)
From S2P Require Import Prelude GoStrings Throttle Address Base64 Smtp.
Open Scope Z_scope.

(** * types.go *)
Definition ErrRelayTemporary : error := New "smtp_submission.relay_temporary".
Definition ErrRelayPermanent : error := New "smtp_submission.relay_permanent".

Record RawMessage := MkRawMessage {
  IdentityID : string;
  From : Address;
  Recipients : list Address;
  Data : list ascii;
}.

Definition RecipientStrings (message : RawMessage) : list string :=
  String_ <$> Recipients message.

(** The interfaces [Authenticator] and [RawRelay], and [time.Now]. *)
Class Env (W : Type) := {
  Now : W → Time * W;
  Authenticate : W → string → string → W * result AuthenticatedIdentity;
  Relay : W → RawMessage → W * result unit;
}.

(** * Configuration *)
Record Config := MkConfig {
  Hostname : string;
  ListenAddr : string;
  TLSListenAddr : string;
  TLSConfig : bool;              (** whether one is set *)
  MaxMessageBytes : Z;
  MaxRecipients : Z;
  CommandTimeout : Z;
  Limits : throttleLimits;
  AllowInsecureAuth : bool;
  hasAuthenticator : bool;
  hasRelay : bool;
  hasLogger : bool;
}.

Definition NewServer (cfg : Config) : result (Config * smtpThrottle) :=
  guard_err (bool_decide (TrimSpace (Hostname cfg) = ""%string))
    (Text "smtp submission: hostname is required" []);;
  guard_err (negb (hasAuthenticator cfg)) (Text "smtp submission: authenticator is required" []);;
  guard_err (negb (hasRelay cfg)) (Text "smtp submission: relay is required" []);;
  guard_err (negb (hasLogger cfg)) (Text "smtp submission: logger is required" []);;
  guard_err (bool_decide (TrimSpace (TLSListenAddr cfg) ≠ ""%string) && negb (TLSConfig cfg))
    (Text "smtp submission: tls listener requires tls config" []);;
  guard_err (bool_decide (TrimSpace (ListenAddr cfg) ≠ ""%string)
             && negb (AllowInsecureAuth cfg) && negb (TLSConfig cfg))
    (Text "smtp submission: starttls listener requires tls config" []);;
  let l := Limits cfg in
  let limits := ThrottleLimits
    (positive_or (lim_MaxConcurrentSessions l) 200)
    (positive_or (lim_MaxSessionsPerRemoteHost l) 20)
    (positive_or (lim_AuthFailureLimit l) 5)
    (positive_or (lim_AuthFailureWindow l) (10 * Minute))
    (positive_or (lim_MessageLimit l) 60)
    (positive_or (lim_MessageWindow l) (60 * Minute)) in
  let cfg := MkConfig (Hostname cfg) (ListenAddr cfg) (TLSListenAddr cfg) (TLSConfig cfg)
    (positive_or (MaxMessageBytes cfg) (25 * 1024 * 1024))
    (positive_or (MaxRecipients cfg) 100)
    (positive_or (CommandTimeout cfg) (2 * Minute))
    limits (AllowInsecureAuth cfg) (hasAuthenticator cfg) (hasRelay cfg) (hasLogger cfg) in
  Ok (cfg, newSMTPThrottle limits).

(** * Sessions *)
Record sessionState := MkSession {
  secure : bool;
  authenticated : option AuthenticatedIdentity;
  mailFrom : option Address;
  recipients : list Address;
}.
Definition clear_mail (s : sessionState) : sessionState :=
  MkSession (secure s) (authenticated s) None [].

Inductive smtpAuthResult :=
| smtpAuthAccepted (identity : AuthenticatedIdentity) | smtpAuthRejected | smtpAuthThrottled.
Inductive smtpRelayStatus :=
| smtpRelayAccepted | smtpRelayThrottled | smtpRelayRejectedPermanent | smtpRelayRejectedTemporary.

Record server (W : Type) := MkServer { throttle : smtpThrottle; outside : W }.
Arguments MkServer {W} throttle outside.
Arguments throttle {W} s.
Arguments outside {W} s.

Section handlers.
Context `{U : Unicode} `{M : NetMail} {W : Type} `{E : Env W}.
Context (cfg : Config).

(** ** Parsing *)
Definition splitAuthArgument (argument : string) : string * string :=
  let '(mechanism, payload, hasPayload) := Cut (TrimSpace argument) " " in
  if hasPayload : bool then (ToUpper (TrimSpace mechanism), TrimSpace payload)
  else (ToUpper mechanism, ""%string).

Definition parseSMTPPath (argument expectedPrefix : string) : result Address :=
  path ← extractSMTPPath argument expectedPrefix; NewAddress path.1.

Definition parseMessageFrom (data : list ascii) : result Address :=
  header ← ReadMessage data; ParseHeaderFromAddress (Header_Get header "From").

(** ** EHLO *)
Definition handleHello (c : conn) (session : sessionState) : conn :=
  let lines :=
    ["250-" ++ Hostname cfg; "250-SIZE " ++ pretty (MaxMessageBytes cfg)]%string
    ++ (if negb (secure session) && TLSConfig cfg then ["250-STARTTLS"%string] else [])
    ++ (if secure session || AllowInsecureAuth cfg then ["250-AUTH PLAIN LOGIN"%string] else [])
    ++ ["250 OK"%string] in
  foldl reply c lines.

(** ** AUTH *)
Definition readPlainAuth (c : conn) (payload : string) : conn * result (string * string) :=
  let finish (c : conn) (payload : string) :=
    (c, decoded ← DecodeString StdEncoding (TrimSpace payload);
        match split_b "000"%char (explode decoded) with
        | [_; username; password] => Ok (implode username, implode password)
        | _ => Err (Text "invalid plain auth" [])
        end) in
  if decide (TrimSpace payload = ""%string) then
    let '(c, ok) := writeSMTPLine c "334 " in
    if negb ok then (c, Err (Text "write" [])) else
    let '(c, line) := ReadString c in
    match line with
    | None => (c, Err (Text "read" []))
    | Some line => finish c (TrimSpace line)
    end
  else finish c payload.

Definition readLoginAuth (c : conn) (payload : string) : conn * result (string * string) :=
  let readPassword (c : conn) (usernamePayload : string) :=
    match DecodeString StdEncoding usernamePayload with
    | Err e => (c, Err e)
    | Ok username =>
        let '(c, ok) := writeSMTPLine c ("334 " ++ EncodeToString StdEncoding "Password:") in
        if negb ok then (c, Err (Text "write" [])) else
        let '(c, line) := ReadString c in
        match line with
        | None => (c, Err (Text "read" []))
        | Some passwordLine =>
            (c, password ← DecodeString StdEncoding (TrimSpace passwordLine); Ok (username, password))
        end
    end in
  let usernamePayload := TrimSpace payload in
  if decide (usernamePayload = ""%string) then
    let '(c, ok) := writeSMTPLine c ("334 " ++ EncodeToString StdEncoding "Username:") in
    if negb ok then (c, Err (Text "write" [])) else
    let '(c, line) := ReadString c in
    match line with
    | None => (c, Err (Text "read" []))
    | Some line => readPassword c (TrimSpace line)
    end
  else readPassword c usernamePayload.

Definition completeAuthAttempt (srv : server W) (remoteHost : string)
    (credentials : result (string * string)) : server W * smtpAuthResult :=
  let '(username, password) := match credentials with Ok up => up | Err _ => (""%string, ""%string) end in
  let '(now, w) := Now (outside srv) in
  let '(t, reservation) := reserveAuthAttempt (throttle srv) remoteHost username now in
  match reservation with
  | None => (MkServer t w, smtpAuthThrottled)
  | Some key =>
      match credentials with
      | Err _ => (MkServer t w, smtpAuthRejected)
      | Ok _ =>
          let '(w, r) := Authenticate w username password in
          match r with
          | Err _ => (MkServer t w, smtpAuthRejected)
          | Ok identity => (MkServer (clearAuthFailures t key) w, smtpAuthAccepted identity)
          end
      end
  end.

Definition handleAuth (srv : server W) (c : conn) (session : sessionState)
    (argument remoteHost : string) : server W * conn * sessionState :=
  match authenticated session with
  | Some _ => (srv, reply c "503 Already authenticated", session)
  | None =>
      if negb (secure session) && negb (AllowInsecureAuth cfg)
      then (srv, reply c "530 Must issue STARTTLS first", session) else
      let '(mechanism, payload) := splitAuthArgument argument in
      let attempt (c : conn) (credentials : result (string * string)) :=
        let '(srv, authResult) := completeAuthAttempt srv remoteHost credentials in
        match authResult with
        | smtpAuthThrottled => (srv, reply c "454 Authentication temporarily throttled", session)
        | smtpAuthRejected => (srv, reply c "535 Authentication failed", session)
        | smtpAuthAccepted identity =>
            (srv, reply c "235 Authentication successful",
             MkSession (secure session) (Some identity) (mailFrom session) (recipients session))
        end in
      if decide (mechanism = "PLAIN"%string) then
        let '(c, credentials) := readPlainAuth c payload in attempt c credentials
      else if decide (mechanism = "LOGIN"%string) then
        let '(c, credentials) := readLoginAuth c payload in attempt c credentials
      else (srv, reply c "504 Authentication mechanism unsupported", session)
  end.

(** ** MAIL and RCPT *)
Definition handleMail (c : conn) (session : sessionState) (argument : string)
    : conn * sessionState :=
  match authenticated session with
  | None => (reply c "530 Authentication required", session)
  | Some identity =>
      match parseSMTPPath argument "FROM:" with
      | Err _ => (reply c "501 Invalid sender", session)
      | Ok address =>
          if negb (Equals address (ai_EmailAddress identity))
          then (reply c "553 Sender not authorized", session)
          else (reply c "250 OK",
                MkSession (secure session) (authenticated session) (Some address) [])
      end
  end.

Definition handleRecipient (c : conn) (session : sessionState) (argument : string)
    : conn * sessionState :=
  match mailFrom session with
  | None => (reply c "503 Need MAIL FROM first", session)
  | Some _ =>
      if MaxRecipients cfg <=? Z.of_nat (length (recipients session))
      then (reply c "452 Too many recipients", session) else
      match parseSMTPPath argument "TO:" with
      | Err _ => (reply c "501 Invalid recipient", session)
      | Ok address =>
          (reply c "250 OK",
           MkSession (secure session) (authenticated session) (mailFrom session)
             (recipients session ++ [address]))
      end
  end.

(** ** DATA *)
Definition relayAcceptedMessage (srv : server W) (message : RawMessage)
    : server W * smtpRelayStatus :=
  let '(now, w) := Now (outside srv) in
  let '(t, reservation) := reserveAcceptedMessage (throttle srv) (IdentityID message) now in
  match reservation with
  | None => (MkServer t w, smtpRelayThrottled)
  | Some r =>
      let '(w, relayErr) := Relay w message in
      match relayErr with
      | Ok _ => (MkServer t w, smtpRelayAccepted)
      | Err e =>
          (MkServer (cancelMessageReservation t (res_key r) (res_reservedAt r)) w,
           if errors_Is e ErrRelayPermanent then smtpRelayRejectedPermanent
           else smtpRelayRejectedTemporary)
      end
  end.

Definition relay_reply (status : smtpRelayStatus) : string :=
  match status with
  | smtpRelayThrottled => "452 Message rate limit exceeded"
  | smtpRelayRejectedPermanent => "554 Message rejected"
  | smtpRelayRejectedTemporary => "451 Requested action aborted"
  | smtpRelayAccepted => "250 Message accepted"
  end.

Definition handleData (srv : server W) (c : conn) (session : sessionState)
    : server W * conn * sessionState :=
  match authenticated session, mailFrom session, recipients session with
  | Some identity, Some _, _ :: _ =>
      let '(c, ok) := writeSMTPLine c "354 End data with <CR><LF>.<CR><LF>" in
      if negb ok then (srv, c, session) else
      let '(c, ok) := setSMTPReadDeadline c (CommandTimeout cfg) in
      if negb ok then (srv, c, session) else
      match readData (MaxMessageBytes cfg) (c_in c) with
      | None => (srv, with_input c [], session)
      | Some (data, tooLarge, rest) =>
          let c := with_input c rest in
          if tooLarge : bool then (srv, reply c "552 Message too large", clear_mail session) else
          let authorized :=
            match parseMessageFrom data with
            | Err _ => false
            | Ok headerAddress => Equals headerAddress (ai_EmailAddress identity)
            end in
          if negb authorized then (srv, reply c "553 Sender not authorized", clear_mail session) else
          let '(srv, relayStatus) := relayAcceptedMessage srv
            (MkRawMessage (ai_ID identity) (ai_EmailAddress identity) (recipients session) data) in
          (srv, reply c (relay_reply relayStatus), clear_mail session)
      end
  | _, _, _ => (srv, reply c "503 Need MAIL FROM and RCPT TO first", session)
  end.

(** ** The session loop *)

(** One command; the flag says whether the loop goes on. *)
Definition handle_command (srv : server W) (c : conn) (session : sessionState)
    (remoteHost line : string) : server W * conn * sessionState * bool :=
  let '(command, argument) := splitCommand line in
  if decide (command = "EHLO"%string ∨ command = "HELO"%string) then
    (srv, handleHello c session, session, true)
  else if decide (command = "STARTTLS"%string) then
    if secure session then (srv, reply c "503 TLS already active", session, true) else
    if negb (TLSConfig cfg) then (srv, reply c "454 TLS not available", session, true) else
    let '(c, ok) := writeSMTPLine c "220 Ready to start TLS" in
    if negb ok then (srv, c, session, false) else
    match c_tls c with
    | None => (srv, c, session, false)
    | Some (input, writes) =>
        (srv, Conn input (c_out c) writes (c_deadlines c) None, MkSession true None None [], true)
    end
  else if decide (command = "AUTH"%string) then
    (handleAuth srv c session argument remoteHost, true)
  else if decide (command = "MAIL"%string) then
    let '(c, session) := handleMail c session argument in (srv, c, session, true)
  else if decide (command = "RCPT"%string) then
    let '(c, session) := handleRecipient c session argument in (srv, c, session, true)
  else if decide (command = "DATA"%string) then (handleData srv c session, true)
  else if decide (command = "RSET"%string) then (srv, reply c "250 OK", clear_mail session, true)
  else if decide (command = "NOOP"%string) then (srv, reply c "250 OK", session, true)
  else if decide (command = "QUIT"%string) then (srv, reply c "221 Bye", session, false)
  else (srv, reply c "502 Command not implemented", session, true).

(** The [for] loop; [None] is lack of fuel. *)
Fixpoint session_loop (fuel : nat) (srv : server W) (c : conn) (session : sessionState)
    (remoteHost : string) : option (server W * conn * sessionState) :=
  match fuel with
  | O => None
  | S fuel =>
      let '(c, ok) := setSMTPReadDeadline c (CommandTimeout cfg) in
      if negb ok then Some (srv, c, session) else
      let '(c, line) := ReadString c in
      match line with
      | None => Some (srv, c, session)
      | Some line =>
          let '(srv, c, session, continue) := handle_command srv c session remoteHost line in
          if continue : bool then session_loop fuel srv c session remoteHost
          else Some (srv, c, session)
      end
  end.

Definition handleConnection (srv : server W) (c : conn) (implicitTLS : bool) (remoteHost : string)
    : option (server W * conn * sessionState) :=
  let session := MkSession implicitTLS None None [] in
  let '(c, ok) := writeSMTPLine c ("220 " ++ Hostname cfg ++ " Pinguin SMTP submission ready") in
  if negb ok then Some (srv, c, session)
  else session_loop (S (conn_measure c)) srv c session remoteHost.
End handlers.

(** One accepted connection of [Serve]: a slot of the throttle is taken, the
    session runs, and the deferred release gives the slot back. *)
Definition serve_connection `{U : Unicode} `{M : NetMail} {W : Type} `{E : Env W} (cfg : Config)
    (srv : server W) (c : conn) (implicitTLS : bool) (remoteHost : string) : option (server W * conn) :=
  match acquireSession (throttle srv) remoteHost with
  | Err _ => Some (srv, reply c "421 Too many concurrent SMTP sessions")
  | Ok (key, t) =>
      '(srv, c, _) ← handleConnection cfg (MkServer t (outside srv)) c implicitTLS remoteHost;
      Some (MkServer (releaseSession (throttle srv) key) (outside srv), c)
  end.

(** * Lemmas on the handlers *)
Section handler_lemmas.
Context `{U : Unicode} `{M : NetMail} {W : Type} `{E : Env W} (cfg : Config).

Lemma readPlainAuth_le c payload c' r : readPlainAuth c payload = (c', r) → conn_le c' c.
Proof. unfold readPlainAuth. intros H. repeat (case_match; simplify_eq/=); conn_chain. Qed.

Lemma readLoginAuth_le c payload c' r : readLoginAuth c payload = (c', r) → conn_le c' c.
Proof. unfold readLoginAuth. intros H. repeat (case_match; simplify_eq/=); conn_chain. Qed.

Lemma handleHello_le c s : conn_le (handleHello cfg c s) c.
Proof.
  unfold handleHello. generalize (["250-" ++ Hostname cfg; "250-SIZE " ++ pretty (MaxMessageBytes cfg)]%string
    ++ (if negb (secure s) && TLSConfig cfg then ["250-STARTTLS"%string] else [])
    ++ (if secure s || AllowInsecureAuth cfg then ["250-AUTH PLAIN LOGIN"%string] else [])
    ++ ["250 OK"%string]) as lines. intros lines. revert c.
  induction lines as [|line lines IH]; intros c; simpl; [reflexivity|].
  etransitivity; [apply IH|apply reply_le].
Qed.

Lemma handleAuth_le srv c s arg host srv' c' s' :
  handleAuth cfg srv c s arg host = (srv', c', s') → conn_le c' c.
Proof.
  unfold handleAuth. intros H. repeat (case_match; simplify_eq/=);
    repeat match goal with
    | H : readPlainAuth _ _ = _ |- _ => apply readPlainAuth_le in H
    | H : readLoginAuth _ _ = _ |- _ => apply readLoginAuth_le in H
    end; conn_chain.
Qed.

Lemma handleMail_le c s arg c' s' : handleMail c s arg = (c', s') → conn_le c' c.
Proof. unfold handleMail. intros H. repeat (case_match; simplify_eq/=); conn_chain. Qed.

Lemma handleRecipient_le c s arg c' s' : handleRecipient cfg c s arg = (c', s') → conn_le c' c.
Proof. unfold handleRecipient. intros H. repeat (case_match; simplify_eq/=); conn_chain. Qed.

Lemma handleData_le srv c s srv' c' s' :
  handleData cfg srv c s = (srv', c', s') → conn_le c' c.
Proof.
  unfold handleData. intros H. repeat (case_match; simplify_eq/=); conn_chain.
Qed.
#[local] Hint Resolve handleHello_le handleAuth_le handleMail_le handleRecipient_le handleData_le : pinguin.

(** A command that lets the loop go on leaves less to read. *)
Lemma handle_command_measure srv c s host line srv' c' s' :
  handle_command cfg srv c s host line = (srv', c', s', true) →
  (conn_measure c' ≤ conn_measure c)%nat.
Proof.
  unfold handle_command. destruct (splitCommand line) as [command argument]. intros H.
  repeat (case_match; simplify_eq/=); try solve [eauto with pinguin].
  match goal with H : writeSMTPLine _ _ = _ |- _ => apply write_le in H as [? Ht] end.
  unfold conn_measure. simpl. match goal with H : c_tls _ = Some _ |- _ => rewrite H in Ht end.
  rewrite <- Ht. lia.
Qed.

Lemma session_loop_total fuel srv c s host :
  (conn_measure c < fuel)%nat → is_Some (session_loop cfg fuel srv c s host).
Proof.
  revert srv c s. induction fuel as [|fuel IH]; intros srv c s Hf; simpl; [lia|].
  destruct (setSMTPReadDeadline c (CommandTimeout cfg)) as [c1 ok] eqn:E1. destruct ok; simpl; [|eauto].
  destruct (ReadString c1) as [c2 [line|]] eqn:E2; [|eauto].
  apply deadline_le in E1 as [Hd Ht]. apply ReadString_le in E2 as [[Hr Ht'] Hlt].
  specialize (Hlt ltac:(eauto)).
  destruct (handle_command cfg srv c2 s host line) as [[[srv' c'] s'] continue] eqn:E3.
  destruct continue; [|eauto]. apply handle_command_measure in E3.
  apply IH. unfold conn_measure in *. rewrite Ht', Ht in E3. lia.
Qed.
End handler_lemmas.

(** * What a session did to the outside: a log of the interface calls *)
Inductive event :=
| EvAuthenticate (username password : string) (r : result AuthenticatedIdentity)
| EvRelay (message : RawMessage) (r : result unit).

(** Any environment, with its calls logged. *)
Definition logged_env {W} (E : Env W) : Env (W * list event) :=
  {| Now := λ w, let '(now, w') := Now w.1 in (now, (w', w.2));
     Authenticate := λ w username password,
       let '(w', r) := Authenticate w.1 username password in
       ((w', w.2 ++ [EvAuthenticate username password r]), r);
     Relay := λ w message,
       let '(w', r) := Relay w.1 message in ((w', w.2 ++ [EvRelay message r]), r) |}.

Section safety.
Context `{U : Unicode} `{M : NetMail} {W : Type} (E0 : Env W).
Context (cfg : Config).

#[local] Instance safety_env : Env (W * list event) := logged_env E0.

(** What the server promises of a message it relays for [identity]. *)
Definition relay_allowed (identity : AuthenticatedIdentity) (m : RawMessage) : Prop :=
  IdentityID m = ai_ID identity ∧ From m = ai_EmailAddress identity ∧
  1 ≤ Z.of_nat (length (Recipients m)) ≤ MaxRecipients cfg ∧
  Forall (λ a, ∃ raw, NewAddress raw = Ok a) (Recipients m) ∧
  Z.of_nat (length (Data m)) ≤ MaxMessageBytes cfg ∧
  ∃ header, parseMessageFrom (Data m) = Ok header ∧ Equals header (From m) = true.

(** Every relayed message is allowed to an identity that was authenticated
    before it in the same session. *)
Definition log_ok (log : list event) : Prop :=
  ∀ l1 m r l2, log = l1 ++ EvRelay m r :: l2 →
    ∃ username password identity,
      EvAuthenticate username password (Ok identity) ∈ l1 ∧ relay_allowed identity m.

Record session_ok (s : sessionState) (log : list event) : Prop := {
  ok_auth identity : authenticated s = Some identity →
    (∃ username password, EvAuthenticate username password (Ok identity) ∈ log) ∧
    (secure s || AllowInsecureAuth cfg = true);
  ok_mail address : mailFrom s = Some address →
    ∃ identity, authenticated s = Some identity ∧ Equals address (ai_EmailAddress identity) = true;
  ok_rcpt : Forall (λ a, ∃ raw, NewAddress raw = Ok a) (recipients s);
  ok_rcpt_max : Z.of_nat (length (recipients s)) ≤ MaxRecipients cfg;
  ok_log : log_ok log;
}.

Lemma parseSMTPPath_NewAddress argument prefix a :
  parseSMTPPath argument prefix = Ok a → ∃ raw, NewAddress raw = Ok a.
Proof. unfold parseSMTPPath. intros (p & _ & H)%bind_Ok. eauto. Qed.

Lemma log_ok_snoc_auth log username password r :
  log_ok log → log_ok (log ++ [EvAuthenticate username password r]).
Proof.
  intros H l1 m r' l2 E. destruct l2 as [|x l2 _] using rev_ind.
  - apply app_inj_tail in E as [_ E]. discriminate.
  - rewrite app_comm_cons, app_assoc in E. apply app_inj_tail in E as [E _]. eauto.
Qed.

Lemma log_ok_snoc_relay log m r identity username password :
  log_ok log → EvAuthenticate username password (Ok identity) ∈ log → relay_allowed identity m →
  log_ok (log ++ [EvRelay m r]).
Proof.
  intros H Hin Ha l1 m' r' l2 E. destruct l2 as [|x l2 _] using rev_ind.
  - apply app_inj_tail in E as [-> E]. simplify_eq. eauto.
  - rewrite app_comm_cons, app_assoc in E. apply app_inj_tail in E as [E _]. eauto.
Qed.

(** Clearing the envelope keeps a session well formed. *)
Lemma session_ok_clear s log : 0 ≤ MaxRecipients cfg → session_ok s log → session_ok (clear_mail s) log.
Proof. intros H []. by constructor. Qed.

Lemma completeAuthAttempt_log srv host credentials srv' r :
  completeAuthAttempt srv host credentials = (srv', r) →
  (outside srv').2 = (outside srv).2 ∧ (∀ identity, r ≠ smtpAuthAccepted identity) ∨
  ∃ username password res, (outside srv').2 = (outside srv).2 ++ [EvAuthenticate username password res] ∧
    ∀ identity, r = smtpAuthAccepted identity → res = Ok identity.
Proof.
  unfold completeAuthAttempt. simpl. destruct (Now (outside srv).1) as [now w]. simpl.
  destruct (match credentials with Ok up => up | Err _ => _ end) as [username password].
  destruct (reserveAuthAttempt _ _ _ _) as [t [key|]]; [|intros; simplify_eq; by left].
  destruct credentials as [[u p]|e]; [|intros; simplify_eq; by left].
  destruct (Authenticate w username password) as [w' res]. simpl.
  destruct res as [identity|e]; intros; simplify_eq/=; right; do 3 eexists; (split; [done|]);
    intros; by simplify_eq.
Qed.

Lemma session_ok_auth_log s log username password r :
  session_ok s log → session_ok s (log ++ [EvAuthenticate username password r]).
Proof.
  intros [Ha Hm Hr Hx Hl]. constructor; auto using log_ok_snoc_auth.
  intros identity Hi. destruct (Ha _ Hi) as [(u & p & Hin) Hs]. split; [|done].
  exists u, p. set_solver.
Qed.

Lemma session_ok_authenticate s log identity username password :
  session_ok s log → authenticated s = None → secure s || AllowInsecureAuth cfg = true →
  session_ok (MkSession (secure s) (Some identity) (mailFrom s) (recipients s))
    (log ++ [EvAuthenticate username password (Ok identity)]).
Proof.
  intros [Ha Hm Hr Hx Hl] Hnone Hs. constructor; simpl; auto using log_ok_snoc_auth.
  - intros id' [= <-]. split; [|done]. exists username, password. set_solver.
  - intros a Hma. destruct (Hm a Hma) as (id' & Hid & _). congruence.
Qed.

Lemma handleAuth_ok srv c s arg host srv' c' s' :
  handleAuth cfg srv c s arg host = (srv', c', s') →
  session_ok s (outside srv).2 → session_ok s' (outside srv').2.
Proof.
  unfold handleAuth. destruct (authenticated s) as [id|] eqn:Ea; [by intros [= <- <- <-]|].
  destruct (negb (secure s) && negb (AllowInsecureAuth cfg)) eqn:Es; [by intros [= <- <- <-]|].
  assert (secure s || AllowInsecureAuth cfg = true) as Hsec.
  { by destruct (secure s), (AllowInsecureAuth cfg). }
  destruct (splitAuthArgument arg) as [mechanism payload].
  assert (∀ credentials c,
    (let '(srv, authResult) := completeAuthAttempt srv host credentials in
     match authResult with
     | smtpAuthThrottled => (srv, reply c "454 Authentication temporarily throttled", s)
     | smtpAuthRejected => (srv, reply c "535 Authentication failed", s)
     | smtpAuthAccepted identity => (srv, reply c "235 Authentication successful",
         MkSession (secure s) (Some identity) (mailFrom s) (recipients s))
     end) = (srv', c', s') → session_ok s (outside srv).2 → session_ok s' (outside srv').2) as Hatt.
  { intros credentials d H Hok.
    destruct (completeAuthAttempt srv host credentials) as [srv1 r] eqn:Ec.
    apply completeAuthAttempt_log in Ec as [[Hlog Hr]|(u & p & res & Hlog & Hr)];
      destruct r as [identity| |]; simplify_eq; rewrite Hlog; try done.
    - by destruct (Hr identity).
    - rewrite (Hr identity eq_refl). by apply session_ok_authenticate.
    - by apply session_ok_auth_log.
    - by apply session_ok_auth_log. }
  case_decide; [|case_decide; [|by intros [= <- <- <-]]].
  - destruct (readPlainAuth c payload) as [c1 cr]. apply Hatt.
  - destruct (readLoginAuth c payload) as [c1 cr]. apply Hatt.
Qed.

Lemma handleMail_ok c s arg c' s' log :
  0 ≤ MaxRecipients cfg → handleMail c s arg = (c', s') → session_ok s log → session_ok s' log.
Proof.
  unfold handleMail. intros Hmax H Hok.
  destruct (authenticated s) as [identity|] eqn:Ea; [|by simplify_eq].
  destruct (parseSMTPPath arg "FROM:") as [address|]; [|by simplify_eq].
  destruct (Equals address (ai_EmailAddress identity)) eqn:Eq; simplify_eq/=; [|done].
  destruct Hok as [Ha Hm Hr Hx Hl]. rewrite Ea in Ha. constructor; simpl; auto.
  intros adr [= <-]. eauto.
Qed.

Lemma handleRecipient_ok c s arg c' s' log :
  handleRecipient cfg c s arg = (c', s') → session_ok s log → session_ok s' log.
Proof.
  unfold handleRecipient. intros H Hok.
  destruct (mailFrom s) as [from|] eqn:Em; [|by simplify_eq].
  destruct (MaxRecipients cfg <=? Z.of_nat (length (recipients s))) eqn:Ex; [by simplify_eq|].
  destruct (parseSMTPPath arg "TO:") as [address|] eqn:Ep; [|by simplify_eq].
  simplify_eq. destruct Hok as [Ha Hm Hr Hx Hl]. rewrite Em in Hm. constructor; simpl; auto.
  - apply Forall_app. split; [done|]. constructor; [|constructor].
    eauto using parseSMTPPath_NewAddress.
  - rewrite length_app. simpl. to_prop. lia.
Qed.

Lemma relayAcceptedMessage_log srv m srv' r :
  relayAcceptedMessage srv m = (srv', r) →
  (outside srv').2 = (outside srv).2 ∨ ∃ res, (outside srv').2 = (outside srv).2 ++ [EvRelay m res].
Proof.
  unfold relayAcceptedMessage. simpl. destruct (Now (outside srv).1) as [now w].
  destruct (reserveAcceptedMessage _ _ _) as [t [x|]]; [|intros; simplify_eq; by left].
  simpl. destruct (Relay w m) as [w' [u|e]]; intros; simplify_eq/=; right; eauto.
Qed.

Lemma handleData_ok srv c s srv' c' s' :
  0 ≤ MaxRecipients cfg → 0 ≤ MaxMessageBytes cfg →
  handleData cfg srv c s = (srv', c', s') →
  session_ok s (outside srv).2 → session_ok s' (outside srv').2.
Proof.
  intros Hmax Hbytes. unfold handleData.
  destruct (authenticated s) as [identity|] eqn:Ea; [|by intros [= <- <- <-]].
  destruct (mailFrom s) as [from|] eqn:Em; [|by intros [= <- <- <-]].
  destruct (recipients s) as [|rcpt rcpts] eqn:Er; [by intros [= <- <- <-]|].
  destruct (writeSMTPLine c _) as [c1 []]; [simpl|by intros [= <- <- <-]].
  destruct (setSMTPReadDeadline c1 _) as [c2 []]; [simpl|by intros [= <- <- <-]].
  destruct (readData _ _) as [[[data tl] rest]|] eqn:Ed; [|by intros [= <- <- <-]].
  destruct tl; [intros [= <- <- <-] ?; by apply session_ok_clear|].
  destruct (parseMessageFrom data) as [header|] eqn:Eh;
    [|intros [= <- <- <-] ?; by apply session_ok_clear].
  destruct (Equals header _) eqn:Eq; simpl; [|intros [= <- <- <-] ?; by apply session_ok_clear].
  destruct (relayAcceptedMessage _ _) as [srv1 status] eqn:Erel. intros [= <- <- <-] Hok.
  apply session_ok_clear; [done|].
  apply relayAcceptedMessage_log in Erel as [->|(res & ->)]; [done|].
  destruct Hok as [Ha Hm Hr Hx Hl]. destruct (Ha _ Ea) as [(u & p & Hin) Hs].
  constructor; auto.
  - intros i Hi. destruct (Ha _ Hi) as [(u' & p' & Hin') ?]. split; [|done]. exists u', p'. set_solver.
  - eapply log_ok_snoc_relay; [done|exact Hin|].
    rewrite Er in Hr, Hx. simpl in Hx. split_and!; simpl; try done; [lia| |eauto].
    eapply readData_bound; [done|exact Ed].
Qed.

Lemma handle_command_ok srv c s host line srv' c' s' b :
  0 ≤ MaxRecipients cfg → 0 ≤ MaxMessageBytes cfg →
  handle_command cfg srv c s host line = (srv', c', s', b) →
  session_ok s (outside srv).2 → session_ok s' (outside srv').2.
Proof.
  intros Hmax Hbytes. unfold handle_command. destruct (splitCommand line) as [command argument].
  intros H Hok. repeat (case_match; simplify_eq/=); try done;
    eauto using handleAuth_ok, handleMail_ok, handleRecipient_ok, handleData_ok, session_ok_clear.
  destruct Hok as [_ _ _ _ Hl]. by constructor.
Qed.

Lemma session_loop_ok fuel srv c s host srv' c' s' :
  0 ≤ MaxRecipients cfg → 0 ≤ MaxMessageBytes cfg →
  session_loop cfg fuel srv c s host = Some (srv', c', s') →
  session_ok s (outside srv).2 → session_ok s' (outside srv').2.
Proof.
  intros Hmax Hbytes. revert srv c s. induction fuel as [|fuel IH]; intros srv c s; simpl; [done|].
  destruct (setSMTPReadDeadline c _) as [c1 []]; simpl; [|by intros [= <- <- <-]].
  destruct (ReadString c1) as [c2 [line|]]; [|by intros [= <- <- <-]].
  destruct (handle_command _ _ _ _ _ _) as [[[srv1 c3] s1] b] eqn:Eh. intros H Hok.
  pose proof (handle_command_ok _ _ _ _ _ _ _ _ _ Hmax Hbytes Eh Hok) as Hok1.
  destruct b; [eauto|by simplify_eq].
Qed.
End safety.

(** * Properties *)


Lemma NewServer_limits cfg0 cfg t :
  NewServer cfg0 = Ok (cfg, t) →
  0 < MaxRecipients cfg ∧ 0 < MaxMessageBytes cfg ∧ limits_ok (Limits cfg) ∧
  t = newSMTPThrottle (Limits cfg).
Proof.
  unfold NewServer. intros H.
  repeat (apply bind_Ok in H as (? & _ & H)). simplify_eq/=.
  assert (∀ x d, 0 < d → 0 < positive_or x d) as Hp.
  { intros n d Hd. unfold positive_or. destruct (Z.leb_spec n 0); lia. }
  unfold limits_ok, Minute, Second; simpl.
  split_and!; try done; try (apply Hp; lia); apply Z.lt_le_incl, Hp; lia.
Qed.

Lemma submission_log_ok `{U : Unicode} `{M : NetMail} {W} (E : Env W) cfg t w c
    implicitTLS remoteHost (srv' : server (W * list event)) c' s' :
  0 ≤ MaxRecipients cfg → 0 ≤ MaxMessageBytes cfg →
  handleConnection (E := logged_env E) cfg (MkServer t (w, [])) c implicitTLS remoteHost
    = Some (srv', c', s') →
  log_ok cfg (outside srv').2.
Proof.
  intros Hr Hb H.
  assert (session_ok cfg (MkSession implicitTLS None None []) []) as Hinit.
  { constructor; simpl; try done. intros l1 m r l2 Hl. by destruct l1. }
  unfold handleConnection in H. destruct (writeSMTPLine c _) as [c1 []]; cbn [negb] in H.
  - by destruct (session_loop_ok E cfg _ _ _ _ _ _ _ _ Hr Hb H Hinit).
  - simplify_eq/=. by destruct Hinit.
Qed.

(** A server built by [NewServer] relays a message only for an identity
    that the authenticator accepted earlier in the same session, with that
    identity's ID and address as sender, 1 to [MaxRecipients] valid recipients,
    at most [MaxMessageBytes] of data and a single From header that names the
    identity's address. *)
Theorem submission_authorized `{U : Unicode} `{M : NetMail} {W} (E : Env W) cfg0 cfg t w c
    implicitTLS remoteHost (srv' : server (W * list event)) c' s' :
  NewServer cfg0 = Ok (cfg, t) →
  handleConnection (E := logged_env E) cfg (MkServer t (w, [])) c implicitTLS remoteHost
    = Some (srv', c', s') →
  log_ok cfg (outside srv').2.
Proof.
  intros Hn H. destruct (NewServer_limits _ _ _ Hn) as (Hr & Hb & _).
  eapply submission_log_ok; [..|exact H]; lia.
Qed.

(** ** Nothing is authenticated over plain text *)
Definition plaintext (c : conn) (s : sessionState) : Prop :=
  c_tls c = None ∧ secure s = false ∧ authenticated s = None.

Lemma handle_command_plaintext `{U : Unicode} `{M : NetMail} {W} `{E : Env W} cfg (srv : server W)
    c s host line srv' c' s' b :
  AllowInsecureAuth cfg = false → plaintext c s →
  handle_command cfg srv c s host line = (srv', c', s', b) → srv' = srv ∧ plaintext c' s'.
Proof.
  intros Hcfg (Ht & Hs & Ha) H.
  assert (∀ x, conn_le x c → c_tls x = None) as Hle by (intros x [_ ->]; done).
  unfold handle_command in H. destruct (splitCommand line) as [command argument].
  unfold handleAuth, handleMail, handleRecipient, handleData in H.
  rewrite ?Hs, ?Ha, ?Hcfg in H. simpl in H. unfold plaintext.
  repeat (case_match; simplify_eq/=); (split; [done|]);
    split_and!; try done; try (apply Hle; solve [eauto using reply_le, handleHello_le]);
    match goal with H : writeSMTPLine _ _ = _ |- _ => apply write_le in H as [? Hx]; congruence end.
Qed.

(** C8: unless [AllowInsecureAuth] is set, a peer that never completes a TLS
    handshake never reaches the authenticator or the relay, nor the throttle's
    windows: the server after the session is the server before it. *)
Theorem plaintext_never_authenticates `{U : Unicode} `{M : NetMail} {W} `{E : Env W} cfg
    (srv srv' : server W) c c' s' remoteHost :
  AllowInsecureAuth cfg = false → c_tls c = None →
  handleConnection cfg srv c false remoteHost = Some (srv', c', s') →
  srv' = srv ∧ authenticated s' = None.
Proof.
  intros Hcfg Ht H. unfold handleConnection in H.
  destruct (writeSMTPLine c _) as [c1 []] eqn:Ew; cbn [negb] in H; [|by simplify_eq].
  apply write_le in Ew as [_ Htls].
  assert (plaintext c1 (MkSession false None None [])) as Hp by (split_and!; simpl; congruence).
  revert H Hp. generalize (S (conn_measure c1)) as fuel. generalize (MkSession false None None []) as s.
  clear Htls Ht c. intros s fuel. revert c1 s.
  induction fuel as [|fuel IH]; intros c1 s H Hp; simpl in H; [done|].
  destruct (setSMTPReadDeadline c1 _) as [c2 []] eqn:Ed; simpl in H; [|destruct Hp as (_&_&?); by simplify_eq].
  destruct (ReadString c2) as [c3 [line|]] eqn:Er; [|destruct Hp as (_&_&?); by simplify_eq].
  apply deadline_le in Ed as [_ Ed]. apply ReadString_le in Er as [[_ Er] _].
  destruct (handle_command _ _ _ _ _ _) as [[[srv1 c4] s1] b] eqn:Eh.
  assert (plaintext c3 s) as Hp3.
  { destruct Hp as (? & ? & ?). split_and!; congruence. }
  destruct (handle_command_plaintext _ _ _ _ _ _ _ _ _ _ Hcfg Hp3 Eh) as [-> Hp4].
  destruct b; [eauto|]. simplify_eq. by destruct Hp4 as (_ & _ & ?).
Qed.


Definition credential_user (credentials : result (string * string)) : string :=
  match credentials with Ok (username, _) => username | Err _ => "" end.

(** Brute-force lock-out.  An AUTH attempt is answered 454 exactly when the
    credential already has [AuthFailureLimit] attempts, since its last success, in
    the window that ends now; the authenticator is then not consulted, so not even
    the right password gets in. *)
Theorem auth_lockout `{U : Unicode} `{M : NetMail} {W} `{E : Env W} (limits : throttleLimits) wd
    (srv : server W) remoteHost credentials now w' :
  limits_ok limits → throttle_reachable limits wd → throttle srv = w_throttle wd →
  Now (outside srv) = (now, w') → w_clock wd ≤ now →
  ((completeAuthAttempt srv remoteHost credentials).2 = smtpAuthThrottled ↔
     lim_AuthFailureLimit limits ≤ Z.of_nat (length (in_window (lim_AuthFailureWindow limits) now
       (events_at (w_attempts wd) (authThrottleKey remoteHost (credential_user credentials)))))) ∧
  ((completeAuthAttempt srv remoteHost credentials).2 = smtpAuthThrottled →
     outside (completeAuthAttempt srv remoteHost credentials).1 = w').
Proof.
  intros Hc Hr Ht Hnow Hclk.
  pose proof (auth_reserve_iff limits wd now remoteHost (credential_user credentials)
    (inv_reachable _ _ Hc Hr) Hclk) as Hiff.
  unfold completeAuthAttempt. rewrite Hnow, Ht.
  destruct (match credentials with Ok up => up | Err _ => _ end) as [username password] eqn:Ec.
  assert (credential_user credentials = username) as Hu.
  { destruct credentials as [[??]|?]; by simplify_eq/=. }
  rewrite Hu in *.
  destruct (reserveAuthAttempt (w_throttle wd) remoteHost username now) as [t [key|]]; simpl in Hiff.
  - assert (¬ lim_AuthFailureLimit limits ≤ Z.of_nat (length (in_window (lim_AuthFailureWindow limits) now
       (events_at (w_attempts wd) (authThrottleKey remoteHost username))))) by (apply Zlt_not_le, Hiff; eauto).
    destruct credentials as [?|?]; [destruct (Authenticate w' username password) as [w2 [id|e]]|];
      simpl; split; done.
  - simpl. split; [|done]. split; [|done]. intros _. apply Z.nlt_ge. intros H%Hiff.
    by destruct H.
Qed.

(** Only what the relay accepted counts against the sending limit: after
    [relayAcceptedMessage] the identity's stored window is the pruned one, plus
    this message exactly when its status is accepted; no other identity's window
    changes. *)
Theorem relay_accounting `{U : Unicode} `{M : NetMail} {W} `{E : Env W} (srv srv' : server W) m
    status now w' k :
  Now (outside srv) = (now, w') →
  now ∉ events_at (acceptedMessagesByKey (throttle srv)) (messageThrottleKey (IdentityID m)) →
  relayAcceptedMessage srv m = (srv', status) →
  let stored := events_at (acceptedMessagesByKey (throttle srv)) in
  let kept := pruneWindow (stored k) (now - messageWindow (throttle srv)) in
  events_at (acceptedMessagesByKey (throttle srv')) k =
    if decide (k = messageThrottleKey (IdentityID m))
    then match status with smtpRelayAccepted => kept ++ [now] | _ => kept end
    else stored k.
Proof.
  intros Hnow Hfresh. unfold relayAcceptedMessage. rewrite Hnow.
  destruct (reserveAcceptedMessage (throttle srv) (IdentityID m) now) as [t r] eqn:Er.
  pose proof Er as Er'. rewrite reserveAcceptedMessage_spec in Er'.
  destruct r as [r|].
  - destruct (Relay w' m) as [w2 [[]|e]].
    + intros [= <- <-]. simpl. case_match; simplify_eq/=. rewrite events_at_insert.
      case_decide; subst; [by rewrite decide_True|by rewrite decide_False].
    + intros [= <- Hst]. simpl. rewrite (cancel_reserved _ _ _ _ _ k Hfresh Er).
      case_decide; [|done]. destruct (errors_Is e ErrRelayPermanent); by subst status.
  - intros [= <- <-]. simpl. case_match; simplify_eq/=. rewrite events_at_insert.
    case_decide; subst; [by rewrite decide_True|by rewrite decide_False].
Qed.

(** * Witnesses: one complete session *)
Definition demo_identity : AuthenticatedIdentity :=
  MkAuthenticated "id-1" (MkAddress "a@example.com" "example.com") "user".
Definition demo_env : Env unit :=
  {| Now := λ w, (0, w);
     Authenticate := λ w u p,
       (w, if decide (u = "user"%string ∧ p = "pw"%string) then Ok demo_identity
           else Err (New "smtp_identity.auth_failed"));
     Relay := λ w _, (w, Ok ()) |}.
Definition demo_cfg0 : Config :=
  MkConfig "mail.example.com" "" ":465" true 0 0 0 (ThrottleLimits 0 0 0 0 0 0) false true true true.
Definition demo_cfg : Config :=
  match NewServer demo_cfg0 with Ok (c, _) => c | Err _ => demo_cfg0 end.
Definition demo_line (s : string) : list ascii := explode s ++ [CR; LF].
Definition demo_script : list ascii :=
  concat (demo_line <$> ["EHLO me"; "AUTH PLAIN AHVzZXIAcHc="; "MAIL FROM:<A@example.com>";
    "RCPT TO:<x@y.org>"; "DATA"; "From: a@example.com"; ""; "hello"; "."; "QUIT"]%string).
Definition demo_conn : conn := Conn demo_script [] 20 20 None.
Definition demo_run :=
  handleConnection (U := ascii_unicode) (M := simple_mail) (E := logged_env demo_env) demo_cfg
    (MkServer (newSMTPThrottle (Limits demo_cfg)) ((), [])) demo_conn true "10.0.0.1".

(** The replies of that session. *)
Example demo_replies :
  (λ r, c_out r.1.2) <$> demo_run = Some
    ["220 mail.example.com Pinguin SMTP submission ready"; "250-mail.example.com";
     "250-SIZE 26214400"; "250-AUTH PLAIN LOGIN"; "250 OK"; "235 Authentication successful";
     "250 OK"; "250 OK"; "354 End data with <CR><LF>.<CR><LF>"; "250 Message accepted";
     "221 Bye"]%string.
Proof. vm_compute. reflexivity. Qed.

Definition demo_result : server (unit * list event) * conn * sessionState :=
  default (MkServer (newSMTPThrottle (Limits demo_cfg)) ((), []), demo_conn, MkSession true None None [])
    demo_run.
Lemma demo_run_result : demo_run = Some (demo_result.1.1, demo_result.1.2, demo_result.2).
Proof. vm_compute. reflexivity. Qed.

Lemma submission_authorized_witness :
  length (outside demo_result.1.1).2 = 2%nat ∧
  log_ok (U := ascii_unicode) (M := simple_mail) demo_cfg (outside demo_result.1.1).2.
Proof.
  split; [vm_compute; reflexivity|].
  exact (submission_authorized (U := ascii_unicode) (M := simple_mail) demo_env demo_cfg0 demo_cfg
    (newSMTPThrottle (Limits demo_cfg)) () demo_conn true "10.0.0.1" _ _ _
    ltac:(vm_compute; reflexivity) demo_run_result).
Defined.

Lemma plaintext_never_authenticates_witness :
  (λ r, r.1.1) <$> handleConnection (U := ascii_unicode) (M := simple_mail) (E := demo_env) demo_cfg
    (MkServer (newSMTPThrottle (Limits demo_cfg)) ()) demo_conn false "10.0.0.1"
  = Some (MkServer (newSMTPThrottle (Limits demo_cfg)) ()).
Proof.
  destruct (handleConnection (U := ascii_unicode) (M := simple_mail) (E := demo_env) demo_cfg
    (MkServer (newSMTPThrottle (Limits demo_cfg)) ()) demo_conn false "10.0.0.1")
    as [[[srv c] s]|] eqn:E; [|vm_compute in E; discriminate].
  destruct (plaintext_never_authenticates (U := ascii_unicode) (M := simple_mail) (E := demo_env)
    demo_cfg _ srv demo_conn c s "10.0.0.1" eq_refl eq_refl E) as [-> _]. reflexivity.
Defined.


(** Two failed attempts at a limit of two: the next is refused. *)
Definition demo_failures : world :=
  World (with_auth (newSMTPThrottle demo_limits)
    (<["username:user"%string := [5; 6]]> (<["username:user"%string := [5]]> ∅))) [] ∅
    (<["username:user"%string := [5; 6]]> (<["username:user"%string := [5]]> ∅)) 6.
Lemma demo_failures_reachable : throttle_reachable (U := ascii_unicode) demo_limits demo_failures.
Proof.
  exists 0.
  eapply rtc_l. { eapply (step_auth (U := ascii_unicode) _ _ _ _ _ 5 "h"%string "user"%string); [lia|vm_compute; reflexivity]. }
  eapply rtc_l. { eapply (step_auth (U := ascii_unicode) _ _ _ _ _ 6 "h"%string "User "%string); [simpl; lia|vm_compute; reflexivity]. }
  vm_compute. apply rtc_refl.
Qed.

Definition clock_env (now : Time) : Env unit :=
  {| Now := λ w, (now, w); Authenticate := @Authenticate unit demo_env; Relay := @Relay unit demo_env |}.

Lemma auth_lockout_witness :
  (completeAuthAttempt (U := ascii_unicode) (E := clock_env 7) (MkServer (w_throttle demo_failures) ())
     "h" (Ok ("user", "pw")%string)).2 = smtpAuthThrottled.
Proof.
  apply (auth_lockout (U := ascii_unicode) (M := simple_mail) (E := clock_env 7) demo_limits demo_failures
    (MkServer (w_throttle demo_failures) ()) "h" (Ok ("user", "pw")%string) 7 ()
    demo_limits_ok demo_failures_reachable eq_refl eq_refl); vm_compute; discriminate.
Defined.

Definition demo_message : RawMessage :=
  MkRawMessage "id" (ai_EmailAddress demo_identity) [MkAddress "x@y.org" "y.org"] [].
Lemma relay_accounting_witness :
  events_at (acceptedMessagesByKey (throttle (relayAcceptedMessage (E := clock_env 7)
    (MkServer (newSMTPThrottle demo_limits) ()) demo_message).1)) "id"%string = [7].
Proof.
  pose proof (relay_accounting (U := ascii_unicode) (M := simple_mail) (E := clock_env 7)
    (MkServer (newSMTPThrottle demo_limits) ())
    (relayAcceptedMessage (E := clock_env 7) (MkServer (newSMTPThrottle demo_limits) ()) demo_message).1
    demo_message smtpRelayAccepted 7 () "id"%string eq_refl ltac:(vm_compute; by intros ?%elem_of_nil)
    ltac:(vm_compute; reflexivity)) as H.
  exact H.
Defined.
