(* ===== verification/Forwarding.v ===== *)
(** The inbound forwarding server (src/internal/smtpforwarding/types.go and
    server.go): routes, the session limiter, the command handlers and the
    session loop.

    The [RouteResolver] and the [Forwarder] are the class [FwdEnv] over a world
    they may change.  The line and data reading functions of server.go have the
    text of the submission server's and are those of Smtp.v. *)
From S2P Require Import Prelude GoStrings Throttle Address Smtp.
Open Scope Z_scope.

Definition ErrInvalidRoute : error := New "smtp_forwarding.route.invalid".
Definition ErrForwardTemporary : error := New "smtp_forwarding.forward_temporary".

(** * Reverse paths *)
Record ReversePath := MkReversePath { rp_address : Address }.

Definition NewReversePath `{U : Unicode} `{M : NetMail} (rawAddress : string) : result ReversePath :=
  let trimmedAddress := TrimSpace rawAddress in
  if decide (trimmedAddress = ""%string) then Ok (MkReversePath noAddress)
  else MkReversePath <$> NewAddress trimmedAddress.

Definition IsNull (p : ReversePath) : bool := bool_decide (String_ (rp_address p) = ""%string).
Definition ReversePath_String (p : ReversePath) : string := String_ (rp_address p).
Definition ReversePath_Address (p : ReversePath) : option Address :=
  if IsNull p then None else Some (rp_address p).

(** * Routes *)
Record Route := MkRoute { route_address : Address; route_forwardTo : list Address }.

Fixpoint collect_recipients (seen : gset string) (forwardTo : list Address) : result (list Address) :=
  match forwardTo with
  | [] => Ok []
  | recipient :: rest =>
      guard_err (bool_decide (String_ recipient = ""%string))
        (Wrapf "%w: forward recipient is required" [] ErrInvalidRoute);;
      guard_err (bool_decide (String_ recipient ∈ seen))
        (Wrapf "%w: duplicate forward recipient %s" [FStr (String_ recipient)] ErrInvalidRoute);;
      recipients ← collect_recipients ({[String_ recipient]} ∪ seen) rest;
      Ok (recipient :: recipients)
  end.

Definition NewRoute (address : Address) (forwardTo : list Address) : result Route :=
  guard_err (bool_decide (String_ address = ""%string))
    (Wrapf "%w: address is required" [] ErrInvalidRoute);;
  recipients ← collect_recipients ∅ forwardTo;
  guard_err (bool_decide (recipients = []))
    (Wrapf "%w: forward recipients are required" [] ErrInvalidRoute);;
  Ok (MkRoute address recipients).

Definition ForwardRecipientStrings (route : Route) : list string := String_ <$> route_forwardTo route.

(** * Route sets *)
Abbreviation RouteSet := (gmap string Route).

Fixpoint add_routes (set : RouteSet) (routes : list Route) : result RouteSet :=
  match routes with
  | [] => Ok set
  | route :: rest =>
      let routeKey := String_ (route_address route) in
      guard_err (bool_decide (routeKey = ""%string))
        (Wrapf "%w: address is required" [] ErrInvalidRoute);;
      guard_err (bool_decide (is_Some (set !! routeKey)))
        (Wrapf "%w: duplicate route %s" [FStr routeKey] ErrInvalidRoute);;
      add_routes (<[routeKey := route]> set) rest
  end.

Definition NewRouteSet (routes : list Route) : result RouteSet :=
  set ← add_routes ∅ routes;
  guard_err (bool_decide (set = ∅)) (Wrapf "%w: routes are required" [] ErrInvalidRoute);;
  Ok set.

Definition Resolve (set : RouteSet) (address : Address) : option Route := set !! String_ address.

(** The values of a map in the order of its sorted keys; the iteration order of
    a Go map does not matter, as the keys are sorted first. *)
Definition sorted_keys (m : gmap string Route) : list string := sort_strings (map_to_list m).*1.
Definition sorted_routes (m : gmap string Route) : list Route :=
  omap (λ k, m !! k) (sorted_keys m).

Definition Routes (set : RouteSet) : list Route := sorted_routes set.

(** * Messages and the interfaces *)
Record Message := MkMessage {
  msg_From : ReversePath;
  msg_Recipients : list Address;
  msg_Data : list ascii;
}.

Class FwdEnv (W : Type) := {
  ResolveRoute : W → Address → W * result (option Route);
  Forward : W → Route → Message → W * result unit;
}.

(** * Configuration *)
Record Config := MkConfig {
  Hostname : string;
  ListenAddr : string;
  MaxMessageBytes : Z;
  MaxRecipients : Z;
  CommandTimeout : Z;
  MaxConcurrentSessions : Z;
  MaxSessionsPerRemoteHost : Z;
  hasRouteResolver : bool;
  hasForwarder : bool;
  hasLogger : bool;
}.

(** * The session limiter *)
Record sessionLimiter := MkLimiter {
  activeSessions : Z;
  activeSessionsByHost : gmap string Z;
  maxConcurrentSessions : Z;
  maxSessionsPerRemoteHost : Z;
}.

Definition newSessionLimiter (maxConcurrent maxPerHost : Z) : sessionLimiter :=
  MkLimiter 0 ∅ maxConcurrent maxPerHost.

Definition acquire (l : sessionLimiter) (remoteHost : string) : result (string * sessionLimiter) :=
  let trimmed := TrimSpace remoteHost in
  let host := if decide (trimmed = ""%string) then "unknown"%string else trimmed in
  let n := default 0 (activeSessionsByHost l !! host) in
  if maxConcurrentSessions l <=? activeSessions l
  then Err (New "smtp_forwarding.concurrent_sessions_exceeded") else
  if maxSessionsPerRemoteHost l <=? n
  then Err (New "smtp_forwarding.remote_sessions_exceeded") else
  Ok (host, MkLimiter (activeSessions l + 1) (<[host := n + 1]> (activeSessionsByHost l))
              (maxConcurrentSessions l) (maxSessionsPerRemoteHost l)).

Definition release (l : sessionLimiter) (remoteHost : string) : sessionLimiter :=
  let active := if 0 <? activeSessions l then activeSessions l - 1 else activeSessions l in
  let n := default 0 (activeSessionsByHost l !! remoteHost) in
  let byHost := if n <=? 1 then delete remoteHost (activeSessionsByHost l)
                else <[remoteHost := n - 1]> (activeSessionsByHost l) in
  MkLimiter active byHost (maxConcurrentSessions l) (maxSessionsPerRemoteHost l).

Definition NewServer (cfg : Config) : result (Config * sessionLimiter) :=
  guard_err (bool_decide (TrimSpace (Hostname cfg) = ""%string))
    (Text "smtp forwarding: hostname is required" []);;
  guard_err (bool_decide (TrimSpace (ListenAddr cfg) = ""%string))
    (Text "smtp forwarding: listen addr is required" []);;
  guard_err (negb (hasRouteResolver cfg)) (Text "smtp forwarding: route resolver is required" []);;
  guard_err (negb (hasForwarder cfg)) (Text "smtp forwarding: forwarder is required" []);;
  guard_err (negb (hasLogger cfg)) (Text "smtp forwarding: logger is required" []);;
  let cfg := MkConfig (Hostname cfg) (ListenAddr cfg)
    (positive_or (MaxMessageBytes cfg) (25 * 1024 * 1024))
    (positive_or (MaxRecipients cfg) 100)
    (positive_or (CommandTimeout cfg) (2 * Minute))
    (positive_or (MaxConcurrentSessions cfg) 200)
    (positive_or (MaxSessionsPerRemoteHost cfg) 20)
    (hasRouteResolver cfg) (hasForwarder cfg) (hasLogger cfg) in
  Ok (cfg, newSessionLimiter (MaxConcurrentSessions cfg) (MaxSessionsPerRemoteHost cfg)).

(** * Sessions *)
Record sessionState := MkSession {
  mailFrom : option ReversePath;
  recipients : list Address;
  routesByAddress : gmap string Route;
}.
Definition newSessionState : sessionState := MkSession None [] ∅.
Definition reset (s : sessionState) : sessionState := MkSession None [] ∅.
Definition routes (s : sessionState) : list Route := sorted_routes (routesByAddress s).

Section handlers.
Context `{U : Unicode} `{M : NetMail} {W : Type} `{E : FwdEnv W}.
Context (cfg : Config).

Definition parseSMTPPath (argument expectedPrefix : string) : result Address :=
  path ← extractSMTPPath argument expectedPrefix; NewAddress path.1.

Definition parseSMTPReversePath (argument expectedPrefix : string) : result ReversePath :=
  path ← extractSMTPPath argument expectedPrefix;
  guard_err (bool_decide (path.1 = ""%string) && negb path.2)
    (Text "missing smtp reverse path" []);;
  NewReversePath path.1.

Definition handleHello (c : conn) : conn :=
  foldl reply c ["250-" ++ Hostname cfg; "250-SIZE " ++ pretty (MaxMessageBytes cfg); "250 OK"]%string.

Definition handleMail (c : conn) (session : sessionState) (argument : string) : conn * sessionState :=
  match parseSMTPReversePath argument "FROM:" with
  | Err _ => (reply c "501 Invalid sender", session)
  | Ok reversePath => (reply c "250 OK", MkSession (Some reversePath) [] ∅)
  end.

Definition handleRecipient (w : W) (c : conn) (session : sessionState) (argument : string)
    : W * conn * sessionState :=
  match mailFrom session with
  | None => (w, reply c "503 Need MAIL FROM first", session)
  | Some _ =>
      if MaxRecipients cfg <=? Z.of_nat (length (recipients session))
      then (w, reply c "452 Too many recipients", session) else
      match parseSMTPPath argument "TO:" with
      | Err _ => (w, reply c "501 Invalid recipient", session)
      | Ok address =>
          let '(w, resolved) := ResolveRoute w address in
          match resolved with
          | Err _ => (w, reply c "451 Requested action aborted", session)
          | Ok None => (w, reply c "550 Recipient not configured", session)
          | Ok (Some route) =>
              (w, reply c "250 OK",
               MkSession (mailFrom session) (recipients session ++ [address])
                 (<[String_ (route_address route) := route]> (routesByAddress session)))
          end
      end
  end.

(** Stops at the first route whose forwarder fails. *)
Fixpoint forwardRoutes (w : W) (routes : list Route) (message : Message) : W * result unit :=
  match routes with
  | [] => (w, Ok ())
  | route :: rest =>
      let '(w, r) := Forward w route message in
      match r with Err e => (w, Err e) | Ok _ => forwardRoutes w rest message end
  end.

Definition handleData (w : W) (c : conn) (session : sessionState) : W * conn * sessionState :=
  match mailFrom session, recipients session with
  | Some from, _ :: _ =>
      let '(c, ok) := writeSMTPLine c "354 End data with <CR><LF>.<CR><LF>" in
      if negb ok then (w, c, session) else
      let '(c, ok) := setSMTPReadDeadline c (CommandTimeout cfg) in
      if negb ok then (w, c, session) else
      match readData (MaxMessageBytes cfg) (c_in c) with
      | None => (w, with_input c [], session)
      | Some (data, tooLarge, rest) =>
          let c := with_input c rest in
          if tooLarge : bool then (w, reply c "552 Message too large", reset session) else
          let message := MkMessage from (recipients session) data in
          let '(w, forwardErr) := forwardRoutes w (routes session) message in
          match forwardErr with
          | Err _ => (w, reply c "451 Requested action aborted", reset session)
          | Ok _ => (w, reply c "250 Message accepted for forwarding", reset session)
          end
      end
  | _, _ => (w, reply c "503 Need MAIL FROM and RCPT TO first", session)
  end.

Definition handle_command (w : W) (c : conn) (session : sessionState) (line : string)
    : W * conn * sessionState * bool :=
  let '(command, argument) := splitCommand line in
  if decide (command = "EHLO"%string ∨ command = "HELO"%string) then (w, handleHello c, session, true)
  else if decide (command = "MAIL"%string) then
    let '(c, session) := handleMail c session argument in (w, c, session, true)
  else if decide (command = "RCPT"%string) then (handleRecipient w c session argument, true)
  else if decide (command = "DATA"%string) then (handleData w c session, true)
  else if decide (command = "RSET"%string) then (w, reply c "250 OK", reset session, true)
  else if decide (command = "NOOP"%string) then (w, reply c "250 OK", session, true)
  else if decide (command = "QUIT"%string) then (w, reply c "221 Bye", session, false)
  else (w, reply c "502 Command not implemented", session, true).

Fixpoint session_loop (fuel : nat) (w : W) (c : conn) (session : sessionState)
    : option (W * conn * sessionState) :=
  match fuel with
  | O => None
  | S fuel =>
      let '(c, ok) := setSMTPReadDeadline c (CommandTimeout cfg) in
      if negb ok then Some (w, c, session) else
      let '(c, line) := ReadString c in
      match line with
      | None => Some (w, c, session)
      | Some line =>
          let '(w, c, session, continue) := handle_command w c session line in
          if continue : bool then session_loop fuel w c session else Some (w, c, session)
      end
  end.

Definition handleConnection (w : W) (c : conn) : option (W * conn * sessionState) :=
  let '(c, ok) := writeSMTPLine c ("220 " ++ Hostname cfg ++ " Pinguin SMTP forwarding ready") in
  if negb ok then Some (w, c, newSessionState)
  else session_loop (S (conn_measure c)) w c newSessionState.
End handlers.

(** * Lemmas: route sets *)
Definition route_key (r : Route) : string := String_ (route_address r).

Lemma add_routes_spec m rs m' :
  add_routes m rs = Ok m' →
  (map_to_list m').*2 ≡ₚ rs ++ (map_to_list m).*2 ∧
  (∀ k r, m' !! k = Some r ↔ m !! k = Some r ∨ r ∈ rs ∧ route_key r = k).
Proof.
  revert m. induction rs as [|r rs IH]; intros m H; simpl in H.
  - simplify_eq. split; [done|]. intros k r. set_solver.
  - apply bind_Ok in H as ([] & Hne%guard_err_Ok & H). apply bind_Ok in H as ([] & Hfresh%guard_err_Ok & H).
    to_prop. apply eq_None_not_Some in Hfresh. destruct (IH _ H) as [Hp Hl]. split.
    + rewrite Hp, (map_to_list_insert m _ r Hfresh). simpl. by rewrite Permutation_middle.
    + intros k r'. rewrite Hl, lookup_insert, elem_of_cons. unfold route_key in *. fold (String_ (route_address r)).
      case_decide as Hk; [|naive_solver]. subst k. split; [naive_solver|].
      intros [Hs|[[->|Hin] Hk]]; [congruence|by left|by right].
Qed.

Lemma sorted_routes_perm (m : gmap string Route) : sorted_routes m ≡ₚ (map_to_list m).*2.
Proof.
  unfold sorted_routes, sorted_keys, sort_strings. rewrite merge_sort_Permutation.
  assert (∀ l, Forall (λ kr : string * Route, m !! kr.1 = Some kr.2) l →
            omap (λ k, m !! k) l.*1 = l.*2) as Homap.
  { induction 1 as [|[k r] l Hkr _ IH]; [done|]. csimpl in *. rewrite Hkr. csimpl. by rewrite IH. }
  rewrite Homap; [done|]. apply Forall_forall. intros [k r]. by rewrite elem_of_map_to_list.
Qed.

Lemma sorted_routes_elem m r :
  r ∈ sorted_routes m ↔ ∃ k, m !! k = Some r.
Proof.
  rewrite sorted_routes_perm, list_elem_of_fmap. split.
  - intros ([k r'] & -> & Hk%elem_of_map_to_list). eauto.
  - intros [k Hk]. exists (k, r). split; [done|]. by apply elem_of_map_to_list.
Qed.

(** The keys of a route map are the addresses of its routes. *)
Definition keyed (m : gmap string Route) : Prop := ∀ k r, m !! k = Some r → route_key r = k.

Lemma sorted_routes_sorted m :
  keyed m → StronglySorted String.le (route_key <$> sorted_routes m).
Proof.
  intros Hm. assert (route_key <$> sorted_routes m = sorted_keys m) as ->.
  { unfold sorted_routes.
    assert (Forall (λ k, is_Some (m !! k)) (sorted_keys m)) as Hk.
    { apply Forall_forall. intros k. unfold sorted_keys, sort_strings. rewrite merge_sort_Permutation.
      intros ([k' r] & -> & Hkr%elem_of_map_to_list)%list_elem_of_fmap. simpl in *. eauto. }
    induction Hk as [|k ks [r Hr] _ IH]; [done|]. csimpl. rewrite Hr. csimpl. rewrite IH. f_equal. eauto. }
  unfold sorted_keys, sort_strings. apply StronglySorted_merge_sort; apply _.
Qed.

(** A route set resolves exactly the routes it was built from, and lists them
    all, ordered by address. *)
Theorem NewRouteSet_complete rs set :
  NewRouteSet rs = Ok set →
  (∀ a r, Resolve set a = Some r ↔ r ∈ rs ∧ String_ (route_address r) = String_ a) ∧
  Routes set ≡ₚ rs ∧ StronglySorted String.le (route_key <$> Routes set).
Proof.
  intros (m & Hm & H)%bind_Ok. apply bind_Ok in H as (? & _ & [= ->]).
  apply add_routes_spec in Hm as [Hp Hl]. split_and!.
  - intros a r. unfold Resolve. rewrite Hl, lookup_empty. unfold route_key. naive_solver.
  - unfold Routes. rewrite sorted_routes_perm, Hp, map_to_list_empty. by rewrite app_nil_r.
  - apply sorted_routes_sorted. intros k r Hr. apply Hl in Hr as [Hr|[_ Hr]]; [|done].
    by rewrite lookup_empty in Hr.
Qed.

(** * Lemmas: sessions read and end *)
Section session_lemmas.
Context `{U : Unicode} `{M : NetMail} {W : Type} `{E : FwdEnv W} (cfg : Config).

Lemma forwarding_handleData_le w c s w' c' s' : handleData cfg w c s = (w', c', s') → conn_le c' c.
Proof.
  unfold handleData. intros H. repeat (case_match; simplify_eq/=); conn_chain.
Qed.
#[local] Hint Resolve forwarding_handleData_le : pinguin.

Lemma handle_command_le w c s line w' c' s' b :
  handle_command cfg w c s line = (w', c', s', b) → conn_le c' c.
Proof.
  unfold handle_command. destruct (splitCommand line) as [command argument].
  unfold handleMail, handleRecipient, handleHello. intros H.
  repeat (case_match; simplify_eq/=); conn_chain; eauto with pinguin.
Qed.

Lemma forwarding_session_loop_total fuel w c s :
  (conn_measure c < fuel)%nat → is_Some (session_loop cfg fuel w c s).
Proof.
  revert w c s. induction fuel as [|fuel IH]; intros w c s Hf; simpl; [lia|].
  destruct (setSMTPReadDeadline c (CommandTimeout cfg)) as [c1 ok] eqn:E1. destruct ok; simpl; [|eauto].
  destruct (ReadString c1) as [c2 [line|]] eqn:E2; [|eauto].
  apply deadline_le in E1 as [Hd Ht]. apply ReadString_le in E2 as [[Hr Ht'] Hlt].
  specialize (Hlt ltac:(eauto)).
  destruct (handle_command cfg w c2 s line) as [[[w' c'] s'] continue] eqn:E3.
  destruct continue; [|eauto]. apply handle_command_le, conn_le_measure in E3.
  apply IH. unfold conn_measure in *. rewrite Ht', Ht in E3. lia.
Qed.
End session_lemmas.

(** Every inbound session ends, whatever the peer sends. *)
Theorem forwarding_session_terminates `{U : Unicode} `{M : NetMail} {W} `{E : FwdEnv W} cfg (w : W) c :
  is_Some (handleConnection cfg w c).
Proof.
  unfold handleConnection. destruct (writeSMTPLine c _) as [c' ok].
  destruct ok; [apply forwarding_session_loop_total; lia|simpl; eauto].
Qed.

(** * What a session did: the calls of the resolver and the forwarder *)
Inductive event :=
| EvResolve (a : Address) (r : result (option Route))
| EvForward (route : Route) (m : Message) (r : result unit).

Definition logged_env {W} (E : FwdEnv W) : FwdEnv (W * list event) :=
  {| ResolveRoute := λ w a, let '(w', r) := ResolveRoute w.1 a in ((w', w.2 ++ [EvResolve a r]), r);
     Forward := λ w route m, let '(w', r) := Forward w.1 route m in ((w', w.2 ++ [EvForward route m r]), r) |}.

Section safety.
Context `{U : Unicode} `{M : NetMail} {W : Type} (E0 : FwdEnv W) (cfg : Config).
#[local] Instance safety_env : FwdEnv (W * list event) := logged_env E0.

(** States a session can be in, with what it did so far. *)
Inductive session_reach : sessionState → W * list event → Prop :=
| reach_init w : session_reach newSessionState (w, [])
| reach_step s w c line w' c' s' b :
    session_reach s w → handle_command cfg w c s line = (w', c', s', b) → session_reach s' w'.

Definition forward_allowed (l : list event) (route : Route) (m : Message) : Prop :=
  1 ≤ Z.of_nat (length (msg_Recipients m)) ≤ MaxRecipients cfg ∧
  Z.of_nat (length (msg_Data m)) ≤ MaxMessageBytes cfg ∧
  ∃ a, a ∈ msg_Recipients m ∧ EvResolve a (Ok (Some route)) ∈ l.

Definition log_ok (log : list event) : Prop :=
  ∀ l1 route m r l2, log = l1 ++ EvForward route m r :: l2 → forward_allowed l1 route m.

Record session_ok (s : sessionState) (log : list event) : Prop := {
  ok_max : Z.of_nat (length (recipients s)) ≤ MaxRecipients cfg;
  ok_cover a : a ∈ recipients s → ∃ r r', EvResolve a (Ok (Some r)) ∈ log ∧
    routesByAddress s !! route_key r = Some r' ∧ route_key r' = route_key r;
  ok_entry k r : routesByAddress s !! k = Some r →
    route_key r = k ∧ ∃ a, a ∈ recipients s ∧ EvResolve a (Ok (Some r)) ∈ log;
  ok_log : log_ok log;
}.

Lemma forward_allowed_app l l' route m : forward_allowed l route m → forward_allowed (l ++ l') route m.
Proof. intros (? & ? & a & ? & ?). split; [done|]. split; [done|]. exists a. set_solver. Qed.

Lemma log_ok_snoc_resolve log a r : log_ok log → log_ok (log ++ [EvResolve a r]).
Proof.
  intros H l1 route m r' l2 E. destruct l2 as [|x l2 _] using rev_ind.
  - apply app_inj_tail in E as [_ E]. discriminate.
  - rewrite app_comm_cons, app_assoc in E. apply app_inj_tail in E as [E _]. eauto.
Qed.

Lemma log_ok_snoc_forward log route m r :
  log_ok log → forward_allowed log route m → log_ok (log ++ [EvForward route m r]).
Proof.
  intros H Ha l1 route' m' r' l2 E. destruct l2 as [|x l2 _] using rev_ind.
  - apply app_inj_tail in E as [-> E]. by simplify_eq.
  - rewrite app_comm_cons, app_assoc in E. apply app_inj_tail in E as [E _]. eauto.
Qed.

Lemma session_ok_empty p log : 0 ≤ MaxRecipients cfg → log_ok log → session_ok (MkSession p [] ∅) log.
Proof. intros Hm Hl. constructor; simpl; [done|set_solver|by intros k r ?%lookup_empty_Some|done]. Qed.

Lemma session_ok_log_app s log log' :
  session_ok s log → log_ok (log ++ log') → session_ok s (log ++ log').
Proof.
  intros [Hm Hc He Hl] Hl'. constructor; auto.
  - intros a Ha. destruct (Hc a Ha) as (r & r' & ? & ?). exists r, r'. set_solver.
  - intros k r Hk. destruct (He k r Hk) as (? & a & ? & ?). split; [done|]. exists a. set_solver.
Qed.

Lemma session_ok_recipient s log a route :
  session_ok s log → Z.of_nat (length (recipients s)) < MaxRecipients cfg →
  session_ok (MkSession (mailFrom s) (recipients s ++ [a])
      (<[String_ (route_address route) := route]> (routesByAddress s)))
    (log ++ [EvResolve a (Ok (Some route))]).
Proof.
  intros [Hm Hc He Hl] Hlt. constructor; simpl; auto using log_ok_snoc_resolve.
  - rewrite length_app. simpl. lia.
  - intros b [Hb|Hb%list_elem_of_singleton]%elem_of_app.
    + destruct (Hc b Hb) as (r & r' & Hr & Hlook & Hk). exists r. rewrite lookup_insert.
      case_decide as Hd; [exists route|exists r']; (split; [set_solver|]); (split; [done|]); [exact Hd|done].
    + subst b. exists route, route. rewrite lookup_insert_eq. set_solver.
  - intros k r. rewrite lookup_insert. case_decide as Hd.
    + intros [= <-]. split; [exact Hd|]. exists a. set_solver.
    + intros Hk. destruct (He k r Hk) as (? & b & ? & ?). split; [done|]. exists b. set_solver.
Qed.

Lemma forwardRoutes_log wl rs m wl' r :
  forwardRoutes wl rs m = (wl', r) →
  ∃ done_ failed, rs = done_ ++ failed ∧
    match r with
    | Ok _ => failed = [] ∧ wl'.2 = wl.2 ++ ((λ x, EvForward x m (Ok ())) <$> done_)
    | Err e => ∃ x rest, failed = x :: rest ∧
        wl'.2 = wl.2 ++ ((λ x, EvForward x m (Ok ())) <$> done_) ++ [EvForward x m (Err e)]
    end.
Proof.
  revert wl. induction rs as [|x rs IH]; intros wl; simpl.
  - intros [= <- <-]. exists [], []. simpl. by rewrite app_nil_r.
  - destruct (Forward wl.1 x m) as [w1 [[]|e]]; simpl.
    + intros H. destruct (IH _ H) as (d & f & -> & Hr). exists (x :: d), f. split; [done|].
      destruct r as [|e]; simpl in *.
      * destruct Hr as [-> ->]. split; [done|]. by rewrite <- app_assoc.
      * destruct Hr as (y & rest & -> & ->). exists y, rest. split; [done|]. by rewrite <- app_assoc.
    + intros [= <- <-]. exists [], (x :: rs). split; [done|]. exists x, rs. done.
Qed.

Lemma log_ok_forwards log rs m f :
  log_ok log → Forall (λ x, forward_allowed log x m) rs →
  log_ok (log ++ ((λ x, EvForward x m (f x)) <$> rs)).
Proof.
  intros Hl H. revert log Hl H. induction rs as [|x rs IH]; intros log Hl H; csimpl; [by rewrite app_nil_r|].
  apply Forall_cons in H as [Hx H].
  rewrite cons_middle, app_assoc. refine (IH _ _ _); [by apply log_ok_snoc_forward|].
  eapply Forall_impl; [exact H|]. intros y. apply forward_allowed_app.
Qed.

(** Every route of the session may carry the session's message. *)
Lemma routes_allowed s log from data :
  session_ok s log → recipients s ≠ [] → Z.of_nat (length data) ≤ MaxMessageBytes cfg →
  Forall (λ x, forward_allowed log x (MkMessage from (recipients s) data)) (routes s).
Proof.
  intros [Hm Hc He Hl] Hne Hd. apply Forall_forall. intros r [k Hk]%sorted_routes_elem.
  destruct (He k r Hk) as [_ (a & Ha & Hr)]. unfold forward_allowed. simpl. split_and!; eauto.
  destruct (recipients s); [done|simpl; lia].
Qed.

Lemma forwarding_handleData_ok wl c s wl' c' s' :
  0 ≤ MaxRecipients cfg → 0 ≤ MaxMessageBytes cfg →
  handleData cfg wl c s = (wl', c', s') → session_ok s wl.2 → session_ok s' wl'.2.
Proof.
  intros Hmax Hbytes. unfold handleData.
  destruct (mailFrom s) as [from|]; [|by intros [= <- <- <-]].
  destruct (recipients s) as [|rcpt rcpts] eqn:Er; [by intros [= <- <- <-]|].
  destruct (writeSMTPLine c _) as [c1 []]; [simpl|by intros [= <- <- <-]].
  destruct (setSMTPReadDeadline c1 _) as [c2 []]; [simpl|by intros [= <- <- <-]].
  destruct (readData _ _) as [[[data tl] rest]|] eqn:Ed; [|by intros [= <- <- <-]].
  destruct tl; [intros [= <- <- <-] []; by apply session_ok_empty|].
  rewrite <- Er. destruct (forwardRoutes _ _ _) as [wl1 fr] eqn:Ef.
  intros H Hok. assert (wl' = wl1 ∧ s' = reset s) as [-> ->] by (destruct fr; by simplify_eq).
  apply session_ok_empty; [done|].
  pose proof (routes_allowed s wl.2 from data Hok ltac:(by rewrite Er)
    (readData_bound _ _ _ _ _ Hbytes Ed)) as Hall.
  apply forwardRoutes_log in Ef as (dn & fl & Hrs & Hr). rewrite Hrs in Hall.
  apply Forall_app in Hall as [Hd Hf]. destruct Hok as [_ _ _ Hl].
  destruct fr as [|e].
  - destruct Hr as [-> ->]. by apply (log_ok_forwards _ _ _ (λ _, Ok ())).
  - destruct Hr as (x & rest' & -> & ->). rewrite app_assoc. apply log_ok_snoc_forward.
    + by apply (log_ok_forwards _ _ _ (λ _, Ok ())).
    + apply Forall_cons in Hf as [Hx _]. by apply forward_allowed_app.
Qed.

Lemma forwarding_handle_command_ok wl c s line wl' c' s' b :
  0 ≤ MaxRecipients cfg → 0 ≤ MaxMessageBytes cfg →
  handle_command cfg wl c s line = (wl', c', s', b) → session_ok s wl.2 → session_ok s' wl'.2.
Proof.
  intros Hmax Hbytes. unfold handle_command. destruct (splitCommand line) as [command argument].
  intros H Hok. pose proof (ok_log _ _ Hok) as Hl.
  destruct (decide (command = "RCPT"%string)).
  2: { unfold handleMail in H. repeat (case_match; simplify_eq/=);
         eauto using forwarding_handleData_ok, session_ok_empty. }
  subst command. simpl in H. unfold handleRecipient in H.
  destruct (mailFrom s) as [from|] eqn:Em; [|by simplify_eq].
  destruct (MaxRecipients cfg <=? _) eqn:Ex; [by simplify_eq|]. to_prop.
  destruct (parseSMTPPath argument "TO:") as [address|]; [|by simplify_eq].
  simpl in H. destruct (ResolveRoute wl.1 address) as [w1 [[route|]|e]]; simplify_eq/=.
  - rewrite <- Em. by apply session_ok_recipient.
  - apply session_ok_log_app; [done|]. by apply log_ok_snoc_resolve.
  - apply session_ok_log_app; [done|]. by apply log_ok_snoc_resolve.
Qed.

Lemma session_reach_ok s wl :
  0 ≤ MaxRecipients cfg → 0 ≤ MaxMessageBytes cfg → session_reach s wl → session_ok s wl.2.
Proof.
  intros Hmax Hbytes. induction 1; [|eauto using forwarding_handle_command_ok].
  apply session_ok_empty; [done|]. intros l1 ???? H. by destruct l1.
Qed.
End safety.

Lemma forwarding_NewServer_limits cfg0 cfg l :
  NewServer cfg0 = Ok (cfg, l) → 0 ≤ MaxRecipients cfg ∧ 0 ≤ MaxMessageBytes cfg.
Proof.
  unfold NewServer. intros H. repeat (apply bind_Ok in H as (? & _ & H)). simplify_eq/=.
  unfold positive_or. split; case_match; to_prop; lia.
Qed.

(** The server is no open relay: whatever commands a session got, every
    message it handed to the forwarder went along a route the resolver had given,
    in that session, for one of the message's own recipients; the message had 1
    to [MaxRecipients] recipients and at most [MaxMessageBytes] of data. *)
Theorem forwards_only_resolved `{U : Unicode} `{M : NetMail} {W} (E : FwdEnv W) cfg0 cfg l s w :
  NewServer cfg0 = Ok (cfg, l) → session_reach E cfg s w → log_ok cfg w.2.
Proof.
  intros (? & ?)%forwarding_NewServer_limits Hr. by destruct (session_reach_ok E cfg s w).
Qed.


(** * The limiter and the submission throttle *)

(** The part of the submission throttle that counts sessions. *)
Definition limiter_of (t : smtpThrottle) : sessionLimiter :=
  MkLimiter (Throttle.activeSessions t) (Throttle.activeSessionsByHost t)
    (Throttle.maxConcurrentSessions t) (Throttle.maxSessionsPerRemoteHost t).

Inductive limiter_step : sessionLimiter * list string → sessionLimiter * list string → Prop :=
| limiter_acquire l hosts host k l' :
    acquire l host = Ok (k, l') → limiter_step (l, hosts) (l', k :: hosts)
| limiter_release l h1 k h2 : limiter_step (l, h1 ++ k :: h2) (release l k, h1 ++ h2).

Lemma acquire_limiter_of t host :
  match acquire (limiter_of t) host with
  | Ok (k, l) => ∃ t', acquireSession t host = Ok (k, t') ∧ l = limiter_of t'
  | Err _ => ∃ e, acquireSession t host = Err e
  end.
Proof.
  unfold acquire, acquireSession, normalizeThrottleKeyPart, count_at. simpl.
  set (k := if decide (TrimSpace host = ""%string) then _ else _).
  destruct (_ <=? _); [eauto|]. destruct (_ <=? _); [eauto|]. eauto.
Qed.

Lemma release_limiter_of t host : release (limiter_of t) host = limiter_of (releaseSession t host).
Proof. unfold release, releaseSession, limiter_of, count_at. simpl. by destruct (_ <=? 1). Qed.

(** The limiter refines the submission throttle's session counting: what
    [acquire] and [release] do to any limiter the throttle does to its session
    counters, so a limiter starting empty never lets in more than
    [maxConcurrentSessions] sessions, nor more than [maxSessionsPerRemoteHost]
    from one host, and its counters are the numbers of open sessions. *)
Theorem limiter_bounded maxConcurrent maxPerHost l hosts :
  0 ≤ maxConcurrent → 0 ≤ maxPerHost →
  rtc limiter_step (newSessionLimiter maxConcurrent maxPerHost, []) (l, hosts) →
  activeSessions l = Z.of_nat (length hosts) ∧ activeSessions l ≤ maxConcurrent ∧
  ∀ h, default 0 (activeSessionsByHost l !! h) = sessions_of h hosts ∧ sessions_of h hosts ≤ maxPerHost.
Proof.
  intros Hc Hh Hr. set (lim := ThrottleLimits maxConcurrent maxPerHost 0 1 0 1).
  assert (limits_ok lim) as Hlim by (split_and!; simpl; lia).
  assert (∃ t, l = limiter_of t ∧
    rtc (throttle_step (U := ascii_unicode)) (world_init lim 0) (World t hosts ∅ ∅ 0)) as (t & -> & Hreach).
  { cut (∀ y, rtc limiter_step (newSessionLimiter maxConcurrent maxPerHost, []) y →
      ∃ t, y.1 = limiter_of t ∧
        rtc (throttle_step (U := ascii_unicode)) (world_init lim 0) (World t y.2 ∅ ∅ 0)).
    { intros H. exact (H _ Hr). }
    apply rtc_ind_r.
    - exists (newSMTPThrottle lim). split; [done|]. apply rtc_refl.
    - intros [l0 hosts0] z _ Hst (t0 & Hl0 & Ht0). simpl in *. subst l0.
      inversion Hst as [l1 hs host k l' Ha|l1 h1 k h2]; simplify_eq/=.
      + pose proof (acquire_limiter_of t0 host) as Hs. rewrite Ha in Hs.
        destruct Hs as (t1 & Hs & ->). exists t1. split; [done|].
        eapply rtc_r; [exact Ht0|]. by eapply step_acquire.
      + exists (releaseSession t0 k). split; [by rewrite release_limiter_of|].
        eapply rtc_r; [exact Ht0|]. apply step_release. }
  destruct (inv_reachable (U := ascii_unicode) lim _ Hlim (ex_intro _ 0 Hreach)) as [_ Ht Hhs Htl Hhl _ _ _ _].
  simpl in *. split_and!; [done|lia|]. intros h. split; [apply Hhs|apply Hhl].
Qed.

(** * Witnesses *)
Definition demo_route : Route :=
  MkRoute (MkAddress "team@example.com" "example.com") [MkAddress "x@y.org" "y.org"].
Definition demo_env : FwdEnv unit :=
  {| ResolveRoute := λ w a,
       (w, Ok (Resolve {[String_ (route_address demo_route) := demo_route]} a));
     Forward := λ w _ _, (w, Ok ()) |}.
Definition demo_cfg0 : Config := MkConfig "mx.example.com" ":25" 0 0 0 0 0 true true true.
Definition demo_cfg : Config := match NewServer demo_cfg0 with Ok (c, _) => c | Err _ => demo_cfg0 end.
Definition demo_conn : conn :=
  Conn (explode "Subject: hi" ++ [CR; LF; CR; LF] ++ explode "text" ++ [CR; LF; "."%char; CR; LF]) [] 20 20 None.

#[local] Existing Instance ascii_unicode.
#[local] Existing Instance simple_mail.

(** The state after a list of commands. *)
Definition demo_run (lines : list string) : sessionState * (unit * list event) :=
  foldl (λ sw line,
    let '(w, _, s, _) := handle_command (E := logged_env demo_env) demo_cfg sw.2 demo_conn sw.1 line in (s, w))
    (newSessionState, ((), [])) lines.

Lemma demo_run_reach lines :
  session_reach demo_env demo_cfg (demo_run lines).1 (demo_run lines).2.
Proof.
  induction lines as [|line lines IH] using rev_ind; [apply reach_init|].
  unfold demo_run in *. rewrite foldl_app. cbn [foldl].
  destruct (foldl _ _ lines) as [s w]. simpl in IH |- *.
  destruct (handle_command _ w demo_conn s line) as [[[w' c'] s'] b] eqn:E.
  by eapply reach_step.
Qed.

Lemma surjective_pairing_3 {A B C} (p : A * B * C) : p = (p.1.1, p.1.2, p.2).
Proof. by destruct p as [[a b] c]. Qed.

Definition demo_state := demo_run ["MAIL FROM:<>"; "RCPT TO:<Team@example.com>"]%string.

Lemma forwards_only_resolved_witness : log_ok demo_cfg (demo_run
    ["MAIL FROM:<>"; "RCPT TO:<Team@example.com>"; "DATA"]%string).2.2.
Proof.
  apply (forwards_only_resolved demo_env demo_cfg0 demo_cfg (newSessionLimiter 200 20)
    (demo_run ["MAIL FROM:<>"; "RCPT TO:<Team@example.com>"; "DATA"]%string).1);
    [vm_compute; reflexivity|apply demo_run_reach].
Defined.


Lemma NewRouteSet_complete_witness :
  Routes {[String_ (route_address demo_route) := demo_route]} ≡ₚ [demo_route].
Proof.
  apply (NewRouteSet_complete [demo_route]). vm_compute. reflexivity.
Defined.

Lemma limiter_bounded_witness :
  activeSessions (match acquire (newSessionLimiter 2 1) "h" with Ok (_, l) => l | Err _ => newSessionLimiter 2 1 end) ≤ 2.
Proof.
  apply (limiter_bounded 2 1 _ ["h"%string]); [lia..|].
  eapply rtc_l; [|apply rtc_refl]. eapply (limiter_acquire _ _ "h"%string). vm_compute. reflexivity.
Defined.
