(* ===== verification/ForwardRelay.v ===== *)
(** Forwarding one message (src/internal/smtpforwarding/relay.go): parsing the
    header block in order, dropping the headers that would break or spoof the
    forwarded message, writing the route's own From, and handing the result to
    the outbound SMTP sender (an interface). *)
From S2P Require Import Prelude GoStrings Throttle Address Smtp Forwarding.

Definition CRLF : list ascii := [CR; LF].

(** * Ordered headers *)
Record orderedMessageHeader := MkHeader { h_name : string; h_value : string }.
#[export] Instance header_eq_dec : EqDecision orderedMessageHeader.
Proof. solve_decision. Defined.

Definition headerFrom : string := "From".
Definition headerReplyTo : string := "Reply-To".
Definition headerXOriginalFrom : string := "X-Pinguin-Original-From".

Definition forwardingRewriteDroppedHeaders : list string :=
  CanonicalMIMEHeaderKey <$>
    ["ARC-Authentication-Results"; "ARC-Message-Signature"; "ARC-Seal"; "Authentication-Results";
     "Bcc"; "DKIM-Signature"; "DomainKey-Signature"; headerFrom; headerReplyTo; "Return-Path";
     "Sender"; headerXOriginalFrom]%string.

Definition splitMessageHeadersAndBody (rawMessage : list ascii) : result (list ascii * list ascii) :=
  match find_b (CRLF ++ CRLF) rawMessage with
  | Some hb => Ok hb
  | None =>
      match find_b [LF; LF] rawMessage with
      | Some hb => Ok hb
      | None => Err (Text "message header terminator is required" [])
      end
  end.

Definition valid_header_rune (r : rune) : bool :=
  match rune_ascii r with
  | Some x => negb ((x <=? 32) || (127 <=? x) || (x =? 58))%Z
  | None => false
  end.
Definition validHeaderName (headerName : string) : bool :=
  negb (bool_decide (headerName = ""%string)) && forallb valid_header_rune (runes_b (explode headerName)).

(** The loop of [parseOrderedHeaders]; [acc] is the headers so far, last first. *)
Fixpoint parse_header_lines (acc : list orderedMessageHeader) (lines : list (list ascii))
    : result (list orderedMessageHeader) :=
  match lines with
  | [] => Ok (reverse acc)
  | rawLine :: lines =>
      let line := TrimSuffix (implode rawLine) (implode [CR]) in
      if HasPrefix line " " || HasPrefix line (implode ["009"%char]) then
        match acc with
        | [] => Err (Text "message header continuation without header" [])
        | h :: acc =>
            parse_header_lines (MkHeader (h_name h) (h_value h ++ implode CRLF ++ line) :: acc) lines
        end
      else
        match find_b [":"%char] (explode line) with
        | None | Some ([], _) => Err (Text "malformed message header line %q" [FStr line])
        | Some (before, after) =>
            let headerName := TrimSpace (implode before) in
            if negb (validHeaderName headerName)
            then Err (Text "invalid message header name %q" [FStr headerName])
            else parse_header_lines (MkHeader headerName (TrimSpace (implode after)) :: acc) lines
        end
  end.

Definition parseOrderedHeaders (headerBlock : list ascii) : result (list orderedMessageHeader) :=
  match headerBlock with
  | [] => Ok []
  | _ => parse_header_lines [] (split_b LF headerBlock)
  end.

Definition parseOrderedForwardedMessage (rawMessage : list ascii)
    : result (list orderedMessageHeader * list ascii) :=
  hb ← splitMessageHeadersAndBody rawMessage;
  headers ← parseOrderedHeaders hb.1;
  Ok (headers, hb.2).

(** * Writing *)
Definition sanitize_char (c : ascii) : ascii :=
  if decide (c = CR ∨ c = LF) then " "%char else c.
Definition sanitizedHeaderValue (headerValue : string) : string :=
  TrimSpace (implode (sanitize_char <$> explode headerValue)).

Definition writeMessageHeader (headerName headerValue : string) : list ascii :=
  explode (TrimSpace headerName) ++ explode ": " ++ explode (sanitizedHeaderValue headerValue) ++ CRLF.

Definition is_header (headerName : string) (h : orderedMessageHeader) : bool :=
  bool_decide (CanonicalMIMEHeaderKey (h_name h) = CanonicalMIMEHeaderKey headerName).
Definition firstHeaderValue (headers : list orderedMessageHeader) (headerName : string) : string :=
  match List.find (is_header headerName) headers with
  | Some h => sanitizedHeaderValue (h_value h)
  | None => ""
  end.
Definition hasHeader (headers : list orderedMessageHeader) (headerName : string) : bool :=
  existsb (is_header headerName) headers.

Section rewriting.
Context `{M : NetMail}.

Definition forwardedFromHeader (route : Route) (originalFrom : string) : string :=
  let trimmedOriginalFrom := TrimSpace originalFrom in
  let routeAddress := String_ (route_address route) in
  if decide (trimmedOriginalFrom = ""%string) then routeAddress else
  match ParseAddressList trimmedOriginalFrom with
  | Ok (first :: _) =>
      let displayName := TrimSpace (mail_Name first) in
      let displayName := if decide (displayName = ""%string) then mail_Addr first else displayName in
      Address_String (MailAddress displayName routeAddress)
  | _ => Address_String (MailAddress trimmedOriginalFrom routeAddress)
  end.

Definition writeForwardingIdentityHeaders (route : Route) (originalFrom replyTo : string) : list ascii :=
  writeMessageHeader headerFrom (forwardedFromHeader route originalFrom)
  ++ (if decide (replyTo = ""%string) then [] else writeMessageHeader headerReplyTo replyTo)
  ++ (if decide (originalFrom = ""%string) then [] else writeMessageHeader headerXOriginalFrom originalFrom).

(** The loop over the original headers. *)
Fixpoint rewrite_headers (route : Route) (originalFrom replyTo : string) (replacementWritten : bool)
    (headers : list orderedMessageHeader) : list ascii :=
  match headers with
  | [] => []
  | h :: headers =>
      let canonicalHeaderName := CanonicalMIMEHeaderKey (h_name h) in
      if bool_decide (canonicalHeaderName = CanonicalMIMEHeaderKey headerFrom) && negb replacementWritten
      then writeForwardingIdentityHeaders route originalFrom replyTo
             ++ rewrite_headers route originalFrom replyTo true headers
      else if bool_decide (canonicalHeaderName ∈ forwardingRewriteDroppedHeaders)
      then rewrite_headers route originalFrom replyTo replacementWritten headers
      else writeMessageHeader (h_name h) (h_value h)
             ++ rewrite_headers route originalFrom replyTo replacementWritten headers
  end.

Definition reply_to (headers : list orderedMessageHeader) : string :=
  let originalReplyTo := firstHeaderValue headers headerReplyTo in
  if decide (originalReplyTo = ""%string) then firstHeaderValue headers headerFrom else originalReplyTo.

Definition rewriteParsedForwardedMessage (route : Route) (headers : list orderedMessageHeader)
    (body : list ascii) : list ascii :=
  let originalFrom := firstHeaderValue headers headerFrom in
  let replyTo := reply_to headers in
  (if negb (hasHeader headers headerFrom)
   then writeForwardingIdentityHeaders route originalFrom replyTo
          ++ rewrite_headers route originalFrom replyTo true headers
   else rewrite_headers route originalFrom replyTo false headers)
  ++ CRLF ++ body.

Definition rewriteForwardedMessage (route : Route) (rawMessage : list ascii) : result (list ascii) :=
  match parseOrderedForwardedMessage rawMessage with
  | Err e => Err (Wrapf "parse message headers: %w" [] e)
  | Ok (headers, body) => Ok (rewriteParsedForwardedMessage route headers body)
  end.

(** [RelayForwarder.Forward], over any outbound sender. *)
Definition RelayForwarder_Forward {W} (SendRawEmail : W → string → list string → list ascii → W * result unit)
    (w : W) (route : Route) (message : Message) : W * result unit :=
  let rewrittenMessage :=
    match rewriteForwardedMessage route (msg_Data message) with
    | Ok rewritten => rewritten
    | Err _ => msg_Data message
    end in
  let '(w, r) := SendRawEmail w (String_ (route_address route)) (ForwardRecipientStrings route) rewrittenMessage in
  match r with
  | Err e => (w, Err (WrapfV "%w: route %s: %v" [FStr (String_ (route_address route))] ErrForwardTemporary e))
  | Ok _ => (w, Ok ())
  end.
End rewriting.

(** * Headers written and read again *)

(** A header as the writer leaves it: valid name, sanitised value. *)
Definition good_header (h : orderedMessageHeader) : Prop :=
  validHeaderName (h_name h) = true ∧ sanitizedHeaderValue (h_value h) = h_value h.
Definition sanitize (h : orderedMessageHeader) : orderedMessageHeader :=
  MkHeader (h_name h) (sanitizedHeaderValue (h_value h)).
(** Its text without the line break. *)
Definition header_text (h : orderedMessageHeader) : list ascii :=
  explode (h_name h) ++ explode ": " ++ explode (h_value h).

Definition no_break (l : list ascii) : Prop := CR ∉ l ∧ LF ∉ l.

Lemma sanitized_no_break s : no_break (explode (sanitizedHeaderValue s)).
Proof.
  unfold sanitizedHeaderValue, TrimSpace. rewrite explode_implode.
  split; intros H%TrimSpace_b_elem; rewrite explode_implode in H;
    apply list_elem_of_fmap in H as (c & Hc & _); unfold sanitize_char in Hc; case_decide; naive_solver.
Qed.

Lemma sanitize_plain l : no_break l → sanitize_char <$> l = l.
Proof.
  intros [Hc Hl]. induction l as [|c l IH]; [done|]. csimpl. rewrite IH by set_solver.
  unfold sanitize_char. rewrite decide_False; [done|]. set_solver.
Qed.

(** Sanitising twice is sanitising once. *)
Lemma sanitized_idem s : sanitizedHeaderValue (sanitizedHeaderValue s) = sanitizedHeaderValue s.
Proof.
  unfold sanitizedHeaderValue at 1. rewrite sanitize_plain by apply sanitized_no_break.
  autorewrite with gostr. unfold sanitizedHeaderValue. apply TrimSpace_idem.
Qed.

Lemma valid_name_chars l :
  forallb valid_header_rune (runes_b l) = true →
  Forall (λ c, plain_ascii c = true ∧ c ≠ ":"%char ∧ c ≠ CR ∧ c ≠ LF) l.
Proof.
  induction l as [|c l IH]; [constructor|]. simpl. destruct (code c <? 128)%Z eqn:E.
  - simpl. intros [Hc Hl]%andb_true_iff. constructor; [|auto]. unfold valid_header_rune in Hc. simpl in Hc.
    split_and!; [|intros ->; by vm_compute in Hc..].
    unfold plain_ascii, ws1. rewrite E. simpl. destruct (code c =? 32)%Z eqn:?; lia.
  - destruct l as [|d l]; [done|]. destruct (between 194 223 c). { by destruct (cont d). }
    destruct l as [|e l]; [done|]. destruct (between 224 239 c). { by destruct (second3 c d && cont e). }
    destruct l as [|f l]; [done|]. by destruct (between 240 244 c && second4 c d && cont e && cont f).
Qed.

Lemma validHeaderName_spec n :
  validHeaderName n = true →
  explode n ≠ [] ∧ Forall (λ c, plain_ascii c = true ∧ c ≠ ":"%char ∧ c ≠ CR ∧ c ≠ LF) (explode n).
Proof.
  unfold validHeaderName. intros [Hne Hv]%andb_true_iff. to_prop. split; [by rewrite explode_nil|].
  by apply valid_name_chars.
Qed.

Lemma valid_name_trim n : validHeaderName n = true → TrimSpace n = n.
Proof.
  intros [_ H]%validHeaderName_spec. apply TrimSpace_plain. eapply Forall_impl; [exact H|]. naive_solver.
Qed.

(** ** Finding and splitting in a text of lines *)
Lemma prefix_b_head_ne c p d l : c ≠ d → prefix_b (c :: p) (d :: l) = None.
Proof. intros H. simpl. by rewrite decide_False. Qed.

Lemma find_b_step sub c l :
  find_b sub (c :: l) =
    match prefix_b sub (c :: l) with
    | Some after => Some ([], after)
    | None => '(before, after) ← find_b sub l; Some (c :: before, after)
    end.
Proof. done. Qed.

(** A pattern is not found before the first occurrence of its first byte. *)
Lemma find_b_skip c p u l :
  c ∉ u → find_b (c :: p) (u ++ l) = prod_map (app u) id <$> find_b (c :: p) l.
Proof.
  induction u as [|d u IH]; intros Hu; cbn [app].
  - by destruct (find_b (c :: p) l) as [[]|].
  - rewrite find_b_step, prefix_b_head_ne by set_solver. rewrite IH by set_solver.
    by destruct (find_b (c :: p) l) as [[]|].
Qed.

Lemma find_b_here p l : find_b p (p ++ l) = Some ([], l).
Proof.
  assert (prefix_b p (p ++ l) = Some l) as H by by apply prefix_b_Some.
  destruct p as [|c p]; [by destruct l|]. simpl in H |- *. rewrite H. done.
Qed.

Lemma split_b_line sep u rest : sep ∉ u → split_b sep (u ++ sep :: rest) = u :: split_b sep rest.
Proof.
  induction u as [|c u IH]; intros Hu; simpl; [by rewrite decide_True|].
  rewrite decide_False by set_solver. by rewrite IH by set_solver.
Qed.

Lemma split_b_last sep u : sep ∉ u → split_b sep u = [u].
Proof.
  induction u as [|c u IH]; intros Hu; simpl; [done|].
  rewrite decide_False by set_solver. by rewrite IH by set_solver.
Qed.

Lemma elem_of_Forall_ne {A} (P : A → Prop) (x : A) l : Forall P l → ¬ P x → x ∉ l.
Proof. rewrite Forall_forall. intros H Hx Hin. auto. Qed.

Lemma header_text_no_break h : good_header h → no_break (header_text h).
Proof.
  intros [[_ Hn]%validHeaderName_spec Hv]. unfold header_text.
  pose proof (sanitized_no_break (h_value h)) as [Hc Hl]. rewrite Hv in Hc, Hl.
  assert (CR ∉ explode (h_name h)) by (eapply elem_of_Forall_ne; [exact Hn|naive_solver]).
  assert (LF ∉ explode (h_name h)) by (eapply elem_of_Forall_ne; [exact Hn|naive_solver]).
  split; rewrite !elem_of_app; simpl; intros [?|[?|?]]; try done; set_solver.
Qed.

(** The texts of the headers, separated by CRLF. *)
Fixpoint join_headers (h : orderedMessageHeader) (hs : list orderedMessageHeader) : list ascii :=
  match hs with
  | [] => header_text h
  | h' :: hs => header_text h ++ CRLF ++ join_headers h' hs
  end.

Lemma join_headers_start h hs : good_header h → ∃ c l, join_headers h hs = c :: l ∧ c ≠ CR ∧ c ≠ " "%char ∧ c ≠ "009"%char.
Proof.
  intros [[Hne Hn]%validHeaderName_spec _].
  destruct (explode (h_name h)) as [|c l] eqn:E; [done|].
  apply Forall_cons in Hn as [(Hp & ? & ? & ?) _].
  exists c. destruct hs; simpl; unfold header_text; rewrite E; simpl; eexists; (split; [done|]);
    (split_and!; [done|intros ->; by vm_compute in Hp|intros ->; by vm_compute in Hp]).
Qed.

(** After a line break, a byte that is not CR keeps the blank line away. *)
Lemma find_b_crlf c l :
  c ≠ CR → find_b [CR; LF; CR; LF] ([CR; LF] ++ c :: l) =
    prod_map (app [CR; LF]) id <$> find_b [CR; LF; CR; LF] (c :: l).
Proof.
  intros Hc. cbn [app]. rewrite find_b_step.
  assert (prefix_b [CR; LF; CR; LF] (CR :: LF :: c :: l) = None) as ->.
  { simpl. by rewrite decide_False. }
  rewrite find_b_step, prefix_b_head_ne by done.
  by destruct (find_b [CR; LF; CR; LF] (c :: l)) as [[]|].
Qed.

Lemma split_block h hs body :
  Forall good_header (h :: hs) →
  find_b [CR; LF; CR; LF] (join_headers h hs ++ [CR; LF; CR; LF] ++ body) = Some (join_headers h hs, body).
Proof.
  revert h. induction hs as [|h' hs IH]; intros h [Hh Hhs]%Forall_cons; cbn [join_headers].
  - rewrite find_b_skip by apply header_text_no_break, Hh. rewrite find_b_here. simpl.
    by rewrite app_nil_r.
  - specialize (IH h' Hhs). apply Forall_cons in Hhs as [Hh' _].
    destruct (join_headers_start h' hs Hh') as (c & l & Hj & Hc & _).
    unfold CRLF. rewrite <- !app_assoc. rewrite find_b_skip by apply header_text_no_break, Hh.
    assert (∃ k, join_headers h' hs ++ [CR; LF; CR; LF] ++ body = c :: k) as [k Hk]
      by (rewrite Hj; simpl; eauto).
    rewrite Hk in IH |- *. rewrite find_b_crlf, IH by done. done.
Qed.

(** One written line is read as the header it came from. *)
Lemma parse_header_line acc h tail lines :
  good_header h → tail = [] ∨ tail = [CR] →
  parse_header_lines acc ((header_text h ++ tail) :: lines) = parse_header_lines (h :: acc) lines.
Proof.
  intros Hg Htail. pose proof Hg as [Hval Hsan].
  destruct (validHeaderName_spec _ Hval) as [Hne Hn].
  pose proof (header_text_no_break h Hg) as [Hcr Hlf].
  assert (TrimSuffix (implode (header_text h ++ tail)) (implode [CR]) = implode (header_text h)) as Htrim.
  { destruct Htail as [-> | ->].
    - rewrite app_nil_r. apply TrimSuffix_not. intros k Hk. autorewrite with gostr in Hk.
      apply Hcr. rewrite Hk. set_solver.
    - unfold TrimSuffix. rewrite !explode_implode, reverse_app. simpl.
      by rewrite reverse_involutive. }
  cbn [parse_header_lines]. rewrite Htrim.
  destruct (join_headers_start h [] Hg) as (c & l & Hj & _ & Hsp & Htab). simpl in Hj.
  assert (HasPrefix (implode (header_text h)) " " = false) as ->.
  { unfold HasPrefix. rewrite explode_implode, Hj. simpl. rewrite decide_False; [done|]. congruence. }
  assert (HasPrefix (implode (header_text h)) (implode ["009"%char]) = false) as ->.
  { unfold HasPrefix. rewrite !explode_implode, Hj. simpl. rewrite decide_False; [done|]. congruence. }
  cbn [orb]. rewrite explode_implode. unfold header_text at 1.
  rewrite find_b_skip by (eapply elem_of_Forall_ne; [exact Hn|naive_solver]).
  change (explode ": " ++ explode (h_value h)) with ([":"%char] ++ (" "%char :: explode (h_value h))).
  rewrite find_b_here. cbn [fmap option_fmap option_map prod_map fst snd id].
  rewrite app_nil_r. destruct (explode (h_name h)) as [|c' l'] eqn:En; [done|].
  rewrite <- En, implode_explode, (valid_name_trim _ Hval), Hval. cbn [negb].
  assert (TrimSpace (implode (" "%char :: explode (h_value h))) = h_value h) as ->.
  { unfold TrimSpace. rewrite explode_implode.
    change (implode (TrimSpace_b (explode (h_value h))) = h_value h).
    rewrite <- Hsan. apply TrimSpace_idem. }
  by destruct h.
Qed.

Lemma parse_join acc h hs :
  Forall good_header (h :: hs) →
  parse_header_lines acc (split_b LF (join_headers h hs)) = Ok (reverse acc ++ h :: hs).
Proof.
  revert acc h. induction hs as [|h' hs IH]; intros acc h [Hh Hhs]%Forall_cons; cbn [join_headers].
  - rewrite split_b_last by apply header_text_no_break, Hh.
    rewrite <- (app_nil_r (header_text h)), parse_header_line by auto. simpl.
    by rewrite reverse_cons.
  - assert (header_text h ++ CRLF ++ join_headers h' hs =
      (header_text h ++ [CR]) ++ LF :: join_headers h' hs) as -> by by rewrite <- app_assoc.
    rewrite split_b_line.
    2: { destruct (header_text_no_break h Hh). rewrite elem_of_app. intros [?|?]; [done|set_solver]. }
    rewrite parse_header_line by auto. rewrite IH by done. by rewrite reverse_cons, <- app_assoc.
Qed.

(** Headers that were written, with a blank line and a body behind them, are
    read back as they were. *)
Definition print_header (h : orderedMessageHeader) : list ascii := header_text h ++ CRLF.

Lemma concat_join h hs : concat (print_header <$> (h :: hs)) = join_headers h hs ++ CRLF.
Proof.
  revert h. induction hs as [|h' hs IH]; intros h; cbn [join_headers].
  - simpl. by rewrite app_nil_r.
  - rewrite fmap_cons. cbn [concat]. rewrite IH. unfold print_header. by rewrite <- !app_assoc.
Qed.

Lemma parse_print h hs body :
  Forall good_header (h :: hs) →
  parseOrderedForwardedMessage (concat (print_header <$> (h :: hs)) ++ CRLF ++ body) = Ok (h :: hs, body).
Proof.
  intros Hg. rewrite concat_join, <- app_assoc.
  unfold parseOrderedForwardedMessage, splitMessageHeadersAndBody.
  change (CRLF ++ CRLF ++ body) with ([CR; LF; CR; LF] ++ body).
  change (CRLF ++ CRLF) with [CR; LF; CR; LF].
  rewrite split_block by done. simpl. unfold parseOrderedHeaders.
  destruct (join_headers h hs) as [|c l] eqn:E.
  - apply Forall_cons in Hg as [Hh _]. destruct (join_headers_start h hs Hh) as (? & ? & ? & _). congruence.
  - rewrite <- E, parse_join by done. done.
Qed.

(** * What the rewriting does to the headers *)
Definition keep (h : orderedMessageHeader) : bool :=
  negb (bool_decide (CanonicalMIMEHeaderKey (h_name h) ∈ forwardingRewriteDroppedHeaders)).
Definition valid_names : list orderedMessageHeader → Prop := Forall (λ h, validHeaderName (h_name h) = true).

Lemma parse_header_lines_valid acc lines hs :
  valid_names acc → parse_header_lines acc lines = Ok hs → valid_names hs.
Proof.
  revert acc. induction lines as [|line lines IH]; intros acc Hacc; cbn [parse_header_lines].
  - intros [= <-]. by apply Forall_reverse.
  - destruct (_ || _).
    + destruct acc as [|h acc]; [done|]. apply Forall_cons in Hacc as [Hh Hacc].
      apply IH. by constructor.
    + destruct (find_b _ _) as [[[|c b] a]|]; [done| |done].
      destruct (validHeaderName _) eqn:E; [|done]. cbn [negb]. apply IH. by constructor.
Qed.

Lemma parse_message_valid raw hs body :
  parseOrderedForwardedMessage raw = Ok (hs, body) → valid_names hs.
Proof.
  unfold parseOrderedForwardedMessage. intros (hb & _ & H)%bind_Ok.
  apply bind_Ok in H as (hs' & Hp & [= -> _]). unfold parseOrderedHeaders in Hp.
  destruct hb.1; [simplify_eq; constructor|]. by eapply (parse_header_lines_valid []); [constructor|].
Qed.

Lemma writeMessageHeader_print n v :
  validHeaderName n = true → writeMessageHeader n v = print_header (MkHeader n (sanitizedHeaderValue v)).
Proof.
  intros Hn. unfold writeMessageHeader, print_header, header_text. simpl.
  by rewrite valid_name_trim, <- !app_assoc.
Qed.

Lemma good_sanitized n v : validHeaderName n = true → good_header (MkHeader n (sanitizedHeaderValue v)).
Proof. intros Hn. split; [done|]. apply sanitized_idem. Qed.

Section rewriting_spec.
Context `{M : NetMail} (route : Route).

(** The headers that name the route as the sender. *)
Definition identity_headers (originalFrom replyTo : string) : list orderedMessageHeader :=
  sanitize <$>
    MkHeader headerFrom (forwardedFromHeader route originalFrom)
    :: (if decide (replyTo = ""%string) then [] else [MkHeader headerReplyTo replyTo])
    ++ (if decide (originalFrom = ""%string) then [] else [MkHeader headerXOriginalFrom originalFrom]).

(** The original headers, the dropped ones removed and the first From replaced. *)
Fixpoint place_identity (ident hs : list orderedMessageHeader) : list orderedMessageHeader :=
  match hs with
  | [] => []
  | h :: hs =>
      if is_header headerFrom h then ident ++ (sanitize <$> List.filter keep hs)
      else if keep h then sanitize h :: place_identity ident hs else place_identity ident hs
  end.

Definition forwarded_headers (hs : list orderedMessageHeader) : list orderedMessageHeader :=
  let ident := identity_headers (firstHeaderValue hs headerFrom) (reply_to hs) in
  if hasHeader hs headerFrom then place_identity ident hs
  else ident ++ (sanitize <$> List.filter keep hs).

Lemma identity_print originalFrom replyTo :
  writeForwardingIdentityHeaders route originalFrom replyTo =
    concat (print_header <$> identity_headers originalFrom replyTo).
Proof.
  unfold writeForwardingIdentityHeaders, identity_headers.
  rewrite !writeMessageHeader_print by done.
  repeat case_decide; simpl; by rewrite ?app_nil_r.
Qed.

Lemma From_dropped h : is_header headerFrom h = true → keep h = false.
Proof.
  unfold is_header, keep. intros H. to_prop. rewrite H. by vm_compute.
Qed.

Lemma dropped_keep h :
  bool_decide (CanonicalMIMEHeaderKey (h_name h) ∈ forwardingRewriteDroppedHeaders) = negb (keep h).
Proof. unfold keep. by rewrite negb_involutive. Qed.

Lemma rewrite_headers_written originalFrom replyTo hs :
  valid_names hs →
  rewrite_headers route originalFrom replyTo true hs =
    concat (print_header <$> (sanitize <$> List.filter keep hs)).
Proof.
  induction 1 as [|h hs Hh _ IH]; [done|]. cbn [rewrite_headers List.filter]. rewrite andb_false_r, IH, dropped_keep.
  destruct (keep h); [|done]. csimpl. by rewrite writeMessageHeader_print.
Qed.

Lemma rewrite_headers_pending originalFrom replyTo hs :
  valid_names hs →
  rewrite_headers route originalFrom replyTo false hs =
    concat (print_header <$> place_identity (identity_headers originalFrom replyTo) hs).
Proof.
  induction 1 as [|h hs Hh Hhs IH]; [done|]. cbn [rewrite_headers place_identity].
  rewrite andb_true_r. change (bool_decide (CanonicalMIMEHeaderKey (h_name h) = _)) with (is_header headerFrom h).
  destruct (is_header headerFrom h).
  - by rewrite identity_print, rewrite_headers_written, <- concat_app, <- fmap_app.
  - rewrite IH, dropped_keep. destruct (keep h); [|done]. csimpl. by rewrite writeMessageHeader_print.
Qed.

Lemma rewriteParsed_print hs body :
  valid_names hs →
  rewriteParsedForwardedMessage route hs body =
    concat (print_header <$> forwarded_headers hs) ++ CRLF ++ body.
Proof.
  intros Hv. unfold rewriteParsedForwardedMessage, forwarded_headers.
  destruct (hasHeader hs headerFrom); cbn [negb].
  - by rewrite rewrite_headers_pending.
  - by rewrite identity_print, rewrite_headers_written, <- concat_app, <- fmap_app.
Qed.

Lemma sanitize_good hs : valid_names hs → Forall good_header (sanitize <$> hs).
Proof. intros H. apply Forall_fmap. eapply Forall_impl; [exact H|]. intros h Hh. by apply good_sanitized. Qed.

Lemma filter_valid f hs : valid_names hs → valid_names (List.filter f hs).
Proof.
  unfold valid_names. rewrite !List.Forall_forall. intros H h [Hin _]%List.filter_In. auto.
Qed.

Lemma identity_good originalFrom replyTo : Forall good_header (identity_headers originalFrom replyTo).
Proof.
  apply sanitize_good. repeat case_decide; repeat constructor.
Qed.

Lemma place_identity_good ident hs :
  Forall good_header ident → valid_names hs → Forall good_header (place_identity ident hs).
Proof.
  intros Hi. induction 1 as [|h hs Hh Hhs IH]; [constructor|]. simpl.
  destruct (is_header headerFrom h).
  - apply Forall_app. split; [done|]. by apply sanitize_good, filter_valid.
  - destruct (keep h); [|done]. constructor; [by apply good_sanitized|done].
Qed.

Lemma forwarded_good hs : valid_names hs → Forall good_header (forwarded_headers hs).
Proof.
  intros Hv. unfold forwarded_headers. destruct (hasHeader hs headerFrom).
  - apply place_identity_good; [apply identity_good|done].
  - apply Forall_app. split; [apply identity_good|]. by apply sanitize_good, filter_valid.
Qed.

Lemma place_identity_split ident hs :
  hasHeader hs headerFrom = true →
  ∃ before h after, hs = before ++ h :: after ∧ is_header headerFrom h = true ∧
    place_identity ident hs =
      (sanitize <$> List.filter keep before) ++ ident ++ (sanitize <$> List.filter keep after).
Proof.
  induction hs as [|h hs IH]; simpl; [done|]. destruct (is_header headerFrom h) eqn:E; simpl.
  - intros _. by exists [], h, hs.
  - intros H. destruct (IH H) as (b & h' & a & -> & Hh' & ->). exists (h :: b), h', a.
    split_and!; [done..|]. simpl. by destruct (keep h).
Qed.

(** The forwarded headers are the kept ones in order, around the identity. *)
Lemma forwarded_split hs :
  ∃ before after,
    forwarded_headers hs = (sanitize <$> before)
      ++ identity_headers (firstHeaderValue hs headerFrom) (reply_to hs) ++ (sanitize <$> after) ∧
    before ++ after = List.filter keep hs.
Proof.
  unfold forwarded_headers. destruct (hasHeader hs headerFrom) eqn:E.
  - destruct (place_identity_split (identity_headers (firstHeaderValue hs headerFrom) (reply_to hs)) hs E)
      as (b & h & a & -> & Hh & Hp).
    exists (List.filter keep b), (List.filter keep a). split; [exact Hp|].
    rewrite List.filter_app. simpl. by rewrite From_dropped.
  - exists [], (List.filter keep hs). done.
Qed.
End rewriting_spec.

Lemma kept_not_from hs : Forall (λ h, is_header headerFrom h = false) (sanitize <$> List.filter keep hs).
Proof.
  apply Forall_fmap, List.Forall_forall. intros h [_ Hk]%List.filter_In. simpl.
  destruct (is_header headerFrom (sanitize h)) eqn:E; [|done].
  apply (From_dropped (sanitize h)) in E. unfold keep, sanitize in *. simpl in E. congruence.
Qed.

Lemma filter_fmap_sanitize (hs : list orderedMessageHeader) :
  List.filter keep (sanitize <$> List.filter keep hs) = sanitize <$> List.filter keep hs.
Proof.
  apply filter_all. apply Forall_fmap, List.Forall_forall. by intros h [_ Hk]%List.filter_In.
Qed.

Lemma identity_from `{M : NetMail} route originalFrom replyTo :
  List.filter (is_header headerFrom) (identity_headers route originalFrom replyTo) =
    [MkHeader headerFrom (sanitizedHeaderValue (forwardedFromHeader route originalFrom))].
Proof. unfold identity_headers. repeat case_decide; reflexivity. Qed.

Lemma identity_dropped `{M : NetMail} route originalFrom replyTo :
  Forall (λ h, keep h = false) (identity_headers route originalFrom replyTo).
Proof. unfold identity_headers. repeat case_decide; repeat constructor. Qed.


Definition demo_raw : list ascii :=
  concat ((λ s, explode s ++ CRLF) <$>
    ["Received: a"; "From: x@evil.org"; "DKIM-Signature: v=1"; "Subject: one"; " two"; "Bcc: z@z.z"; ""; "body"]%string).

(** What the rewriting of a small message looks like. *)
Example demo_rewrite :
  rewriteForwardedMessage (M := simple_mail) demo_route demo_raw =
    Ok (concat ((λ s, explode s ++ CRLF) <$>
      ["Received: a"; "From: " ++ quote ++ "x@evil.org" ++ quote ++ " <team@example.com>"; "Reply-To: x@evil.org";
       "X-Pinguin-Original-From: x@evil.org"; "Subject: one   two"; ""; "body"]%string)).
Proof. vm_compute. reflexivity. Qed.

