(* ===== verification/DirectRelay.v ===== *)
(** The two relays behind the submission server
    (src/internal/smtpsubmission/direct_relay.go and relay.go): delivery to the
    recipient domain's MX hosts, and delivery through an upstream provider.

    DNS and the SMTP client (Go's [net] and [net/smtp]) are the class [MXNet]:
    each call changes the world and succeeds or fails. *)
From S2P Require Import Prelude GoStrings Throttle Address Base64 Smtp Submission.
Open Scope Z_scope.

Record MX := MkMX { mx_Host : string; mx_Pref : Z }.

Class MXNet (W : Type) := {
  LookupMX : string → eff W (list MX);
  DialContext : string → eff W unit;            (** host, port 25 *)
  SetDeadline : Z → eff W unit;
  NewClient : string → eff W unit;              (** reads the greeting *)
  Hello : string → eff W unit;
  Extension : string → eff W bool;
  StartTLS : string → eff W unit;
  Mail : string → eff W unit;
  Rcpt : string → eff W unit;
  DataCommand : eff W unit;
  Write : list ascii → eff W unit;
  CloseData : eff W unit;                       (** the final dot *)
  Quit : eff W unit;
}.

(** * relay.go: classification of SMTP errors *)
Definition isPermanentSMTPError (err : error) : bool :=
  match errors_As_SMTP err with
  | Some code => (500 <=? code) && (code <? 600)
  | None => false
  end.

Definition upstreamRelayError (sendErr : error) : error :=
  if isPermanentSMTPError sendErr then WrapfV "%w: upstream smtp: %v" [] ErrRelayPermanent sendErr
  else WrapfV "%w: upstream smtp: %v" [] ErrRelayTemporary sendErr.

(** [UpstreamRelay.Relay], over the raw e-mail sender it was built with. *)
Definition UpstreamRelay_Relay {W} (SendRawEmail : string → list string → list ascii → eff W unit)
    (message : RawMessage) : eff W unit := λ w,
  let '(w, r) := SendRawEmail (String_ (From message)) (RecipientStrings message) (Data message) w in
  match r with
  | Err sendErr => (w, Err (upstreamRelayError sendErr))
  | Ok _ => (w, Ok ())
  end.

(** * direct_relay.go *)
Definition directRelayError (err : error) : error :=
  if isPermanentSMTPError err then WrapfV "%w: direct smtp: %v" [] ErrRelayPermanent err
  else WrapfV "%w: direct smtp: %v" [] ErrRelayTemporary err.

Record DirectMXRelay := MkDirectMXRelay { hostname : string; operationTimeout : Z }.

(** [NewDirectMXRelay]: the timeouts, in seconds, of the configuration. *)
Definition NewDirectMXRelay (operationTimeoutSec : Z) (submissionHostname : string) : DirectMXRelay :=
  MkDirectMXRelay submissionHostname (positive_or (seconds operationTimeoutSec) (30 * Second)).

Definition groupRecipientsByDomain (recipients : list Address) : gmap string (list Address) :=
  foldl (λ grouped recipient,
    <[Domain recipient := default [] (grouped !! Domain recipient) ++ [recipient]]> grouped)
    ∅ recipients.

Definition shouldFallbackToDomainHost (lookupErr : error) : bool :=
  match errors_As_DNS lookupErr with Some isNotFound => isNotFound | None => false end.

(** The comparison of [sort.SliceStable]. *)
Definition mx_le (a b : MX) : Prop :=
  mx_Pref a < mx_Pref b ∨ mx_Pref a = mx_Pref b ∧ String.le (mx_Host a) (mx_Host b).
#[export] Instance mx_le_dec a b : Decision (mx_le a b).
Proof. unfold mx_le. apply _. Defined.

(** The loop over the sorted records. *)
Fixpoint usable_targets (domain : string) (records : list MX) : result (list string) :=
  match records with
  | [] => Ok []
  | record :: records =>
      let host := TrimSpace (mx_Host record) in
      if decide (host = "."%string)
      then Err (Wrapf "%w: recipient domain %s publishes null mx" [FStr domain] ErrRelayPermanent) else
      if decide (host = ""%string) then usable_targets domain records else
      targets ← usable_targets domain records; Ok (host :: targets)
  end.

(** Group a [Data] phase: write, then close whatever happened. *)
Definition finishSMTPData {W} `{N : MXNet W} (writeErr : result unit) : eff W unit :=
  match writeErr with
  | Err e => ignore CloseData;; lift (Err e)
  | Ok _ => CloseData
  end.

Section relay.
Context {W : Type} `{N : MXNet W} (relay : DirectMXRelay).

Definition lookupTargets (domain : string) : eff W (list string) := λ w,
  let '(w, r) := LookupMX domain w in
  (w, match r with
      | Err lookupErr => if shouldFallbackToDomainHost lookupErr then Ok [domain] else Err lookupErr
      | Ok [] => Ok [domain]
      | Ok records =>
          targets ← usable_targets domain (merge_sort mx_le records);
          if decide (targets = []) then Err (Text "recipient mx records for %s contain no hosts" [FStr domain])
          else Ok targets
      end).

Definition write_data (data : list ascii) : eff W unit := λ w,
  let '(w, writeErr) := Write data w in finishSMTPData writeErr w.

Definition relayTarget (target : string) (from : Address) (recipients : list Address)
    (data : list ascii) : eff W unit :=
  let host := TrimSuffix target "." in
  DialContext host;;
  (if 0 <? operationTimeout relay then SetDeadline (operationTimeout relay) else mret ());;
  NewClient host;;
  Hello (hostname relay);;
  ok ← Extension "STARTTLS";
  (if ok : bool then StartTLS host else mret ());;
  Mail (String_ from);;
  for_each (λ recipient, Rcpt (String_ recipient)) recipients;;
  DataCommand;;
  write_data data;;
  ignore Quit.

(** The loop over the targets; [lastErr] is the error of the one before. *)
Fixpoint try_targets (targets : list string) (lastErr : error) (from : Address)
    (recipients : list Address) (data : list ascii) : eff W unit := λ w,
  match targets with
  | [] => (w, Err (directRelayError lastErr))
  | target :: targets =>
      let '(w, r) := relayTarget target from recipients data w in
      match r with
      | Ok _ => (w, Ok ())
      | Err err =>
          if isPermanentSMTPError err then (w, Err (directRelayError err))
          else try_targets targets err from recipients data w
      end
  end.

(** Before the first target [lastErr] is nil, which has no SMTP code. *)
Definition nil_error : error := Text "<nil>" [].

Definition relayDomain (domain : string) (from : Address) (recipients : list Address)
    (data : list ascii) : eff W unit := λ w,
  let '(w, r) := lookupTargets domain w in
  match r with
  | Err resolveErr =>
      (w, Err (if errors_Is resolveErr ErrRelayPermanent then resolveErr
               else WrapfV "%w: resolve recipient mx %s: %v" [FStr domain] ErrRelayTemporary resolveErr))
  | Ok targets => try_targets targets nil_error from recipients data w
  end.

Definition DirectMXRelay_Relay (message : RawMessage) : eff W unit :=
  let recipientsByDomain := groupRecipientsByDomain (Recipients message) in
  let domains := sort_strings (map_to_list recipientsByDomain).*1 in
  if (1 <? length domains)%nat then
    lift (Err (Wrapf "%w: direct smtp supports one recipient domain per message" [] ErrRelayPermanent))
  else
    for_each (λ domain,
      relayDomain domain (From message) (default [] (recipientsByDomain !! domain)) (Data message)) domains.
End relay.

(** * Lemmas *)
#[export] Instance string_le_total' : Total String.le.
Proof. apply _. Qed.
#[export] Instance mx_le_total : Total mx_le.
Proof.
  intros a b. unfold mx_le. destruct (Z.lt_trichotomy (mx_Pref a) (mx_Pref b)) as [?|[E|?]]; [by auto| |by auto].
  destruct (total String.le (mx_Host a) (mx_Host b)); auto.
Qed.
#[export] Instance mx_le_trans : Transitive mx_le.
Proof.
  intros a b c [?|[? ?]] [?|[? ?]]; unfold mx_le; [left; lia|left; lia|left; lia|right; split; [lia|]].
  by etransitivity.
Qed.

Lemma groupRecipientsByDomain_spec recipients d :
  default [] (groupRecipientsByDomain recipients !! d) = filter (λ a, Domain a = d) recipients ∧
  (is_Some (groupRecipientsByDomain recipients !! d) ↔ ∃ a, a ∈ recipients ∧ Domain a = d).
Proof.
  unfold groupRecipientsByDomain.
  induction recipients as [|a l IH] using rev_ind; simpl.
  - rewrite lookup_empty. split; [done|]. split; [by intros [? ?]|]. intros (? & ?%elem_of_nil & _). done.
  - rewrite foldl_app, filter_app. simpl. destruct IH as [IHl IHs].
    rewrite lookup_insert, filter_cons, filter_nil. case_decide as Hd.
    + subst d. rewrite ?decide_True by done. simpl. rewrite IHl. split; [done|].
      split; [|eauto]. intros _. exists a. set_solver.
    + rewrite ?decide_False, app_nil_r by done. split; [done|]. rewrite IHs. set_solver.
Qed.

Lemma domains_spec recipients d :
  d ∈ sort_strings (map_to_list (groupRecipientsByDomain recipients)).*1 ↔
  ∃ a, a ∈ recipients ∧ Domain a = d.
Proof.
  unfold sort_strings. rewrite merge_sort_Permutation.
  rewrite <- (proj2 (groupRecipientsByDomain_spec recipients d)), list_elem_of_fmap. split.
  - intros ([k v] & -> & Hk%elem_of_map_to_list). eauto.
  - intros [v Hv]. exists (d, v). split; [done|]. by apply elem_of_map_to_list.
Qed.

Lemma filter_all_domain (recipients : list Address) d :
  (∀ a, a ∈ recipients → Domain a = d) → filter (λ a, Domain a = d) recipients = recipients.
Proof.
  induction recipients as [|a l IH]; intros H; [done|].
  rewrite filter_cons_True by (apply H; set_solver). f_equal. apply IH. set_solver.
Qed.

Section relay_lemmas.
Context {W : Type} `{N : MXNet W} (relay : DirectMXRelay).
Context (from : Address) (recipients : list Address) (data : list ascii).

(** Every target of a list fails with an error that is not permanent. *)
Inductive all_temporary : list string → W → W → Prop :=
| temporary_nil w : all_temporary [] w w
| temporary_cons t ts w w1 w2 e :
    relayTarget relay t from recipients data w = (w1, Err e) → isPermanentSMTPError e = false →
    all_temporary ts w1 w2 → all_temporary (t :: ts) w w2.

Lemma try_targets_Ok targets lastErr w w' :
  try_targets relay targets lastErr from recipients data w = (w', Ok ()) →
  ∃ before t after w1, targets = before ++ t :: after ∧ all_temporary before w w1 ∧
    relayTarget relay t from recipients data w1 = (w', Ok ()).
Proof.
  revert lastErr w. induction targets as [|t ts IH]; intros lastErr w; simpl; [done|].
  destruct (relayTarget relay t from recipients data w) as [w1 [[]|e]] eqn:E.
  - intros [= <-]. exists [], t, ts, w. split_and!; [done|constructor|done].
  - destruct (isPermanentSMTPError e) eqn:Ep; [done|]. intros H.
    destruct (IH e w1 H) as (b & t' & a & w2 & -> & Ha & Hr). exists (t :: b), t', a, w2.
    split_and!; [done| |done]. by econstructor.
Qed.

Lemma directRelayError_class err :
  errors_Is (directRelayError err) ErrRelayPermanent = isPermanentSMTPError err ∧
  errors_Is (directRelayError err) ErrRelayTemporary = negb (isPermanentSMTPError err).
Proof. unfold directRelayError. by destruct (isPermanentSMTPError err). Qed.

(** Errors are permanent exactly when a target answered with a 5xx code. *)
Lemma try_targets_Err targets lastErr w w' e :
  isPermanentSMTPError lastErr = false →
  try_targets relay targets lastErr from recipients data w = (w', Err e) →
  (errors_Is e ErrRelayPermanent = true ∧ errors_Is e ErrRelayTemporary = false ∧
     ∃ before t after w1 err, targets = before ++ t :: after ∧ all_temporary before w w1 ∧
       relayTarget relay t from recipients data w1 = (w', Err err) ∧ isPermanentSMTPError err = true) ∨
  (errors_Is e ErrRelayPermanent = false ∧ errors_Is e ErrRelayTemporary = true ∧
     all_temporary targets w w').
Proof.
  revert lastErr w. induction targets as [|t ts IH]; intros lastErr w Hlast; simpl.
  - intros [= <- <-]. right. destruct (directRelayError_class lastErr) as [-> ->]. rewrite Hlast.
    split_and!; [done..|constructor].
  - destruct (relayTarget relay t from recipients data w) as [w1 [[]|err]] eqn:E; [done|].
    destruct (isPermanentSMTPError err) eqn:Ep.
    + intros [= <- <-]. left. destruct (directRelayError_class err) as [-> ->]. rewrite Ep.
      split_and!; [done..|]. exists [], t, ts, w, err. split_and!; [done|constructor|done..].
    + intros H. destruct (IH err w1 Ep H) as [(Hp & Ht & b & t' & a & w2 & e' & -> & Ha & Hr & He)|(Hp & Ht & Ha)].
      * left. split_and!; [done..|]. exists (t :: b), t', a, w2, e'.
        split_and!; [done| |done..]. by econstructor.
      * right. split_and!; [done..|]. by econstructor.
Qed.

(** What a successful session with one target consists of. *)
Lemma relayTarget_Ok target w w' :
  relayTarget relay target from recipients data w = (w', Ok ()) →
  ∃ w1 w2 w3 w4 w5 w6,
    Mail (String_ from) w1 = (w2, Ok ()) ∧
    for_each (λ recipient, Rcpt (String_ recipient)) recipients w2 = (w3, Ok ()) ∧
    DataCommand w3 = (w4, Ok ()) ∧ Write data w4 = (w5, Ok ()) ∧ CloseData w5 = (w6, Ok ()).
Proof.
  unfold relayTarget. intros H.
  repeat (apply eff_bind_Ok in H as (? & ? & ? & H)).
  repeat match goal with u : unit |- _ => destruct u end.
  unfold write_data in *.
  match goal with
  | Hm : Mail _ ?w1 = (?w2, _), Hr : for_each _ _ ?w2 = (?w3, _), Hd : DataCommand ?w3 = (?w4, _),
    Hw : context [Write data ?w4] |- _ =>
      destruct (Write data w4) as [w5 [[]|e]] eqn:Ew; simpl in Hw;
        [do 6 eexists; split_and!; eauto|]
  end.
  match goal with Hw : (ignore CloseData;; lift (Err e)) _ = _ |- _ => apply eff_bind_Ok in Hw as (? & ? & _ & ?) end.
  done.
Qed.
End relay_lemmas.

(** C30: a message that [DirectMXRelay.Relay] reports delivered has a single
    recipient domain, and some target of that domain, after every target before it
    failed without a permanent error, accepted the sender, every recipient, and
    the final dot after the message's data. *)
Theorem direct_relay_delivers {W} `{N : MXNet W} relay message w w' :
  Recipients message ≠ [] →
  DirectMXRelay_Relay relay message w = (w', Ok ()) →
  ∃ d targets before target after w0 w1,
    (∀ a, a ∈ Recipients message → Domain a = d) ∧
    lookupTargets d w = (w0, Ok targets) ∧ targets = before ++ target :: after ∧
    all_temporary relay (From message) (Recipients message) (Data message) before w0 w1 ∧
    relayTarget relay target (From message) (Recipients message) (Data message) w1 = (w', Ok ()) ∧
    ∃ w2 w3 w4 w5 w6 w7,
      Mail (String_ (From message)) w2 = (w3, Ok ()) ∧
      for_each (λ recipient, Rcpt (String_ recipient)) (Recipients message) w3 = (w4, Ok ()) ∧
      DataCommand w4 = (w5, Ok ()) ∧ Write (Data message) w5 = (w6, Ok ()) ∧ CloseData w6 = (w7, Ok ()).
Proof.
  intros Hne H. unfold DirectMXRelay_Relay in H.
  pose proof (domains_spec (Recipients message)) as Hdom.
  set (domains := sort_strings (map_to_list (groupRecipientsByDomain (Recipients message))).*1) in *.
  destruct (Recipients message) as [|a rest] eqn:Er; [done|]. rewrite <- Er in *.
  destruct (Nat.ltb_spec 1 (length domains)) as [|Hlen]; [done|].
  destruct domains as [|d [|d' ds]]; [|clear Hlen|simpl in Hlen; lia].
  { exfalso. assert (Domain a ∈ (@nil string)) as Hin; [|by apply elem_of_nil in Hin].
    apply Hdom. exists a. rewrite Er. set_solver. }
  assert (∀ b, b ∈ Recipients message → Domain b = d) as Hall.
  { intros b Hb. assert (Domain b ∈ [d]) as ?%list_elem_of_singleton; [|done]. apply Hdom. eauto. }
  cbn [for_each] in H. apply eff_bind_Ok in H as (w9 & [] & H & Hret).
  injection Hret as <-.
  rewrite (proj1 (groupRecipientsByDomain_spec (Recipients message) d)), filter_all_domain in H by done.
  unfold relayDomain in H. destruct (lookupTargets d w) as [w0 [targets|e]] eqn:El; [|done].
  destruct (try_targets_Ok relay _ _ _ _ _ _ _ H) as (b & t & af & w1 & Ht & Hb & Hr).
  exists d, targets, b, t, af, w0, w1. split_and!; [done..|]. by apply (relayTarget_Ok relay) in Hr.
Qed.

Lemma usable_targets_Err domain l e :
  usable_targets domain l = Err e → errors_Is e ErrRelayTemporary = false.
Proof.
  induction l as [|x l IH]; simpl; [done|]. repeat case_decide; [by intros [= <-]|done|].
  intros [?|(? & _ & ?)]%bind_Err; [auto|done].
Qed.

(** An error of [DirectMXRelay.Relay] is either permanent or temporary, never
    both, so the submission server answers 554 or 451 as the error says. *)
Theorem direct_relay_error_class {W} `{N : MXNet W} relay message w w' e :
  (∀ d w w' e, LookupMX d w = (w', Err e) → errors_Is e ErrRelayPermanent = false) →
  DirectMXRelay_Relay relay message w = (w', Err e) →
  errors_Is e ErrRelayTemporary = negb (errors_Is e ErrRelayPermanent).
Proof.
  intros Hlook. unfold DirectMXRelay_Relay. destruct (1 <? _)%nat; [by intros [= <- <-]|].
  generalize (sort_strings (map_to_list (groupRecipientsByDomain (Recipients message))).*1) as domains.
  intros domains. revert w. induction domains as [|d ds IH]; intros w; [done|]. cbn [for_each].
  unfold mbind, eff_bind. destruct (relayDomain _ _ _ _ _ _) as [w1 [[]|e1]] eqn:E; [apply IH|].
  intros [= <- <-]. unfold relayDomain in E.
  destruct (lookupTargets d w) as [w2 [targets|re]] eqn:El.
  - apply try_targets_Err in E as [(-> & -> & _)|(-> & -> & _)]; done.
  - simplify_eq/=. destruct (errors_Is re ErrRelayPermanent) eqn:Ep; [|done].
    rewrite Ep. unfold lookupTargets in El. destruct (LookupMX d w) as [w3 [recs|le]] eqn:Em.
    + destruct recs as [|r recs]; [done|]. injection El as -> El.
      apply bind_Err in El as [El|(ts & _ & El)]; [by eapply usable_targets_Err|].
      case_decide; by simplify_eq.
    + case_match; simplify_eq. by rewrite (Hlook _ _ _ _ Em) in Ep.
Qed.

(** The targets of a domain with MX records are their hosts, blanks left out,
    in order of preference and then of name; a null MX (host ".") or only blank
    hosts is an error, the former permanent. *)
Theorem lookupTargets_order {W} `{N : MXNet W} domain (w w' : W) records :
  LookupMX domain w = (w', Ok records) → records ≠ [] →
  let sorted := merge_sort mx_le records in
  let hosts := (λ r, TrimSpace (mx_Host r)) <$> sorted in
  sorted ≡ₚ records ∧ StronglySorted mx_le sorted ∧
  (lookupTargets domain w).2 =
    if decide ("."%string ∈ hosts)
    then Err (Wrapf "%w: recipient domain %s publishes null mx" [FStr domain] ErrRelayPermanent)
    else if decide (filter (λ h, h ≠ ""%string) hosts = [])
    then Err (Text "recipient mx records for %s contain no hosts" [FStr domain])
    else Ok (filter (λ h, h ≠ ""%string) hosts).
Proof.
  intros Hl Hne. split_and!; [apply merge_sort_Permutation|apply StronglySorted_merge_sort; apply _|].
  unfold lookupTargets. rewrite Hl. simpl. destruct records as [|r0 rs]; [done|].
  generalize (merge_sort mx_le (r0 :: rs)) as l. intros l.
  assert (usable_targets domain l =
    if decide ("."%string ∈ ((λ r, TrimSpace (mx_Host r)) <$> l))
    then Err (Wrapf "%w: recipient domain %s publishes null mx" [FStr domain] ErrRelayPermanent)
    else Ok (filter (λ h, h ≠ ""%string) ((λ r, TrimSpace (mx_Host r)) <$> l))) as ->.
  { induction l as [|x l IH].
    - rewrite decide_False; [done|]. by intros ?%elem_of_nil.
    - cbn [usable_targets]. rewrite fmap_cons, filter_cons.
      destruct (decide (TrimSpace (mx_Host x) = "."%string)) as [Hd|Hd].
      { rewrite decide_True; [done|]. rewrite Hd. set_solver. }
      destruct (decide (TrimSpace (mx_Host x) = ""%string)) as [He|He].
      + rewrite IH. rewrite (decide_False (P := TrimSpace (mx_Host x) ≠ ""%string)) by tauto.
        case_decide; [rewrite decide_True by set_solver|rewrite decide_False by set_solver]; done.
      + rewrite IH, (decide_True (P := TrimSpace (mx_Host x) ≠ ""%string)) by done.
        case_decide; [rewrite decide_True by set_solver|rewrite decide_False by set_solver]; done. }
  case_decide; [done|]. simpl. by case_decide.
Qed.

(** * Witnesses: a network whose first MX host is busy *)
Definition say {A} (s : string) (r : result A) : eff (list string) A := λ w, (w ++ [s], r).
Definition demo_net : MXNet (list string) :=
  {| LookupMX d := say "MX" (if decide (d = "y.org"%string)
       then Ok [MkMX "mx2.y.org." 20; MkMX "" 5; MkMX "mx1.y.org." 10] else Ok [MkMX "." 0]);
     DialContext h := say ("dial " ++ h) (if decide (h = "mx1.y.org"%string)
       then Err (SMTPReply 421 "busy") else Ok ());
     SetDeadline _ := mret (); NewClient _ := mret (); Hello _ := mret ();
     Extension _ := mret false; StartTLS _ := mret ();
     Mail f := say ("MAIL " ++ f) (Ok ()); Rcpt t := say ("RCPT " ++ t) (Ok ());
     DataCommand := say "DATA" (Ok ()); Write _ := mret (); CloseData := say "." (Ok ());
     Quit := mret () |}.
Definition demo_relay : DirectMXRelay := NewDirectMXRelay 0 "mail.example.com".

Example demo_delivery :
  DirectMXRelay_Relay (N := demo_net) demo_relay demo_message [] =
    (["MX"; "dial mx1.y.org"; "dial mx2.y.org"; "MAIL a@example.com"; "RCPT x@y.org"; "DATA"; "."]%string, Ok ()).
Proof. vm_compute. reflexivity. Qed.

Lemma direct_relay_delivers_witness :
  ∃ target w1, relayTarget (N := demo_net) demo_relay target (From demo_message) (Recipients demo_message)
    (Data demo_message) w1 = ((DirectMXRelay_Relay (N := demo_net) demo_relay demo_message []).1, Ok ()).
Proof.
  destruct (direct_relay_delivers (N := demo_net) demo_relay demo_message []
    (DirectMXRelay_Relay (N := demo_net) demo_relay demo_message []).1 ltac:(discriminate)
    ltac:(vm_compute; reflexivity))
    as (d & ts & b & t & a & w0 & w1 & _ & _ & _ & _ & Ht & _). eauto.
Defined.

Definition demo_null_message : RawMessage :=
  MkRawMessage "id" (ai_EmailAddress demo_identity) [MkAddress "x@null.org" "null.org"] [].
Lemma direct_relay_error_class_witness :
  match DirectMXRelay_Relay (N := demo_net) demo_relay demo_null_message [] with
  | (_, Err e) => errors_Is e ErrRelayTemporary = negb (errors_Is e ErrRelayPermanent)
  | _ => False
  end.
Proof.
  destruct (DirectMXRelay_Relay (N := demo_net) demo_relay demo_null_message []) as [w [[]|e]] eqn:E;
    [vm_compute in E; discriminate|].
  apply (direct_relay_error_class (N := demo_net) demo_relay demo_null_message [] w e); [|exact E].
  intros d w0 w1 e0. simpl. case_decide; unfold say; discriminate.
Defined.

Lemma lookupTargets_order_witness :
  (lookupTargets (N := demo_net) "y.org" []).2 = Ok ["mx1.y.org."; "mx2.y.org."]%string.
Proof.
  destruct (lookupTargets_order (N := demo_net) "y.org" [] ["MX"%string]
    [MkMX "mx2.y.org." 20; MkMX "" 5; MkMX "mx1.y.org." 10] ltac:(vm_compute; reflexivity)
    ltac:(discriminate)) as (_ & _ & ->).
  vm_compute. reflexivity.
Defined.
