(* ===== verification/Crypto.v ===== *)
(** What the program uses of the machine and of Go's crypto packages: the clock, the
    random source, UUIDs and DNS (the class [Environment]), HMAC-SHA-256 and AES-GCM
    (the class [Crypto], whose one law says that opening what was sealed with the same
    key and nonce gives the text back), hexadecimal keys, and text sealed behind its
    nonce, as both [smtpidentity] and [tenant] store secrets. *)
From S2P Require Import Prelude GoStrings Base64.
Open Scope Z_scope.

Class Environment (E : Type) := {
  clockFunc : E → E * Time;
  io_ReadFull : nat → eff E string;
  uuid_NewString : E → E * string;
  LookupTXT : string → eff E (list string);
}.
Class Crypto := {
  HMAC_SHA256 : string → string → string;
  gcm_Seal : string → string → string → string;
  gcm_Open : string → string → string → result string;
  gcm_roundtrip key nonce text : gcm_Open key nonce (gcm_Seal key nonce text) = Ok text;
}.

(** [aes.NewCipher] takes keys of 16, 24 or 32 bytes. *)
Definition aes_NewCipher (key : string) : result unit :=
  guard_err (negb (bool_decide (String.length key ∈ [16; 24; 32]%nat)))
    (Text "crypto/aes: invalid key size %d" [FInt (Z.of_nat (String.length key))]).

(** [hex.DecodeString]. *)
Definition hex_value (c : ascii) : option Z :=
  let x := code c in
  if (48 <=? x) && (x <=? 57) then Some (x - 48)
  else if (97 <=? x) && (x <=? 102) then Some (x - 87)
  else if (65 <=? x) && (x <=? 70) then Some (x - 55) else None.
Fixpoint hex_decode (l : list ascii) : option (list ascii) :=
  match l with
  | [] => Some []
  | a :: b :: l =>
      x ← hex_value a; y ← hex_value b; rest ← hex_decode l; Some (byte (16 * x + y) :: rest)
  | [_] => None
  end.
Definition hex_DecodeString (s : string) : result string :=
  match hex_decode (explode s) with
  | Some l => Ok (implode l)
  | None => Err (Text "encoding/hex: invalid input" [])
  end.

Class EnvironmentLaws (E : Type) `{Env : Environment E} : Prop := {
  uuid_nonempty e : (uuid_NewString e).2 ≠ ""%string;
  io_ReadFull_length n e e' s : io_ReadFull n e = (e', Ok s) → String.length s = n;
}.

Lemma explode_length s : length (explode s) = String.length s.
Proof. induction s; [done|]. csimpl. by f_equal. Qed.

(** A sealed secret opens: the nonce's 12 bytes are read back off the front. *)
Lemma sealed_nonce nonce text :
  String.length nonce = 12%nat →
  (Z.of_nat (String.length (nonce ++ text)) <? 12) = false ∧
  implode (take 12 (explode (nonce ++ text))) = nonce ∧ implode (drop 12 (explode (nonce ++ text))) = text.
Proof.
  rewrite <- !explode_length. intros Hn. autorewrite with gostr. rewrite length_app, Hn. split; [apply Z.ltb_ge; lia|].
  rewrite <- Hn, take_app_length, drop_app_length. by rewrite !implode_explode.
Qed.

(** * Instances *)
Definition plain_crypto : Crypto.
Proof.
  refine {| HMAC_SHA256 := λ k m, (k ++ m)%string;
            gcm_Seal := λ _ _ text, text;
            gcm_Open := λ _ _ text, Ok text |}.
  done.
Defined.

(** A counter for the random source and the UUIDs; DNS knows nothing. *)
Definition counter_env : Environment Z :=
  {| clockFunc := λ e, (e, 1000);
     io_ReadFull := λ n e, (e + 1, Ok (implode (replicate n (byte (97 + e mod 26)))));
     uuid_NewString := λ e, (e + 1, ("id" ++ pretty e)%string);
     LookupTXT := λ _ e, (e, Err (DNSFailure true "no such host")) |}.
Lemma counter_env_laws : EnvironmentLaws Z (Env := counter_env).
Proof.
  constructor; [done|]. simpl. intros n e e' s [= _ <-]. rewrite <- explode_length, explode_implode.
  apply length_replicate.
Qed.
