(* ===== verification/Gorm.v ===== *)
(** The database: gorm over SQLite, a third-party library and a service, so an
    interface.  A table is a state with the operations the program calls, and
    [TableLaws] states what gorm documents of them, seen through [rows], the
    table's content in primary-key order:

    - a query changes nothing; [First] gives the first matching row or
      [ErrRecordNotFound]; [Find] gives the matching rows, ordered and limited
      when asked;
    - [Create] adds the row with its generated fields, and may refuse it;
    - [Save] replaces the row with the same primary key (up to the fields gorm
      sets itself, in the row and in the caller's value), [Update] and [Delete] change or remove the matching rows;
    - any operation may fail, and then the table is as it was.

    [list_table] is an instance: a table that is a list. *)
From S2P Require Import Prelude.

Definition ErrRecordNotFound : error := New "record not found".

(** [err == gorm.ErrRecordNotFound]. *)
Definition is_not_found (e : error) : bool :=
  match e with New text => bool_decide (text = "record not found"%string) | _ => false end.

(** What gorm and the schema say of a row type: when two rows have the same primary
    key, where a new row goes in primary-key order, and, of a row that was inserted
    ([stored]) or saved ([touched]), what gorm set itself and which unique indexes
    it respects; the first argument is the table it goes to. *)
Class Row (R : Type) := {
  same_key : R → R → bool;
  placed : list R → R → list R;
  stored : list R → R → R → Prop;
  touched : list R → R → R → Prop;
}.

Class Table (S R : Type) := {
  rows : S → list R;
  First : (R → bool) → eff S R;
  Find : (R → bool) → eff S (list R);
  FindOrdered : (R → bool) → (R → R → bool) → option nat → eff S (list R);
  Create : R → eff S R;
  Save : R → eff S R;
  Update : (R → bool) → (R → R) → eff S Z;
  Delete : (R → bool) → eff S unit;
}.

(** A boolean order as a relation. *)
Definition holds {A} (le : A → A → bool) : relation A := λ x y, le x y = true.
#[export] Instance holds_dec {A} (le : A → A → bool) x y : Decision (holds le x y).
Proof. unfold holds. apply _. Defined.

Definition limit_to {A} (n : option nat) (l : list A) : list A :=
  match n with Some n => take n l | None => l end.

Class TableLaws (S R : Type) `{RW : Row R} `{T : Table S R} : Prop := {
  First_law p s s' r : First p s = (s', r) → rows s' = rows s ∧
    match r with
    | Ok x => List.find p (rows s) = Some x
    | Err e => errors_Is e ErrRecordNotFound = true → List.find p (rows s) = None
    end;
  Find_law p s s' r : Find p s = (s', r) → rows s' = rows s ∧
    match r with Ok l => l ≡ₚ List.filter p (rows s) | Err _ => True end;
  FindOrdered_law p le n s s' r : FindOrdered p le n s = (s', r) → rows s' = rows s ∧
    match r with
    | Ok l => ∃ l0, l0 ≡ₚ List.filter p (rows s) ∧
        ((∀ x y z, le x y = true → le y z = true → le x z = true) →
         (∀ x y, le x y = true ∨ le y x = true) →
         StronglySorted (holds le) l0) ∧ l = limit_to n l0
    | Err _ => True
    end;
  Create_law x s s' r : Create x s = (s', r) →
    match r with
    | Ok y => stored (rows s) x y ∧ rows s' = placed (rows s) y
    | Err _ => rows s' = rows s
    end;
  Save_law x s s' r : existsb (same_key x) (rows s) = true → Save x s = (s', r) →
    match r with
    | Ok y => touched (rows s) x y ∧ rows s' = (λ z, if same_key x z then y else z) <$> rows s
    | Err _ => rows s' = rows s
    end;
  Update_law p f s s' r : Update p f s = (s', r) →
    match r with
    | Ok n => rows s' = (λ z, if p z then f z else z) <$> rows s ∧
              n = Z.of_nat (length (List.filter p (rows s)))
    | Err _ => rows s' = rows s
    end;
  Delete_law p s s' r : Delete p s = (s', r) →
    match r with
    | Ok _ => rows s' = List.filter (λ z, negb (p z)) (rows s)
    | Err _ => rows s' = rows s
    end;
}.

(** [Create] with an [OnConflict] clause and [Take], where the program uses them:
    [Upsert] updates every column of the row with the same primary key or inserts,
    [CreateUnless] inserts unless a row is in conflict. *)
Class Upserts (S R : Type) := {
  Upsert : R → eff S unit;
  CreateUnless : (R → bool) → R → eff S unit;
  Take : (R → bool) → eff S R;
}.

Class UpsertLaws (S R : Type) `{RW : Row R} `{T : Table S R} `{X : Upserts S R} : Prop := {
  Upsert_law x s s' r : Upsert x s = (s', r) →
    match r with
    | Ok _ => ∃ y, if existsb (same_key x) (rows s)
        then touched (rows s) x y ∧ rows s' = (λ z, if same_key x z then y else z) <$> rows s
        else stored (rows s) x y ∧ rows s' = placed (rows s) y
    | Err _ => rows s' = rows s
    end;
  CreateUnless_law conflict x s s' r : CreateUnless conflict x s = (s', r) →
    match r with
    | Ok _ => if existsb conflict (rows s) then rows s' = rows s
        else ∃ y, stored (rows s) x y ∧ rows s' = placed (rows s) y
    | Err _ => rows s' = rows s
    end;
  Take_law p s s' r : Take p s = (s', r) → rows s' = rows s ∧
    match r with
    | Ok x => x ∈ rows s ∧ p x = true
    | Err e => errors_Is e ErrRecordNotFound = true → List.find p (rows s) = None
    end;
}.

(** Inner joins of two tables: the left rows, once per right row they match. *)
Definition joined {A B} (p : A → B → bool) (l : list A) (k : list B) : list A :=
  l ≫= λ x, (λ _, x) <$> List.filter (p x) k.

Class Joins (S A S' B : Type) := {
  JoinOrdered : (A → B → bool) → (A → A → bool) → eff (S * S') (list A);
  JoinCount : (A → B → bool) → eff (S * S') Z;
}.
Class JoinLaws (S A S' B : Type) `{T : Table S A} `{T' : Table S' B} `{J : Joins S A S' B} : Prop := {
  JoinOrdered_law p le s s' r : JoinOrdered p le s = (s', r) →
    rows (S := S) s'.1 = rows s.1 ∧ rows (S := S') s'.2 = rows s.2 ∧
    match r with Ok l => l ≡ₚ joined p (rows s.1) (rows s.2) | Err _ => True end;
  JoinCount_law p s s' r : JoinCount p s = (s', r) →
    rows (S := S) s'.1 = rows s.1 ∧ rows (S := S') s'.2 = rows s.2 ∧
    match r with Ok n => n = Z.of_nat (length (joined p (rows s.1) (rows s.2))) | Err _ => True end;
}.

Lemma elem_of_joined {A B} (p : A → B → bool) l k x :
  x ∈ joined p l k ↔ x ∈ l ∧ ∃ y, y ∈ k ∧ p x y = true.
Proof.
  unfold joined. rewrite list_elem_of_bind. setoid_rewrite list_elem_of_fmap.
  setoid_rewrite list_elem_of_In. setoid_rewrite List.filter_In. naive_solver.
Qed.

(** A database that answers: theorems that something does happen need it. *)
Class Reliable (S R : Type) `{T : Table S R} : Prop := {
  First_reliable p s x : List.find p (rows s) = Some x → (First p s).2 = Ok x;
  First_missing p s : List.find p (rows s) = None → (First p s).2 = Err ErrRecordNotFound;
  FindOrdered_reliable p le n s : ∃ l, (FindOrdered p le n s).2 = Ok l;
  Update_reliable p f s : ∃ n, (Update p f s).2 = Ok n;
}.

(** A gorm [Where(&T{...})] leaves out fields with the zero value: a condition
    on a string field holds when the value asked for is empty. *)
Definition whereField (field value : string) : bool :=
  bool_decide (value = ""%string) || bool_decide (field = value).

Lemma whereField_eq field value : value ≠ ""%string → whereField field value = true → field = value.
Proof. unfold whereField. intros H [E|E]%orb_true_iff; by to_prop. Qed.

Lemma whereField_refl x : whereField x x = true.
Proof. unfold whereField. rewrite (bool_decide_true (x = x)) by done. apply orb_true_r. Qed.

(** * Rows found by a condition *)
Lemma find_Some_spec {A} (p : A → bool) l n : List.find p l = Some n → n ∈ l ∧ p n = true.
Proof. intros [H1 H2]%List.find_some. split; [by apply list_elem_of_In|done]. Qed.

Lemma list_elem_of_filter_bool {A} (p : A → bool) l x : x ∈ List.filter p l ↔ x ∈ l ∧ p x = true.
Proof. by rewrite !list_elem_of_In, List.filter_In. Qed.

Lemma NoDup_filter_fmap {A B} (f : A → B) (p : A → bool) l : NoDup (f <$> l) → NoDup (f <$> List.filter p l).
Proof.
  induction l as [|x l IH]; csimpl; [done|]. intros [Hx Hl]%NoDup_cons. destruct (p x); csimpl; [|auto].
  constructor; [|auto]. intros (y & Hy & [Hin _]%list_elem_of_filter_bool)%list_elem_of_fmap.
  destruct Hx. rewrite Hy. by apply list_elem_of_fmap_2.
Qed.

(** Rows with distinct keys are determined by them. *)
Lemma NoDup_fmap_inj_on {A B} (f : A → B) l x y :
  NoDup (f <$> l) → x ∈ l → y ∈ l → f x = f y → x = y.
Proof.
  induction l as [|z l IH]; csimpl; [by intros _ ?%elem_of_nil|].
  intros [Hz Hnd]%NoDup_cons [->|Hx]%elem_of_cons [->|Hy]%elem_of_cons Heq; try done.
  - destruct Hz. rewrite Heq. by apply list_elem_of_fmap_2.
  - destruct Hz. rewrite <- Heq. by apply list_elem_of_fmap_2.
  - by apply IH.
Qed.

Lemma find_None_spec {A} (p : A → bool) l x : List.find p l = None → x ∈ l → p x = false.
Proof. intros H Hx. apply (List.find_none p l H), list_elem_of_In, Hx. Qed.

Lemma find_exists {A} (p : A → bool) l x :
  x ∈ l → p x = true → ∃ y, List.find p l = Some y ∧ y ∈ l ∧ p y = true.
Proof.
  intros Hx Hp. destruct (List.find p l) as [y|] eqn:E.
  - exists y. by apply find_Some_spec in E as [? ?].
  - by rewrite (find_None_spec p l x E Hx) in Hp.
Qed.

(** The only row that satisfies the condition is the one found. *)
Lemma find_unique {A} (p : A → bool) l x :
  x ∈ l → p x = true → (∀ y, y ∈ l → p y = true → y = x) → List.find p l = Some x.
Proof.
  intros Hx Hp Hu. destruct (find_exists p l x Hx Hp) as (y & -> & Hy & Hpy). f_equal. by apply Hu.
Qed.

(** The place of a row with a text primary key. *)
Fixpoint insert_by {R} (key : R → string) (l : list R) (y : R) : list R :=
  match l with
  | [] => [y]
  | x :: l => if String.ltb (key y) (key x) then y :: x :: l else x :: insert_by key l y
  end.
Lemma insert_by_perm {R} (key : R → string) l y : insert_by key l y ≡ₚ y :: l.
Proof. induction l as [|x l IH]; simpl; [done|]. case_match; [done|]. rewrite IH. constructor. Qed.

(** An insert that respects a unique index. *)
Definition unique_or {A} (l : list A) (clash : A → bool) (y : A) : result A :=
  if existsb clash l then Err (Text "UNIQUE constraint failed" []) else Ok y.
Lemma unique_or_Ok {A} (l : list A) clash y z :
  unique_or l clash y = Ok z → z = y ∧ Forall (λ r, clash r = false) l.
Proof.
  unfold unique_or. destruct (existsb clash l) eqn:E; [done|]. intros [= <-]. split; [done|].
  apply Forall_forall. intros r Hr. destruct (clash r) eqn:Ec; [|done].
  assert (existsb clash l = true) by (apply existsb_exists; exists r; split; [by apply list_elem_of_In|done]).
  congruence.
Qed.

(** * A table in memory *)
Section list_table.
Context {R : Type} `{RW : Row R} (insert touch : list R → R → result R).

Definition sorted_by (le : R → R → bool) (l : list R) : list R := merge_sort (holds le) l.

Definition list_table : Table (list R) R :=
  {| rows := λ s, s;
     First := λ p s, (s, match List.find p s with Some x => Ok x | None => Err ErrRecordNotFound end);
     Find := λ p s, (s, Ok (List.filter p s));
     FindOrdered := λ p le n s, (s, Ok (limit_to n (sorted_by le (List.filter p s))));
     Create := λ x s, match insert s x with Ok y => (placed s y, Ok y) | Err e => (s, Err e) end;
     Save := λ x s, match touch s x with
       | Ok y => ((λ z, if same_key x z then y else z) <$> s, Ok y) | Err e => (s, Err e) end;
     Update := λ p f s, ((λ z, if p z then f z else z) <$> s, Ok (Z.of_nat (length (List.filter p s))));
     Delete := λ p s, (List.filter (λ z, negb (p z)) s, Ok ()) |}.

(** The interface can be implemented. *)
Lemma list_table_laws :
  (∀ s x y, insert s x = Ok y → stored s x y) → (∀ s x y, touch s x = Ok y → touched s x y) →
  TableLaws (list R) R (T := list_table).
Proof.
  intros Hins Htouch. constructor; simpl; intros; simplify_eq/=.
  - split; [done|]. destruct (List.find p s'); [done|]. by intros _.
  - done.
  - split; [done|]. exists (sorted_by le (List.filter p s')). unfold sorted_by.
    split; [apply merge_sort_Permutation|]. split; [|done].
    intros Htr Htot. assert (Transitive (holds le)) by exact Htr. assert (Total (holds le)) by exact Htot.
    apply StronglySorted_merge_sort; apply _.
  - destruct (insert s x) as [y|e] eqn:E; simplify_eq; eauto.
  - destruct (touch s x) as [y|e] eqn:E; simplify_eq; eauto.
  - done.
  - done.
Qed.

Definition list_upserts : Upserts (list R) R :=
  {| Upsert := λ x s,
       if existsb (same_key x) s then
         match touch s x with
         | Ok y => ((λ z, if same_key x z then y else z) <$> s, Ok ()) | Err e => (s, Err e) end
       else match insert s x with Ok y => (placed s y, Ok ()) | Err e => (s, Err e) end;
     CreateUnless := λ conflict x s, if existsb conflict s then (s, Ok ()) else
       match insert s x with Ok y => (placed s y, Ok ()) | Err e => (s, Err e) end;
     Take := λ p s, (s, match List.find p s with Some x => Ok x | None => Err ErrRecordNotFound end) |}.
Lemma list_upsert_laws :
  (∀ s x y, insert s x = Ok y → stored s x y) → (∀ s x y, touch s x = Ok y → touched s x y) →
  UpsertLaws (list R) R (T := list_table) (X := list_upserts).
Proof.
  intros Hins Htouch. constructor; simpl; intros.
  - destruct (existsb _ s); [destruct (touch s x) eqn:E|destruct (insert s x) eqn:E]; simplify_eq; eauto.
  - destruct (existsb _ s); [by simplify_eq|]. destruct (insert s x) eqn:E; simplify_eq; eauto.
  - simplify_eq. split; [done|]. destruct (List.find p s') eqn:E; [by apply find_Some_spec|done].
Qed.

Lemma list_table_reliable : Reliable (list R) R (T := list_table).
Proof. constructor; simpl; [by intros p s x ->|by intros p s ->|eauto..]. Qed.
End list_table.

(** A table that is a part of a larger state. *)
Section zoom_table.
Context {S R W : Type} `{RW : Row R} `{T : Table S R} (get : W → S) (put : S → W → W).

Definition zoom_table : Table W R :=
  {| rows := λ w, rows (get w);
     First := λ p, zoom get put (First p);
     Find := λ p, zoom get put (Find p);
     FindOrdered := λ p le n, zoom get put (FindOrdered p le n);
     Create := λ x, zoom get put (Create x);
     Save := λ x, zoom get put (Save x);
     Update := λ p f, zoom get put (Update p f);
     Delete := λ p, zoom get put (Delete p) |}.

Lemma zoom_table_laws `{L : !TableLaws S R} :
  (∀ s w, get (put s w) = s) → TableLaws W R (T := zoom_table).
Proof.
  intros Hgp. constructor; simpl.
  - intros p w w' r (v & H & ->)%zoom_inv. rewrite Hgp. by apply First_law.
  - intros p w w' r (v & H & ->)%zoom_inv. rewrite Hgp. by apply Find_law.
  - intros p le n w w' r (v & H & ->)%zoom_inv. rewrite Hgp. by apply FindOrdered_law.
  - intros x w w' r (v & H & ->)%zoom_inv. rewrite Hgp. by apply Create_law.
  - intros x w w' r Hx (v & H & ->)%zoom_inv. rewrite Hgp. by apply Save_law.
  - intros p f w w' r (v & H & ->)%zoom_inv. rewrite Hgp. by apply Update_law.
  - intros p w w' r (v & H & ->)%zoom_inv. rewrite Hgp. by apply Delete_law.
Qed.

Lemma zoom_table_reliable `{RR : !Reliable S R} : Reliable W R (T := zoom_table).
Proof.
  constructor; simpl; unfold zoom.
  - intros p w x Hx%First_reliable. by destruct (First p (get w)).
  - intros p w Hx%First_missing. by destruct (First p (get w)).
  - intros p le n w. destruct (FindOrdered_reliable p le n (get w)) as [l Hl].
    destruct (FindOrdered p le n (get w)). simpl in *. eauto.
  - intros p f w. destruct (Update_reliable p f (get w)) as [l Hl].
    destruct (Update p f (get w)). simpl in *. eauto.
Qed.
End zoom_table.

Definition list_joins {A B} : Joins (list A) A (list B) B :=
  {| JoinOrdered := λ p le s, (s, Ok (merge_sort (holds le) (joined p s.1 s.2)));
     JoinCount := λ p s, (s, Ok (Z.of_nat (length (joined p s.1 s.2)))) |}.
Lemma list_join_laws {A B} (i t : list A → A → result A) (i' t' : list B → B → result B) `{RA : Row A} `{RB : Row B} :
  JoinLaws (list A) A (list B) B (T := list_table i t) (T' := list_table i' t') (J := list_joins).
Proof. constructor; simpl; intros; simplify_eq/=; [|done]. split_and!; [done..|]. apply merge_sort_Permutation. Qed.
