(* ===== verification/Model.v ===== *)
(** The notification domain (src/internal/model/models.go and
    notification_request.go): statuses, validated requests, list filters, page
    cursors, and the queries on the notifications table.

    Attachments are rows of their own table in the code; they are written with
    their notification and always loaded with it, so here they are part of it.
    JSON and RFC 3339 text of the page cursor are the class [CursorCodec]. *)
From S2P Require Import Prelude GoStrings Base64 Gorm.
Open Scope Z_scope.

(** * Types and statuses *)
Definition NotificationEmail : string := "email".
Definition NotificationSMS : string := "sms".

Definition StatusQueued : string := "queued".
Definition StatusSent : string := "sent".
Definition StatusErrored : string := "errored".
Definition StatusCancelled : string := "cancelled".
Definition StatusUnknown : string := "unknown".
Definition known_statuses : list string :=
  [StatusQueued; StatusSent; StatusErrored; StatusCancelled; StatusUnknown].

Definition CanonicalStatus (status : string) : string :=
  if decide (status ∈ known_statuses) then status else "".

Record EmailAttachment := MkAttachment {
  att_Filename : string;
  att_ContentType : string;
  att_Data : list ascii;
}.

Record NotificationAttachment := MkStoredAttachment {
  sa_TenantID : string;
  sa_NotificationID : string;
  sa_Filename : string;
  sa_ContentType : string;
  sa_Data : list ascii;
}.

Record Notification := MkNotification {
  n_ID : Z;
  n_TenantID : string;
  n_NotificationID : string;
  n_NotificationType : string;
  n_Recipient : string;
  n_Subject : string;
  n_Message : string;
  n_ProviderMessageID : string;
  n_Status : string;
  n_RetryCount : Z;
  n_LastAttemptedAt : Time;
  n_ScheduledFor : option Time;
  n_CreatedAt : Time;
  n_UpdatedAt : Time;
  n_Attachments : list NotificationAttachment;
}.

Definition ErrNotificationNotFound : error := New "notification not found".
Definition ErrInvalidNotificationCursor : error := New "invalid notification list cursor".
Definition ErrInvalidNotificationLimit : error := New "invalid notification list limit".
Definition ErrInvalidNotificationSearch : error := New "invalid notification search query".

(** * Requests (notification_request.go) *)
Definition maxAttachmentCount : Z := 10.
Definition maxAttachmentSizeBytes : Z := 5 * 1024 * 1024.
Definition maxAttachmentsTotalBytes : Z := 25 * 1024 * 1024.

Definition ErrRecipientRequired : error := New "notification.request.recipient_required".
Definition ErrMessageRequired : error := New "notification.request.message_required".
Definition ErrTypeUnsupported : error := New "notification.request.invalid_type".
Definition ErrAttachmentsNotAllowed : error := New "notification.request.attachments_not_allowed".
Definition ErrAttachmentsTooMany : error := New "notification.request.attachments_count_exceeded".
Definition ErrAttachmentFilenameRequired : error := New "notification.request.attachment_filename_required".
Definition ErrAttachmentDataRequired : error := New "notification.request.attachment_data_required".
Definition ErrAttachmentTooLarge : error := New "notification.request.attachment_size_exceeded".
Definition ErrAttachmentsTooLarge : error := New "notification.request.attachments_total_size_exceeded".

Record NotificationRequest := MkRequest {
  rq_type : string;
  rq_recipient : string;
  rq_subject : string;
  rq_message : string;
  rq_scheduledFor : option Time;
  rq_attachments : list EmailAttachment;
}.

Definition isSupportedNotificationType (t : string) : bool :=
  bool_decide (t = NotificationEmail) || bool_decide (t = NotificationSMS).

(** The loop over the attachments: the normalised ones and their total size. *)
Fixpoint normalize_attachments (index totalSize : Z) (l : list EmailAttachment)
    : result (list EmailAttachment * Z) :=
  match l with
  | [] => Ok ([], totalSize)
  | a :: l =>
      let filename := TrimSpace (att_Filename a) in
      guard_err (bool_decide (filename = ""%string))
        (Wrapf "%w: attachment %d" [FInt (index + 1)] ErrAttachmentFilenameRequired);;
      let payloadSize := Z.of_nat (length (att_Data a)) in
      guard_err (payloadSize =? 0) (Wrapf "%w: attachment %q" [FStr filename] ErrAttachmentDataRequired);;
      guard_err (maxAttachmentSizeBytes <? payloadSize)
        (Wrapf "%w: attachment %q" [FStr filename] ErrAttachmentTooLarge);;
      let contentType := TrimSpace (att_ContentType a) in
      let contentType := if decide (contentType = ""%string) then "application/octet-stream"%string
                         else contentType in
      r ← normalize_attachments (index + 1) (totalSize + payloadSize) l;
      Ok (MkAttachment filename contentType (att_Data a) :: r.1, r.2)
  end.

Definition normalizeNotificationAttachments (t : string) (attachments : list EmailAttachment)
    : result (list EmailAttachment) :=
  match attachments with
  | [] => Ok []
  | _ =>
      guard_err (bool_decide (t ≠ NotificationEmail)) ErrAttachmentsNotAllowed;;
      guard_err (maxAttachmentCount <? Z.of_nat (length attachments))
        (Wrapf "%w: max %d" [FInt maxAttachmentCount] ErrAttachmentsTooMany);;
      r ← normalize_attachments 0 0 attachments;
      guard_err (maxAttachmentsTotalBytes <? r.2)
        (Wrapf "%w: max %d" [FInt maxAttachmentsTotalBytes] ErrAttachmentsTooLarge);;
      Ok r.1
  end.

Definition NewNotificationRequest (t recipient subject message : string) (scheduledFor : option Time)
    (attachments : list EmailAttachment) : result NotificationRequest :=
  let normalizedRecipient := TrimSpace recipient in
  guard_err (bool_decide (normalizedRecipient = ""%string)) ErrRecipientRequired;;
  guard_err (bool_decide (TrimSpace message = ""%string)) ErrMessageRequired;;
  guard_err (negb (isSupportedNotificationType t)) ErrTypeUnsupported;;
  normalizedAttachments ← normalizeNotificationAttachments t attachments;
  Ok (MkRequest t normalizedRecipient (TrimSpace subject) message scheduledFor normalizedAttachments).

(** * Records and responses *)
Definition convertEmailAttachments (tenantID notificationID : string) (l : list EmailAttachment)
    : list NotificationAttachment :=
  (λ a, MkStoredAttachment tenantID notificationID (att_Filename a) (att_ContentType a) (att_Data a)) <$> l.

Definition ToEmailAttachments (l : list NotificationAttachment) : list EmailAttachment :=
  (λ a, MkAttachment (sa_Filename a) (sa_ContentType a) (sa_Data a)) <$> l.

(** [NewNotification]; [now] is [time.Now().UTC()], the ID is assigned by the
    database. *)
Definition NewNotification (notificationID tenantID : string) (req : NotificationRequest) (now : Time)
    : Notification :=
  MkNotification 0 tenantID notificationID (rq_type req) (rq_recipient req) (rq_subject req)
    (rq_message req) "" StatusQueued 0 zeroTime (rq_scheduledFor req) now now
    (convertEmailAttachments tenantID notificationID (rq_attachments req)).

Record NotificationResponse := MkResponse {
  r_NotificationID : string;
  r_TenantID : string;
  r_NotificationType : string;
  r_Recipient : string;
  r_Subject : string;
  r_Message : string;
  r_Status : string;
  r_ProviderMessageID : string;
  r_RetryCount : Z;
  r_ScheduledFor : option Time;
  r_CreatedAt : Time;
  r_UpdatedAt : Time;
  r_Attachments : list EmailAttachment;
}.

Definition NewNotificationResponse (n : Notification) : NotificationResponse :=
  let status := CanonicalStatus (n_Status n) in
  let status := if decide (status = ""%string) then StatusUnknown else status in
  MkResponse (n_NotificationID n) (n_TenantID n) (n_NotificationType n) (n_Recipient n) (n_Subject n)
    (n_Message n) status (n_ProviderMessageID n) (n_RetryCount n) (n_ScheduledFor n) (n_CreatedAt n)
    (n_UpdatedAt n) (ToEmailAttachments (n_Attachments n)).

(** * List filters *)
Definition maxNotificationSearchLength : nat := 200.
Definition NewNotificationSearchQuery (rawValue : string) : result string :=
  let normalized := TrimSpace rawValue in
  if (maxNotificationSearchLength <? RuneCount normalized)%nat
  then Err (Wrapf "%w: max length is %d" [FInt 200] ErrInvalidNotificationSearch)
  else Ok normalized.

Record NotificationListFilters := MkFilters { f_Statuses : list string; f_SearchQuery : string }.

(** The loop of [NormalizedStatuses]. *)
Fixpoint normalized_statuses (seen : gset string) (statuses : list string) : list string :=
  match statuses with
  | [] => []
  | status :: statuses =>
      let canonical := CanonicalStatus status in
      if decide (canonical = ""%string) then normalized_statuses seen statuses
      else if decide (canonical ∈ seen) then normalized_statuses seen statuses
      else canonical :: normalized_statuses ({[canonical]} ∪ seen) statuses
  end.
Definition NormalizedStatuses (filters : NotificationListFilters) : list string :=
  normalized_statuses ∅ (f_Statuses filters).

(** * Cursors *)
Record NotificationListCursor := MkCursor { cur_createdAt : Time; cur_id : Z }.

(** JSON of [{created_at, id}] and RFC 3339 time stamps.  RFC 3339 has the years
    1 to 9999. *)
Definition rfc3339_range (t : Time) : Prop := zeroTime ≤ t < 253402300800 * Second.
Class CursorCodec := {
  json_Marshal : string → Z → list ascii;
  json_Unmarshal : list ascii → result (string * Z);
  time_Format : Time → string;
  time_Parse : string → result Time;
  json_roundtrip t id : 0 ≤ id → json_Unmarshal (json_Marshal (time_Format t) id) = Ok (time_Format t, id);
  json_nonempty s id : json_Marshal s id ≠ [];
  time_roundtrip t : rfc3339_range t → time_Parse (time_Format t) = Ok t;
}.

Definition NewNotificationListCursor (createdAt : Time) (id : Z) : result NotificationListCursor :=
  if id =? 0 then Err (Wrapf "%w: id is required" [] ErrInvalidNotificationCursor)
  else Ok (MkCursor createdAt id).

Section cursors.
Context `{C : CursorCodec}.

Definition Encode (cursor : NotificationListCursor) : string :=
  EncodeToString RawURLEncoding
    (implode (json_Marshal (time_Format (cur_createdAt cursor)) (cur_id cursor))).

Definition ParseNotificationListCursor (rawValue : string) : result (option NotificationListCursor) :=
  let normalized := TrimSpace rawValue in
  if decide (normalized = ""%string) then Ok None else
  match DecodeString RawURLEncoding normalized with
  | Err _ => Err (Wrapf "%w: decode" [] ErrInvalidNotificationCursor)
  | Ok decoded =>
      match json_Unmarshal (explode decoded) with
      | Err _ => Err (Wrapf "%w: payload" [] ErrInvalidNotificationCursor)
      | Ok (createdAt, id) =>
          match time_Parse createdAt with
          | Err _ => Err (Wrapf "%w: created_at" [] ErrInvalidNotificationCursor)
          | Ok createdAt => Some <$> NewNotificationListCursor createdAt id
          end
      end
  end.
End cursors.

(** * Pages *)
Record NotificationListPageRequest := MkPageRequest {
  page_limit : Z;
  page_cursor : option NotificationListCursor;
}.
Definition NewNotificationListPageRequest (limit : Z) (cursor : option NotificationListCursor)
    : result NotificationListPageRequest :=
  if (limit <? 1) || (100 <? limit)
  then Err (Wrapf "%w: limit must be between 1 and %d" [FInt 100] ErrInvalidNotificationLimit)
  else Ok (MkPageRequest limit cursor).
Definition DefaultNotificationListPageRequest : NotificationListPageRequest := MkPageRequest 50 None.

Record NotificationListPage := MkPage { pg_Notifications : list Notification; pg_NextCursor : string }.

Definition notificationPageFromRecords `{C : CursorCodec} (records : list Notification) (limit : Z)
    : result NotificationListPage :=
  if Z.of_nat (length records) <=? limit then Ok (MkPage records "") else
  let pageRecords := take (Z.to_nat limit) records in
  match last pageRecords with
  | None => Err (Text "index out of range" [])
  | Some lastRecord =>
      cursor ← NewNotificationListCursor (n_CreatedAt lastRecord) (n_ID lastRecord);
      Ok (MkPage pageRecords (Encode cursor))
  end.

(** * Queries *)

(** gorm's knowledge of the table: the primary key is [ID], chosen on insert and
    never used before; [UpdatedAt] is set by [Save]. *)
Definition set_UpdatedAt (n : Notification) (t : Time) : Notification :=
  MkNotification (n_ID n) (n_TenantID n) (n_NotificationID n) (n_NotificationType n) (n_Recipient n)
    (n_Subject n) (n_Message n) (n_ProviderMessageID n) (n_Status n) (n_RetryCount n)
    (n_LastAttemptedAt n) (n_ScheduledFor n) (n_CreatedAt n) t (n_Attachments n).
Definition set_ID (n : Notification) (id : Z) : Notification :=
  MkNotification id (n_TenantID n) (n_NotificationID n) (n_NotificationType n) (n_Recipient n)
    (n_Subject n) (n_Message n) (n_ProviderMessageID n) (n_Status n) (n_RetryCount n)
    (n_LastAttemptedAt n) (n_ScheduledFor n) (n_CreatedAt n) (n_UpdatedAt n) (n_Attachments n).

#[export] Instance Notification_row : Row Notification :=
  {| same_key := λ a b, n_ID a =? n_ID b;
     placed := λ table b, table ++ [b];
     stored := λ table a b, ∃ id, b = set_ID a id ∧ 0 < id ∧
       Forall (λ r, n_ID r ≠ id ∧ n_NotificationID r ≠ n_NotificationID a) table;
     touched := λ _ a b, ∃ t, b = set_UpdatedAt a t |}.

(** SQL [LIKE], by the database. *)
Class Sql := { Like : string → string → bool }.

Definition cursor_lt (cursor : NotificationListCursor) (n : Notification) : bool :=
  (n_CreatedAt n <? cur_createdAt cursor)
  || ((n_CreatedAt n =? cur_createdAt cursor) && (n_ID n <? cur_id cursor)).
Definition notificationCursorCondition := cursor_lt.

(** Order by [created_at] descending, then [id] descending. *)
Definition newest_first (a b : Notification) : bool :=
  (n_CreatedAt b <? n_CreatedAt a) || ((n_CreatedAt a =? n_CreatedAt b) && (n_ID b <=? n_ID a)).

Section queries.
Context {S : Type} `{T : Table S Notification} `{Q : Sql} `{C : CursorCodec}.

Definition notificationSearchCondition (query : string) (n : Notification) : bool :=
  let pattern := ("%" ++ query ++ "%")%string in
  existsb (λ column, Like column pattern)
    [n_NotificationID n; n_TenantID n; n_NotificationType n; n_Status n; n_Recipient n; n_Subject n;
     n_Message n].

Definition notificationListQuery (filters : NotificationListFilters) (n : Notification) : bool :=
  let statuses := NormalizedStatuses filters in
  (bool_decide (statuses = []) || bool_decide (n_Status n ∈ statuses))
  && (bool_decide (f_SearchQuery filters = ""%string)
      || notificationSearchCondition (f_SearchQuery filters) n).

Definition CreateNotification (n : Notification) : eff S Notification := Create n.

Definition GetNotificationByID (tenantID notificationID : string) : eff S Notification :=
  First (λ n, whereField (n_TenantID n) tenantID && whereField (n_NotificationID n) notificationID).

Definition MustGetNotificationByID (tenantID notificationID : string) : eff S Notification := λ s,
  let '(s, r) := GetNotificationByID tenantID notificationID s in
  (s, match r with
      | Ok n => Ok n
      | Err e => if is_not_found e
                 then Err (Wrapf "%w: %s" [FStr notificationID] ErrNotificationNotFound)
                 else Err (Wrapf "get_notification_by_id: %w" [] e)
      end).

Definition SaveNotification (n : Notification) : eff S Notification := Save n.

Definition pending (maxRetries : Z) (currentTime : Time) (n : Notification) : bool :=
  bool_decide (n_Status n ∈ [StatusQueued; StatusErrored]) && (n_RetryCount n <? maxRetries)
  && match n_ScheduledFor n with None => true | Some t => t <=? currentTime end.

Definition GetPendingRetryNotifications (tenantID : string) (maxRetries : Z) (currentTime : Time)
    : eff S (list Notification) :=
  Find (λ n, bool_decide (n_TenantID n = tenantID) && pending maxRetries currentTime n).

Definition ListNotifications (tenantID : string) (filters : NotificationListFilters)
    : eff S (list Notification) :=
  FindOrdered (λ n, notificationListQuery filters n && whereField (n_TenantID n) tenantID)
    newest_first None.

Definition ListNotificationsAll (filters : NotificationListFilters) : eff S (list Notification) :=
  FindOrdered (notificationListQuery filters) newest_first None.

Definition ListNotificationsPage (tenantID : string) (filters : NotificationListFilters)
    (pageRequest : NotificationListPageRequest) : eff S NotificationListPage :=
  notifications ← FindOrdered
    (λ n, notificationListQuery filters n && whereField (n_TenantID n) tenantID
          && match page_cursor pageRequest with
             | None => true
             | Some cursor => notificationCursorCondition cursor n
             end)
    newest_first (Some (Z.to_nat (page_limit pageRequest + 1)));
  lift (notificationPageFromRecords notifications (page_limit pageRequest)).
End queries.

(** * Requests: what a validated one satisfies *)
Lemma normalize_attachments_spec index total l r :
  normalize_attachments index total l = Ok r →
  r.2 = total + Z.of_nat (length (concat (att_Data <$> l))) ∧
  att_Data <$> r.1 = att_Data <$> l ∧
  Forall (λ a, att_Filename a ≠ ""%string ∧ TrimSpace (att_Filename a) = att_Filename a ∧
    att_ContentType a ≠ ""%string ∧ 0 < Z.of_nat (length (att_Data a)) ≤ maxAttachmentSizeBytes) r.1.
Proof.
  revert index total r. induction l as [|a l IH]; intros index total r; cbn [normalize_attachments].
  - intros [= <-]. simpl. split_and!; [lia|done|constructor].
  - intros (u1 & Hf%guard_err_Ok & H)%bind_Ok. apply bind_Ok in H as (u2 & Hz%guard_err_Ok & H).
    apply bind_Ok in H as (u3 & Hs%guard_err_Ok & H). apply bind_Ok in H as (r' & Hr & [= <-]).
    destruct (IH _ _ _ Hr) as (Ht & Hd & Hall). to_prop. csimpl. rewrite Ht, length_app. split_and!.
    + lia.
    + by rewrite Hd.
    + constructor; [|done]. simpl. split_and!; [done|apply TrimSpace_idem| |lia|lia]. by case_decide.
Qed.

(** C37: an accepted request has a non-empty trimmed recipient, a message that is
    not blank and is kept as it was, a known type, and attachments only when it
    is an e-mail: at most 10, each named, non-empty and at most 5 MiB, 25 MiB in
    all, with their data as given. *)
Theorem NewNotificationRequest_valid t recipient subject message scheduledFor attachments rq :
  NewNotificationRequest t recipient subject message scheduledFor attachments = Ok rq →
  rq_recipient rq = TrimSpace recipient ∧ rq_recipient rq ≠ ""%string ∧
  rq_message rq = message ∧ TrimSpace message ≠ ""%string ∧
  (rq_type rq = NotificationEmail ∨ rq_type rq = NotificationSMS) ∧
  rq_scheduledFor rq = scheduledFor ∧
  att_Data <$> rq_attachments rq = att_Data <$> attachments ∧
  (rq_attachments rq ≠ [] → rq_type rq = NotificationEmail) ∧
  Z.of_nat (length (rq_attachments rq)) ≤ 10 ∧
  Z.of_nat (length (concat (att_Data <$> rq_attachments rq))) ≤ maxAttachmentsTotalBytes ∧
  Forall (λ a, att_Filename a ≠ ""%string ∧ TrimSpace (att_Filename a) = att_Filename a ∧
    att_ContentType a ≠ ""%string ∧ 0 < Z.of_nat (length (att_Data a)) ≤ maxAttachmentSizeBytes)
    (rq_attachments rq).
Proof.
  unfold NewNotificationRequest. intros (u1 & Hr%guard_err_Ok & H)%bind_Ok.
  apply bind_Ok in H as (u2 & Hm%guard_err_Ok & H). apply bind_Ok in H as (u3 & Ht%guard_err_Ok & H).
  apply bind_Ok in H as (atts & Ha & [= <-]). simpl. to_prop.
  assert (t = NotificationEmail ∨ t = NotificationSMS) as Htype.
  { unfold isSupportedNotificationType in Ht. apply orb_true_iff in Ht as [Ht|Ht]; to_prop; auto. }
  unfold normalizeNotificationAttachments in Ha. destruct attachments as [|a l].
  { simplify_eq/=. unfold maxAttachmentsTotalBytes. split_and!; try done; lia. }
  apply bind_Ok in Ha as (u4 & He%guard_err_Ok & Ha). apply bind_Ok in Ha as (u5 & Hc%guard_err_Ok & Ha).
  apply bind_Ok in Ha as (r & Hn & Ha). apply bind_Ok in Ha as (u6 & Hb%guard_err_Ok & [= <-]).
  destruct (normalize_attachments_spec _ _ _ _ Hn) as (Htot & Hd & Hall). to_prop.
  assert (t = NotificationEmail) by (destruct (decide (t = NotificationEmail)); naive_solver).
  assert (length r.1 = length (a :: l)) as Hlen.
  { apply (f_equal length) in Hd. by rewrite !length_fmap in Hd. }
  unfold maxAttachmentCount in Hc. rewrite Hd. split_and!; try done; [by rewrite Hlen|lia].
Qed.

(** Validation is idempotent. *)
Lemma normalize_attachments_idem index total l r index' total' :
  normalize_attachments index total l = Ok r → normalize_attachments index' total' r.1 = Ok (r.1, total' + (r.2 - total)).
Proof.
  revert index total r index' total'. induction l as [|a l IH]; intros index total r index' total'; cbn [normalize_attachments].
  - intros [= <-]. simpl. do 2 f_equal. lia.
  - intros (u1 & Hf%guard_err_Ok & H)%bind_Ok. apply bind_Ok in H as (u2 & Hz%guard_err_Ok & H).
    apply bind_Ok in H as (u3 & Hs%guard_err_Ok & H). apply bind_Ok in H as (r' & Hr & [= <-]).
    cbn [fst snd normalize_attachments att_Filename att_ContentType att_Data].
    rewrite TrimSpace_idem, Hf, Hz, Hs. simpl. apply (IH _ _ _ (index' + 1) (total' + Z.of_nat (length (att_Data a)))) in Hr.
    rewrite Hr. simpl. do 2 f_equal; [|lia]. do 2 f_equal.
    destruct (decide (TrimSpace (att_ContentType a) = ""%string)) as [He|He].
    + by vm_compute.
    + by rewrite TrimSpace_idem, decide_False.
Qed.

Lemma NewNotificationRequest_idem t recipient subject message scheduledFor attachments rq :
  NewNotificationRequest t recipient subject message scheduledFor attachments = Ok rq →
  NewNotificationRequest (rq_type rq) (rq_recipient rq) (rq_subject rq) (rq_message rq) (rq_scheduledFor rq)
    (rq_attachments rq) = Ok rq.
Proof.
  unfold NewNotificationRequest at 1. intros (u1 & Hr%guard_err_Ok & H)%bind_Ok.
  apply bind_Ok in H as (u2 & Hm%guard_err_Ok & H). apply bind_Ok in H as (u3 & Ht%guard_err_Ok & H).
  apply bind_Ok in H as (atts & Ha & [= <-]). simpl.
  unfold NewNotificationRequest. rewrite !TrimSpace_idem, Hr, Hm, Ht. simpl.
  assert (normalizeNotificationAttachments t atts = Ok atts) as ->; [|done].
  destruct attachments as [|a l]; [by simplify_eq/=|]. unfold normalizeNotificationAttachments in Ha.
  apply bind_Ok in Ha as (u4 & He%guard_err_Ok & Ha). apply bind_Ok in Ha as (u5 & Hc%guard_err_Ok & Ha).
  apply bind_Ok in Ha as (r & Hn & Ha). apply bind_Ok in Ha as (u6 & Hb%guard_err_Ok & [= <-]).
  destruct (normalize_attachments_spec _ _ _ _ Hn) as (_ & Hd & _).
  apply (f_equal length) in Hd. rewrite !length_fmap in Hd.
  apply (normalize_attachments_idem _ _ _ _ 0 0) in Hn.
  unfold normalizeNotificationAttachments. destruct r as [[|b k] total]; [done|]. simpl fst in *. simpl snd in *.
  rewrite He, Hd, Hc. simpl guard_err. cbn [mbind result_bind]. rewrite Hn. cbn [mbind result_bind fst snd].
  replace (0 + (total - 0)) with total by lia. by rewrite Hb.
Qed.

(** * Statuses *)
Lemma CanonicalStatus_spec s : CanonicalStatus s ≠ ""%string ↔ s ∈ known_statuses.
Proof.
  unfold CanonicalStatus. case_decide; [|naive_solver]. split; [done|]. intros _ ->.
  unfold known_statuses in *. set_solver.
Qed.
Lemma CanonicalStatus_id s : s ∈ known_statuses → CanonicalStatus s = s.
Proof. intros H. unfold CanonicalStatus. by rewrite decide_True. Qed.

Lemma normalized_statuses_spec seen l s :
  s ∈ normalized_statuses seen l ↔ s ∈ l ∧ s ∈ known_statuses ∧ s ∉ seen.
Proof.
  revert seen. induction l as [|x l IH]; intros seen; cbn [normalized_statuses].
  - split; [by intros ?%elem_of_nil|]. by intros [?%elem_of_nil _].
  - case_decide as Hx.
    + rewrite IH. assert (x ∉ known_statuses) by (rewrite <- CanonicalStatus_spec; tauto). set_solver.
    + apply CanonicalStatus_spec in Hx as Hk. rewrite (CanonicalStatus_id x Hk).
      case_decide; [rewrite IH; set_solver|]. rewrite elem_of_cons, IH.
      destruct (decide (s = x)) as [->|]; set_solver.
Qed.

Lemma normalized_statuses_NoDup seen l : NoDup (normalized_statuses seen l).
Proof.
  revert seen. induction l as [|x l IH]; intros seen; cbn [normalized_statuses]; [constructor|].
  repeat case_decide; try done. constructor; [|done]. rewrite normalized_statuses_spec. set_solver.
Qed.

Lemma normalized_statuses_sublist seen l : normalized_statuses seen l `sublist_of` l.
Proof.
  revert seen. induction l as [|x l IH]; intros seen; cbn [normalized_statuses]; [done|].
  destruct (decide (CanonicalStatus x = ""%string)) as [|Hx]; [by apply sublist_cons|].
  rewrite (CanonicalStatus_id x) by by apply CanonicalStatus_spec.
  case_decide; [by apply sublist_cons|by apply sublist_skip].
Qed.

(** [NormalizedStatuses] keeps exactly the known statuses asked for, each
    once, in the order they were given. *)
Theorem NormalizedStatuses_spec filters :
  NoDup (NormalizedStatuses filters) ∧ NormalizedStatuses filters `sublist_of` f_Statuses filters ∧
  ∀ s, s ∈ NormalizedStatuses filters ↔ s ∈ f_Statuses filters ∧ s ∈ known_statuses.
Proof.
  unfold NormalizedStatuses.
  split_and!; [apply normalized_statuses_NoDup|apply normalized_statuses_sublist|].
  intros s. rewrite normalized_statuses_spec. set_solver.
Qed.

(** * Cursors and pages *)
Section pagination.
Context `{C : CursorCodec}.

Lemma cursor_roundtrip createdAt id :
  rfc3339_range createdAt → 0 < id →
  ParseNotificationListCursor (Encode (MkCursor createdAt id)) = Ok (Some (MkCursor createdAt id)) ∧
  Encode (MkCursor createdAt id) ≠ ""%string.
Proof.
  intros Ht Hid.
  assert (Encode (MkCursor createdAt id) ≠ ""%string) as Hne.
  { apply EncodeToString_nonempty. autorewrite with gostr. apply json_nonempty. }
  split; [|done]. unfold ParseNotificationListCursor.
  assert (TrimSpace (Encode (MkCursor createdAt id)) = Encode (MkCursor createdAt id)) as ->.
  { apply TrimSpace_EncodeToString. by right. }
  rewrite decide_False by done. unfold Encode.
  rewrite DecodeString_EncodeToString by by right. rewrite explode_implode. simpl.
  rewrite json_roundtrip by lia. simpl. rewrite time_roundtrip by done. simpl.
  unfold NewNotificationListCursor. destruct (Z.eqb_spec id 0); [lia|done].
Qed.

(** The order of the list, strictly. *)
Definition older (a b : Notification) : bool := cursor_lt (MkCursor (n_CreatedAt a) (n_ID a)) b.

Lemma newest_first_trans x y z : newest_first x y = true → newest_first y z = true → newest_first x z = true.
Proof. unfold newest_first. lia. Qed.
Lemma newest_first_total x y : newest_first x y = true ∨ newest_first y x = true.
Proof. unfold newest_first. lia. Qed.

(** A query ordered newest first, without two rows of the same ID, has one
    answer; it is strictly ordered. *)
Definition ids_distinct (l : list Notification) : Prop := NoDup (n_ID <$> l).

Lemma sorted_strict l :
  ids_distinct l → StronglySorted (holds newest_first) l → StronglySorted (holds older) l.
Proof.
  unfold ids_distinct. induction 2 as [|x l Hs IH Hle]; [constructor|].
  apply NoDup_cons in H as [Hx Hnd]. constructor; [auto|].
  rewrite Forall_forall in *. intros y Hy. specialize (Hle y Hy).
  assert (n_ID x ≠ n_ID y) by (intros E; apply Hx; rewrite E; by apply list_elem_of_fmap_2).
  unfold holds, newest_first, older, cursor_lt in *. simpl. lia.
Qed.

Lemma sorted_unique l k :
  StronglySorted (holds older) l → StronglySorted (holds older) k → l ≡ₚ k → l = k.
Proof.
  intros Hl Hk Hp. apply (StronglySorted_unique_strong (holds older)); [|done..].
  intros x y _ _ H1 H2. exfalso. unfold holds, older, cursor_lt in *. simpl in *. lia.
Qed.

Lemma ids_distinct_perm l k : l ≡ₚ k → ids_distinct l → ids_distinct k.
Proof. intros Hp. unfold ids_distinct. by rewrite Hp. Qed.

Lemma ids_distinct_filter f l : ids_distinct l → ids_distinct (List.filter f l).
Proof.
  unfold ids_distinct. induction l as [|x l IH]; simpl; [done|]. intros [Hx Hnd]%NoDup_cons.
  destruct (f x); [|auto]. csimpl. constructor; [|auto]. contradict Hx.
  apply list_elem_of_fmap in Hx as (y & -> & Hy). apply list_elem_of_fmap_2.
  apply list_elem_of_In, List.filter_In in Hy as [Hy _]. by apply list_elem_of_In.
Qed.

Lemma StronglySorted_filter_bool {A} (R : relation A) f l :
  StronglySorted R l → StronglySorted R (List.filter f l).
Proof.
  induction 1 as [|x l Hs IH Hle]; [constructor|]. simpl. destruct (f x); [|done].
  constructor; [done|]. rewrite List.Forall_forall in *. intros y [Hy _]%List.filter_In. auto.
Qed.

Lemma filter_perm {A} (f : A → bool) l k : l ≡ₚ k → List.filter f l ≡ₚ List.filter f k.
Proof.
  induction 1 as [|x l k _ IH|x y l|l k m _ IH1 _ IH2]; simpl; [done|..].
  - destruct (f x); [by constructor|done].
  - destruct (f x), (f y); try done. apply perm_swap.
  - by etransitivity.
Qed.

(** In strict order, what is older than a row is what follows it. *)
Lemma older_than_split pre x post :
  StronglySorted (holds older) (pre ++ x :: post) →
  List.filter (older x) (pre ++ x :: post) = post.
Proof.
  intros (Hpre & _ & Hpost)%StronglySorted_app. apply StronglySorted_cons in Hpost as [Hpost _].
  rewrite List.filter_app.
  assert (List.filter (older x) pre = []) as ->.
  { apply filter_none, Forall_forall. intros y Hy. specialize (Hpre y x Hy (list_elem_of_here _ _)).
    unfold holds, older, cursor_lt in *. simpl in *. lia. }
  simpl. assert (older x x = false) as ->. { unfold older, cursor_lt. simpl. lia. }
  by apply filter_all.
Qed.
End pagination.

(** A client that follows [NextCursor] from the first page to the last; [None] is
    lack of fuel. *)
Fixpoint collect_pages {S} `{T : Table S Notification} `{Q : Sql} `{C : CursorCodec} (fuel : nat)
    (tenantID : string) (filters : NotificationListFilters) (limit : Z)
    (cursor : option NotificationListCursor) : eff S (option (list Notification)) :=
  match fuel with
  | O => mret None
  | Datatypes.S fuel =>
      page ← ListNotificationsPage tenantID filters (MkPageRequest limit cursor);
      if decide (pg_NextCursor page = ""%string) then mret (Some (pg_Notifications page)) else
      next ← lift (ParseNotificationListCursor (pg_NextCursor page));
      rest ← collect_pages fuel tenantID filters limit next;
      mret (app (pg_Notifications page) <$> rest)
  end.

Section pages.
Context {S : Type} `{T : Table S Notification} `{L : !TableLaws S Notification}.
Context `{Q : Sql} `{C : CursorCodec}.

(** The rows of a table as the database keeps them. *)
Definition table_ok (l : list Notification) : Prop :=
  ids_distinct l ∧ Forall (λ n, 0 < n_ID n ∧ rfc3339_range (n_CreatedAt n)) l.

Lemma FindOrdered_newest p n s s' l :
  ids_distinct (rows s) → FindOrdered p newest_first n s = (s', Ok l) →
  rows s' = rows s ∧ ∃ l0, l0 ≡ₚ List.filter p (rows s) ∧ StronglySorted (holds older) l0 ∧ l = limit_to n l0.
Proof.
  intros Hd H. apply FindOrdered_law in H as (Hs & l0 & Hp & Hsort & ->). split; [done|].
  exists l0. split_and!; [done| |done]. apply sorted_strict.
  - eapply ids_distinct_perm; [by symmetry|]. by apply ids_distinct_filter.
  - apply Hsort; [apply newest_first_trans|apply newest_first_total].
Qed.

(** A query with one more condition gives the filtered answer. *)
Lemma narrowed_query p r s l0 l1 :
  l0 ≡ₚ List.filter p (rows s) → StronglySorted (holds older) l0 →
  l1 ≡ₚ List.filter (λ n, p n && r n) (rows s) → StronglySorted (holds older) l1 →
  l1 = List.filter r l0.
Proof.
  intros Hp0 Hs0 Hp1 Hs1. apply sorted_unique; [done|by apply StronglySorted_filter_bool|].
  rewrite Hp1, (filter_perm r _ _ Hp0). clear. induction (rows s) as [|x l IH]; [done|]. simpl.
  destruct (p x); simpl; [destruct (r x); [by constructor|done]|done].
Qed.

(** What is left to show after a cursor. *)
Definition after_cursor (cursor : option NotificationListCursor) (l : list Notification) :=
  match cursor with None => l | Some c => List.filter (notificationCursorCondition c) l end.

Lemma after_cursor_last cursor l n x :
  StronglySorted (holds older) l → last (take n (after_cursor cursor l)) = Some x →
  List.filter (older x) l = drop n (after_cursor cursor l).
Proof.
  intros Hs Hlast. set (r := after_cursor cursor l) in *.
  assert (StronglySorted (holds older) r) as Hr.
  { subst r. destruct cursor; [by apply StronglySorted_filter_bool|done]. }
  apply last_Some in Hlast as [k Hk].
  assert (r = k ++ x :: drop n r) as Hsplit.
  { rewrite <- (take_drop n r) at 1. by rewrite Hk, <- app_assoc. }
  assert (List.filter (older x) r = drop n r) as <-.
  { rewrite Hsplit at 1. rewrite Hsplit in Hr. by apply older_than_split. }
  subst r. destruct cursor as [c|]; [|done]. simpl in *.
  assert (cursor_lt c x = true) as Hx.
  { assert (x ∈ List.filter (notificationCursorCondition c) l) as Hin by (rewrite Hsplit; set_solver).
    apply list_elem_of_In, List.filter_In in Hin as [_ Hin]. exact Hin. }
  clear -Hx. induction l as [|y l IH]; [done|]. simpl.
  destruct (notificationCursorCondition c y) eqn:Ec; simpl; destruct (older x y) eqn:Eo; rewrite IH; try done.
  exfalso. unfold notificationCursorCondition, older, cursor_lt in *. simpl in *. lia.
Qed.

Lemma ListNotificationsPage_spec tenantID filters limit cursor s s' page all :
  table_ok (rows s) → 1 ≤ limit →
  all ≡ₚ List.filter (λ n, notificationListQuery filters n && whereField (n_TenantID n) tenantID) (rows s) →
  StronglySorted (holds older) all →
  ListNotificationsPage tenantID filters (MkPageRequest limit cursor) s = (s', Ok page) →
  let rest := after_cursor cursor all in
  rows s' = rows s ∧ pg_Notifications page = take (Z.to_nat limit) rest ∧
  ((pg_NextCursor page = ""%string ∧ drop (Z.to_nat limit) rest = []) ∨
   (∃ c, pg_NextCursor page ≠ ""%string ∧
      ParseNotificationListCursor (pg_NextCursor page) = Ok (Some c) ∧
      after_cursor (Some c) all = drop (Z.to_nat limit) rest)).
Proof.
  intros [Hd Hrows] Hlim Hall Hsort H. unfold ListNotificationsPage in H.
  apply eff_bind_Ok in H as (s1 & l & Hf & [= <- Hp]).
  apply FindOrdered_newest in Hf as (Hs & l0 & Hl0 & Hs0 & ->); [|done].
  assert (l0 = after_cursor cursor all) as ->.
  { destruct cursor as [c|]; simpl.
    - by eapply narrowed_query.
    - apply sorted_unique; [done..|]. rewrite Hl0, Hall. clear.
      erewrite List.filter_ext; [reflexivity|]. intros x. apply andb_true_r. }
  set (rest := after_cursor cursor all) in *. cbn [limit_to page_limit] in Hp.
  split; [done|]. unfold notificationPageFromRecords in Hp.
  replace (Z.to_nat (limit + 1)) with (Datatypes.S (Z.to_nat limit)) in Hp by lia.
  destruct (Z.leb_spec (Z.of_nat (length (take (Datatypes.S (Z.to_nat limit)) rest))) limit) as [Hle|Hgt].
  - simplify_eq/=. rewrite length_take in Hle.
    rewrite !take_ge by lia. split; [done|]. left. split; [done|]. apply drop_ge. lia.
  - rewrite length_take in Hgt. rewrite take_take in Hp.
    replace (Z.to_nat limit `min` Datatypes.S (Z.to_nat limit))%nat with (Z.to_nat limit) in Hp by lia.
    destruct (last (take (Z.to_nat limit) rest)) as [x|] eqn:Ex; [|done].
    apply bind_Ok in Hp as (c & Hc & [= <-]). simpl. split; [done|]. right.
    assert (0 < n_ID x ∧ rfc3339_range (n_CreatedAt x)) as [Hid Hrange].
    { rewrite Forall_forall in Hrows. apply Hrows.
      apply last_Some in Ex as [k Hk].
      assert (x ∈ rest) as Hx by (rewrite <- (take_drop (Z.to_nat limit) rest), Hk; set_solver).
      assert (x ∈ all) as Hx'.
      { subst rest. destruct cursor; simpl in Hx; [|done].
        apply list_elem_of_In, List.filter_In in Hx as [Hx _]. by apply list_elem_of_In. }
      rewrite Hall in Hx'. apply list_elem_of_In, List.filter_In in Hx' as [Hx' _]. by apply list_elem_of_In. }
    unfold NewNotificationListCursor in Hc. destruct (Z.eqb_spec (n_ID x) 0); [lia|]. simplify_eq.
    destruct (cursor_roundtrip (n_CreatedAt x) (n_ID x) Hrange Hid) as [Hround Hne].
    exists (MkCursor (n_CreatedAt x) (n_ID x)). split_and!; [done..|].
    by apply after_cursor_last.
Qed.

Lemma collect_pages_spec fuel tenantID filters limit cursor s s' r all :
  table_ok (rows s) → 1 ≤ limit →
  all ≡ₚ List.filter (λ n, notificationListQuery filters n && whereField (n_TenantID n) tenantID) (rows s) →
  StronglySorted (holds older) all →
  (length (after_cursor cursor all) < fuel)%nat →
  collect_pages fuel tenantID filters limit cursor s = (s', Ok r) →
  r = Some (after_cursor cursor all) ∧ rows s' = rows s.
Proof.
  intros Hok Hlim Hall Hsort. revert cursor s r Hok Hall.
  induction fuel as [|fuel IH]; intros cursor s r Hok Hall Hfuel H; [lia|].
  cbn [collect_pages] in H. apply eff_bind_Ok in H as (s1 & page & Hpage & H).
  destruct (ListNotificationsPage_spec _ _ _ _ _ _ _ _ Hok Hlim Hall Hsort Hpage)
    as (Hs1 & Hn & [[Hc Hdrop]|(c & Hc & Hparse & Hafter)]).
  - rewrite decide_True in H by done. injection H as <- <-. split; [|done]. f_equal.
    rewrite Hn. rewrite <- (take_drop (Z.to_nat limit) (after_cursor cursor all)) at 2.
    by rewrite Hdrop, app_nil_r.
  - rewrite decide_False in H by done.
    apply eff_bind_Ok in H as (s2 & next & Hnext & H). unfold lift in Hnext.
    rewrite Hparse in Hnext. injection Hnext as <- <-.
    apply eff_bind_Ok in H as (s3 & rest & Hrest & H). injection H as <- <-.
    destruct (decide (after_cursor cursor all = [])) as [He|He].
    { exfalso. apply Hc. rewrite He in Hn.
      unfold ListNotificationsPage in Hpage. clear -Hpage Hn Hlim.
      apply eff_bind_Ok in Hpage as (? & l & _ & [= _ Hp]).
      unfold notificationPageFromRecords in Hp. case_match eqn:E; [by simplify_eq/=|].
      to_prop. case_match; [|done]. apply bind_Ok in Hp as (? & _ & [= <-]). simpl in Hn.
      rewrite take_nil in Hn. by rewrite Hn in *. }
    destruct (IH (Some c) s1 rest) as [-> ->]; [by rewrite Hs1..| |done|].
    { rewrite Hafter, length_drop. assert (0 < length (after_cursor cursor all))%nat; [|lia].
      by destruct (after_cursor cursor all); [|simpl; lia]. }
    split; [|done]. cbn [fmap option_fmap option_map]. f_equal. rewrite Hafter, Hn. apply take_drop.
Qed.
End pages.

(** C12: following the page cursors gives the whole list: for every page size, a
    client that asks for the first page and then for each [NextCursor] gets, while
    the table does not change, exactly what [ListNotifications] returns, every
    matching notification once and newest first, within as many pages as the
    table has rows, and a last page without a cursor. *)
Theorem pagination_complete {S} `{T : Table S Notification} `{L : !TableLaws S Notification}
    `{Q : Sql} `{C : CursorCodec} tenantID filters limit (s s1 s2 : S) all r :
  table_ok (rows s) → 1 ≤ limit →
  ListNotifications tenantID filters s = (s1, Ok all) →
  collect_pages (Datatypes.S (length (rows s))) tenantID filters limit None s = (s2, Ok r) →
  r = Some all ∧ rows s2 = rows s ∧
  all ≡ₚ List.filter (λ n, notificationListQuery filters n && whereField (n_TenantID n) tenantID) (rows s) ∧
  StronglySorted (holds newest_first) all.
Proof.
  intros Hok Hlim Hall Hr. destruct (FindOrdered_newest _ _ _ _ _ (proj1 Hok) Hall) as (_ & l0 & Hp & Hs & ->).
  cbn [limit_to] in *.
  assert (length (after_cursor None l0) < Datatypes.S (length (rows s)))%nat as Hfuel.
  { cbn [after_cursor]. apply Permutation_length in Hp. rewrite Hp.
    apply Nat.lt_succ_r, List.filter_length_le. }
  destruct (collect_pages_spec _ _ _ _ _ _ _ _ _ Hok Hlim Hp Hs Hfuel Hr) as [-> Hs2].
  split_and!; [done..|]. clear -Hs. induction Hs as [|x l _ IH Hx]; constructor; [done|].
  eapply Forall_impl; [exact Hx|]. intros y. unfold holds, older, newest_first, cursor_lt. simpl. lia.
Qed.

(** * Witnesses *)

(** A codec that writes numbers in binary: the interface can be implemented. *)
Fixpoint bits (p : positive) : list ascii :=
  match p with xH => ["."%char] | xO p => "0"%char :: bits p | xI p => "1"%char :: bits p end.
Fixpoint unbits (l : list ascii) : positive :=
  match l with
  | "0"%char :: l => xO (unbits l)
  | "1"%char :: l => xI (unbits l)
  | _ => xH
  end.
Lemma unbits_bits p : unbits (bits p) = p.
Proof. induction p; simpl; by f_equal. Qed.

Definition of_option {A} (o : option A) : result A :=
  match o with Some a => Ok a | None => Err (Text "malformed" []) end.
Definition binary_codec : CursorCodec.
Proof.
  refine {| json_Marshal := λ s id, bits (countable.encode (s, id));
            json_Unmarshal := λ l, of_option (countable.decode (unbits l));
            time_Format := λ t, implode (bits (countable.encode t));
            time_Parse := λ s, of_option (countable.decode (unbits (explode s))) |}.
  - intros t id _. by rewrite unbits_bits, countable.decode_encode.
  - intros s id. by destruct (countable.encode (s, id)).
  - intros t _. by rewrite explode_implode, unbits_bits, countable.decode_encode.
Defined.

Definition demo_note (id created : Z) (tenant status : string) : Notification :=
  MkNotification id tenant ("n" ++ pretty id) NotificationEmail "to@x.y" "s" "m" "" status 0 zeroTime None
    created created [].
Definition demo_rows : list Notification :=
  [demo_note 1 10 "t1" StatusQueued; demo_note 2 30 "t1" StatusSent; demo_note 3 10 "t1" StatusErrored;
   demo_note 4 20 "t2" StatusQueued; demo_note 5 20 "t1" StatusQueued].
Definition demo_insert (l : list Notification) (n : Notification) : result Notification :=
  let id := 1 + foldr Z.max 0 (n_ID <$> l) in
  if existsb (λ r, bool_decide (n_NotificationID r = n_NotificationID n)) l
  then Err (Text "UNIQUE constraint failed" []) else Ok (set_ID n id).
Definition demo_table : Table (list Notification) Notification := list_table demo_insert (λ _, Ok).
Definition demo_sql : Sql := {| Like := λ s p, Contains s (TrimSuffix (TrimPrefix p "%") "%") |}.

Lemma demo_laws : TableLaws (list Notification) Notification (T := demo_table).
Proof.
  apply list_table_laws.
  - intros s x y. unfold demo_insert. destruct (existsb _ s) eqn:E; [done|]. intros [= <-].
    eexists. split; [done|].
    assert (∀ z, z ∈ s → n_ID z ≤ foldr Z.max 0 (n_ID <$> s)) as Hmax.
    { clear. induction s as [|a s IH]; intros z; [by intros ?%elem_of_nil|].
      intros [->|Hz]%elem_of_cons; csimpl; [lia|]. specialize (IH z Hz). lia. }
    assert (0 ≤ foldr Z.max 0 (n_ID <$> s)) by (clear; induction s; csimpl; lia).
    split; [lia|]. apply Forall_forall. intros z Hz. split; [specialize (Hmax z Hz); lia|].
    intros Heq. assert (existsb (λ r, bool_decide (n_NotificationID r = n_NotificationID x)) s = true) as Ht.
    { apply existsb_exists. exists z. split; [by apply list_elem_of_In|]. by apply bool_decide_true. }
    congruence.
  - intros s x y [= <-]. exists (n_UpdatedAt x). by destruct x.
Qed.

(** Pages of one: 2, then 5, 3 and 1 of tenant t1. *)
Lemma pagination_complete_witness :
  ∃ s r, collect_pages (T := demo_table) (Q := demo_sql) (C := binary_codec) 6 "t1" (MkFilters [] "") 1 None
      demo_rows = (s, Ok r) ∧ (λ l : list Notification, n_ID <$> l) <$> r = Some [2; 5; 3; 1].
Proof.
  destruct (collect_pages (T := demo_table) (Q := demo_sql) (C := binary_codec) 6 "t1" (MkFilters [] "") 1
    None demo_rows) as [s [r|e]] eqn:E; [|vm_compute in E; discriminate].
  exists s, r. split; [done|].
  destruct (pagination_complete (T := demo_table) (L := demo_laws) (Q := demo_sql) (C := binary_codec)
    "t1" (MkFilters [] "") 1 demo_rows demo_rows s
    [demo_note 2 30 "t1" StatusSent; demo_note 5 20 "t1" StatusQueued; demo_note 3 10 "t1" StatusErrored;
     demo_note 1 10 "t1" StatusQueued] r) as [-> _]; [|lia|vm_compute; reflexivity|exact E|reflexivity].
  split; [apply (bool_decide_unpack _); vm_compute; exact I|].
  repeat constructor; unfold rfc3339_range; vm_compute; discriminate || reflexivity.
Defined.

Lemma NewNotificationRequest_valid_witness :
  ∃ rq, NewNotificationRequest NotificationEmail " a@b.c " "" "hi" None [MkAttachment "f" "" ["x"%char]] = Ok rq ∧
    rq_recipient rq = "a@b.c"%string.
Proof.
  eexists. split; [vm_compute; reflexivity|].
  destruct (NewNotificationRequest_valid NotificationEmail " a@b.c " "" "hi" None
    [MkAttachment "f" "" ["x"%char]] _ ltac:(vm_compute; reflexivity)) as (-> & _). reflexivity.
Defined.
