(* ===== verification/Tenant.v ===== *)
(** Tenants (src/internal/tenant): the stored records (models.go), secrets at rest
    (secrets.go), the repository with its caches (repository.go) and provisioning from
    the configuration (bootstrap.go).

    The database is five tables, each behind the interface of Gorm.  A repository is a
    pair of caches; the process keeps all repositories in a registry, so that
    [Bootstrap] can clear their caches: the registry is a list and a repository is a
    position in it.  YAML decoding is a parameter; the checks the code makes on a YAML
    node before it decodes are defined here. *)
From S2P Require Import Prelude GoStrings Base64 Crypto Gorm.
Open Scope Z_scope.

(** * Records (models.go) *)
Definition TenantStatusActive : string := "active".
Definition TenantStatusSuspended : string := "suspended".

Record Tenant := MkTenant {
  t_ID : string;
  t_DisplayName : string;
  t_SupportEmail : string;
  t_Status : string;
  t_CreatedAt : Time;
  t_UpdatedAt : Time;
}.
Record TenantDomain := MkTenantDomain {
  td_ID : Z;
  td_TenantID : string;
  td_Host : string;
  td_IsDefault : bool;
  td_CreatedAt : Time;
  td_UpdatedAt : Time;
}.
Record TenantAdmin := MkTenantAdmin {
  ta_ID : Z;
  ta_TenantID : string;
  ta_Email : string;
  ta_CreatedAt : Time;
  ta_UpdatedAt : Time;
}.
Record EmailProfile := MkEmailProfile {
  ep_ID : string;
  ep_TenantID : string;
  ep_Host : string;
  ep_Port : Z;
  ep_UsernameCipher : string;
  ep_PasswordCipher : string;
  ep_FromAddress : string;
  ep_IsDefault : bool;
  ep_CreatedAt : Time;
  ep_UpdatedAt : Time;
}.
Record SMSProfile := MkSMSProfile {
  sp_ID : string;
  sp_TenantID : string;
  sp_AccountSIDCipher : string;
  sp_AuthTokenCipher : string;
  sp_FromNumber : string;
  sp_IsDefault : bool;
  sp_CreatedAt : Time;
  sp_UpdatedAt : Time;
}.

(** gorm fills in the time stamps, and the numeric keys; hosts are unique, and so are
    the pairs of tenant and administrator. *)
Definition t_stamp (t : Tenant) (c u : Time) : Tenant :=
  MkTenant (t_ID t) (t_DisplayName t) (t_SupportEmail t) (t_Status t) c u.
Definition td_stamp (d : TenantDomain) (id : Z) (c u : Time) : TenantDomain :=
  MkTenantDomain id (td_TenantID d) (td_Host d) (td_IsDefault d) c u.
Definition ta_stamp (a : TenantAdmin) (id : Z) (c u : Time) : TenantAdmin :=
  MkTenantAdmin id (ta_TenantID a) (ta_Email a) c u.
Definition ep_stamp (e : EmailProfile) (c u : Time) : EmailProfile :=
  MkEmailProfile (ep_ID e) (ep_TenantID e) (ep_Host e) (ep_Port e) (ep_UsernameCipher e) (ep_PasswordCipher e)
    (ep_FromAddress e) (ep_IsDefault e) c u.
Definition sp_stamp (p : SMSProfile) (c u : Time) : SMSProfile :=
  MkSMSProfile (sp_ID p) (sp_TenantID p) (sp_AccountSIDCipher p) (sp_AuthTokenCipher p) (sp_FromNumber p)
    (sp_IsDefault p) c u.

#[export] Instance Tenant_row : Row Tenant :=
  {| same_key := λ a b, bool_decide (t_ID a = t_ID b);
     placed := insert_by t_ID;
     stored := λ table a b, (∃ c u, b = t_stamp a c u) ∧ Forall (λ r, t_ID r ≠ t_ID a) table;
     touched := λ _ a b, ∃ c u, b = t_stamp a c u |}.
#[export] Instance TenantDomain_row : Row TenantDomain :=
  {| same_key := λ a b, td_ID a =? td_ID b;
     placed := λ table b, table ++ [b];
     stored := λ table a b, ∃ id c u, b = td_stamp a id c u ∧ 0 < id ∧
       Forall (λ r, td_ID r ≠ id ∧ td_Host r ≠ td_Host a) table;
     touched := λ table a b, (∃ c u, b = td_stamp a (td_ID a) c u) ∧
       Forall (λ r, td_ID r ≠ td_ID a → td_Host r ≠ td_Host a) table |}.
#[export] Instance TenantAdmin_row : Row TenantAdmin :=
  {| same_key := λ a b, ta_ID a =? ta_ID b;
     placed := λ table b, table ++ [b];
     stored := λ table a b, ∃ id c u, b = ta_stamp a id c u ∧ 0 < id ∧
       Forall (λ r, ta_ID r ≠ id ∧ (ta_TenantID r, ta_Email r) ≠ (ta_TenantID a, ta_Email a)) table;
     touched := λ table a b, (∃ c u, b = ta_stamp a (ta_ID a) c u) ∧
       Forall (λ r, ta_ID r ≠ ta_ID a → (ta_TenantID r, ta_Email r) ≠ (ta_TenantID a, ta_Email a)) table |}.
#[export] Instance EmailProfile_row : Row EmailProfile :=
  {| same_key := λ a b, bool_decide (ep_ID a = ep_ID b);
     placed := insert_by ep_ID;
     stored := λ table a b, (∃ c u, b = ep_stamp a c u) ∧ Forall (λ r, ep_ID r ≠ ep_ID a) table;
     touched := λ _ a b, ∃ c u, b = ep_stamp a c u |}.
#[export] Instance SMSProfile_row : Row SMSProfile :=
  {| same_key := λ a b, bool_decide (sp_ID a = sp_ID b);
     placed := insert_by sp_ID;
     stored := λ table a b, (∃ c u, b = sp_stamp a c u) ∧ Forall (λ r, sp_ID r ≠ sp_ID a) table;
     touched := λ _ a b, ∃ c u, b = sp_stamp a c u |}.

(** * Runtime configuration (repository.go, context.go) *)
Record EmailCredentials := MkEmailCredentials {
  ec_Host : string;
  ec_Port : Z;
  ec_Username : string;
  ec_Password : string;
  ec_FromAddress : string;
}.
Record SMSCredentials := MkSMSCredentials {
  sms_AccountSID : string;
  sms_AuthToken : string;
  sms_FromNumber : string;
}.
Record RuntimeConfig := MkRuntime {
  rc_Tenant : Tenant;
  rc_Email : EmailCredentials;
  rc_SMS : option SMSCredentials;
}.
Definition rc_TenantID (cfg : RuntimeConfig) : string := t_ID (rc_Tenant cfg).

(** The request's context, as far as the program uses it: the tenant put there. *)
Definition context : Type := option RuntimeConfig.
Definition WithRuntime (_ : context) (cfg : RuntimeConfig) : context := Some cfg.
Definition RuntimeFromContext (ctx : context) : option RuntimeConfig := ctx.

Definition cloneRuntimeConfig (cfg : RuntimeConfig) : RuntimeConfig :=
  match rc_SMS cfg with
  | Some sms => MkRuntime (rc_Tenant cfg) (rc_Email cfg)
                  (Some (MkSMSCredentials (sms_AccountSID sms) (sms_AuthToken sms) (sms_FromNumber sms)))
  | None => cfg
  end.

Definition ErrInvalidTenantID : error := New "tenant: invalid tenant id".

Section normalize.
Context `{U : Unicode}.

Definition normalizeHost (host : string) : string :=
  let host := ToLower (TrimSpace host) in
  if decide (host = ""%string) then "" else
  if Contains host ":" then match Split host ":" with part :: _ => part | [] => "" end else host.
Definition normalizeDomainHost (host : string) : string := ToLower (TrimSpace host).
Definition normalizeAdminEmail (email : string) : string := ToLower (TrimSpace email).

Definition normalizeDomainHosts (domains : list string) : list string :=
  List.filter (λ h, negb (bool_decide (h = ""%string))) (normalizeDomainHost <$> domains).

(** The loop of [normalizeAdminEmails]. *)
Fixpoint normalize_admins (seen : gset string) (emails : list string) : list string :=
  match emails with
  | [] => []
  | email :: emails =>
      let normalizedEmail := normalizeAdminEmail email in
      if decide (normalizedEmail = ""%string) then normalize_admins seen emails
      else if decide (normalizedEmail ∈ seen) then normalize_admins seen emails
      else normalizedEmail :: normalize_admins ({[normalizedEmail]} ∪ seen) emails
  end.
Definition normalizeAdminEmails (emails : list string) : list string := normalize_admins ∅ emails.
End normalize.

(** * Repositories: caches *)
Record Repository := MkRepository {
  runtimeCache : gmap string RuntimeConfig;
  domainTenantCache : gmap string string;
}.
Definition clearCaches (_ : Repository) : Repository := MkRepository ∅ ∅.
Definition cachedRuntimeConfig (repo : Repository) (tenantID : string) : option RuntimeConfig :=
  cloneRuntimeConfig <$> runtimeCache repo !! tenantID.
Definition cacheRuntimeConfig (repo : Repository) (tenantID : string) (cfg : RuntimeConfig) : Repository :=
  if decide (tenantID = ""%string) then repo
  else MkRepository (<[tenantID := cfg]> (runtimeCache repo)) (domainTenantCache repo).
Definition cachedTenantID (repo : Repository) (host : string) : option string := domainTenantCache repo !! host.
Definition cacheTenantID (repo : Repository) (host tenantID : string) : Repository :=
  if decide (host = ""%string ∨ tenantID = ""%string) then repo
  else MkRepository (runtimeCache repo) (<[host := tenantID]> (domainTenantCache repo)).

(** * Secrets (secrets.go) *)
Definition NewSecretKeeper (rawKey : string) : result string :=
  match hex_DecodeString rawKey with
  | Err e => Err (Wrapf "tenant: invalid encryption key: %w" [] e)
  | Ok key =>
      if decide (String.length key = 32%nat) then Ok key
      else Err (Text "tenant: encryption key must decode to 32 bytes" [])
  end.

Section secrets.
Context `{K : Crypto} {E : Type} `{Env : Environment E} (key : string).
Definition Encrypt (plaintext : string) : eff E string :=
  map_err (Wrapf "tenant: init cipher: %w" []) (lift (aes_NewCipher key));;
  nonce ← map_err (Wrapf "tenant: nonce: %w" []) (io_ReadFull 12);
  mret (nonce ++ gcm_Seal key nonce plaintext)%string.
Definition Decrypt (ciphertext : string) : result string :=
  match aes_NewCipher key with
  | Err e => Err (Wrapf "tenant: init cipher: %w" [] e)
  | Ok _ =>
      if Z.of_nat (String.length ciphertext) <? 12 then Err (Text "tenant: ciphertext too short" []) else
      match gcm_Open key (implode (take 12 (explode ciphertext))) (implode (drop 12 (explode ciphertext))) with
      | Err e => Err (Wrapf "tenant: decrypt: %w" [] e)
      | Ok plaintext => Ok plaintext
      end
  end.
End secrets.

(** * The bootstrap configuration (bootstrap.go) *)
Record BootstrapEmailProfile := MkBootstrapEmail {
  be_Host : string;
  be_Port : Z;
  be_Username : string;
  be_Password : string;
  be_FromAddress : string;
}.
Record BootstrapSMSProfile := MkBootstrapSMS {
  bm_AccountSID : string;
  bm_AuthToken : string;
  bm_FromNumber : string;
}.
Record BootstrapTenant := MkBootstrapTenant {
  bt_ID : string;
  bt_DisplayName : string;
  bt_SupportEmail : string;
  bt_Enabled : option bool;
  bt_Status : string;
  bt_Domains : list string;
  bt_Admins : list string;
  bt_EmailProfile : BootstrapEmailProfile;
  bt_SMSProfile : option BootstrapSMSProfile;
}.

(** YAML nodes, as far as the code looks into them: in a mapping, keys and values
    alternate. *)
Inductive yaml_kind := MappingNode | SequenceNode | OtherNode.
Inductive yaml_node := MkNode (kind : yaml_kind) (value : string) (content : list yaml_node).
Definition node_Kind (n : yaml_node) : yaml_kind := let '(MkNode k _ _) := n in k.
Definition node_Value (n : yaml_node) : string := let '(MkNode _ v _) := n in v.
Definition node_Content (n : yaml_node) : list yaml_node := let '(MkNode _ _ c) := n in c.

(** The keys the loops look at: content at the even places that have a successor. *)
Fixpoint mapping_keys (content : list yaml_node) : list string :=
  match content with
  | key :: _ :: content => TrimSpace (node_Value key) :: mapping_keys content
  | _ => []
  end.
Definition firstUnsupportedBootstrapYAMLMappingKey (value : yaml_node) (allowedKeys : list string) : string :=
  default ""%string (List.find (λ key, negb (bool_decide (key ∈ allowedKeys))) (mapping_keys (node_Content value))).
Definition yamlMappingHasKey (value : option yaml_node) (key : string) : bool :=
  match value with
  | Some (MkNode MappingNode _ content) => existsb (λ k, bool_decide (k = key)) (mapping_keys content)
  | _ => false
  end.

Section unmarshal.
(** [value.Decode] into the raw types; [nil] for an absent node gives the zero value. *)
Context (Decode_config : yaml_node → result (list BootstrapTenant)).
Context (Decode_tenant : yaml_node → result BootstrapTenant).
Context (Decode_email : yaml_node → result BootstrapEmailProfile).
Context (Decode_sms : yaml_node → result BootstrapSMSProfile).

Definition zero_email : BootstrapEmailProfile := MkBootstrapEmail "" 0 "" "" "".
Definition zero_sms : BootstrapSMSProfile := MkBootstrapSMS "" "" "".
Definition zero_tenant : BootstrapTenant := MkBootstrapTenant "" "" "" None "" [] [] zero_email None.

Definition is_mapping (n : yaml_node) : bool := match node_Kind n with MappingNode => true | _ => false end.

Definition BootstrapConfig_UnmarshalYAML (value : option yaml_node) : result (list BootstrapTenant) :=
  match value with
  | None => Ok []
  | Some node =>
      guard_err (negb (is_mapping node)) (Text "tenant bootstrap: config must be a mapping" []);;
      let unsupportedKey := firstUnsupportedBootstrapYAMLMappingKey node ["tenants"%string] in
      guard_err (negb (bool_decide (unsupportedKey = ""%string)))
        (Text "tenant bootstrap: %s is not supported" [FStr unsupportedKey]);;
      Decode_config node
  end.
Definition statusUnsupported : error :=
  Text "tenant bootstrap: tenants[].status is no longer supported; use tenants[].enabled (true|false)" [].
Definition tenant_keys : list string :=
  ["id"; "displayName"; "supportEmail"; "enabled"; "domains"; "admins"; "emailProfile"; "smsProfile"]%string.
Definition BootstrapTenant_UnmarshalYAML (value : option yaml_node) : result BootstrapTenant :=
  match value with
  | None => Ok zero_tenant
  | Some node =>
      guard_err (negb (is_mapping node)) (Text "tenant bootstrap: tenants[] must be a mapping" []);;
      guard_err (yamlMappingHasKey (Some node) "status") statusUnsupported;;
      let unsupportedKey := firstUnsupportedBootstrapYAMLMappingKey node tenant_keys in
      guard_err (negb (bool_decide (unsupportedKey = ""%string)))
        (Text "tenant bootstrap: tenants[].%s is not supported" [FStr unsupportedKey]);;
      Decode_tenant node
  end.
Definition email_keys : list string := ["host"; "port"; "username"; "password"; "fromAddress"]%string.
Definition BootstrapEmailProfile_UnmarshalYAML (value : option yaml_node) : result BootstrapEmailProfile :=
  match value with
  | None => Ok zero_email
  | Some node =>
      guard_err (negb (is_mapping node)) (Text "tenant bootstrap: tenants[].emailProfile must be a mapping" []);;
      let unsupportedKey := firstUnsupportedBootstrapYAMLMappingKey node email_keys in
      guard_err (negb (bool_decide (unsupportedKey = ""%string)))
        (Text "tenant bootstrap: tenants[].emailProfile.%s is not supported" [FStr unsupportedKey]);;
      Decode_email node
  end.
Definition sms_keys : list string := ["accountSid"; "authToken"; "fromNumber"]%string.
Definition BootstrapSMSProfile_UnmarshalYAML (value : option yaml_node) : result BootstrapSMSProfile :=
  match value with
  | None => Ok zero_sms
  | Some node =>
      guard_err (negb (is_mapping node)) (Text "tenant bootstrap: tenants[].smsProfile must be a mapping" []);;
      let unsupportedKey := firstUnsupportedBootstrapYAMLMappingKey node sms_keys in
      guard_err (negb (bool_decide (unsupportedKey = ""%string)))
        (Text "tenant bootstrap: tenants[].smsProfile.%s is not supported" [FStr unsupportedKey]);;
      Decode_sms node
  end.
End unmarshal.

Definition with_ID (spec : BootstrapTenant) (id : string) : BootstrapTenant :=
  MkBootstrapTenant id (bt_DisplayName spec) (bt_SupportEmail spec) (bt_Enabled spec) (bt_Status spec)
    (bt_Domains spec) (bt_Admins spec) (bt_EmailProfile spec) (bt_SMSProfile spec).
(** [spec.Enabled != nil && !*spec.Enabled] *)
Definition disabled (spec : BootstrapTenant) : bool := match bt_Enabled spec with Some false => true | _ => false end.
Definition bootstrapTenantIDs (specs : list BootstrapTenant) : list string := bt_ID <$> specs.

Fixpoint prepareBootstrapTenants {E} `{Env : Environment E} (specs : list BootstrapTenant)
    : E → E * list BootstrapTenant :=
  match specs with
  | [] => λ e, (e, [])
  | spec :: specs => λ e,
      let id := TrimSpace (bt_ID spec) in
      let '(e, id) := if decide (id = ""%string) then uuid_NewString e else (e, id) in
      let '(e, prepared) := prepareBootstrapTenants specs e in
      (e, with_ID spec id :: prepared)
  end.

(** The inner and the outer loop of [validateBootstrapDomains]. *)
Fixpoint validate_hosts `{U : Unicode} (tenantIndex : Z) (hosts : list string) (normalizedHosts : gmap string Z)
    (domainCount : Z) : result (gmap string Z * Z) :=
  match hosts with
  | [] => Ok (normalizedHosts, domainCount)
  | host :: hosts =>
      let normalizedHost := normalizeDomainHost host in
      if decide (normalizedHost = ""%string) then validate_hosts tenantIndex hosts normalizedHosts domainCount else
      match normalizedHosts !! normalizedHost with
      | Some existingIndex =>
          Err (Text "tenant bootstrap: %s: duplicate domain %s between tenants[%d] and tenants[%d]"
                 [FStr "tenant.bootstrap.domain.duplicate"; FStr normalizedHost; FInt existingIndex; FInt tenantIndex])
      | None => validate_hosts tenantIndex hosts (<[normalizedHost := tenantIndex]> normalizedHosts) (domainCount + 1)
      end
  end.
Fixpoint validate_tenants `{U : Unicode} (tenantIndex : Z) (specs : list BootstrapTenant)
    (normalizedHosts : gmap string Z) : result unit :=
  match specs with
  | [] => Ok ()
  | spec :: specs =>
      r ← validate_hosts tenantIndex (bt_Domains spec) normalizedHosts 0;
      guard_err (r.2 =? 0) (Text "tenant bootstrap: %s: tenants[%d] has no domains"
                              [FStr "tenant.bootstrap.domain.missing"; FInt tenantIndex]);;
      validate_tenants (tenantIndex + 1) specs r.1
  end.
Definition validateBootstrapDomains `{U : Unicode} (specs : list BootstrapTenant) : result unit :=
  validate_tenants 0 specs ∅.

(** * The world: database, environment and registered repositories *)
Record tenant_db (ST SD SA SE SS : Type) := MkDB {
  db_tenants : ST;
  db_domains : SD;
  db_admins : SA;
  db_emails : SE;
  db_sms : SS;
}.
Arguments MkDB {ST SD SA SE SS} _ _ _ _ _.
Arguments db_tenants {ST SD SA SE SS} _.
Arguments db_domains {ST SD SA SE SS} _.
Arguments db_admins {ST SD SA SE SS} _.
Arguments db_emails {ST SD SA SE SS} _.
Arguments db_sms {ST SD SA SE SS} _.
Record tenant_world (DB E : Type) := MkTenantWorld { tw_db : DB; tw_env : E; tw_repos : list Repository }.
Arguments MkTenantWorld {DB E} _ _ _.
Arguments tw_db {DB E} _.
Arguments tw_env {DB E} _.
Arguments tw_repos {DB E} _.

Section tenants.
Context `{U : Unicode} `{K : Crypto}.
Context {ST SD SA SE SS E : Type}.
Context `{TT : Table ST Tenant} `{TD : Table SD TenantDomain} `{TA : Table SA TenantAdmin}.
Context `{TE : Table SE EmailProfile} `{TS : Table SS SMSProfile}.
Context `{XT : Upserts ST Tenant} `{XD : Upserts SD TenantDomain}.
Context `{JD : Joins ST Tenant SD TenantDomain} `{JA : Joins ST Tenant SA TenantAdmin}.
Context `{Env : Environment E}.
(** The keeper's key, and whether a commit goes through. *)
Context (key : string) (Commit : tenant_db ST SD SA SE SS → result unit).
#[local] Abbreviation DB := (tenant_db ST SD SA SE SS).
#[local] Abbreviation W := (tenant_world DB E).

Definition on_db {A} : eff DB A → eff W A := zoom tw_db (λ x w, MkTenantWorld x (tw_env w) (tw_repos w)).
Definition on_tenants {A} : eff ST A → eff DB A :=
  zoom db_tenants (λ x d, MkDB x (db_domains d) (db_admins d) (db_emails d) (db_sms d)).
Definition on_tenant_domains {A} : eff SD A → eff DB A :=
  zoom db_domains (λ x d, MkDB (db_tenants d) x (db_admins d) (db_emails d) (db_sms d)).
Definition on_admins {A} : eff SA A → eff DB A :=
  zoom db_admins (λ x d, MkDB (db_tenants d) (db_domains d) x (db_emails d) (db_sms d)).
Definition on_emails {A} : eff SE A → eff DB A :=
  zoom db_emails (λ x d, MkDB (db_tenants d) (db_domains d) (db_admins d) x (db_sms d)).
Definition on_sms {A} : eff SS A → eff DB A :=
  zoom db_sms (λ x d, MkDB (db_tenants d) (db_domains d) (db_admins d) (db_emails d) x).
Definition on_tenants_domains {A} : eff (ST * SD) A → eff DB A :=
  zoom (λ d, (db_tenants d, db_domains d)) (λ x d, MkDB x.1 x.2 (db_admins d) (db_emails d) (db_sms d)).
Definition on_tenants_admins {A} : eff (ST * SA) A → eff DB A :=
  zoom (λ d, (db_tenants d, db_admins d)) (λ x d, MkDB x.1 (db_domains d) x.2 (db_emails d) (db_sms d)).
Definition on_tenant_env {A} : eff E A → eff W A := zoom tw_env (λ x w, MkTenantWorld (tw_db w) x (tw_repos w)).

(** ** Repository (repository.go) *)
Definition repo_at (w : W) (i : nat) : Repository := default (MkRepository ∅ ∅) (tw_repos w !! i).
Definition update_repo (i : nat) (f : Repository → Repository) : eff W unit := λ w,
  (MkTenantWorld (tw_db w) (tw_env w) (alter f i (tw_repos w)), Ok ()).
Definition NewRepository : eff W nat := λ w,
  (MkTenantWorld (tw_db w) (tw_env w) (tw_repos w ++ [MkRepository ∅ ∅]), Ok (length (tw_repos w))).
Definition invalidateRegisteredRepositories : eff W unit := λ w,
  (MkTenantWorld (tw_db w) (tw_env w) (clearCaches <$> tw_repos w), Ok ()).

Definition loadRuntimeConfig (tenantID : string) : eff DB RuntimeConfig :=
  tenantModel ← map_err (Wrapf "tenant runtime: tenant %s: %w" [FStr tenantID])
    (on_tenants (First (λ t, whereField (t_ID t) tenantID)));
  emailProfile ← map_err (Wrapf "tenant runtime: email profile: %w" [])
    (on_emails (First (λ e, whereField (ep_TenantID e) tenantID && ep_IsDefault e)));
  found ← try_eff (on_sms (First (λ p, whereField (sp_TenantID p) tenantID && sp_IsDefault p)));
  smsPtr ← lift (match found with
    | Ok smsProfile =>
        accountSID ← Decrypt key (sp_AccountSIDCipher smsProfile);
        authToken ← Decrypt key (sp_AuthTokenCipher smsProfile);
        Ok (Some (MkSMSCredentials accountSID authToken (sp_FromNumber smsProfile)))
    | Err e => if is_not_found e then Ok None else Err (Wrapf "tenant runtime: sms profile: %w" [] e)
    end);
  username ← lift (Decrypt key (ep_UsernameCipher emailProfile));
  password ← lift (Decrypt key (ep_PasswordCipher emailProfile));
  mret (MkRuntime tenantModel
    (MkEmailCredentials (ep_Host emailProfile) (ep_Port emailProfile) username password (ep_FromAddress emailProfile))
    smsPtr).

Definition runtimeConfig (i : nat) (tenantID : string) : eff W RuntimeConfig := λ w,
  match cachedRuntimeConfig (repo_at w i) tenantID with
  | Some cachedCfg => (w, Ok cachedCfg)
  | None =>
      (loadedCfg ← on_db (loadRuntimeConfig tenantID);
       update_repo i (λ repo, cacheRuntimeConfig repo tenantID loadedCfg);;
       mret (cloneRuntimeConfig loadedCfg)) w
  end.

Definition ResolveByHost (i : nat) (host : string) : eff W RuntimeConfig := λ w,
  let normalized := normalizeHost host in
  if decide (normalized = ""%string) then (w, Err (Text "tenant resolve: empty host" [])) else
  match cachedTenantID (repo_at w i) normalized with
  | Some cached => runtimeConfig i cached w
  | None =>
      (domain ← map_err (Wrapf "tenant resolve: domain %s: %w" [FStr normalized])
         (on_db (on_tenant_domains (First (λ d, whereField (td_Host d) normalized))));
       runtimeCfg ← runtimeConfig i (td_TenantID domain);
       update_repo i (λ repo, cacheTenantID repo normalized (td_TenantID domain));;
       mret runtimeCfg) w
  end.

Definition ResolveByID (i : nat) (tenantID : string) : eff W RuntimeConfig :=
  let normalized := TrimSpace tenantID in
  if decide (normalized = ""%string) then lift (Err (Wrapf "%w: empty tenant id" [] ErrInvalidTenantID))
  else runtimeConfig i normalized.

Definition by_display_name (a b : Tenant) : bool := String.leb (t_DisplayName a) (t_DisplayName b).

Definition ListActiveTenants : eff DB (list Tenant) :=
  map_err (Wrapf "tenant list: %w" [])
    (on_tenants (FindOrdered (λ t, whereField (t_Status t) TenantStatusActive) by_display_name None)).

Definition activeTenantDomainJoinClause (t : Tenant) (d : TenantDomain) : bool := bool_decide (td_TenantID d = t_ID t).
Definition activeTenantAdminJoinClause (t : Tenant) (a : TenantAdmin) : bool := bool_decide (ta_TenantID a = t_ID t).
Definition is_active (t : Tenant) : bool := bool_decide (t_Status t = TenantStatusActive).

Definition ListActiveTenantsByDomain (domain : string) : eff DB (list Tenant) :=
  let normalizedDomain := normalizeHost domain in
  map_err (Wrapf "tenant list: domain %s: %w" [FStr normalizedDomain])
    (on_tenants_domains (JoinOrdered
       (λ t d, activeTenantDomainJoinClause t d && (is_active t && bool_decide (td_Host d = normalizedDomain)))
       by_display_name)).

Definition IsActiveTenantAdmin (email : string) : eff DB bool :=
  let normalizedEmail := normalizeAdminEmail email in
  if decide (normalizedEmail = ""%string) then mret false else
  matchingTenants ← map_err (Wrapf "tenant admin lookup: %w" [])
    (on_tenants_admins (JoinCount
       (λ t a, activeTenantAdminJoinClause t a && (is_active t && bool_decide (ta_Email a = normalizedEmail)))));
  mret (0 <? matchingTenants).

(** ** Bootstrap (bootstrap.go) *)
Definition resetTenantDomains : eff DB unit :=
  map_err (Wrapf "tenant bootstrap: %s: reset tenant domains: %w" [FStr "tenant.bootstrap.domain.reset_failed"])
    (on_tenant_domains (Delete (λ _, true))).
Definition resetTenantAdmins : eff DB unit :=
  map_err (Wrapf "tenant bootstrap: %s: reset tenant admins: %w" [FStr "tenant.bootstrap.admin.reset_failed"])
    (on_admins (Delete (λ _, true))).
Definition resetTenantEmailProfiles : eff DB unit :=
  map_err (Wrapf "tenant bootstrap: %s: reset email profiles: %w" [FStr "tenant.bootstrap.email_profile.reset_failed"])
    (on_emails (Delete (λ _, true))).
Definition resetTenantSMSProfiles : eff DB unit :=
  map_err (Wrapf "tenant bootstrap: %s: reset sms profiles: %w" [FStr "tenant.bootstrap.sms_profile.reset_failed"])
    (on_sms (Delete (λ _, true))).
Definition tenantIDNotInClause (tenantIDs : list string) (t : Tenant) : bool := negb (bool_decide (t_ID t ∈ tenantIDs)).
Definition removeStaleTenants (configuredTenantIDs : list string) : eff DB unit :=
  map_err (Wrapf "tenant bootstrap: %s: remove stale tenants: %w" [FStr "tenant.bootstrap.tenant.cleanup_failed"])
    (on_tenants (Delete (tenantIDNotInClause configuredTenantIDs))).

Definition upsertTenantAdmins (tenantID : string) (admins : list string) : eff DB unit :=
  for_each (λ email,
    map_err (Wrapf "tenant bootstrap: %s: create tenant admin: %w" [FStr "tenant.bootstrap.admin.create_failed"])
      (on_admins (Create (MkTenantAdmin 0 tenantID email zeroTime zeroTime)));; mret ())
    (normalizeAdminEmails admins).

(** The loop over the domains; [domainIndex == 0] marks the default one. *)
Definition bootstrapDomainError (host : string) : error → error := Wrapf "tenant bootstrap: domain %s: %w" [FStr host].
Fixpoint upsert_domains (tenantID : string) (isDefault : bool) (hosts : list string) : eff DB unit :=
  match hosts with
  | [] => mret ()
  | host :: hosts =>
      map_err (bootstrapDomainError host)
        (on_tenant_domains (CreateUnless (λ d, bool_decide (td_Host d = host))
           (MkTenantDomain 0 tenantID host isDefault zeroTime zeroTime)));;
      existingDomain ← map_err (bootstrapDomainError host)
        (on_tenant_domains (Take (λ d, whereField (td_Host d) host)));
      lift (guard_err (negb (bool_decide (td_TenantID existingDomain = tenantID))
                       || negb (bool_decide (td_IsDefault existingDomain = isDefault)))
              (Text "tenant bootstrap: %s: domain %s already assigned to tenant %s"
                 [FStr "tenant.bootstrap.domain.conflict"; FStr host; FStr (td_TenantID existingDomain)]));;
      upsert_domains tenantID false hosts
  end.

Definition with_env {A} (m : eff DB A) : eff (DB * E) A := zoom fst (λ d x, (d, x.2)) m.
Definition with_db {A} (m : eff E A) : eff (DB * E) A := zoom snd (λ e x, (x.1, e)) m.
Definition new_uuid : eff E string := λ e, let '(e, id) := uuid_NewString e in (e, Ok id).

Definition upsertTenant (spec : BootstrapTenant) : eff (DB * E) unit :=
  lift (guard_err (negb (bool_decide (TrimSpace (bt_Status spec) = ""%string))) statusUnsupported);;
  let status := if disabled spec then TenantStatusSuspended else TenantStatusActive in
  map_err (Wrapf "tenant bootstrap: upsert tenant %s: %w" [FStr (bt_ID spec)])
    (with_env (on_tenants (Upsert
       (MkTenant (bt_ID spec) (bt_DisplayName spec) (bt_SupportEmail spec) status zeroTime zeroTime))));;
  with_env (upsert_domains (bt_ID spec) true (normalizeDomainHosts (bt_Domains spec)));;
  with_env (upsertTenantAdmins (bt_ID spec) (bt_Admins spec));;
  let email := bt_EmailProfile spec in
  usernameCipher ← with_db (Encrypt key (be_Username email));
  passwordCipher ← with_db (Encrypt key (be_Password email));
  emailID ← with_db new_uuid;
  map_err (Wrapf "tenant bootstrap: email profile: %w" [])
    (with_env (on_emails (Create (MkEmailProfile emailID (bt_ID spec) (be_Host email) (be_Port email)
       usernameCipher passwordCipher (be_FromAddress email) true zeroTime zeroTime))));;
  match bt_SMSProfile spec with
  | None => mret ()
  | Some sms =>
      accountCipher ← with_db (Encrypt key (bm_AccountSID sms));
      tokenCipher ← with_db (Encrypt key (bm_AuthToken sms));
      smsID ← with_db new_uuid;
      map_err (Wrapf "tenant bootstrap: sms profile: %w" [])
        (with_env (on_sms (Create (MkSMSProfile smsID (bt_ID spec) accountCipher tokenCipher
           (bm_FromNumber sms) true zeroTime zeroTime))));;
      mret ()
  end.

(** [db.Transaction(f)] *)
Definition db_transaction {A} (f : eff (DB * E) A) : eff W A := λ w,
  let '((d, e), r) := f (tw_db w, tw_env w) in
  let rolled_back := MkTenantWorld (tw_db w) e (tw_repos w) in
  match r with
  | Err err => (rolled_back, Err err)
  | Ok a => match Commit d with
            | Ok _ => (MkTenantWorld d e (tw_repos w), Ok a)
            | Err err => (rolled_back, Err err)
            end
  end.

Definition bootstrap_tables (specs : list BootstrapTenant) : eff (DB * E) unit :=
  with_env resetTenantDomains;;
  with_env resetTenantAdmins;;
  with_env resetTenantEmailProfiles;;
  with_env resetTenantSMSProfiles;;
  with_env (removeStaleTenants (bootstrapTenantIDs specs));;
  for_each upsertTenant specs.

Definition Bootstrap (tenants : list BootstrapTenant) : eff W unit :=
  lift (guard_err (bool_decide (tenants = [])) (Text "tenant bootstrap: no tenants configured" []));;
  specs ← on_tenant_env (λ e, let '(e, prepared) := prepareBootstrapTenants tenants e in (e, Ok prepared));
  lift (guard_err (bool_decide (length (List.filter (λ spec, negb (disabled spec)) specs) = 0%nat))
          (Text "tenant bootstrap: no enabled tenants configured" []));;
  lift (validateBootstrapDomains specs);;
  db_transaction (bootstrap_tables specs);;
  invalidateRegisteredRepositories.

(** [BootstrapFromFile]; [contents] is what reading the file gave and
    [yaml_Unmarshal] the YAML library applied to it. *)
Definition BootstrapFromFile (yaml_Unmarshal : string → result (list BootstrapTenant)) (contents : result string)
    : eff W unit :=
  contents ← lift (match contents with Ok c => Ok c | Err e => Err (Wrapf "tenant bootstrap: read file: %w" [] e) end);
  cfg ← lift (match yaml_Unmarshal contents with
              | Ok cfg => Ok cfg | Err e => Err (Wrapf "tenant bootstrap: parse yaml: %w" [] e) end);
  Bootstrap cfg.
End tenants.
