(* ===== verification/TenantProofs.v ===== *)
(** Proofs about tenants: secrets open again, the caches never show anything but what
    the tables say, and a bootstrap makes the tables exactly what the configuration
    says, or changes nothing. *)
From S2P Require Import Prelude GoStrings Base64 Crypto Gorm Tenant.
Open Scope Z_scope.

Lemma cloneRuntimeConfig_id cfg : cloneRuntimeConfig cfg = cfg.
Proof. by destruct cfg as [t e [[]|]]. Qed.

(** A secret that was encrypted decrypts. *)
Lemma Encrypt_Decrypt `{K : Crypto} {E} `{Env : Environment E} `{EL : !EnvironmentLaws E} key text (e e' : E) c :
  Encrypt key text e = (e', Ok c) → Decrypt key c = Ok text.
Proof.
  unfold Encrypt, Decrypt. intros (e1 & [] & Hk & H)%eff_bind_Ok.
  apply eff_bind_Ok in H as (e2 & nonce & Hn & [= _ <-]).
  apply map_err_Ok in Hk as [= _ ->]. apply map_err_Ok, io_ReadFull_length in Hn.
  destruct (sealed_nonce nonce (gcm_Seal key nonce text) Hn) as (-> & -> & ->). by rewrite gcm_roundtrip.
Qed.

(** A result without its error. *)
Definition ok {A} (r : result A) : option A := match r with Ok a => Some a | Err _ => None end.
Lemma ok_Some {A} (r : result A) a : ok r = Some a ↔ r = Ok a.
Proof. destruct r; simpl; naive_solver. Qed.

Section proofs.
Context `{U : Unicode} `{K : Crypto}.
Context {ST SD SA SE SS E : Type}.
Context `{TT : Table ST Tenant} `{TD : Table SD TenantDomain} `{TA : Table SA TenantAdmin}.
Context `{TE : Table SE EmailProfile} `{TS : Table SS SMSProfile}.
Context `{XT : Upserts ST Tenant} `{XD : Upserts SD TenantDomain}.
Context `{JD : Joins ST Tenant SD TenantDomain} `{JA : Joins ST Tenant SA TenantAdmin}.
Context `{Env : Environment E}.
Context `{LT : !TableLaws ST Tenant} `{LD : !TableLaws SD TenantDomain} `{LA : !TableLaws SA TenantAdmin}.
Context `{LE : !TableLaws SE EmailProfile} `{LS : !TableLaws SS SMSProfile}.
Context `{UT : !UpsertLaws ST Tenant} `{UD : !UpsertLaws SD TenantDomain}.
Context `{JDL : !JoinLaws ST Tenant SD TenantDomain} `{JAL : !JoinLaws ST Tenant SA TenantAdmin}.
Context (key : string).
#[local] Abbreviation DB := (tenant_db ST SD SA SE SS).
#[local] Abbreviation W := (tenant_world DB E).
Implicit Types (d : DB) (w : W).

(** * What the tables hold *)
Definition tn d : list Tenant := rows (db_tenants d).
Definition dm d : list TenantDomain := rows (db_domains d).
Definition ad d : list TenantAdmin := rows (db_admins d).
Definition em d : list EmailProfile := rows (db_emails d).
Definition sm d : list SMSProfile := rows (db_sms d).
Definition tables d := (tn d, dm d, ad d, em d, sm d).

Lemma tables_eq d d' :
  tables d = tables d' ↔ tn d = tn d' ∧ dm d = dm d' ∧ ad d = ad d' ∧ em d = em d' ∧ sm d = sm d'.
Proof.
  unfold tables. split; [intros [= ? ? ? ? ?]; by split_and!|by intros (-> & -> & -> & -> & ->)].
Qed.

(** The runtime configuration the tables give for a tenant, without any cache. *)
Definition sms_of d (id : string) : option (option SMSCredentials) :=
  match List.find (λ p, whereField (sp_TenantID p) id && sp_IsDefault p) (sm d) with
  | None => Some None
  | Some p => account ← ok (Decrypt key (sp_AccountSIDCipher p)); token ← ok (Decrypt key (sp_AuthTokenCipher p));
              Some (Some (MkSMSCredentials account token (sp_FromNumber p)))
  end.
Definition runtime_of d (id : string) : option RuntimeConfig :=
  t ← List.find (λ t, whereField (t_ID t) id) (tn d);
  e ← List.find (λ e, whereField (ep_TenantID e) id && ep_IsDefault e) (em d);
  sms ← sms_of d id;
  username ← ok (Decrypt key (ep_UsernameCipher e));
  password ← ok (Decrypt key (ep_PasswordCipher e));
  Some (MkRuntime t (MkEmailCredentials (ep_Host e) (ep_Port e) username password (ep_FromAddress e)) sms).
(** The tenant a host belongs to. *)
Definition host_of d (host : string) : option string :=
  td_TenantID <$> List.find (λ x, whereField (td_Host x) host) (dm d).

Lemma runtime_of_tenant d id cfg :
  runtime_of d id = Some cfg → id ≠ ""%string → id = rc_TenantID cfg ∧ rc_Tenant cfg ∈ tn d.
Proof.
  unfold runtime_of. intros (t & [Ht Hp]%find_Some_spec & (e & _ & (sms & _ & (u & _ & (p & _ & [= <-])%bind_Some)%bind_Some)%bind_Some)%bind_Some)%bind_Some Hne.
  apply whereField_eq in Hp; [|done]. by split.
Qed.
Lemma runtime_of_ext d d' id : tables d = tables d' → runtime_of d id = runtime_of d' id.
Proof. intros (Ht & _ & _ & He & Hs)%tables_eq. unfold runtime_of, sms_of. by rewrite Ht, He, Hs. Qed.
Lemma host_of_ext d d' host : tables d = tables d' → host_of d host = host_of d' host.
Proof. intros (_ & Hd & _)%tables_eq. unfold host_of. by rewrite Hd. Qed.

(** * Computations that only read *)
Class Reads {A} (m : eff DB A) : Prop := reads d d' r : m d = (d', r) → tables d' = tables d.
#[local] Instance reads_lift {A} (r : result A) : Reads (lift r).
Proof. by intros d d' r' [= <- _]. Qed.
#[local] Instance reads_ret {A} (a : A) : Reads (mret a).
Proof. by intros d d' r' [= <- _]. Qed.
#[local] Instance reads_bind {A B} (m : eff DB A) (f : A → eff DB B) :
  Reads m → (∀ a, Reads (f a)) → Reads (m ≫= f).
Proof.
  intros Hm Hf d d' r [(e & H & _)|(d1 & a & H1 & H2)]%eff_bind_inv; [by eapply Hm|].
  transitivity (tables d1); [by eapply Hf|by eapply Hm].
Qed.
#[local] Instance reads_map_err {A} f (m : eff DB A) : Reads m → Reads (map_err f m).
Proof. intros Hm d d' r (x & H & _)%map_err_inv. by eapply Hm. Qed.
#[local] Instance reads_try {A} (m : eff DB A) : Reads m → Reads (try_eff m).
Proof. intros Hm d d' r (x & _ & H)%try_eff_inv. by eapply Hm. Qed.
#[local] Instance reads_tenants p : Reads (on_tenants (First p)).
Proof. intros d d' r (s & [Hr _]%First_law & ->)%zoom_inv. unfold tables, tn. simpl. by rewrite Hr. Qed.
#[local] Instance reads_domains p : Reads (on_tenant_domains (First p)).
Proof. intros d d' r (s & [Hr _]%First_law & ->)%zoom_inv. unfold tables, dm. simpl. by rewrite Hr. Qed.
#[local] Instance reads_emails p : Reads (on_emails (First p)).
Proof. intros d d' r (s & [Hr _]%First_law & ->)%zoom_inv. unfold tables, em. simpl. by rewrite Hr. Qed.
#[local] Instance reads_sms p : Reads (on_sms (First p)).
Proof. intros d d' r (s & [Hr _]%First_law & ->)%zoom_inv. unfold tables, sm. simpl. by rewrite Hr. Qed.
#[local] Instance reads_list p le n : Reads (on_tenants (FindOrdered p le n)).
Proof. intros d d' r (s & [Hr _]%FindOrdered_law & ->)%zoom_inv. unfold tables, tn. simpl. by rewrite Hr. Qed.
#[local] Instance reads_join p le : Reads (on_tenants_domains (JoinOrdered p le)).
Proof.
  intros d d' r (s & (Hr & Hr' & _)%JoinOrdered_law & ->)%zoom_inv. unfold tables, tn, dm. simpl in *.
  by rewrite Hr, Hr'.
Qed.
#[local] Instance reads_count p : Reads (on_tenants_admins (JoinCount p)).
Proof.
  intros d d' r (s & (Hr & Hr' & _)%JoinCount_law & ->)%zoom_inv. unfold tables, tn, ad. simpl in *.
  by rewrite Hr, Hr'.
Qed.
#[local] Instance reads_load id : Reads (loadRuntimeConfig key id).
Proof. apply _. Qed.

(** * Loading *)
Lemma loadRuntimeConfig_Ok id d d' cfg : loadRuntimeConfig key id d = (d', Ok cfg) → runtime_of d id = Some cfg.
Proof.
  unfold loadRuntimeConfig. intros (d1 & t & Ht%map_err_Ok & H)%eff_bind_Ok.
  pose proof (reads _ _ _ Ht) as R1. apply zoom_inv in Ht as (s1 & [_ Ht]%First_law & _).
  apply eff_bind_Ok in H as (d2 & e & He%map_err_Ok & H). pose proof (reads _ _ _ He) as R2.
  apply zoom_inv in He as (s2 & [_ He]%First_law & _).
  apply eff_bind_Ok in H as (d3 & found & (x & [= <-] & Hf)%try_eff_inv & H).
  apply zoom_inv in Hf as (s3 & [_ Hf]%First_law & _).
  apply eff_bind_Ok in H as (d4 & sms & [= <- Hs] & H). apply eff_bind_Ok in H as (d5 & u & [= <- Hu] & H).
  apply eff_bind_Ok in H as (d6 & pw & [= <- Hpw] & H). injection H as _ <-.
  apply tables_eq in R1 as (T1 & _ & _ & E1 & S1). apply tables_eq in R2 as (_ & _ & _ & _ & S2).
  unfold runtime_of, sms_of. unfold tn, em, sm in *. rewrite Ht, <- E1, He, <- S1, <- S2. simpl.
  destruct found as [prof|err].
  - rewrite Hf. apply bind_Ok in Hs as (a & -> & Hs). apply bind_Ok in Hs as (b & -> & [= <-]).
    simpl. by rewrite Hu, Hpw.
  - destruct (is_not_found err) eqn:En; [|done]. injection Hs as <-.
    rewrite Hf; [simpl; by rewrite Hu, Hpw|]. by destruct err.
Qed.

(** A database that answers loads what the tables say. *)
Lemma zoom_First_found {S R V} `{T : Table S R} `{RR : !Reliable S R} (get : V → S) put p v x :
  List.find p (rows (get v)) = Some x → ∃ v', zoom get put (First p) v = (v', Ok x).
Proof.
  intros Hf%First_reliable. unfold zoom. destruct (First p (get v)) as [s r]. simpl in Hf. subst r. eauto.
Qed.
Lemma zoom_First_missing {S R V} `{T : Table S R} `{RR : !Reliable S R} (get : V → S) put p v :
  List.find p (rows (get v)) = None → ∃ v', zoom get put (First p) v = (v', Err ErrRecordNotFound).
Proof.
  intros Hf%First_missing. unfold zoom. destruct (First p (get v)) as [s r]. simpl in Hf. subst r. eauto.
Qed.

Lemma loadRuntimeConfig_complete `{RT : !Reliable ST Tenant} `{RE : !Reliable SE EmailProfile}
    `{RS : !Reliable SS SMSProfile} id d cfg :
  runtime_of d id = Some cfg → ∃ d', loadRuntimeConfig key id d = (d', Ok cfg).
Proof.
  unfold runtime_of. intros (t & Ht & (e & He & (sms & Hs & (u & Hu%ok_Some & (p & Hp%ok_Some & [= <-])%bind_Some)%bind_Some)%bind_Some)%bind_Some)%bind_Some.
  destruct (zoom_First_found db_tenants (λ x d, MkDB x (db_domains d) (db_admins d) (db_emails d) (db_sms d)) _ _ _ Ht)
    as (d1 & H1).
  pose proof (reads_tenants _ _ _ _ H1) as (_ & _ & _ & R1 & S1)%tables_eq. rewrite <- R1 in He.
  destruct (zoom_First_found db_emails (λ x d, MkDB (db_tenants d) (db_domains d) (db_admins d) x (db_sms d)) _ _ _ He)
    as (d2 & H2).
  pose proof (reads_emails _ _ _ _ H2) as (_ & _ & _ & _ & S2)%tables_eq.
  assert (∃ d3 found, try_eff (on_sms (First (λ p, whereField (sp_TenantID p) id && sp_IsDefault p))) d2 = (d3, Ok found) ∧
    match found with
    | Ok smsProfile =>
        accountSID ← Decrypt key (sp_AccountSIDCipher smsProfile);
        authToken ← Decrypt key (sp_AuthTokenCipher smsProfile);
        Ok (Some (MkSMSCredentials accountSID authToken (sp_FromNumber smsProfile)))
    | Err e => if is_not_found e then Ok None else Err (Wrapf "tenant runtime: sms profile: %w" [] e)
    end = Ok sms) as (d3 & found & H3 & Hsms).
  { unfold sms_of in Hs. rewrite <- S1, <- S2 in Hs. unfold try_eff, on_sms.
    destruct (List.find _ (sm d2)) as [q|] eqn:Ef.
    - destruct (zoom_First_found db_sms (λ x d, MkDB (db_tenants d) (db_domains d) (db_admins d) (db_emails d) x) _ _ _ Ef)
        as (d3 & ->). exists d3, (Ok q). split; [done|].
      apply bind_Some in Hs as (a & ->%ok_Some & (b & ->%ok_Some & [= <-])%bind_Some). done.
    - destruct (zoom_First_missing db_sms (λ x d, MkDB (db_tenants d) (db_domains d) (db_admins d) (db_emails d) x) _ _ Ef)
        as (d3 & ->). exists d3, (Err ErrRecordNotFound). split; [done|]. by injection Hs as <-. }
  exists d3. unfold loadRuntimeConfig. apply eff_bind_Ok. exists d1, t. split; [by apply map_err_Ok|].
  apply eff_bind_Ok. exists d2, e. split; [by apply map_err_Ok|].
  apply eff_bind_Ok. exists d3, found. split; [done|]. rewrite Hsms.
  unfold lift, mbind, eff_bind. simpl. by rewrite Hu, Hp.
Qed.

(** * Caches *)

(** Every cached entry is what the tables say now. *)
Definition coherent w : Prop :=
  ∀ i repo, tw_repos w !! i = Some repo →
    (∀ id cfg, runtimeCache repo !! id = Some cfg → runtime_of (tw_db w) id = Some cfg) ∧
    (∀ host id, domainTenantCache repo !! host = Some id → host_of (tw_db w) host = Some id).

Lemma coherent_db w d e : tables d = tables (tw_db w) → coherent w → coherent (MkTenantWorld d e (tw_repos w)).
Proof.
  intros Hd Hw i repo Hi. destruct (Hw i repo Hi) as [H1 H2]. simpl. split.
  - intros id cfg Hc. rewrite (runtime_of_ext _ _ _ Hd). by apply H1.
  - intros host id Hc. rewrite (host_of_ext _ _ _ Hd). by apply H2.
Qed.

Lemma coherent_update w i f :
  coherent w →
  (∀ repo, tw_repos w !! i = Some repo →
    (∀ id cfg, runtimeCache (f repo) !! id = Some cfg → runtime_of (tw_db w) id = Some cfg) ∧
    (∀ host id, domainTenantCache (f repo) !! host = Some id → host_of (tw_db w) host = Some id)) →
  coherent (update_repo i f w).1.
Proof.
  intros Hw Hf j repo Hj. simpl in *. destruct (decide (i = j)) as [<-|Hne].
  - rewrite list_lookup_alter_eq in Hj. apply fmap_Some in Hj as (r0 & Hr & ->). by apply Hf.
  - rewrite list_lookup_alter_ne in Hj by done. by apply (Hw j).
Qed.

Lemma repo_at_coherent w i :
  coherent w →
  (∀ id cfg, runtimeCache (repo_at w i) !! id = Some cfg → runtime_of (tw_db w) id = Some cfg) ∧
  (∀ host id, domainTenantCache (repo_at w i) !! host = Some id → host_of (tw_db w) host = Some id).
Proof.
  intros Hw. unfold repo_at. destruct (tw_repos w !! i) as [repo|] eqn:Er; [by apply (Hw i)|]. simpl.
  split; intros ? ? H; simpl in H; by rewrite lookup_empty in H.
Qed.

Definition same_tables w w' : Prop := tables (tw_db w') = tables (tw_db w).

Lemma runtimeConfig_inv i id w w' r :
  coherent w → runtimeConfig key i id w = (w', r) →
  coherent w' ∧ same_tables w w' ∧ ∀ cfg, r = Ok cfg → runtime_of (tw_db w) id = Some cfg.
Proof.
  intros Hw. unfold runtimeConfig, cachedRuntimeConfig.
  destruct (runtimeCache (repo_at w i) !! id) as [c|] eqn:Ec; simpl.
  { intros [= <- <-]. split_and!; [done..|]. intros cfg [= <-]. rewrite cloneRuntimeConfig_id.
    by apply (repo_at_coherent w i). }
  intros [(e & H & ->)|(w1 & c & H1 & H)]%eff_bind_inv.
  { apply zoom_inv in H as (d & H%reads & ->). split_and!; [by apply coherent_db|done|done]. }
  apply zoom_inv in H1 as (d & H1 & ->). pose proof (reads _ _ _ H1) as Hd.
  apply loadRuntimeConfig_Ok in H1. injection H as <- <-. split_and!; [|done|].
  - apply (coherent_update (MkTenantWorld d (tw_env w) (tw_repos w)) i (λ repo, cacheRuntimeConfig repo id c)).
    { by apply coherent_db. }
    intros repo Hr. simpl in *. destruct (Hw i repo Hr) as [Ha Hb]. unfold cacheRuntimeConfig.
    rewrite <- (runtime_of_ext _ _ id Hd) in H1.
    case_decide; simpl.
    + split; [intros ? ? ?; rewrite (runtime_of_ext _ _ _ Hd); by apply Ha|].
      intros ? ? ?; rewrite (host_of_ext _ _ _ Hd); by apply Hb.
    + split; [|intros ? ? ?; rewrite (host_of_ext _ _ _ Hd); by apply Hb].
      intros id' cfg [[<- <-]|[? Hc]]%lookup_insert_Some; [done|].
      rewrite (runtime_of_ext _ _ _ Hd). by apply Ha.
  - intros cfg [= <-]. by rewrite cloneRuntimeConfig_id.
Qed.

Lemma ResolveByID_inv i id w w' r :
  coherent w → ResolveByID key i id w = (w', r) →
  coherent w' ∧ same_tables w w' ∧
  ∀ cfg, r = Ok cfg → TrimSpace id ≠ ""%string ∧ runtime_of (tw_db w) (TrimSpace id) = Some cfg.
Proof.
  intros Hw. unfold ResolveByID. case_decide; [by intros [= <- <-]|].
  intros (H1 & H2 & H3)%runtimeConfig_inv; [|done]. split_and!; [done..|]. intros cfg Hc. by split; [|apply H3].
Qed.

Lemma ResolveByHost_inv i host w w' r :
  coherent w → ResolveByHost key i host w = (w', r) →
  coherent w' ∧ same_tables w w' ∧
  ∀ cfg, r = Ok cfg → normalizeHost host ≠ ""%string ∧
    ∃ id, host_of (tw_db w) (normalizeHost host) = Some id ∧ runtime_of (tw_db w) id = Some cfg.
Proof.
  intros Hw. unfold ResolveByHost, cachedTenantID. case_decide as Hne; [by intros [= <- <-]|].
  destruct (domainTenantCache (repo_at w i) !! normalizeHost host) as [id|] eqn:Ec.
  { intros (H1 & H2 & H3)%runtimeConfig_inv; [|done]. split_and!; [done..|]. intros cfg Hc.
    split; [done|]. exists id. split; [by apply (repo_at_coherent w i)|by apply H3]. }
  intros [(e & H & ->)|(w1 & dom & H1 & H)]%eff_bind_inv.
  { apply map_err_inv in H as (x & (d & H%reads & ->)%zoom_inv & _).
    split_and!; [by apply coherent_db|done|done]. }
  apply map_err_Ok in H1. apply zoom_inv in H1 as (d & H1 & ->). pose proof (reads _ _ _ H1) as Hd.
  apply zoom_inv in H1 as (s & [_ Hf]%First_law & _).
  assert (host_of (tw_db w) (normalizeHost host) = Some (td_TenantID dom)) as Hh.
  { unfold host_of. unfold dm. by rewrite Hf. }
  assert (coherent (MkTenantWorld d (tw_env w) (tw_repos w))) as Hw1 by by apply coherent_db.
  apply eff_bind_inv in H as [(e & H & ->)|(w2 & cfg & H2 & H)].
  { apply runtimeConfig_inv in H as (? & Ht & _); [|done]. split_and!; [done| |done]. unfold same_tables in *. simpl in Ht. congruence. }
  apply runtimeConfig_inv in H2 as (Hw2 & Ht & Hr); [|done]. injection H as <- <-.
  assert (same_tables w w2) as Hs by (unfold same_tables in *; simpl in Ht; congruence).
  split_and!; [|done|].
  - apply (coherent_update w2 i (λ repo, cacheTenantID repo (normalizeHost host) (td_TenantID dom))); [done|].
    intros repo Hi. destruct (Hw2 i repo Hi) as [Ha Hb]. unfold cacheTenantID. case_decide; [done|]. simpl.
    split; [done|]. intros h id [[<- <-]|[? Hc]]%lookup_insert_Some; [|by apply Hb].
    by rewrite (host_of_ext _ _ _ Hs).
  - intros c [= <-]. split; [done|]. exists (td_TenantID dom). split; [done|].
    rewrite <- (Hr cfg eq_refl). symmetry. by apply runtime_of_ext.
Qed.

Context (Commit : DB → result unit).

(** A bootstrap that fails changes neither the tables nor a cache; one that succeeds
    leaves every cache empty. *)
Lemma Bootstrap_inv specs w w' r :
  Bootstrap key Commit specs w = (w', r) →
  match r with
  | Err _ => tw_db w' = tw_db w ∧ tw_repos w' = tw_repos w
  | Ok _ => tw_repos w' = (λ _, MkRepository ∅ ∅) <$> tw_repos w ∧
      ∃ e e' e'' prepared, prepareBootstrapTenants specs e = (e', prepared) ∧
        validateBootstrapDomains prepared = Ok () ∧
        existsb (λ spec, negb (disabled spec)) prepared = true ∧
        bootstrap_tables key prepared (tw_db w, e') = ((tw_db w', e''), Ok ())
  end.
Proof.
  unfold Bootstrap. intros [(e & [= <- _] & ->)|(w1 & [] & [= <- _] & H)]%eff_bind_inv; [done|].
  apply eff_bind_inv in H as [(e & H & ->)|(w1 & prepared & Hp & H)].
  { unfold on_tenant_env, zoom in H. by destruct (prepareBootstrapTenants specs (tw_env w)). }
  unfold on_tenant_env, zoom in Hp. destruct (prepareBootstrapTenants specs (tw_env w)) as [e1 p] eqn:Ep.
  injection Hp as <- ->. 
  apply eff_bind_inv in H as [(e & [= <- _] & ->)|(w1 & [] & Hen & H)]; [done|]. injection Hen as <- Hen.
  apply eff_bind_inv in H as [(e & [= <- _] & ->)|(w1 & [] & Hv & H)]; [done|]. injection Hv as <- Hv.
  unfold db_transaction in H. unfold mbind at 1, eff_bind at 1 in H. simpl in H.
  destruct (bootstrap_tables key prepared (tw_db w, e1)) as [[d2 e2] [[]|err]] eqn:Eb; simpl in H.
  - destruct (Commit d2) as [[]|err]; simpl in H; injection H as <- <-; [|done]. simpl. split; [done|].
    exists (tw_env w), e1, e2, prepared. split_and!; [done..| |done].
    apply guard_err_Ok in Hen. to_prop.
    destruct (existsb _ prepared) eqn:Ex; [done|]. destruct Hen.
    rewrite filter_none; [done|]. apply Forall_forall. intros s Hs. destruct (negb (disabled s)) eqn:En; [|done].
    assert (existsb (λ spec, negb (disabled spec)) prepared = true); [|congruence].
    apply existsb_exists. exists s. split; [by apply list_elem_of_In|done].
  - by injection H as <- <-.
Qed.

(** What is done to tenants while the process runs. *)
Inductive tenant_call :=
| CallNewRepository
| CallResolveByID (i : nat) (id : string)
| CallResolveByHost (i : nat) (host : string)
| CallListActiveTenants
| CallListActiveTenantsByDomain (domain : string)
| CallIsActiveTenantAdmin (email : string)
| CallBootstrap (specs : list BootstrapTenant).
Definition run_tenant_call (c : tenant_call) w : W :=
  match c with
  | CallNewRepository => (NewRepository w).1
  | CallResolveByID i id => (ResolveByID key i id w).1
  | CallResolveByHost i host => (ResolveByHost key i host w).1
  | CallListActiveTenants => (on_db ListActiveTenants w).1
  | CallListActiveTenantsByDomain domain => (on_db (ListActiveTenantsByDomain domain) w).1
  | CallIsActiveTenantAdmin email => (on_db (IsActiveTenantAdmin email) w).1
  | CallBootstrap specs => (Bootstrap key Commit specs w).1
  end.

#[local] Instance reads_admin email : Reads (IsActiveTenantAdmin email).
Proof. unfold IsActiveTenantAdmin. case_decide; apply _. Qed.

Lemma on_db_coherent {A} (m : eff DB A) w : Reads m → coherent w → coherent (on_db m w).1.
Proof.
  intros Hm Hw. unfold on_db, zoom. destruct (m (tw_db w)) as [d r] eqn:Em. simpl.
  apply coherent_db; [by eapply Hm|done].
Qed.

Lemma run_tenant_call_coherent c w : coherent w → coherent (run_tenant_call c w).
Proof.
  intros Hw. destruct c as [|i id|i host| |domain|email|specs]; simpl;
    try (apply on_db_coherent; [apply _|done]).
  - intros j repo [Hj|[_ Hj]]%lookup_app_Some; [by apply (Hw j)|].
    apply list_lookup_singleton_Some in Hj as [_ <-]. split; intros ? ? H; simpl in H; by rewrite lookup_empty in H.
  - destruct (ResolveByID key i id w) eqn:Er. by apply ResolveByID_inv in Er as [? _].
  - destruct (ResolveByHost key i host w) eqn:Er. by apply ResolveByHost_inv in Er as [? _].
  - destruct (Bootstrap key Commit specs w) as [w' [[]|e]] eqn:Er; apply Bootstrap_inv in Er; simpl.
    + destruct Er as [Hr _]. intros j repo Hj. rewrite Hr, list_lookup_fmap in Hj.
      apply fmap_Some in Hj as (? & _ & ->). split; intros ? ? H; simpl in H; by rewrite lookup_empty in H.
    + destruct Er as [Hd Hr]. destruct w', w. simpl in *. subst. done.
Qed.

(** C7: the caches are invisible.  In a process that starts without repositories, after
    any calls (creating repositories, resolving by id and by host, listing, and
    bootstraps, successful or not, in any order), whatever a repository answers is what
    the tables hold at that moment: [ResolveByID] gives the tenant's row and its
    decrypted default profiles, and [ResolveByHost] those of the tenant the host is
    assigned to; the answer never comes from before a bootstrap. *)
Theorem caches_invisible (calls : list tenant_call) w i :
  tw_repos w = [] →
  let w' := foldl (λ w c, run_tenant_call c w) w calls in
  (∀ id w'' cfg, ResolveByID key i id w' = (w'', Ok cfg) →
     runtime_of (tw_db w') (TrimSpace id) = Some cfg ∧ tables (tw_db w'') = tables (tw_db w')) ∧
  (∀ host w'' cfg, ResolveByHost key i host w' = (w'', Ok cfg) →
     (∃ id, host_of (tw_db w') (normalizeHost host) = Some id ∧ runtime_of (tw_db w') id = Some cfg) ∧
     tables (tw_db w'') = tables (tw_db w')).
Proof.
  intros Hw w'. assert (coherent w') as Hc.
  { assert (coherent w) as H0 by (intros j repo Hj; by rewrite Hw in Hj). subst w'.
    clear Hw. revert w H0. induction calls as [|c calls IH]; intros w H0; [done|]. simpl.
    by apply IH, run_tenant_call_coherent. }
  split.
  - intros id w'' cfg (_ & Hs & H)%ResolveByID_inv; [|done]. by destruct (H cfg eq_refl).
  - intros host w'' cfg (_ & Hs & H)%ResolveByHost_inv; [|done]. destruct (H cfg eq_refl) as [_ ?]. done.
Qed.

(** * Bootstrap: what each step does to the tables *)
Definition others_than_domains d d' : Prop := tn d' = tn d ∧ ad d' = ad d ∧ em d' = em d ∧ sm d' = sm d.

Lemma upsert_domains_Ok tid isDefault hosts d d' :
  Forall (λ h, h ≠ ""%string) hosts → upsert_domains tid isDefault hosts d = (d', Ok ()) →
  others_than_domains d d' ∧ ∃ new, dm d' = dm d ++ new ∧ Forall (λ x, td_TenantID x = tid) new ∧
  (NoDup (td_Host <$> dm d) → NoDup (td_Host <$> dm d')) ∧
  ∀ host, host ∈ hosts → ∃ x, x ∈ dm d' ∧ td_Host x = host ∧ td_TenantID x = tid.
Proof.
  intros Hne. revert isDefault d. induction Hne as [|host hosts Hh Hne IH]; intros isDefault d; cbn [upsert_domains].
  { intros [= <-]. split; [done|]. exists []. rewrite app_nil_r. split_and!; [done|constructor|done|].
    by intros ? ?%elem_of_nil. }
  intros (d1 & [] & H1%map_err_Ok & H)%eff_bind_Ok. apply zoom_inv in H1 as (s1 & H1%CreateUnless_law & ->).
  apply eff_bind_Ok in H as (d2 & x & H2%map_err_Ok & H). apply zoom_inv in H2 as (s2 & [H2 [Hx Hp]]%Take_law & ->).
  apply eff_bind_Ok in H as (d3 & [] & Hg & H). injection Hg as <- Hg%guard_err_Ok. to_prop. simpl in *.
  apply whereField_eq in Hp; [|done].
  apply IH in H as [(? & ? & ? & ?) (new & Hnew & Hall & Hnd & Hin)].
  unfold others_than_domains, dm, tn, ad, em, sm in *. simpl in *. rewrite H2 in *. split; [by split_and!|].
  assert (∃ new0, rows s1 = rows (db_domains d) ++ new0 ∧ Forall (λ x, td_TenantID x = tid) new0 ∧
    (NoDup (td_Host <$> rows (db_domains d)) → NoDup (td_Host <$> rows s1))) as (new0 & Hs1 & Hall0 & Hnd0).
  { destruct (existsb _ _) in H1; [rewrite H1; exists []; rewrite app_nil_r; split_and!; [done|constructor|done]|].
    destruct H1 as (y & (id & c & u & -> & _ & Hf) & ->). eexists. split_and!; [done|by repeat constructor|].
    intros Hnd1. rewrite fmap_app. apply NoDup_app. split_and!; [done| |by apply NoDup_singleton].
    intros h (r & -> & Hr)%list_elem_of_fmap Hc%list_elem_of_singleton. simpl in Hc.
    rewrite Forall_forall in Hf. by destruct (Hf r Hr). }
  exists (new0 ++ new). rewrite Hnew, Hs1, <- app_assoc. split_and!; [done|by apply Forall_app| |].
  - intros Hd. rewrite app_assoc, <- Hs1, <- Hnew. auto.
  - intros h [->|Hh']%elem_of_cons; [|destruct (Hin h Hh') as (z & Hz & ?); exists z; by rewrite Hnew, Hs1, <- app_assoc in Hz].
    exists x. rewrite app_assoc, <- Hs1. split_and!; [apply elem_of_app; by left|done|done].
Qed.

Lemma upsertTenantAdmins_Ok tid admins d d' :
  upsertTenantAdmins tid admins d = (d', Ok ()) →
  tn d' = tn d ∧ dm d' = dm d ∧ em d' = em d ∧ sm d' = sm d ∧
  ∃ new, ad d' = ad d ++ new ∧ ((λ a, (ta_TenantID a, ta_Email a)) <$> new) = pair tid <$> normalizeAdminEmails admins.
Proof.
  unfold upsertTenantAdmins. generalize (normalizeAdminEmails admins) as emails. intros emails.
  revert d. induction emails as [|email emails IH]; intros d; cbn [for_each].
  { intros [= <-]. split_and!; [done..|]. exists []. by rewrite app_nil_r. }
  intros (d1 & [] & H1 & H)%eff_bind_Ok. apply eff_bind_Ok in H1 as (d0 & y & H1%map_err_Ok & [= <-]).
  apply zoom_inv in H1 as (s & H1%Create_law & ->). destruct H1 as [(id & c & u & -> & _) Hs].
  apply IH in H as (? & ? & ? & ? & new & Hnew & Hp). unfold tn, dm, em, sm, ad in *. simpl in *.
  rewrite Hs in Hnew. split_and!; [done..|]. eexists. rewrite Hnew, <- app_assoc. split; [done|]. csimpl. by rewrite Hp.
Qed.

Lemma with_env_inv {A} (m : eff DB A) (x x' : DB * E) r : with_env m x = (x', r) → m x.1 = (x'.1, r) ∧ x'.2 = x.2.
Proof. intros (v & H & ->)%zoom_inv. done. Qed.
Lemma with_db_inv {A} (m : eff E A) (x x' : DB * E) r : with_db m x = (x', r) → m x.2 = (x'.2, r) ∧ x'.1 = x.1.
Proof. intros (v & H & ->)%zoom_inv. done. Qed.

(** The rows a configured tenant should have. *)
Definition tenant_row (spec : BootstrapTenant) (t : Tenant) : Prop :=
  t_ID t = bt_ID spec ∧ t_DisplayName t = bt_DisplayName spec ∧ t_SupportEmail t = bt_SupportEmail spec ∧
  t_Status t = if disabled spec then TenantStatusSuspended else TenantStatusActive.
Definition email_row (spec : BootstrapTenant) (e : EmailProfile) : Prop :=
  ep_TenantID e = bt_ID spec ∧ ep_IsDefault e = true ∧ ep_Host e = be_Host (bt_EmailProfile spec) ∧
  ep_Port e = be_Port (bt_EmailProfile spec) ∧ ep_FromAddress e = be_FromAddress (bt_EmailProfile spec) ∧
  Decrypt key (ep_UsernameCipher e) = Ok (be_Username (bt_EmailProfile spec)) ∧
  Decrypt key (ep_PasswordCipher e) = Ok (be_Password (bt_EmailProfile spec)).
Definition sms_row (spec : BootstrapTenant) (sms : BootstrapSMSProfile) (p : SMSProfile) : Prop :=
  sp_TenantID p = bt_ID spec ∧ sp_IsDefault p = true ∧ sp_FromNumber p = bm_FromNumber sms ∧
  Decrypt key (sp_AccountSIDCipher p) = Ok (bm_AccountSID sms) ∧ Decrypt key (sp_AuthTokenCipher p) = Ok (bm_AuthToken sms).
Definition host_rows (spec : BootstrapTenant) (domains : list TenantDomain) : Prop :=
  ∀ host, host ∈ normalizeDomainHosts (bt_Domains spec) →
    ∃ x, x ∈ domains ∧ td_Host x = host ∧ td_TenantID x = bt_ID spec.

(** One configured tenant written over the tables. *)
Record upserted (spec : BootstrapTenant) d d' : Prop := {
  up_tenant : ∃ t, t ∈ tn d' ∧ tenant_row spec t;
  up_unique : NoDup (t_ID <$> tn d) → NoDup (t_ID <$> tn d');
  up_others : ∀ t, t_ID t ≠ bt_ID spec → t ∈ tn d ↔ t ∈ tn d';
  up_email : ∃ x, em d' ≡ₚ x :: em d ∧ email_row spec x;
  up_sms : match bt_SMSProfile spec with
           | None => sm d' = sm d
           | Some sms => ∃ p, sm d' ≡ₚ p :: sm d ∧ sms_row spec sms p
           end;
  up_hosts : host_rows spec (dm d');
  up_domains : ∃ new, dm d' = dm d ++ new ∧ Forall (λ x, td_TenantID x = bt_ID spec) new;
  up_hosts_unique : NoDup (td_Host <$> dm d) → NoDup (td_Host <$> dm d');
  up_admins : ∃ new, ad d' = ad d ++ new ∧
    ((λ a, (ta_TenantID a, ta_Email a)) <$> new) = pair (bt_ID spec) <$> normalizeAdminEmails (bt_Admins spec);
}.

(** An upsert of a row with this key. *)
Lemma upsert_rows (x : Tenant) (l l' : list Tenant) :
  (∃ y, if existsb (same_key x) l then touched l x y ∧ l' = (λ z, if same_key x z then y else z) <$> l
        else stored l x y ∧ l' = placed l y) →
  (∃ c u, t_stamp x c u ∈ l') ∧ (NoDup (t_ID <$> l) → NoDup (t_ID <$> l')) ∧ ∀ t, t_ID t ≠ t_ID x → t ∈ l ↔ t ∈ l'.
Proof.
  intros [y H]. destruct (existsb (same_key x) l) eqn:Ex.
  - destruct H as [(c & u & ->) ->]. apply existsb_exists in Ex as (z & Hz%list_elem_of_In & Hk). simpl in *.
    split_and!.
    + exists c, u. apply list_elem_of_fmap. exists z. by rewrite Hk.
    + assert (t_ID <$> ((λ z, if bool_decide (t_ID x = t_ID z) then t_stamp x c u else z) <$> l) = t_ID <$> l) as ->; [|done].
      rewrite <- list_fmap_compose. apply list_fmap_ext. intros ? r _. unfold compose. by destruct (bool_decide_reflect (t_ID x = t_ID r)).
    + intros t Ht. rewrite list_elem_of_fmap. split.
      * intros Hin. exists t. split; [|done]. by rewrite bool_decide_false.
      * intros (r & -> & Hr). by destruct (bool_decide_reflect (t_ID x = t_ID r)).
  - destruct H as [[(c & u & ->) Hf] ->]. simpl in *. rewrite Forall_forall in Hf. split_and!.
    + exists c, u. rewrite insert_by_perm. by left.
    + rewrite insert_by_perm. csimpl. intros Hnd. constructor; [|done].
      intros (r & Hr & Hin)%list_elem_of_fmap. by apply (Hf r Hin).
    + intros t Ht. rewrite insert_by_perm, elem_of_cons. split; [by right|]. intros [->|?]; [by destruct Ht|done].
Qed.

Lemma upsertTenant_Ok `{EL : !EnvironmentLaws E} spec (x x' : DB * E) :
  upsertTenant key spec x = (x', Ok ()) → upserted spec x.1 x'.1.
Proof.
  unfold upsertTenant. intros (x1 & [] & [= <- _] & H)%eff_bind_Ok.
  apply eff_bind_Ok in H as (x1 & [] & H1%map_err_Ok & H). apply with_env_inv in H1 as [H1 _].
  apply zoom_inv in H1 as (s1 & H1%Upsert_law & Hx1). apply upsert_rows in H1 as ((c & u & Ht) & Hnd & Hoth).
  apply eff_bind_Ok in H as (x2 & [] & H2 & H). apply with_env_inv in H2 as [H2 _].
  apply upsert_domains_Ok in H2 as [(A1 & A2 & A3 & A4) (newd & Hd & Hdall & Hdnd & Hhosts)].
  2: { apply Forall_forall. intros h [_ Hh]%list_elem_of_filter_bool. by to_prop. }
  apply eff_bind_Ok in H as (x3 & [] & H3 & H). apply with_env_inv in H3 as [H3 _].
  apply upsertTenantAdmins_Ok in H3 as (B1 & B2 & B3 & B4 & newa & Ha & Hap).
  apply eff_bind_Ok in H as (x4 & uc & H4 & H). apply with_db_inv in H4 as [H4 D4]. apply Encrypt_Decrypt in H4.
  apply eff_bind_Ok in H as (x5 & pc & H5 & H). apply with_db_inv in H5 as [H5 D5]. apply Encrypt_Decrypt in H5.
  apply eff_bind_Ok in H as (x6 & eid & H6 & H). apply with_db_inv in H6 as [_ D6].
  apply eff_bind_Ok in H as (x7 & y & H7%map_err_Ok & H). apply with_env_inv in H7 as [H7 _].
  apply zoom_inv in H7 as (s7 & H7%Create_law & Hx7). destruct H7 as [[(c7 & u7 & ->) _] Hem].
  assert (em x'.1 = em x7.1 ∧ tn x'.1 = tn x7.1 ∧ dm x'.1 = dm x7.1 ∧ ad x'.1 = ad x7.1 ∧
    match bt_SMSProfile spec with
    | None => sm x'.1 = sm x7.1
    | Some sms => ∃ p, sm x'.1 ≡ₚ p :: sm x7.1 ∧ sms_row spec sms p
    end) as (F1 & F2 & F3 & F4 & Hsms).
  { destruct (bt_SMSProfile spec) as [sms|]; [|by injection H as <-].
    apply eff_bind_Ok in H as (x8 & ac & H8 & H). apply with_db_inv in H8 as [H8 D8]. apply Encrypt_Decrypt in H8.
    apply eff_bind_Ok in H as (x9 & tc & H9 & H). apply with_db_inv in H9 as [H9 D9]. apply Encrypt_Decrypt in H9.
    apply eff_bind_Ok in H as (x10 & sid & H10 & H). apply with_db_inv in H10 as [_ D10].
    apply eff_bind_Ok in H as (x11 & q & H11%map_err_Ok & [= <-]). apply with_env_inv in H11 as [H11 _].
    apply zoom_inv in H11 as (s11 & H11%Create_law & Hx11). destruct H11 as [[(c11 & u11 & ->) _] Hsm].
    rewrite D10, D9, D8 in *. rewrite Hx11. unfold em, tn, dm, ad, sm. simpl in *. rewrite Hsm.
    split_and!; [done..|]. eexists. split; [apply insert_by_perm|]. by split_and!. }
  rewrite D6, D5, D4 in *. rewrite Hx7 in *. rewrite Hx1 in *. unfold em, tn, dm, ad, sm in *. simpl in *.
  split; unfold em, tn, dm, ad, sm; rewrite ?F1, ?F2, ?F3, ?F4.
  - exists (t_stamp (MkTenant (bt_ID spec) (bt_DisplayName spec) (bt_SupportEmail spec)
      (if disabled spec then TenantStatusSuspended else TenantStatusActive) zeroTime zeroTime) c u).
    rewrite B1, A1. by split_and!.
  - rewrite B1, A1. done.
  - intros t Hne. rewrite B1, A1. by apply Hoth.
  - eexists. rewrite Hem, B3, A3. split; [apply insert_by_perm|]. by split_and!.
  - rewrite B4, A4 in Hsms. done.
  - rewrite B2. exact Hhosts.
  - rewrite B2. eauto.
  - rewrite B2. done.
  - exists newa. rewrite Ha, A2. done.
Qed.

(** * Bootstrap: the tables afterwards *)
Definition has_sms (spec : BootstrapTenant) : bool := match bt_SMSProfile spec with Some _ => true | None => false end.
Definition admin_pairs (specs : list BootstrapTenant) : list (string * string) :=
  specs ≫= λ spec, pair (bt_ID spec) <$> normalizeAdminEmails (bt_Admins spec).

(** The tables hold exactly what these specifications say (of the tenants' table: at
    least). *)
Record provisioned (specs : list BootstrapTenant) d : Prop := {
  pv_unique : NoDup (t_ID <$> tn d);
  pv_tenants : ∀ spec, spec ∈ specs → ∃ t, t ∈ tn d ∧ tenant_row spec t;
  pv_email_owners : ep_TenantID <$> em d ≡ₚ bt_ID <$> specs;
  pv_emails : ∀ spec, spec ∈ specs → ∃ e, e ∈ em d ∧ email_row spec e;
  pv_sms_owners : sp_TenantID <$> sm d ≡ₚ bt_ID <$> List.filter has_sms specs;
  pv_sms : ∀ spec sms, spec ∈ specs → bt_SMSProfile spec = Some sms → ∃ p, p ∈ sm d ∧ sms_row spec sms p;
  pv_hosts_unique : NoDup (td_Host <$> dm d);
  pv_hosts : ∀ spec, spec ∈ specs → host_rows spec (dm d);
  pv_domain_owners : ∀ x, x ∈ dm d → td_TenantID x ∈ bt_ID <$> specs;
  pv_admins : (λ a, (ta_TenantID a, ta_Email a)) <$> ad d = admin_pairs specs;
}.

Lemma provisioned_step specs spec d d' :
  bt_ID spec ∉ bt_ID <$> specs → provisioned specs d → upserted spec d d' → provisioned (specs ++ [spec]) d'.
Proof.
  intros Hnew [H1 H2 H3 H4 H5 H6 H7 H8 H9 H10] [(t & Ht & Htr) U2 U3 (e & He & Her) U5 U6 (newd & Hd & Hda) U8 (newa & Ha & Hap)].
  split.
  - auto.
  - intros s [Hs| ->%list_elem_of_singleton]%elem_of_app; [|eauto].
    destruct (H2 s Hs) as (x & Hx & Hr). exists x. split; [|done]. apply U3; [|done].
    destruct Hr as (-> & _). intros Heq. destruct Hnew. rewrite <- Heq. by apply list_elem_of_fmap_2.
  - rewrite He, fmap_app. csimpl. destruct Her as (-> & _). rewrite H3. by rewrite (comm (++)).
  - intros s [Hs| ->%list_elem_of_singleton]%elem_of_app; [|exists e; rewrite He; split; [by left|done]].
    destruct (H4 s Hs) as (x & Hx & Hr). exists x. rewrite He. split; [by right|done].
  - rewrite List.filter_app, fmap_app. simpl. unfold has_sms at 2. destruct (bt_SMSProfile spec) as [sms|].
    + destruct U5 as (p & Hp & (Hpr & _)). rewrite Hp. csimpl. rewrite Hpr, H5. by rewrite (comm (++)).
    + rewrite U5, H5. by rewrite app_nil_r.
  - intros s sms [Hs| ->%list_elem_of_singleton]%elem_of_app Hsms.
    + destruct (H6 s sms Hs Hsms) as (p & Hp & Hr). exists p. split; [|done].
      destruct (bt_SMSProfile spec); [destruct U5 as (q & -> & _); by right|by rewrite U5].
    + rewrite Hsms in U5. destruct U5 as (p & Hp & Hr). exists p. rewrite Hp. split; [by left|done].
  - auto.
  - intros s [Hs| ->%list_elem_of_singleton]%elem_of_app host Hh; [|by apply U6].
    destruct (H8 s Hs host Hh) as (x & Hx & ? & ?). exists x. rewrite Hd, elem_of_app. split_and!; auto.
  - intros x. rewrite Hd, fmap_app, !elem_of_app. rewrite Forall_forall in Hda.
    intros [Hx|Hx]; [left; auto|right]. rewrite (Hda x Hx). by left.
  - rewrite Ha, fmap_app, H10, Hap. unfold admin_pairs. rewrite bind_app. simpl. by rewrite app_nil_r.
Qed.

Lemma upserts_provisioned `{EL : !EnvironmentLaws E} specs0 specs (x x' : DB * E) (ids : list string) :
  NoDup (bt_ID <$> specs0 ++ specs) → provisioned specs0 x.1 → (∀ t, t ∈ tn x.1 → t_ID t ∈ ids) →
  (∀ spec, spec ∈ specs → bt_ID spec ∈ ids) →
  for_each (upsertTenant key) specs x = (x', Ok ()) →
  provisioned (specs0 ++ specs) x'.1 ∧ ∀ t, t ∈ tn x'.1 → t_ID t ∈ ids.
Proof.
  revert specs0 x. induction specs as [|spec specs IH]; intros specs0 x Hnd Hp Hids Hall; cbn [for_each].
  { intros [= <-]. by rewrite app_nil_r. }
  intros (x1 & [] & H1%upsertTenant_Ok & H)%eff_bind_Ok.
  assert (bt_ID spec ∉ bt_ID <$> specs0) as Hnew.
  { rewrite fmap_app in Hnd. apply NoDup_app in Hnd as (_ & Hd & _). intros Hin. apply (Hd _ Hin). by left. }
  replace (specs0 ++ spec :: specs) with ((specs0 ++ [spec]) ++ specs) in * by by rewrite <- app_assoc.
  apply (IH (specs0 ++ [spec]) x1); [done|by eapply provisioned_step| | |done].
  - intros t Ht. destruct (decide (t_ID t = bt_ID spec)) as [->|Hne]; [apply Hall; by left|].
    apply Hids. by apply (up_others _ _ _ H1).
  - intros s Hs. apply Hall. by right.
Qed.

Lemma bootstrap_tables_Ok `{EL : !EnvironmentLaws E} specs (x x' : DB * E) :
  NoDup (t_ID <$> tn x.1) → NoDup (bt_ID <$> specs) → bootstrap_tables key specs x = (x', Ok ()) →
  provisioned specs x'.1 ∧ t_ID <$> tn x'.1 ≡ₚ bt_ID <$> specs.
Proof.
  intros Ht Hs. unfold bootstrap_tables. intros (x1 & [] & H1 & H)%eff_bind_Ok.
  apply with_env_inv in H1 as [(s1 & H1%Delete_law & E1)%map_err_Ok%zoom_inv _].
  apply eff_bind_Ok in H as (x2 & [] & H2 & H). apply with_env_inv in H2 as [(s2 & H2%Delete_law & E2)%map_err_Ok%zoom_inv _].
  apply eff_bind_Ok in H as (x3 & [] & H3 & H). apply with_env_inv in H3 as [(s3 & H3%Delete_law & E3)%map_err_Ok%zoom_inv _].
  apply eff_bind_Ok in H as (x4 & [] & H4 & H). apply with_env_inv in H4 as [(s4 & H4%Delete_law & E4)%map_err_Ok%zoom_inv _].
  apply eff_bind_Ok in H as (x5 & [] & H5 & H). apply with_env_inv in H5 as [(s5 & H5%Delete_law & E5)%map_err_Ok%zoom_inv _].
  rewrite E4, E3, E2, E1 in *. simpl in *.
  assert (∀ {A} (l : list A), List.filter (λ _, negb true) l = []) as Hnil by (intros A l; by induction l).
  rewrite Hnil in H1; rewrite Hnil in H2; rewrite Hnil in H3; rewrite Hnil in H4.
  assert (provisioned [] x5.1) as Hp0.
  { split; unfold tn, dm, ad, em, sm; rewrite E5; simpl; rewrite ?H1, ?H2, ?H3, ?H4; try done;
      try (by intros ? ?%elem_of_nil); try (by intros ? ? ?%elem_of_nil); try constructor.
    rewrite H5. by apply NoDup_filter_fmap. }
  destruct (upserts_provisioned [] specs x5 x' (bt_ID <$> specs)) as [Hp Hids]; [done|done| | |done|].
  - unfold tn. rewrite E5. simpl. rewrite H5. intros t [_ Hin]%list_elem_of_filter_bool.
    unfold tenantIDNotInClause in Hin. by to_prop.
  - intros spec. apply list_elem_of_fmap_2.
  - split; [done|]. apply NoDup_Permutation; [apply (pv_unique _ _ Hp)|done|]. intros id. split.
    + intros (t & -> & Hin)%list_elem_of_fmap. by apply Hids.
    + intros (s & -> & Hin)%list_elem_of_fmap. destruct (pv_tenants _ _ Hp s Hin) as (t & Htn & <- & _).
      by apply list_elem_of_fmap_2.
Qed.

(** The runtime configuration that a specification describes. *)
Definition runtime_for (spec : BootstrapTenant) (cfg : RuntimeConfig) : Prop :=
  let email := bt_EmailProfile spec in
  tenant_row spec (rc_Tenant cfg) ∧
  rc_Email cfg = MkEmailCredentials (be_Host email) (be_Port email) (be_Username email) (be_Password email)
                   (be_FromAddress email) ∧
  rc_SMS cfg = (λ sms, MkSMSCredentials (bm_AccountSID sms) (bm_AuthToken sms) (bm_FromNumber sms)) <$> bt_SMSProfile spec.

Lemma provisioned_runtime specs spec d :
  NoDup (bt_ID <$> specs) → provisioned specs d → spec ∈ specs → bt_ID spec ≠ ""%string →
  ∃ cfg, runtime_of d (bt_ID spec) = Some cfg ∧ runtime_for spec cfg.
Proof.
  intros Hnd Hp Hin Hne. destruct (pv_tenants _ _ Hp spec Hin) as (t & Ht & Htr).
  destruct (pv_emails _ _ Hp spec Hin) as (e & He & Eid & Edef & Eh & Epo & Ef & Eu & Epw).
  assert (List.find (λ t, whereField (t_ID t) (bt_ID spec)) (tn d) = Some t) as F1.
  { apply find_unique; [done|rewrite <- (proj1 Htr); apply whereField_refl|].
    intros y Hy Hw%whereField_eq; [|done]. apply (NoDup_fmap_inj_on t_ID (tn d)); [apply (pv_unique _ _ Hp)|done..|].
    rewrite Hw. symmetry. apply Htr. }
  assert (List.find (λ e, whereField (ep_TenantID e) (bt_ID spec) && ep_IsDefault e) (em d) = Some e) as F2.
  { apply find_unique; [done|rewrite Edef, <- Eid, whereField_refl; done|].
    intros y Hy [Hw%whereField_eq _]%andb_true_iff; [|done].
    apply (NoDup_fmap_inj_on ep_TenantID (em d)); [by rewrite (pv_email_owners _ _ Hp)|done..|congruence]. }
  assert (sms_of d (bt_ID spec) = Some ((λ sms, MkSMSCredentials (bm_AccountSID sms) (bm_AuthToken sms) (bm_FromNumber sms))
    <$> bt_SMSProfile spec)) as F3.
  { unfold sms_of. destruct (bt_SMSProfile spec) as [sms|] eqn:Es.
    - destruct (pv_sms _ _ Hp spec sms Hin Es) as (p & Hpin & Pid & Pdef & Pf & Pa & Pt).
      rewrite (find_unique _ _ p); [by rewrite Pa, Pt, Pf|done|rewrite Pdef, <- Pid, whereField_refl; done|].
      intros y Hy [Hw%whereField_eq _]%andb_true_iff; [|done].
      apply (NoDup_fmap_inj_on sp_TenantID (sm d)); [|done..|congruence].
      rewrite (pv_sms_owners _ _ Hp). by apply NoDup_filter_fmap.
    - destruct (List.find _ (sm d)) as [p|] eqn:Ef'; [|done]. exfalso.
      apply find_Some_spec in Ef' as [Hpin [Hw%whereField_eq _]%andb_true_iff]; [|done].
      assert (bt_ID spec ∈ bt_ID <$> List.filter has_sms specs) as Hc.
      { rewrite <- (pv_sms_owners _ _ Hp), <- Hw. by apply list_elem_of_fmap_2. }
      apply list_elem_of_fmap in Hc as (s & Hs & [Hsin Hsms]%list_elem_of_filter_bool).
      assert (s = spec) as -> by by eapply NoDup_fmap_inj_on. unfold has_sms in Hsms. by rewrite Es in Hsms. }
  eexists. split; [unfold runtime_of; rewrite F1; simpl; rewrite F2; simpl; rewrite F3, Eu, Epw; reflexivity|].
  split_and!; [done| |done]. simpl. congruence.
Qed.

Lemma provisioned_host specs spec d host :
  provisioned specs d → spec ∈ specs → host ∈ normalizeDomainHosts (bt_Domains spec) →
  host_of d host = Some (bt_ID spec).
Proof.
  intros Hp Hin Hh. destruct (pv_hosts _ _ Hp spec Hin host Hh) as (x & Hx & <- & Hid).
  apply list_elem_of_filter_bool in Hh as [_ Hne]. to_prop. unfold host_of.
  rewrite (find_unique _ _ x); [simpl; by rewrite Hid|done|apply whereField_refl|].
  intros y Hy Hw%whereField_eq; [|done]. by apply (NoDup_fmap_inj_on td_Host (dm d)); [apply (pv_hosts_unique _ _ Hp)|..].
Qed.

Lemma prepare_given specs (e : E) :
  Forall (λ spec, TrimSpace (bt_ID spec) ≠ ""%string) specs →
  prepareBootstrapTenants specs e = (e, (λ spec, with_ID spec (TrimSpace (bt_ID spec))) <$> specs).
Proof.
  induction 1 as [|spec specs Hne _ IH]; [done|]. simpl. rewrite decide_False by done. rewrite IH. done.
Qed.

Lemma resolve_loaded `{RT : !Reliable ST Tenant} `{RE : !Reliable SE EmailProfile} `{RS : !Reliable SS SMSProfile}
    i id w cfg :
  coherent w → runtime_of (tw_db w) id = Some cfg → ∃ w', runtimeConfig key i id w = (w', Ok cfg).
Proof.
  intros Hw Hr. unfold runtimeConfig, cachedRuntimeConfig.
  destruct (runtimeCache (repo_at w i) !! id) as [c|] eqn:Ec; simpl.
  - apply (repo_at_coherent w i) in Ec; [|done]. rewrite Hr in Ec. injection Ec as <-.
    rewrite cloneRuntimeConfig_id. eauto.
  - destruct (loadRuntimeConfig_complete id (tw_db w) cfg Hr) as (d & Hd).
    eexists. apply eff_bind_Ok. exists (MkTenantWorld d (tw_env w) (tw_repos w)), cfg.
    split; [unfold on_db, zoom; by rewrite Hd|]. by rewrite cloneRuntimeConfig_id.
Qed.

Lemma resolve_host_loaded `{RT : !Reliable ST Tenant} `{RD : !Reliable SD TenantDomain}
    `{RE : !Reliable SE EmailProfile} `{RS : !Reliable SS SMSProfile} i host id w cfg :
  coherent w → normalizeHost host ≠ ""%string → host_of (tw_db w) (normalizeHost host) = Some id →
  runtime_of (tw_db w) id = Some cfg → ∃ w', ResolveByHost key i host w = (w', Ok cfg).
Proof.
  intros Hw Hne Hh Hr. unfold ResolveByHost, cachedTenantID. rewrite decide_False by done.
  destruct (domainTenantCache (repo_at w i) !! normalizeHost host) as [c|] eqn:Ec.
  - apply (repo_at_coherent w i) in Ec; [|done]. rewrite Hh in Ec. injection Ec as <-. by apply resolve_loaded.
  - apply fmap_Some in Hh as (x & Hx & ->).
    destruct (zoom_First_found db_domains (λ x d, MkDB (db_tenants d) x (db_admins d) (db_emails d) (db_sms d)) _ _ _ Hx)
      as (d & Hd). pose proof (reads_domains _ _ _ _ Hd) as Ht.
    destruct (resolve_loaded i (td_TenantID x) (MkTenantWorld d (tw_env w) (tw_repos w)) cfg) as (w1 & H1).
    { by apply coherent_db. } { simpl. by rewrite (runtime_of_ext _ _ _ Ht). }
    eexists. apply eff_bind_Ok. exists (MkTenantWorld d (tw_env w) (tw_repos w)), x.
    split; [apply map_err_Ok; unfold on_db; unfold zoom at 1; by unfold on_tenant_domains; rewrite Hd|].
    by rewrite (eff_bind_run _ _ _ _ _ H1).
Qed.


(** * The directory: which tenants a person may see *)
Lemma ListActiveTenants_inv d d' r :
  ListActiveTenants d = (d', r) → tables d' = tables d ∧
  ∀ l, r = Ok l → ∀ t, t ∈ l ↔ t ∈ tn d ∧ t_Status t = TenantStatusActive.
Proof.
  intros H. split; [apply (reads _ _ _ H)|]. intros l ->. apply map_err_Ok in H.
  apply zoom_inv in H as (s & [_ (l0 & Hl & _ & ->)]%FindOrdered_law & _). intros t. simpl. rewrite Hl.
  rewrite list_elem_of_filter_bool. unfold whereField. simpl. by rewrite bool_decide_eq_true.
Qed.

Lemma ListActiveTenantsByDomain_inv domain d d' r :
  ListActiveTenantsByDomain domain d = (d', r) → tables d' = tables d ∧
  ∀ l, r = Ok l → ∀ t, t ∈ l ↔ t ∈ tn d ∧ t_Status t = TenantStatusActive ∧
    ∃ x, x ∈ dm d ∧ td_TenantID x = t_ID t ∧ td_Host x = normalizeHost domain.
Proof.
  clear Commit. intros H. split; [apply (reads _ _ _ H)|]. intros l ->. apply map_err_Ok in H.
  apply zoom_inv in H as (s & (_ & _ & Hl)%JoinOrdered_law & _). intros t. rewrite Hl, elem_of_joined.
  unfold activeTenantDomainJoinClause, is_active. setoid_rewrite andb_true_iff. setoid_rewrite andb_true_iff.
  setoid_rewrite bool_decide_eq_true. unfold tn, dm. naive_solver.
Qed.

Lemma IsActiveTenantAdmin_inv email d d' r :
  IsActiveTenantAdmin email d = (d', r) → tables d' = tables d ∧
  ∀ b, r = Ok b → b = true ↔ normalizeAdminEmail email ≠ ""%string ∧
    ∃ t a, t ∈ tn d ∧ t_Status t = TenantStatusActive ∧ a ∈ ad d ∧ ta_TenantID a = t_ID t ∧
      ta_Email a = normalizeAdminEmail email.
Proof.
  clear Commit. intros H. split; [apply (reads _ _ _ H)|]. intros b ->. unfold IsActiveTenantAdmin in H.
  case_decide as Hne; [injection H as _ <-; naive_solver|].
  apply eff_bind_Ok in H as (d1 & n & H%map_err_Ok & [= _ <-]).
  apply zoom_inv in H as (s & (_ & _ & ->)%JoinCount_law & _). rewrite Z.ltb_lt. simpl.
  set (l := joined _ _ _). assert (0 < Z.of_nat (length l) ↔ ∃ t, t ∈ l) as ->.
  { destruct l as [|t l]; simpl; [|split; [by exists t; left|lia]]. split; [lia|by intros (t & ?%elem_of_nil)]. }
  subst l. setoid_rewrite elem_of_joined. unfold activeTenantAdminJoinClause, is_active.
  setoid_rewrite andb_true_iff. setoid_rewrite andb_true_iff. setoid_rewrite bool_decide_eq_true.
  unfold tn, ad. naive_solver.
Qed.

(** * Hosts and ports *)
Lemma normalizeHost_no_port host : ":"%char ∉ explode (normalizeHost host).
Proof.
  unfold normalizeHost. case_decide; [apply not_elem_of_nil|].
  destruct (Contains (ToLower (TrimSpace host)) ":") eqn:Ec.
  - unfold Split. destruct (split_b_head ":" (explode (ToLower (TrimSpace host)))) as (w & ws & -> & Hw).
    csimpl. by rewrite explode_implode.
  - intros Hin%contains_char. congruence.
Qed.

(** A domain configured with a port is never found.  Ports are dropped from the host of
    a request but kept in the configured domains: when all domains of a tenant have one, no
    request host, with or without a port, resolves to that tenant. *)
Theorem domain_with_port_unreachable id i host w w' cfg :
  coherent w → (∀ x, x ∈ dm (tw_db w) → td_TenantID x ≠ ""%string) →
  (∀ x, x ∈ dm (tw_db w) → td_TenantID x = id → ":"%char ∈ explode (td_Host x)) →
  ResolveByHost key i host w = (w', Ok cfg) → rc_TenantID cfg ≠ id.
Proof.
  intros Hw Hown Hport (_ & _ & H)%ResolveByHost_inv Hid; [|done]. destruct (H cfg eq_refl) as (Hne & id' & Hh & Hr).
  apply fmap_Some in Hh as (x & [Hx Hp]%find_Some_spec & ->). apply whereField_eq in Hp; [|done].
  apply (normalizeHost_no_port host). rewrite <- Hp. apply Hport; [done|].
  rewrite <- Hid. by apply (runtime_of_tenant _ _ _ Hr), Hown.
Qed.
End proofs.

(** * Witnesses: tables in memory *)
Definition next_ID {A} (id : A → Z) (l : list A) : Z := 1 + foldr Z.max 0 (id <$> l).
Lemma next_ID_pos {A} (id : A → Z) l : 0 < next_ID id l.
Proof. unfold next_ID. assert (0 ≤ foldr Z.max 0 (id <$> l)); [|lia]. induction l; csimpl; lia. Qed.

Definition tenants_insert (l : list Tenant) (t : Tenant) : result Tenant :=
  unique_or l (λ r, bool_decide (t_ID r = t_ID t)) (t_stamp t 5 5).
Definition tenants_touch (_ : list Tenant) (t : Tenant) : result Tenant := Ok (t_stamp t 5 6).
Definition domains_insert (l : list TenantDomain) (d : TenantDomain) : result TenantDomain :=
  unique_or l (λ r, (td_ID r =? next_ID td_ID l) || bool_decide (td_Host r = td_Host d)) (td_stamp d (next_ID td_ID l) 5 5).
Definition domains_touch (l : list TenantDomain) (d : TenantDomain) : result TenantDomain :=
  unique_or l (λ r, negb (td_ID r =? td_ID d) && bool_decide (td_Host r = td_Host d)) (td_stamp d (td_ID d) 5 6).
Definition admins_insert (l : list TenantAdmin) (a : TenantAdmin) : result TenantAdmin :=
  unique_or l (λ r, (ta_ID r =? next_ID ta_ID l)
    || bool_decide ((ta_TenantID r, ta_Email r) = (ta_TenantID a, ta_Email a))) (ta_stamp a (next_ID ta_ID l) 5 5).
Definition admins_touch (l : list TenantAdmin) (a : TenantAdmin) : result TenantAdmin :=
  unique_or l (λ r, negb (ta_ID r =? ta_ID a)
    && bool_decide ((ta_TenantID r, ta_Email r) = (ta_TenantID a, ta_Email a))) (ta_stamp a (ta_ID a) 5 6).
Definition emails_insert (l : list EmailProfile) (e : EmailProfile) : result EmailProfile :=
  unique_or l (λ r, bool_decide (ep_ID r = ep_ID e)) (ep_stamp e 5 5).
Definition emails_touch (_ : list EmailProfile) (e : EmailProfile) : result EmailProfile := Ok (ep_stamp e 5 6).
Definition sms_insert (l : list SMSProfile) (p : SMSProfile) : result SMSProfile :=
  unique_or l (λ r, bool_decide (sp_ID r = sp_ID p)) (sp_stamp p 5 5).
Definition sms_touch (_ : list SMSProfile) (p : SMSProfile) : result SMSProfile := Ok (sp_stamp p 5 6).

(** Forall of a clash that did not happen, as propositions. *)
Ltac no_clash :=
  match goal with H : Forall _ ?l |- Forall _ ?l => eapply Forall_impl; [exact H|]; intros ? Hr; cbv beta in Hr end.

Lemma tenants_insert_ok s x y : tenants_insert s x = Ok y → stored s x y.
Proof. intros [-> H]%unique_or_Ok. split; [eauto|]. no_clash. by to_prop. Qed.
Lemma tenants_touch_ok s x y : tenants_touch s x = Ok y → touched s x y.
Proof. intros [= <-]. simpl. eauto. Qed.
Lemma domains_insert_ok s x y : domains_insert s x = Ok y → stored s x y.
Proof.
  intros [-> H]%unique_or_Ok. do 3 eexists. split; [done|]. split; [apply next_ID_pos|]. no_clash. to_prop. by split.
Qed.
Lemma domains_touch_ok s x y : domains_touch s x = Ok y → touched s x y.
Proof.
  intros [-> H]%unique_or_Ok. split; [eauto|]. no_clash. intros Hne. rewrite (proj2 (Z.eqb_neq _ _) Hne) in Hr. simpl in Hr. by to_prop.
Qed.
Lemma admins_insert_ok s x y : admins_insert s x = Ok y → stored s x y.
Proof.
  intros [-> H]%unique_or_Ok. do 3 eexists. split; [done|]. split; [apply next_ID_pos|]. no_clash. to_prop. by split.
Qed.
Lemma admins_touch_ok s x y : admins_touch s x = Ok y → touched s x y.
Proof.
  intros [-> H]%unique_or_Ok. split; [eauto|]. no_clash. intros Hne. rewrite (proj2 (Z.eqb_neq _ _) Hne) in Hr. simpl in Hr. by to_prop.
Qed.
Lemma emails_insert_ok s x y : emails_insert s x = Ok y → stored s x y.
Proof. intros [-> H]%unique_or_Ok. split; [eauto|]. no_clash. by to_prop. Qed.
Lemma emails_touch_ok s x y : emails_touch s x = Ok y → touched s x y.
Proof. intros [= <-]. simpl. eauto. Qed.
Lemma sms_insert_ok s x y : sms_insert s x = Ok y → stored s x y.
Proof. intros [-> H]%unique_or_Ok. split; [eauto|]. no_clash. by to_prop. Qed.
Lemma sms_touch_ok s x y : sms_touch s x = Ok y → touched s x y.
Proof. intros [= <-]. simpl. eauto. Qed.

Module TenantTables.
#[export] Instance tenants : Table (list Tenant) Tenant := list_table tenants_insert tenants_touch.
#[export] Instance domains : Table (list TenantDomain) TenantDomain := list_table domains_insert domains_touch.
#[export] Instance admins : Table (list TenantAdmin) TenantAdmin := list_table admins_insert admins_touch.
#[export] Instance emails : Table (list EmailProfile) EmailProfile := list_table emails_insert emails_touch.
#[export] Instance sms : Table (list SMSProfile) SMSProfile := list_table sms_insert sms_touch.
#[export] Instance tenants_laws : TableLaws (list Tenant) Tenant := list_table_laws _ _ tenants_insert_ok tenants_touch_ok.
#[export] Instance domains_laws : TableLaws (list TenantDomain) TenantDomain := list_table_laws _ _ domains_insert_ok domains_touch_ok.
#[export] Instance admins_laws : TableLaws (list TenantAdmin) TenantAdmin := list_table_laws _ _ admins_insert_ok admins_touch_ok.
#[export] Instance emails_laws : TableLaws (list EmailProfile) EmailProfile := list_table_laws _ _ emails_insert_ok emails_touch_ok.
#[export] Instance sms_laws : TableLaws (list SMSProfile) SMSProfile := list_table_laws _ _ sms_insert_ok sms_touch_ok.
#[export] Instance tenants_upserts : Upserts (list Tenant) Tenant := list_upserts tenants_insert tenants_touch.
#[export] Instance domains_upserts : Upserts (list TenantDomain) TenantDomain := list_upserts domains_insert domains_touch.
#[export] Instance tenants_upsert_laws : UpsertLaws (list Tenant) Tenant := list_upsert_laws _ _ tenants_insert_ok tenants_touch_ok.
#[export] Instance domains_upsert_laws : UpsertLaws (list TenantDomain) TenantDomain := list_upsert_laws _ _ domains_insert_ok domains_touch_ok.
#[export] Instance joins_domains : Joins (list Tenant) Tenant (list TenantDomain) TenantDomain := list_joins.
#[export] Instance joins_admins : Joins (list Tenant) Tenant (list TenantAdmin) TenantAdmin := list_joins.
#[export] Instance joins_domains_laws : JoinLaws (list Tenant) Tenant (list TenantDomain) TenantDomain := list_join_laws _ _ _ _.
#[export] Instance joins_admins_laws : JoinLaws (list Tenant) Tenant (list TenantAdmin) TenantAdmin := list_join_laws _ _ _ _.
#[export] Instance tenants_reliable : Reliable (list Tenant) Tenant := list_table_reliable _ _.
#[export] Instance domains_reliable : Reliable (list TenantDomain) TenantDomain := list_table_reliable _ _.
#[export] Instance emails_reliable : Reliable (list EmailProfile) EmailProfile := list_table_reliable _ _.
#[export] Instance sms_reliable : Reliable (list SMSProfile) SMSProfile := list_table_reliable _ _.
End TenantTables.
Import TenantTables.
#[local] Existing Instance ascii_unicode.
#[local] Existing Instance plain_crypto.
#[local] Existing Instance counter_env.
#[local] Existing Instance counter_env_laws.

Definition memory_db : Type :=
  tenant_db (list Tenant) (list TenantDomain) (list TenantAdmin) (list EmailProfile) (list SMSProfile).
Definition memory_key : string := "0123456789abcdef0123456789abcdef".
Definition memory_commit (_ : memory_db) : result unit := Ok ().

(** One stale tenant, then two configured ones: the second is disabled and has a domain
    with a port. *)
Definition empty_world : tenant_world memory_db Z :=
  MkTenantWorld (MkDB [MkTenant "old" "Old" "" TenantStatusActive 0 0] [] [] [] []) 0 [].
Definition acme : BootstrapTenant :=
  MkBootstrapTenant " acme " "Acme" "help@acme.org" None "" ["Acme.org"; "acme.net"]%string ["Boss@acme.org"%string]
    (MkBootstrapEmail "smtp.acme.org" 587 "user" "secret" "noreply@acme.org") (Some (MkBootstrapSMS "AC1" "tok" "+1")).
Definition beta : BootstrapTenant :=
  MkBootstrapTenant "beta" "Beta" "" (Some false) "" ["beta.org:8080"%string] []
    (MkBootstrapEmail "smtp.beta.org" 465 "b" "pw" "b@beta.org") None.
Definition started : tenant_world memory_db Z := (NewRepository empty_world).1.
Definition booted : tenant_world memory_db Z := (Bootstrap memory_key memory_commit [acme; beta] started).1.

Example booted_tables :
  Bootstrap memory_key memory_commit [acme; beta] started = (booted, Ok ()) ∧
  (t_ID <$> tn (tw_db booted)) = ["acme"; "beta"]%string ∧ (td_Host <$> dm (tw_db booted)) = ["acme.org"; "acme.net"; "beta.org:8080"]%string.
Proof. vm_compute. done. Qed.

Lemma caches_invisible_witness :
  let w := foldl (λ w c, run_tenant_call memory_key memory_commit c w) empty_world
    [CallNewRepository; CallBootstrap [acme; beta]; CallResolveByHost 0 "acme.net:443"] in
  ∃ w' cfg, ResolveByID memory_key 0 "acme" w = (w', Ok cfg) ∧ runtime_of memory_key (tw_db w) "acme" = Some cfg.
Proof.
  intros w. destruct (ResolveByID memory_key 0 "acme" w) as [w' [cfg|e]] eqn:Er.
  - exists w', cfg. split; [reflexivity|].
    destruct (caches_invisible memory_key memory_commit
      [CallNewRepository; CallBootstrap [acme; beta]; CallResolveByHost 0 "acme.net:443"] empty_world 0 eq_refl) as [H _].
    exact (proj1 (H "acme"%string w' cfg Er)).
  - vm_compute in Er. discriminate.
Defined.


Lemma domain_with_port_unreachable_witness :
  (td_Host <$> filter (λ x, td_TenantID x = "beta"%string) (dm (tw_db booted))) = ["beta.org:8080"]%string ∧
  ∃ w' cfg, ResolveByHost memory_key 0 "acme.org:8080" booted = (w', Ok cfg) ∧ rc_TenantID cfg ≠ "beta"%string.
Proof.
  split; [vm_compute; reflexivity|].
  destruct (ResolveByHost memory_key 0 "acme.org:8080" booted) as [w' [cfg|e]] eqn:E; [|vm_compute in E; discriminate].
  exists w', cfg. split; [reflexivity|].
  apply (domain_with_port_unreachable memory_key "beta" 0 "acme.org:8080" booted w' cfg); [| | |exact E].
  - intros i repo Hi. vm_compute in Hi. destruct i; [injection Hi as <-|discriminate].
    split; intros ? ? H; vm_compute in H; discriminate.
  - apply Forall_forall. vm_compute. repeat constructor; discriminate.
  - assert (Forall (λ x, td_TenantID x = "beta"%string → ":"%char ∈ explode (td_Host x)) (dm (tw_db booted))) as H;
      [|intros x Hx; rewrite Forall_forall in H; exact (H x Hx)].
    vm_compute. repeat constructor; intros; try discriminate.
Defined.
