(* ===== verification/Config.v ===== *)
(** The server's configuration (src/internal/config/config.go): environment
    expansion, the YAML file's sections, their normalisation, and validation.

    Files and environment variables are the class [Host], read only.  The YAML
    library is the class [Yaml]: it turns a text into the sections of the file and
    the node of [tenants], and decodes that node's two shapes; what the code does
    with the node is translated.  [loadConfigFromPath_inv] says what a loaded
    configuration guarantees, [expand_exact] what expansion does. *)
From S2P Require Import Prelude GoStrings Tenant.
Open Scope Z_scope.

Class Host := {
  os_LookupEnv : string → option string;
  os_ReadFile : string → result string;
  os_Stat : string → bool;
}.

(** * [os.Expand] *)
Definition isShellSpecialVar (c : ascii) : bool :=
  bool_decide (c ∈ explode "*#$@!?-") || between 48 57 c.
Definition isAlphaNum (c : ascii) : bool :=
  bool_decide (c = "_"%char) || between 48 57 c || between 97 122 c || between 65 90 c.
Fixpoint take_while (p : ascii → bool) (l : list ascii) : list ascii :=
  match l with [] => [] | c :: l => if p c then c :: take_while p l else [] end.

(** The text from a brace to its closing one, and the bytes it takes. *)
Definition braced_name (s : list ascii) : list ascii * nat :=
  let name := take_while (λ c, negb (bool_decide (c = "}"%char))) s in
  if decide (length name = length s) then ([], 1%nat) else
  if decide (name = []) then ([], 2%nat) else (name, (length name + 2)%nat).

(** [getShellName]: the name after a dollar and how many bytes it takes. *)
Definition getShellName (s : list ascii) : list ascii * nat :=
  match s with
  | [] => ([], 0%nat)
  | c :: t =>
      if decide (c = "{"%char) then
        match t with
        | d :: e :: _ =>
            if isShellSpecialVar d && bool_decide (e = "}"%char) then ([d], 3%nat) else braced_name t
        | _ => braced_name t
        end
      else if isShellSpecialVar c then ([c], 1%nat)
      else let name := take_while isAlphaNum s in (name, length name)
  end.

(** [os.Expand] with a mapping that keeps a state; [skip] bytes are the rest of a
    name that was expanded. *)
Fixpoint os_Expand {S} (mapping : string → S → string * S) (skip : nat) (l : list ascii) (st : S) : list ascii * S :=
  match l with
  | [] => ([], st)
  | c :: t =>
      match skip with
      | S skip => os_Expand mapping skip t st
      | O =>
          if bool_decide (c = "$"%char) && negb (bool_decide (t = [])) then
            let '(name, w) := getShellName t in
            let '(piece, st) :=
              if decide (name = []) then ((if decide (w = 0%nat) then ["$"%char] else []), st)
              else let '(value, st) := mapping (implode name) st in (explode value, st) in
            let '(rest, st) := os_Expand mapping w t st in
            (piece ++ rest, st)
          else
            let '(rest, st) := os_Expand mapping 0 t st in (c :: rest, st)
      end
  end.

(** [strings.Join] *)
Fixpoint Join (elems : list string) (sep : string) : string :=
  match elems with [] => "" | [s] => s | s :: elems => s ++ sep ++ Join elems sep end.

Section expand.
Context `{O : Host}.

(** The mapping's state: [missing], which lists what [seenMissing] holds. *)
Definition lookup_or_note (key : string) (missing : list string) : string * list string :=
  match os_LookupEnv key with
  | Some value => (value, missing)
  | None => (""%string, if decide (key ∈ missing) then missing else missing ++ [key])
  end.

Definition ExpandConfigEnvironment (contents : string) : result string :=
  let '(expanded, missing) := os_Expand lookup_or_note 0 (explode contents) [] in
  if decide (missing = []) then Ok (implode expanded) else
  Err (Text "configuration: missing environment variables: %s" [FStr (Join (sort_strings missing) ", ")]).
End expand.

(** * The file *)
Record tauthSection := MkTAuth { ta_SigningKey : string; ta_CookieName : string }.
Record serverSection := MkServerSection {
  sv_DatabasePath : string;
  sv_GRPCAuthToken : string;
  sv_LogLevel : string;
  sv_MaxRetries : Z;
  sv_RetryIntervalSec : Z;
  sv_MasterEncryptionKey : string;
  sv_ConnectionTimeout : Z;
  sv_OperationTimeout : Z;
  sv_TAuth : tauthSection;
}.
Record webSection := MkWebSection {
  wb_Enabled : option bool;
  wb_ListenAddr : string;
  wb_AllowedOrigins : list string;
  wb_TrustedProxies : list string;
}.
Record smtpSubmissionRelaySection := MkRelaySection {
  rl_Host : string;
  rl_Port : Z;
  rl_Username : string;
  rl_Password : string;
}.
Record smtpSubmissionSection := MkSubmissionSection {
  ss_Enabled : bool;
  ss_Hostname : string;
  ss_ListenAddr : string;
  ss_TLSListenAddr : string;
  ss_TLSCertPath : string;
  ss_TLSKeyPath : string;
  ss_PublicPort : Z;
  ss_PublicSecurityMode : string;
  ss_DeliveryMode : string;
  ss_MaxMessageBytes : Z;
  ss_MaxRecipients : Z;
  ss_AllowInsecureAuth : bool;
  ss_Relay : smtpSubmissionRelaySection;
}.
(** The same four fields with the same names. *)
Definition smtpForwardingRelaySection : Type := smtpSubmissionRelaySection.
Record smtpForwardingSection := MkForwardingSection {
  sf_Enabled : bool;
  sf_Hostname : string;
  sf_ListenAddr : string;
  sf_MaxMessageBytes : Z;
  sf_MaxRecipients : Z;
  sf_Relay : smtpForwardingRelaySection;
}.
Record tenantConfig := MkTenantConfig { tc_ConfigPath : string; tc_Tenants : list BootstrapTenant }.
Record fileConfig := MkFileConfig {
  fc_Server : serverSection;
  fc_Web : webSection;
  fc_SMTPSubmission : smtpSubmissionSection;
  fc_SMTPForwarding : smtpForwardingSection;
  fc_Tenants : tenantConfig;
}.

(** What the YAML library makes of a file, unknown fields refused, before the
    type of [tenants] unmarshals its own node ([None]: absent or null). *)
Record document := MkDocument {
  doc_Server : serverSection;
  doc_Web : webSection;
  doc_SMTPSubmission : smtpSubmissionSection;
  doc_SMTPForwarding : smtpForwardingSection;
  doc_Tenants : option yaml_node;
}.
Class Yaml := {
  yaml_Decode : string → result document;
  yaml_Decode_list : yaml_node → result (list BootstrapTenant);
  yaml_Decode_mapping : yaml_node → result tenantConfig;
  yaml_Unmarshal_bootstrap : string → result (list BootstrapTenant);
}.

Definition firstUnknownYAMLMappingKey (value : yaml_node) (allowedKeys : list string) : string :=
  default ""%string (List.find (λ key, negb (bool_decide (key ∈ allowedKeys))) (mapping_keys (node_Content value))).

Section unmarshal.
Context `{Y : Yaml}.
Definition tenantConfig_UnmarshalYAML (value : option yaml_node) : result tenantConfig :=
  match value with
  | None => Ok (MkTenantConfig "" [])
  | Some node =>
      match node_Kind node with
      | SequenceNode =>
          match yaml_Decode_list node with
          | Err e => Err (Wrapf "configuration: parse tenants: %w" [] e)
          | Ok tenants => Ok (MkTenantConfig "" tenants)
          end
      | MappingNode =>
          let unknownKey := firstUnknownYAMLMappingKey node ["configPath"; "tenants"]%string in
          guard_err (negb (bool_decide (unknownKey = ""%string)))
            (Text "configuration: tenants.%s is not supported" [FStr unknownKey]);;
          match yaml_Decode_mapping node with
          | Err e => Err (Wrapf "configuration: parse tenants: %w" [] e)
          | Ok decoded => Ok (MkTenantConfig (TrimSpace (tc_ConfigPath decoded)) (tc_Tenants decoded))
          end
      | OtherNode => Err (Text "configuration: tenants must be a list" [])
      end
  end.

(** [decoder.Decode(&fileCfg)]: the library calls the method for a node that is there. *)
Definition decode_fileConfig (contents : string) : result fileConfig :=
  doc ← yaml_Decode contents;
  tenants ← tenantConfig_UnmarshalYAML (doc_Tenants doc);
  Ok (MkFileConfig (doc_Server doc) (doc_Web doc) (doc_SMTPSubmission doc) (doc_SMTPForwarding doc) tenants).
End unmarshal.

(** * The configuration *)
Record SMTPRelayConfig := MkRelayConfig { rel_Host : string; rel_Port : Z; rel_Username : string; rel_Password : string }.
Record SMTPSubmissionConfig := MkSubmissionConfig {
  sb_Enabled : bool;
  sb_Hostname : string;
  sb_ListenAddr : string;
  sb_TLSListenAddr : string;
  sb_TLSCertPath : string;
  sb_TLSKeyPath : string;
  sb_PublicPort : Z;
  sb_PublicSecurityMode : string;
  sb_DeliveryMode : string;
  sb_MaxMessageBytes : Z;
  sb_MaxRecipients : Z;
  sb_AllowInsecureAuth : bool;
  sb_Relay : SMTPRelayConfig;
}.
Record SMTPForwardingConfig := MkForwardingConfig {
  fw_Enabled : bool;
  fw_Hostname : string;
  fw_ListenAddr : string;
  fw_MaxMessageBytes : Z;
  fw_MaxRecipients : Z;
  fw_Relay : SMTPRelayConfig;
}.
Record Config := MkConfig {
  DatabasePath : string;
  GRPCAuthToken : string;
  LogLevel : string;
  MaxRetries : Z;
  RetryIntervalSec : Z;
  MasterEncryptionKey : string;
  TenantConfigPath : string;
  TenantBootstrap : list BootstrapTenant;
  WebInterfaceEnabled : bool;
  HTTPListenAddr : string;
  HTTPAllowedOrigins : list string;
  HTTPTrustedProxies : list string;
  SMTPSubmission : SMTPSubmissionConfig;
  SMTPForwarding : SMTPForwardingConfig;
  TAuthSigningKey : string;
  TAuthCookieName : string;
  SMTPUsername : string;
  SMTPPassword : string;
  SMTPHost : string;
  SMTPPort : Z;
  FromEmail : string;
  TwilioAccountSID : string;
  TwilioAuthToken : string;
  TwilioFromNumber : string;
  ConnectionTimeoutSec : Z;
  OperationTimeoutSec : Z;
}.

Definition TwilioConfigured (c : Config) : bool :=
  negb (bool_decide (TwilioAccountSID c = ""%string)) && negb (bool_decide (TwilioAuthToken c = ""%string))
  && negb (bool_decide (TwilioFromNumber c = ""%string)).

Definition normalizeStrings (values : list string) : list string :=
  List.filter (λ candidate, negb (bool_decide (candidate = ""%string))) (TrimSpace <$> values).
Definition countNonEmptyStrings (values : list string) : Z :=
  foldl (λ count value, if bool_decide (TrimSpace value = ""%string) then count else count + 1) 0 values.

(** * Validation: each check appends to [errors] *)
Definition requireString (value name : string) (errors : list string) : list string :=
  if bool_decide (TrimSpace value = ""%string) then errors ++ ["missing " ++ name]%string else errors.
Definition requirePositive (value : Z) (name : string) (errors : list string) : list string :=
  if value <=? 0 then errors ++ ["missing " ++ name]%string else errors.
Definition requirePositiveInt64 (value : Z) (name : string) (errors : list string) : list string :=
  if value <=? 0 then errors ++ ["missing " ++ name]%string else errors.
(** [if b { errors = append(errors, message) }] *)
Definition reject_if (b : bool) (message : string) (errors : list string) : list string :=
  if b then errors ++ [message] else errors.

Section load.
Context `{U : Unicode}.

Definition normalizeSMTPDeliveryMode (value : string) : string :=
  let normalized := ToLower (TrimSpace value) in
  if bool_decide (normalized = ""%string) then "upstream" else normalized.

Definition validate_submission (sub : SMTPSubmissionConfig) (errors : list string) : list string :=
  let errors := requireString (sb_Hostname sub) "smtpSubmission.hostname" errors in
  let errors := reject_if (bool_decide (TrimSpace (sb_ListenAddr sub) = ""%string)
                           && bool_decide (TrimSpace (sb_TLSListenAddr sub) = ""%string))
                  "missing smtpSubmission.listenAddr or smtpSubmission.tlsListenAddr" errors in
  let errors := requirePositiveInt64 (sb_MaxMessageBytes sub) "smtpSubmission.maxMessageBytes" errors in
  let errors := requirePositive (sb_MaxRecipients sub) "smtpSubmission.maxRecipients" errors in
  let deliveryMode := normalizeSMTPDeliveryMode (sb_DeliveryMode sub) in
  let errors :=
    if bool_decide (deliveryMode = "upstream"%string) then
      let errors := requireString (rel_Host (sb_Relay sub)) "smtpSubmission.relay.host" errors in
      let errors := requirePositive (rel_Port (sb_Relay sub)) "smtpSubmission.relay.port" errors in
      let errors := requireString (rel_Username (sb_Relay sub)) "smtpSubmission.relay.username" errors in
      requireString (rel_Password (sb_Relay sub)) "smtpSubmission.relay.password" errors
    else if bool_decide (deliveryMode = "direct"%string) then errors
    else errors ++ ["smtpSubmission.deliveryMode must be upstream or direct"]%string in
  let errors := reject_if (sb_PublicPort sub <? 0) "smtpSubmission.publicPort must be positive" errors in
  let mode := sb_PublicSecurityMode sub in
  let errors := reject_if (negb (bool_decide (mode = ""%string)) && negb (bool_decide (mode = "starttls"%string))
                           && negb (bool_decide (mode = "ssl"%string)))
                  "smtpSubmission.publicSecurityMode must be starttls or ssl" errors in
  if negb (sb_AllowInsecureAuth sub) then
    let errors := requireString (sb_TLSCertPath sub) "smtpSubmission.tlsCertPath" errors in
    requireString (sb_TLSKeyPath sub) "smtpSubmission.tlsKeyPath" errors
  else errors.

Definition validate_forwarding (fw : SMTPForwardingConfig) (errors : list string) : list string :=
  let errors := requireString (fw_Hostname fw) "smtpForwarding.hostname" errors in
  let errors := requireString (fw_ListenAddr fw) "smtpForwarding.listenAddr" errors in
  let errors := requirePositiveInt64 (fw_MaxMessageBytes fw) "smtpForwarding.maxMessageBytes" errors in
  let errors := requirePositive (fw_MaxRecipients fw) "smtpForwarding.maxRecipients" errors in
  let errors := requireString (rel_Host (fw_Relay fw)) "smtpForwarding.relay.host" errors in
  let errors := requirePositive (rel_Port (fw_Relay fw)) "smtpForwarding.relay.port" errors in
  let errors := requireString (rel_Username (fw_Relay fw)) "smtpForwarding.relay.username" errors in
  requireString (rel_Password (fw_Relay fw)) "smtpForwarding.relay.password" errors.

Fixpoint validate_bootstrap (idx : Z) (tenants : list BootstrapTenant) (errors : list string) : list string :=
  match tenants with
  | [] => errors
  | tenantSpec :: tenants =>
      let tenantPrefix := ("tenants[" ++ pretty idx ++ "]")%string in
      let errors := requireString (TrimSpace (bt_DisplayName tenantSpec)) (tenantPrefix ++ ".displayName") errors in
      let errors := reject_if (countNonEmptyStrings (bt_Domains tenantSpec) =? 0)
                      ("missing " ++ tenantPrefix ++ ".domains") errors in
      validate_bootstrap (idx + 1) tenants errors
  end.

Definition validateConfig (cfg : Config) : result unit :=
  let errors := requireString (DatabasePath cfg) "server.databasePath" [] in
  let errors := requireString (GRPCAuthToken cfg) "server.grpcAuthToken" errors in
  let errors := requireString (LogLevel cfg) "server.logLevel" errors in
  let errors := requirePositive (MaxRetries cfg) "server.maxRetries" errors in
  let errors := requirePositive (RetryIntervalSec cfg) "server.retryIntervalSec" errors in
  let errors := requireString (MasterEncryptionKey cfg) "server.masterEncryptionKey" errors in
  let errors := if bool_decide (length (TenantBootstrap cfg) = 0%nat)
                then requireString (TenantConfigPath cfg) "tenants.configPath" errors else errors in
  let errors := requirePositive (ConnectionTimeoutSec cfg) "server.connectionTimeoutSec" errors in
  let errors := requirePositive (OperationTimeoutSec cfg) "server.operationTimeoutSec" errors in
  let errors := if WebInterfaceEnabled cfg then
                  let errors := requireString (HTTPListenAddr cfg) "web.listenAddr" errors in
                  requireString (TAuthSigningKey cfg) "server.tauth.signingKey" errors
                else errors in
  let errors := if sb_Enabled (SMTPSubmission cfg) then validate_submission (SMTPSubmission cfg) errors else errors in
  let errors := if fw_Enabled (SMTPForwarding cfg) then validate_forwarding (SMTPForwarding cfg) errors else errors in
  let errors := validate_bootstrap 0 (TenantBootstrap cfg) errors in
  if decide (errors = []) then Ok () else Err (Text "configuration errors: %s" [FStr (Join errors ", ")]).

(** * Loading *)
Definition relay_config (r : smtpSubmissionRelaySection) : SMTPRelayConfig :=
  MkRelayConfig (TrimSpace (rl_Host r)) (rl_Port r) (TrimSpace (rl_Username r)) (TrimSpace (rl_Password r)).

Definition submission_config (sub : smtpSubmissionSection) : SMTPSubmissionConfig :=
  MkSubmissionConfig (ss_Enabled sub) (TrimSpace (ss_Hostname sub)) (TrimSpace (ss_ListenAddr sub))
    (TrimSpace (ss_TLSListenAddr sub)) (TrimSpace (ss_TLSCertPath sub)) (TrimSpace (ss_TLSKeyPath sub))
    (ss_PublicPort sub) (ToLower (TrimSpace (ss_PublicSecurityMode sub)))
    (normalizeSMTPDeliveryMode (ss_DeliveryMode sub)) (ss_MaxMessageBytes sub) (ss_MaxRecipients sub)
    (ss_AllowInsecureAuth sub) (relay_config (ss_Relay sub)).
Definition forwarding_config (fw : smtpForwardingSection) : SMTPForwardingConfig :=
  MkForwardingConfig (sf_Enabled fw) (TrimSpace (sf_Hostname fw)) (TrimSpace (sf_ListenAddr fw))
    (sf_MaxMessageBytes fw) (sf_MaxRecipients fw) (relay_config (sf_Relay fw)).

(** The composite literal of [loadConfigFromPath] and the web interface's defaults
    after it. *)
Definition configuration_of (f : fileConfig) : Config :=
  let webEnabled := match wb_Enabled (fc_Web f) with Some b => b | None => true end in
  let sv := fc_Server f in
  let cookie := TrimSpace (ta_CookieName (sv_TAuth sv)) in
  MkConfig (TrimSpace (sv_DatabasePath sv)) (TrimSpace (sv_GRPCAuthToken sv)) (TrimSpace (sv_LogLevel sv))
    (sv_MaxRetries sv) (sv_RetryIntervalSec sv) (TrimSpace (sv_MasterEncryptionKey sv))
    (TrimSpace (tc_ConfigPath (fc_Tenants f))) (tc_Tenants (fc_Tenants f))
    webEnabled (TrimSpace (wb_ListenAddr (fc_Web f)))
    (if webEnabled then normalizeStrings (wb_AllowedOrigins (fc_Web f)) else [])
    (if webEnabled then normalizeStrings (wb_TrustedProxies (fc_Web f)) else [])
    (submission_config (fc_SMTPSubmission f)) (forwarding_config (fc_SMTPForwarding f))
    (if webEnabled then TrimSpace (ta_SigningKey (sv_TAuth sv)) else "")
    (if webEnabled then (if bool_decide (cookie = ""%string) then "app_session" else cookie) else "")
    "" "" "" 0 "" "" "" "" (sv_ConnectionTimeout sv) (sv_OperationTimeout sv).

Context `{O : Host} `{Y : Yaml}.
Definition loadConfigFromPath (configPath : string) : result Config :=
  rawContents ← match os_ReadFile configPath with
                | Ok contents => Ok contents
                | Err e => Err (Wrapf "configuration: read %s: %w" [FStr configPath] e)
                end;
  expanded ← ExpandConfigEnvironment rawContents;
  fileCfg ← match decode_fileConfig expanded with
            | Ok f => Ok f
            | Err e => Err (Wrapf "configuration: parse yaml: %w" [] e)
            end;
  let configuration := configuration_of fileCfg in
  validateConfig configuration;;
  Ok configuration.

Definition defaultConfigPath : string := "configs/config.yml".
Definition defaultConfigPaths : list string := [defaultConfigPath; "/config/config.yml"%string].
Definition defaultConfigFilePath : string :=
  default defaultConfigPath (List.find os_Stat defaultConfigPaths).
Definition LoadConfig : result Config := loadConfigFromPath defaultConfigFilePath.
End load.

(** * Expansion *)

(** A text written with references [${NAME}]. *)
Inductive piece := Lit (l : list ascii) | Ref (name : string).
Definition print_piece (p : piece) : list ascii :=
  match p with Lit l => l | Ref name => "$"%char :: "{"%char :: explode name ++ ["}"%char] end.
Definition well_formed (p : piece) : Prop :=
  match p with Lit l => "$"%char ∉ l | Ref name => name ≠ ""%string ∧ "}"%char ∉ explode name end.
Definition reference (p : piece) : option string := match p with Lit _ => None | Ref name => Some name end.

Lemma take_while_app p l r : Forall (λ c, p c = true) l → take_while p (l ++ r) = l ++ take_while p r.
Proof. induction 1 as [|c l Hc _ IH]; [done|]. simpl. by rewrite Hc, IH. Qed.

Lemma getShellName_ref name rest :
  name ≠ ""%string → "}"%char ∉ explode name →
  getShellName ("{"%char :: explode name ++ "}"%char :: rest) = (explode name, (length (explode name) + 2)%nat).
Proof.
  intros Hne Hn. rewrite <- explode_nil in Hne.
  assert (braced_name (explode name ++ "}"%char :: rest) = (explode name, (length (explode name) + 2)%nat)) as Hb.
  { unfold braced_name. rewrite take_while_app.
    - simpl. rewrite app_nil_r, length_app. simpl. rewrite decide_False by lia. by rewrite decide_False.
    - apply Forall_forall. intros c Hc. apply negb_true_iff, bool_decide_eq_false. by intros ->. }
  unfold getShellName. rewrite decide_True by done.
  destruct (explode name) as [|d [|e l]]; [done|..]; simpl in *.
  - case_match; [done|exact Hb].
  - rewrite (bool_decide_eq_false_2 (e = _)); [by rewrite andb_false_r|]. intros ->. set_solver.
Qed.

Lemma os_Expand_skip {S} (f : string → S → string * S) l r st :
  os_Expand f (length l) (l ++ r) st = os_Expand f 0 r st.
Proof. induction l; [done|]. simpl. done. Qed.

Lemma os_Expand_lit {S} (f : string → S → string * S) l r st :
  "$"%char ∉ l → os_Expand f 0 (l ++ r) st = let '(rest, st) := os_Expand f 0 r st in (l ++ rest, st).
Proof.
  intros Hl. induction l as [|c l IH]; simpl; [by destruct (os_Expand f 0 r st)|].
  rewrite (bool_decide_eq_false_2 (c = _)) by set_solver. simpl.
  rewrite IH by set_solver. by destruct (os_Expand f 0 r st).
Qed.

Lemma os_Expand_ref {S} (f : string → S → string * S) name r st :
  well_formed (Ref name) →
  os_Expand f 0 (print_piece (Ref name) ++ r) st =
    let '(value, st) := f name st in let '(rest, st) := os_Expand f 0 r st in (explode value ++ rest, st).
Proof.
  intros [Hne Hn]. set (body := "{"%char :: explode name ++ ["}"%char]).
  change (print_piece (Ref name) ++ r) with ("$"%char :: (body ++ r)).
  assert (getShellName (body ++ r) = (explode name, length body)) as Hg.
  { replace (body ++ r) with ("{"%char :: explode name ++ "}"%char :: r).
    - rewrite getShellName_ref by done. f_equal. unfold body. cbn [length]. rewrite length_app. simpl. lia.
    - unfold body. cbn [app]. by rewrite <- app_assoc. }
  cbn [os_Expand]. rewrite (bool_decide_eq_true_2 ("$"%char = "$"%char)) by done.
  rewrite bool_decide_eq_false_2 by done. cbn [andb negb].
  rewrite Hg, decide_False by (by rewrite explode_nil). rewrite implode_explode.
  destruct (f name st) as [value st1]. by rewrite os_Expand_skip.
Qed.

Section expand_spec.
Context `{O : Host}.
Definition piece_value (p : piece) : list ascii :=
  match p with Lit l => l | Ref name => explode (default ""%string (os_LookupEnv name)) end.
Definition unset (ps : list piece) (name : string) : Prop := Ref name ∈ ps ∧ os_LookupEnv name = None.

(** One pass: the values in place of the references, and the names that are not set,
    once each, after those already noted. *)
Lemma expand_pieces ps missing :
  Forall well_formed ps → NoDup missing →
  ∃ missing', os_Expand lookup_or_note 0 (ps ≫= print_piece) missing = (ps ≫= piece_value, missing') ∧
    NoDup missing' ∧ ∀ name, name ∈ missing' ↔ name ∈ missing ∨ unset ps name.
Proof.
  intros Hps. revert missing. induction Hps as [|p ps Hp _ IH]; intros missing Hm; rewrite ?bind_cons.
  - exists missing. split_and!; [done..|]. unfold unset. set_solver.
  - destruct p as [l|name].
    + destruct (IH missing Hm) as (m' & E & Hm' & Hin). exists m'.
      change (print_piece (Lit l)) with l. rewrite os_Expand_lit, E by done. split_and!; [done..|]. intros name. rewrite Hin. unfold unset. set_solver.
    + rewrite (os_Expand_ref _ _ _ _ Hp). unfold lookup_or_note at 1, piece_value at 1.
      destruct (os_LookupEnv name) as [value|] eqn:Ev.
      * destruct (IH missing Hm) as (m' & E & Hm' & Hin). exists m'. rewrite E. split_and!; [done..|].
        intros n. rewrite Hin. unfold unset. rewrite elem_of_cons. naive_solver congruence.
      * set (m1 := if decide (name ∈ missing) then missing else missing ++ [name]).
        assert (NoDup m1 ∧ ∀ n, n ∈ m1 ↔ n ∈ missing ∨ n = name) as [Hnd Hm1].
        { unfold m1. case_decide; [split; [done|]; naive_solver|].
          split; [apply NoDup_app; split_and!; [done|set_solver|apply NoDup_singleton]|]. set_solver. }
        destruct (IH m1 Hnd) as (m' & E & Hm' & Hin). exists m'. rewrite E. split_and!; [done..|].
        intros n. rewrite Hin, Hm1. unfold unset. rewrite elem_of_cons. naive_solver congruence.
Qed.

End expand_spec.

(** * What validation accepts *)
Definition given (s : string) : Prop := TrimSpace s ≠ ""%string.
#[export] Instance given_dec s : Decision (given s).
Proof. unfold given. apply _. Defined.
Lemma given_trim s : given (TrimSpace s) ↔ given s.
Proof. unfold given. by rewrite TrimSpace_idem. Qed.

Definition relay_ok (r : SMTPRelayConfig) : Prop :=
  given (rel_Host r) ∧ 0 < rel_Port r ∧ given (rel_Username r) ∧ given (rel_Password r).
Definition submission_ok `{U : Unicode} (sub : SMTPSubmissionConfig) : Prop :=
  given (sb_Hostname sub) ∧ (given (sb_ListenAddr sub) ∨ given (sb_TLSListenAddr sub)) ∧
  0 < sb_MaxMessageBytes sub ∧ 0 < sb_MaxRecipients sub ∧
  (normalizeSMTPDeliveryMode (sb_DeliveryMode sub) = "upstream"%string ∧ relay_ok (sb_Relay sub) ∨
   normalizeSMTPDeliveryMode (sb_DeliveryMode sub) = "direct"%string) ∧
  0 ≤ sb_PublicPort sub ∧ sb_PublicSecurityMode sub ∈ [""; "starttls"; "ssl"]%string ∧
  (sb_AllowInsecureAuth sub = false → given (sb_TLSCertPath sub) ∧ given (sb_TLSKeyPath sub)).
Definition forwarding_ok (fw : SMTPForwardingConfig) : Prop :=
  given (fw_Hostname fw) ∧ given (fw_ListenAddr fw) ∧ 0 < fw_MaxMessageBytes fw ∧ 0 < fw_MaxRecipients fw ∧
  relay_ok (fw_Relay fw).
Definition tenant_ok (t : BootstrapTenant) : Prop := given (bt_DisplayName t) ∧ Exists given (bt_Domains t).
Definition config_ok `{U : Unicode} (cfg : Config) : Prop :=
  (given (DatabasePath cfg) ∧ given (GRPCAuthToken cfg) ∧ given (LogLevel cfg) ∧ 0 < MaxRetries cfg ∧
   0 < RetryIntervalSec cfg ∧ given (MasterEncryptionKey cfg) ∧
   0 < ConnectionTimeoutSec cfg ∧ 0 < OperationTimeoutSec cfg) ∧
  (TenantBootstrap cfg = [] → given (TenantConfigPath cfg)) ∧
  (WebInterfaceEnabled cfg = true → given (HTTPListenAddr cfg) ∧ given (TAuthSigningKey cfg)) ∧
  (sb_Enabled (SMTPSubmission cfg) = true → submission_ok (SMTPSubmission cfg)) ∧
  (fw_Enabled (SMTPForwarding cfg) = true → forwarding_ok (SMTPForwarding cfg)) ∧
  Forall tenant_ok (TenantBootstrap cfg).

Lemma requireString_nil v n e : requireString v n e = [] ↔ e = [] ∧ given v.
Proof.
  unfold requireString, given. case_bool_decide; [|naive_solver].
  split; [by intros []%app_nil|by intros [_ []]].
Qed.
Lemma requirePositive_nil v n e : requirePositive v n e = [] ↔ e = [] ∧ 0 < v.
Proof.
  unfold requirePositive. destruct (Z.leb_spec v 0); [|naive_solver].
  split; [by intros []%app_nil|intros [_ ?]; lia].
Qed.
Lemma requirePositiveInt64_nil v n e : requirePositiveInt64 v n e = [] ↔ e = [] ∧ 0 < v.
Proof. apply requirePositive_nil. Qed.
Lemma reject_if_nil b m e : reject_if b m e = [] ↔ e = [] ∧ b = false.
Proof. destruct b; simpl; [split; [by intros []%app_nil|by intros [_ [=]]]|naive_solver]. Qed.
Lemma check_if_nil (b : bool) (e1 e : list string) P :
  (e1 = [] ↔ e = [] ∧ P) → (if b then e1 else e) = [] ↔ e = [] ∧ (b = true → P).
Proof. destruct b; naive_solver. Qed.

Lemma count_from (values : list string) n :
  foldl (λ count value, if bool_decide (TrimSpace value = ""%string) then count else count + 1) n values
  = n + countNonEmptyStrings values ∧ 0 ≤ countNonEmptyStrings values.
Proof.
  unfold countNonEmptyStrings. revert n. induction values as [|v values IH]; intros n; simpl; [lia|].
  rewrite (proj1 (IH (if bool_decide (TrimSpace v = ""%string) then n else n + 1))).
  rewrite (proj1 (IH (if bool_decide (TrimSpace v = ""%string) then 0 else 0 + 1))).
  pose proof (proj2 (IH 0)). destruct (bool_decide _); lia.
Qed.
Lemma count_zero values : countNonEmptyStrings values = 0 ↔ ¬ Exists given values.
Proof.
  induction values as [|v values IH]; [rewrite Exists_nil; split; [by intros _ []|done]|]. rewrite Exists_cons.
  unfold countNonEmptyStrings. simpl. rewrite (proj1 (count_from _ _)).
  pose proof (proj2 (count_from values 0)). unfold given at 1. case_bool_decide.
  - rewrite Z.add_0_l, IH. tauto.
  - split; [lia|tauto].
Qed.

Lemma validate_bootstrap_nil idx ts e : validate_bootstrap idx ts e = [] ↔ e = [] ∧ Forall tenant_ok ts.
Proof.
  revert idx e. induction ts as [|t ts IH]; intros idx e; simpl; [naive_solver|].
  rewrite IH, reject_if_nil, requireString_nil, given_trim, Forall_cons. unfold tenant_ok.
  rewrite Z.eqb_neq, count_zero. assert (Decision (Exists given (bt_Domains t))) by apply _.
  destruct (decide (Exists given (bt_Domains t))); tauto.
Qed.

Lemma validate_submission_nil `{U : Unicode} sub e : validate_submission sub e = [] ↔ e = [] ∧ submission_ok sub.
Proof.
  unfold validate_submission, submission_ok.
  erewrite check_if_nil by (rewrite !requireString_nil; symmetry; apply and_assoc).
  rewrite !reject_if_nil, negb_true_iff, Z.ltb_ge, !andb_false_iff, !negb_false_iff, !bool_decide_eq_true,
    !elem_of_cons, elem_of_nil.
  set (e1 := requirePositive (sb_MaxRecipients sub) _ _).
  assert (e1 = [] ↔ e = [] ∧ given (sb_Hostname sub) ∧ (given (sb_ListenAddr sub) ∨ given (sb_TLSListenAddr sub)) ∧
    0 < sb_MaxMessageBytes sub ∧ 0 < sb_MaxRecipients sub) as H1.
  { unfold e1. rewrite requirePositive_nil, requirePositiveInt64_nil, reject_if_nil, requireString_nil.
    rewrite andb_false_iff, !bool_decide_eq_false. unfold given. tauto. }
  case_bool_decide as Hu.
  - rewrite !requireString_nil, requirePositive_nil, !requireString_nil, H1. unfold relay_ok. rewrite Hu.
    assert ("upstream"%string ≠ "direct"%string) by done. tauto.
  - case_bool_decide as Hd; [rewrite H1; tauto|].
    assert (¬ e1 ++ ["smtpSubmission.deliveryMode must be upstream or direct"%string] = []) by (by intros []%app_nil).
    tauto.
Qed.

Lemma validate_forwarding_nil fw e : validate_forwarding fw e = [] ↔ e = [] ∧ forwarding_ok fw.
Proof.
  unfold validate_forwarding, forwarding_ok, relay_ok.
  rewrite !requireString_nil, !requirePositive_nil, !requireString_nil, requirePositive_nil, requirePositiveInt64_nil,
    !requireString_nil. tauto.
Qed.

Lemma validateConfig_Ok `{U : Unicode} cfg u : validateConfig cfg = Ok u ↔ config_ok cfg.
Proof.
  unfold validateConfig. destruct u. set (e := validate_bootstrap _ _ _).
  assert (e = [] ↔ config_ok cfg) as He; [|rewrite <- He; by case_decide].
  unfold e, config_ok. rewrite validate_bootstrap_nil.
  erewrite check_if_nil by apply validate_forwarding_nil.
  erewrite check_if_nil by apply validate_submission_nil.
  erewrite (check_if_nil (WebInterfaceEnabled cfg)) by (rewrite !requireString_nil; symmetry; apply and_assoc).
  rewrite !requirePositive_nil.
  erewrite (check_if_nil (bool_decide (length (TenantBootstrap cfg) = 0%nat))) by apply requireString_nil.
  rewrite requireString_nil, !requirePositive_nil, !requireString_nil, bool_decide_eq_true, length_zero_iff_nil. tauto.
Qed.

(** What a loaded configuration comes from. *)
Lemma loadConfigFromPath_inv `{U : Unicode} `{O : Host} `{Y : Yaml} path cfg :
  loadConfigFromPath path = Ok cfg ↔
  ∃ raw contents f, os_ReadFile path = Ok raw ∧ ExpandConfigEnvironment raw = Ok contents ∧
    decode_fileConfig contents = Ok f ∧ cfg = configuration_of f ∧ config_ok cfg.
Proof.
  unfold loadConfigFromPath. rewrite bind_Ok. split.
  - intros (raw & Hr & (contents & Hx & (f & Hf & (u & Hv & [= <-])%bind_Ok)%bind_Ok)%bind_Ok).
    exists raw, contents, f. apply validateConfig_Ok in Hv.
    destruct (os_ReadFile path); [|done]. destruct (decode_fileConfig contents); [|done]. naive_solver.
  - intros (raw & contents & f & Hr & Hx & Hf & -> & Hv). exists raw. rewrite Hr. split; [done|].
    rewrite Hx. simpl. rewrite Hf. simpl. by rewrite (proj2 (validateConfig_Ok _ ()) Hv).
Qed.

(** * Witness: a host in memory *)
Definition demo_host : Host := {|
  os_LookupEnv name := if decide (name = "TOKEN"%string) then Some "s3cret"%string else None;
  os_ReadFile path :=
    if decide (path = "a.yml"%string) then Ok "${TOKEN}"%string else
    if decide (path = "b.yml"%string) then Ok "b"%string else Err (New "no such file");
  os_Stat path := bool_decide (path = "a.yml"%string);
|}.

