(* ===== verification/Doctor.v ===== *)
(** The configuration doctor (src/internal/doctor/doctor.go): validation of
    configuration files with a report, and of several files against each other.

    The doctor reads the same file with types of its own that mirror the server's,
    so here they are the same records; its checks are translated from its own code.
    [doctor_agrees] compares the two: what the doctor calls valid is what the server
    loads, and more. *)
From S2P Require Import Prelude GoStrings Strconv Tenant Config.
Open Scope Z_scope.

Definition reportSchemaVersion : string := "pinguin.doctor.v1".
Definition errDoctor : error := New "doctor.invalid".

Record DiagnosticResult := MkDiagnostic {
  dg_ConfigPath : string;
  dg_Valid : bool;
  dg_Errors : list string;
  dg_Warnings : list string;
  dg_TenantIDs : list string;
}.
Record serviceInfo := MkServiceInfo { si_Name : string; si_Version : string }.
Record reportSummary := MkSummary {
  TotalConfigs : Z;
  ValidConfigs : Z;
  InvalidConfigs : Z;
  TotalErrors : Z;
  TotalWarnings : Z;
}.
Record crossValidation := MkCross { cv_Performed : bool; cv_Errors : list string; cv_Warnings : list string }.
Record Report := MkReport {
  rp_SchemaVersion : string;
  rp_Timestamp : string;
  rp_Service : serviceInfo;
  rp_Summary : reportSummary;
  rp_Diagnostics : list DiagnosticResult;
  rp_CrossValidation : crossValidation;
}.
Record Options := MkOptions {
  ConfigPaths : list string;
  ValidateCrossConfigs : bool;
  ExpandEnv : bool;
}.

(** The mirrored file structure: the fields and their names in the file are those
    of config.go. *)
Definition pinguinServer : Type := serverSection.
Definition pinguinWeb : Type := webSection.
Definition pinguinTAuth : Type := tauthSection.
Definition pinguinSMTPSubmission : Type := smtpSubmissionSection.
Definition pinguinSMTPRelay : Type := smtpSubmissionRelaySection.
Definition pinguinSMTPForwarding : Type := smtpForwardingSection.
Record pinguinYAMLNode := MkYAMLNode { yn_ConfigPath : string; yn_Tenants : list BootstrapTenant; yn_Raw : option yaml_node }.
Record pinguinConfig := MkPinguinConfig {
  pc_Server : pinguinServer;
  pc_Web : pinguinWeb;
  pc_SMTPSubmission : pinguinSMTPSubmission;
  pc_SMTPForwarding : pinguinSMTPForwarding;
  pc_Tenants : pinguinYAMLNode;
}.

Definition firstUnsupportedTenantMappingKey (value : yaml_node) (allowedKeys : list string) : string :=
  default ""%string (List.find (λ key, negb (bool_decide (key ∈ allowedKeys))) (mapping_keys (node_Content value))).

Section decode.
Context `{Y : Yaml}.
Definition pinguinYAMLNode_UnmarshalYAML (value : yaml_node) : result pinguinYAMLNode :=
  match node_Kind value with
  | SequenceNode =>
      match yaml_Decode_list value with
      | Err e => Err (Wrapf "configuration: parse tenants: %w" [] e)
      | Ok tenants => Ok (MkYAMLNode "" tenants (Some value))
      end
  | MappingNode =>
      let unknownKey := firstUnsupportedTenantMappingKey value ["configPath"; "tenants"]%string in
      guard_err (negb (bool_decide (unknownKey = ""%string)))
        (Text "configuration: tenants.%s is not supported" [FStr unknownKey]);;
      match yaml_Decode_mapping value with
      | Err e => Err (Wrapf "configuration: parse tenants: %w" [] e)
      | Ok decoded => Ok (MkYAMLNode (TrimSpace (tc_ConfigPath decoded)) (tc_Tenants decoded) (Some value))
      end
  | OtherNode => Err (Text "configuration: tenants must be a list" [])
  end.
Definition decode_pinguinConfig (contents : string) : result pinguinConfig :=
  doc ← yaml_Decode contents;
  tenants ← match doc_Tenants doc with
            | Some node => pinguinYAMLNode_UnmarshalYAML node
            | None => Ok (MkYAMLNode "" [] None)
            end;
  Ok (MkPinguinConfig (doc_Server doc) (doc_Web doc) (doc_SMTPSubmission doc) (doc_SMTPForwarding doc) tenants).
End decode.
Definition AllTenants (node : pinguinYAMLNode) : list BootstrapTenant := yn_Tenants node.

(** * Checks *)
(** [result.Valid = false; result.Errors = append(result.Errors, message)] *)
Definition invalidate (message : string) (r : DiagnosticResult) : DiagnosticResult :=
  MkDiagnostic (dg_ConfigPath r) false (dg_Errors r ++ [message]) (dg_Warnings r) (dg_TenantIDs r).
Definition require_that (b : bool) (message : string) (r : DiagnosticResult) : DiagnosticResult :=
  if b then r else invalidate message r.
Definition warn_if (b : bool) (message : string) (r : DiagnosticResult) : DiagnosticResult :=
  if b then MkDiagnostic (dg_ConfigPath r) (dg_Valid r) (dg_Errors r) (dg_Warnings r ++ [message]) (dg_TenantIDs r) else r.
Definition nonblank (s : string) : bool := negb (bool_decide (TrimSpace s = ""%string)).

Definition validateServerTAuthConfig (tauth : pinguinTAuth) (r : DiagnosticResult) : DiagnosticResult :=
  require_that (nonblank (ta_SigningKey tauth)) "server.tauth.signingKey is required when web is enabled" r.

Definition validateServerConfig (server : pinguinServer) (webEnabled : bool) (r : DiagnosticResult) : DiagnosticResult :=
  let r := require_that (nonblank (sv_DatabasePath server)) "server.databasePath is required" r in
  let r := require_that (nonblank (sv_GRPCAuthToken server)) "server.grpcAuthToken is required" r in
  let r := require_that (nonblank (sv_LogLevel server)) "server.logLevel is required" r in
  let r := require_that (0 <? sv_MaxRetries server) "server.maxRetries must be positive" r in
  let r := require_that (0 <? sv_RetryIntervalSec server) "server.retryIntervalSec must be positive" r in
  let r := if nonblank (sv_MasterEncryptionKey server)
           then warn_if (bool_decide (String.length (sv_MasterEncryptionKey server) < 32)%nat)
                  "server.masterEncryptionKey should be at least 32 characters" r
           else invalidate "server.masterEncryptionKey is required" r in
  let r := require_that (0 <? sv_ConnectionTimeout server) "server.connectionTimeoutSec must be positive" r in
  let r := require_that (0 <? sv_OperationTimeout server) "server.operationTimeoutSec must be positive" r in
  if webEnabled then validateServerTAuthConfig (sv_TAuth server) r else r.

Definition validateWebConfig (web : pinguinWeb) (r : DiagnosticResult) : DiagnosticResult :=
  require_that (nonblank (wb_ListenAddr web)) "web.listenAddr is required when web is enabled" r.

Section checks.
Context `{U : Unicode}.
(** The doctor's own copy. *)
Definition doctor_normalizeSMTPDeliveryMode (value : string) : string :=
  let normalized := ToLower (TrimSpace value) in
  if bool_decide (normalized = ""%string) then "upstream" else normalized.

Definition validateSMTPSubmissionConfig (submission : pinguinSMTPSubmission) (r : DiagnosticResult) : DiagnosticResult :=
  if negb (ss_Enabled submission) then r else
  let relay := ss_Relay submission in
  let r := require_that (nonblank (ss_Hostname submission))
             "smtpSubmission.hostname is required when SMTP submission is enabled" r in
  let r := require_that (nonblank (ss_ListenAddr submission) || nonblank (ss_TLSListenAddr submission))
             "smtpSubmission.listenAddr or smtpSubmission.tlsListenAddr is required when SMTP submission is enabled" r in
  let r := require_that (0 <? ss_MaxMessageBytes submission) "smtpSubmission.maxMessageBytes must be positive" r in
  let r := require_that (0 <? ss_MaxRecipients submission) "smtpSubmission.maxRecipients must be positive" r in
  let deliveryMode := doctor_normalizeSMTPDeliveryMode (ss_DeliveryMode submission) in
  let r :=
    if bool_decide (deliveryMode = "upstream"%string) then
      let r := require_that (nonblank (rl_Host relay))
                 "smtpSubmission.relay.host is required when SMTP submission is enabled" r in
      let r := require_that (0 <? rl_Port relay) "smtpSubmission.relay.port must be positive" r in
      let r := require_that (nonblank (rl_Username relay))
                 "smtpSubmission.relay.username is required when SMTP submission is enabled" r in
      require_that (nonblank (rl_Password relay))
        "smtpSubmission.relay.password is required when SMTP submission is enabled" r
    else if bool_decide (deliveryMode = "direct"%string) then r
    else invalidate "smtpSubmission.deliveryMode must be upstream or direct" r in
  let r := require_that (0 <=? ss_PublicPort submission) "smtpSubmission.publicPort must be positive" r in
  let r :=
    if nonblank (ss_PublicSecurityMode submission) then
      let securityMode := ToLower (TrimSpace (ss_PublicSecurityMode submission)) in
      require_that (bool_decide (securityMode = "starttls"%string) || bool_decide (securityMode = "ssl"%string))
        "smtpSubmission.publicSecurityMode must be starttls or ssl" r
    else r in
  if negb (ss_AllowInsecureAuth submission) then
    let r := require_that (nonblank (ss_TLSCertPath submission))
               "smtpSubmission.tlsCertPath is required when SMTP submission is enabled" r in
    require_that (nonblank (ss_TLSKeyPath submission))
      "smtpSubmission.tlsKeyPath is required when SMTP submission is enabled" r
  else r.
End checks.

Definition validateSMTPForwardingConfig (forwarding : pinguinSMTPForwarding) (r : DiagnosticResult) : DiagnosticResult :=
  if negb (sf_Enabled forwarding) then r else
  let relay := sf_Relay forwarding in
  let r := require_that (nonblank (sf_Hostname forwarding))
             "smtpForwarding.hostname is required when SMTP forwarding is enabled" r in
  let r := require_that (nonblank (sf_ListenAddr forwarding))
             "smtpForwarding.listenAddr is required when SMTP forwarding is enabled" r in
  let r := require_that (0 <? sf_MaxMessageBytes forwarding) "smtpForwarding.maxMessageBytes must be positive" r in
  let r := require_that (0 <? sf_MaxRecipients forwarding) "smtpForwarding.maxRecipients must be positive" r in
  let r := require_that (nonblank (rl_Host relay))
             "smtpForwarding.relay.host is required when SMTP forwarding is enabled" r in
  let r := require_that (0 <? rl_Port relay) "smtpForwarding.relay.port must be positive" r in
  let r := require_that (nonblank (rl_Username relay))
             "smtpForwarding.relay.username is required when SMTP forwarding is enabled" r in
  require_that (nonblank (rl_Password relay))
    "smtpForwarding.relay.password is required when SMTP forwarding is enabled" r.

(** The counting loops of [validateTenantConfig]. *)
Definition count_nonblank (values : list string) : Z := Z.of_nat (length (List.filter nonblank values)).
Definition validateTenantConfig (webEnabled : bool) (tenant : BootstrapTenant) (r : DiagnosticResult) : DiagnosticResult :=
  let tenantID := TrimSpace (bt_ID tenant) in
  let tenantLabel := if bool_decide (tenantID = ""%string) then "(unknown)"%string else tenantID in
  let r := require_that (nonblank (bt_DisplayName tenant)) ("tenant[" ++ tenantLabel ++ "]: displayName is required") r in
  let r := require_that (negb (count_nonblank (bt_Domains tenant) =? 0))
             ("tenant[" ++ tenantLabel ++ "]: at least one domain is required") r in
  if webEnabled then
    require_that (negb (count_nonblank (bt_Admins tenant) =? 0))
      ("tenant[" ++ tenantLabel ++ "]: at least one admin is required when web is enabled") r
  else r.

Section run.
Context `{U : Unicode} `{O : Host} `{Y : Yaml} `{X : ErrorTexts}.

Definition tenantsForValidation (config : pinguinYAMLNode) (r : DiagnosticResult)
    : list BootstrapTenant * DiagnosticResult :=
  let tenants := AllTenants config in
  if bool_decide (0 < length tenants)%nat then (tenants, r) else
  let tenantConfigPath := TrimSpace (yn_ConfigPath config) in
  if bool_decide (tenantConfigPath = ""%string) then
    ([], invalidate "tenants.configPath is required when no inline tenants are configured" r) else
  match os_ReadFile tenantConfigPath with
  | Err readErr => ([], invalidate ("tenants.configPath read " ++ tenantConfigPath ++ ": " ++ Error readErr) r)
  | Ok rawContents =>
      match yaml_Unmarshal_bootstrap rawContents with
      | Err parseErr => ([], invalidate ("tenants.configPath parse_yaml: " ++ Error parseErr) r)
      | Ok bootstrapConfig =>
          if bool_decide (length bootstrapConfig = 0%nat) then
            ([], invalidate ("tenants.configPath " ++ tenantConfigPath ++ " has no tenants configured") r)
          else (bootstrapConfig, r)
      end
  end.

Definition add_tenant_id (tenant : BootstrapTenant) (r : DiagnosticResult) : DiagnosticResult :=
  let tenantID := TrimSpace (bt_ID tenant) in
  if bool_decide (tenantID = ""%string) then r else
  MkDiagnostic (dg_ConfigPath r) (dg_Valid r) (dg_Errors r) (dg_Warnings r) (dg_TenantIDs r ++ [tenantID]).

(** The checks of a decoded file, sorted. *)
Definition diagnose (config : pinguinConfig) (r : DiagnosticResult) : DiagnosticResult :=
  let webEnabled := match wb_Enabled (pc_Web config) with Some b => b | None => true end in
  let r := validateServerConfig (pc_Server config) webEnabled r in
  let r := if webEnabled then validateWebConfig (pc_Web config) r else r in
  let r := validateSMTPSubmissionConfig (pc_SMTPSubmission config) r in
  let r := validateSMTPForwardingConfig (pc_SMTPForwarding config) r in
  let '(tenants, r) := tenantsForValidation (pc_Tenants config) r in
  let r := foldl (λ r tenant, validateTenantConfig webEnabled tenant (add_tenant_id tenant r)) r tenants in
  MkDiagnostic (dg_ConfigPath r) (dg_Valid r) (sort_strings (dg_Errors r)) (sort_strings (dg_Warnings r))
    (sort_strings (dg_TenantIDs r)).

Definition validateConfig (configPath : string) (expandEnv : bool) : DiagnosticResult * option pinguinConfig :=
  let result := MkDiagnostic configPath true [] [] [] in
  match os_ReadFile configPath with
  | Err readErr => (invalidate ("read_config: " ++ Error readErr) result, None)
  | Ok rawContents =>
      match (if expandEnv then ExpandConfigEnvironment rawContents else Ok rawContents) with
      | Err expandErr => (invalidate ("expand_env: " ++ Error expandErr) result, None)
      | Ok contents =>
          match decode_pinguinConfig contents with
          | Err decodeErr => (invalidate ("parse_yaml: " ++ Error decodeErr) result, None)
          | Ok config => (diagnose config result, Some config)
          end
      end
  end.

Definition add_summary (summary : reportSummary) (diag : DiagnosticResult) : reportSummary :=
  MkSummary (TotalConfigs summary)
    (if dg_Valid diag then ValidConfigs summary + 1 else ValidConfigs summary)
    (if dg_Valid diag then InvalidConfigs summary else InvalidConfigs summary + 1)
    (TotalErrors summary + Z.of_nat (length (dg_Errors diag)))
    (TotalWarnings summary + Z.of_nat (length (dg_Warnings diag))).
Definition buildSummary (diagnostics : list DiagnosticResult) : reportSummary :=
  foldl add_summary (MkSummary (Z.of_nat (length diagnostics)) 0 0 0 0) diagnostics.

(** * Several files *)
Record tenantLocation := MkLocation { loc_ConfigPath : string; loc_TenantID : string }.
#[export] Instance tenantLocation_eq_dec : EqDecision tenantLocation.
Proof. solve_decision. Defined.

(** The first claim of each domain, and the errors. *)
Definition claims : Type := gmap string tenantLocation * list string.
Definition claim_domain (location : tenantLocation) (st : claims) (domain : string) : claims :=
  let '(domainsByTenant, errors) := st in
  let normalizedDomain := ToLower (TrimSpace domain) in
  if bool_decide (normalizedDomain = ""%string) then st else
  match domainsByTenant !! normalizedDomain with
  | Some existing =>
      if negb (bool_decide (loc_ConfigPath existing = loc_ConfigPath location))
         || negb (bool_decide (loc_TenantID existing = loc_TenantID location))
      then (domainsByTenant, errors ++
        ["domain " ++ Quote domain ++ " claimed by tenant[" ++ loc_TenantID location ++ "] in " ++ loc_ConfigPath location
         ++ " conflicts with tenant[" ++ loc_TenantID existing ++ "] in " ++ loc_ConfigPath existing]%string)
      else st
  | None => (<[normalizedDomain := location]> domainsByTenant, errors)
  end.
Definition claim_tenant (configPath : string) (st : claims) (tenant : BootstrapTenant) : claims :=
  foldl (claim_domain (MkLocation configPath (TrimSpace (bt_ID tenant)))) st (bt_Domains tenant).
Definition claim_config (st : claims) (entry : string * pinguinConfig) : claims :=
  foldl (claim_tenant entry.1) st (AllTenants (pc_Tenants entry.2)).

(** Go ranges over a map in any order: [range] is the one it takes. *)
Context (range : gmap string pinguinConfig → list (string * pinguinConfig)).
Definition validateCrossConfigs (configsByPath : gmap string pinguinConfig) : crossValidation :=
  let '(_, errors) := foldl claim_config (∅, []) (range configsByPath) in
  MkCross true (sort_strings errors) [].

(** [Run]; [timestamp] is the time of the report, formatted. *)
Definition Run (timestamp : string) (options : Options) : result Report :=
  if bool_decide (length (ConfigPaths options) = 0%nat)
  then Err (Wrapf "%w: no config paths provided" [] errDoctor) else
  let '(diagnostics, allConfigsByPath) :=
    foldl (λ '(diagnostics, configs) configPath,
             let '(diagnostic, config) := validateConfig configPath (ExpandEnv options) in
             (diagnostics ++ [diagnostic],
              match config with
              | Some config => if dg_Valid diagnostic then <[configPath := config]> configs else configs
              | None => configs
              end))
      ([], (∅ : gmap string pinguinConfig)) (ConfigPaths options) in
  Ok (MkReport reportSchemaVersion timestamp (MkServiceInfo "pinguin" "doctor-v1") (buildSummary diagnostics) diagnostics
    (if ValidateCrossConfigs options && bool_decide (1 < size allConfigsByPath)%nat
     then validateCrossConfigs allConfigsByPath else MkCross false [] [])).
End run.

(** * Presentation *)
Definition NL : string := String "010" "".
Definition lines_of (prefix : string) (messages : list string) : string :=
  foldr (λ m text, "  " ++ prefix ++ ": " ++ m ++ NL ++ text)%string ""%string messages.
Fixpoint Repeat (s : string) (count : nat) : string := match count with O => "" | S n => s ++ Repeat s n end.
Definition format_diagnostic (diag : DiagnosticResult) : string :=
  (dg_ConfigPath diag ++ ": " ++ (if dg_Valid diag then "✓ VALID" else "✗ INVALID") ++ NL
   ++ (if bool_decide (0 < length (dg_TenantIDs diag))%nat then "  Tenants: " ++ Join (dg_TenantIDs diag) ", " ++ NL else "")
   ++ lines_of "ERROR" (dg_Errors diag) ++ lines_of "WARN" (dg_Warnings diag) ++ NL)%string.
Definition FormatSummary (report : Report) : string :=
  let summary := rp_Summary report in
  let cross := rp_CrossValidation report in
  ("Pinguin Doctor Report (" ++ rp_Timestamp report ++ ")" ++ NL ++ Repeat "=" 60 ++ NL ++ NL
   ++ "Summary: " ++ pretty (ValidConfigs summary) ++ "/" ++ pretty (TotalConfigs summary) ++ " configs valid"
   ++ (if (0 <? TotalErrors summary)%Z then ", " ++ pretty (TotalErrors summary) ++ " errors" else "")
   ++ (if (0 <? TotalWarnings summary)%Z then ", " ++ pretty (TotalWarnings summary) ++ " warnings" else "")
   ++ NL ++ NL ++ foldr (λ d text, format_diagnostic d ++ text) "" (rp_Diagnostics report)
   ++ (if cv_Performed cross then
         "Cross-Config Validation:" ++ NL
         ++ (if bool_decide (length (cv_Errors cross) = 0%nat) && bool_decide (length (cv_Warnings cross) = 0%nat)
             then "  No cross-config issues detected" ++ NL else "")
         ++ lines_of "ERROR" (cv_Errors cross) ++ lines_of "WARN" (cv_Warnings cross)
       else ""))%string.

(** * The command (cmd/doctor/main.go)

    [runDoctor] with the values of its flags; [FormatReport] is encoding/json,
    [Write] the command's output. *)
Section command.
Context `{U : Unicode} `{O : Host} `{Y : Yaml} `{X : ErrorTexts}.
Context (range : gmap string pinguinConfig → list (string * pinguinConfig)).
Context (FormatReport : Report → string) {W : Type} (Write : string → eff W unit).
Definition runDoctor (timestamp : string) (crossValidate expandEnv outputJSON : bool) (arguments : list string) : eff W unit :=
  report ← lift (Run range timestamp (MkOptions arguments crossValidate expandEnv));
  map_err (Wrapf "doctor.write_output: %w" []) (Write (if outputJSON : bool then FormatReport report else FormatSummary report));;
  lift (guard_err ((0 <? InvalidConfigs (rp_Summary report))
                   || bool_decide (0 < length (cv_Errors (rp_CrossValidation report)))%nat)
          (Text "doctor: validation failed (%d invalid configs, %d cross-config errors)"
             [FInt (InvalidConfigs (rp_Summary report)); FInt (Z.of_nat (length (cv_Errors (rp_CrossValidation report))))])).
End command.

(** * What makes a file valid *)
Lemma require_that_valid b m r : dg_Valid (require_that b m r) = true ↔ dg_Valid r = true ∧ b = true.
Proof. destruct b; simpl; naive_solver. Qed.
Lemma nonblank_given s : nonblank s = true ↔ given s.
Proof. unfold nonblank, given. by rewrite negb_true_iff, bool_decide_eq_false. Qed.
Lemma check_when_valid (b : bool) r1 r P :
  (dg_Valid r1 = true ↔ dg_Valid r = true ∧ P) →
  dg_Valid (if b then r1 else r) = true ↔ dg_Valid r = true ∧ (b = true → P).
Proof. destruct b; naive_solver. Qed.
Lemma warn_if_valid b m r : dg_Valid (warn_if b m r) = dg_Valid r.
Proof. by destruct b. Qed.

Lemma count_nonblank_zero values : (count_nonblank values =? 0) = false ↔ Exists given values.
Proof.
  unfold count_nonblank. rewrite Z.eqb_neq. induction values as [|v values IH]; [rewrite Exists_nil; simpl; lia|].
  rewrite Exists_cons. simpl. destruct (nonblank v) eqn:E.
  - apply nonblank_given in E. simpl. split; [tauto|lia].
  - rewrite IH. rewrite <- nonblank_given, E. naive_solver.
Qed.

(** The keys of the file are needed, whoever reads it. *)
Definition server_ok (server : serverSection) (webEnabled : bool) : Prop :=
  given (sv_DatabasePath server) ∧ given (sv_GRPCAuthToken server) ∧ given (sv_LogLevel server) ∧
  0 < sv_MaxRetries server ∧ 0 < sv_RetryIntervalSec server ∧ given (sv_MasterEncryptionKey server) ∧
  0 < sv_ConnectionTimeout server ∧ 0 < sv_OperationTimeout server ∧
  (webEnabled = true → given (ta_SigningKey (sv_TAuth server))).

Lemma validateServerConfig_valid server web r :
  dg_Valid (validateServerConfig server web r) = true ↔ dg_Valid r = true ∧ server_ok server web.
Proof.
  unfold validateServerConfig, server_ok.
  erewrite check_when_valid by apply require_that_valid.
  rewrite !require_that_valid, nonblank_given, !Z.ltb_lt.
  destruct (nonblank (sv_MasterEncryptionKey server)) eqn:Ek.
  - rewrite warn_if_valid, !require_that_valid, !nonblank_given, !Z.ltb_lt. apply nonblank_given in Ek. tauto.
  - assert (¬ given (sv_MasterEncryptionKey server)) by (rewrite <- nonblank_given; congruence).
    simpl. split; [intros [[[? _] _] _]; done|tauto].
Qed.

Section agreement.
Context `{U : Unicode} `{LL : !LowerLaws} `{O : Host} `{Y : Yaml} `{X : ErrorTexts}.

Lemma delivery_mode_settled value :
  normalizeSMTPDeliveryMode (normalizeSMTPDeliveryMode value) = normalizeSMTPDeliveryMode value.
Proof.
  unfold normalizeSMTPDeliveryMode at 2 3. case_bool_decide as E; [done|].
  unfold normalizeSMTPDeliveryMode. destruct (ToLower_settled (TrimSpace value)) as [-> _]; [apply TrimSpace_idem|].
  by rewrite bool_decide_eq_false_2.
Qed.

Lemma submission_valid sub r :
  dg_Valid (validateSMTPSubmissionConfig sub r) = true ↔
  dg_Valid r = true ∧ (ss_Enabled sub = true → submission_ok (submission_config sub)).
Proof.
  unfold validateSMTPSubmissionConfig. destruct (ss_Enabled sub); simpl negb; cbv iota; [|naive_solver].
  unfold submission_ok, submission_config, relay_config, relay_ok. cbn.
  rewrite !given_trim, delivery_mode_settled, !elem_of_cons, elem_of_nil.
  erewrite check_when_valid by (rewrite !require_that_valid; symmetry; apply and_assoc).
  erewrite check_when_valid by apply require_that_valid.
  rewrite require_that_valid, orb_true_iff, !nonblank_given, negb_true_iff, !bool_decide_eq_true, Z.leb_le.
  destruct (ToLower_settled (TrimSpace (ss_PublicSecurityMode sub))) as [_ Hmode]; [apply TrimSpace_idem|].
  set (r1 := require_that (0 <? ss_MaxRecipients sub) _ _).
  assert (dg_Valid r1 = true ↔ dg_Valid r = true ∧ given (ss_Hostname sub) ∧
    (given (ss_ListenAddr sub) ∨ given (ss_TLSListenAddr sub)) ∧ 0 < ss_MaxMessageBytes sub ∧ 0 < ss_MaxRecipients sub) as H1.
  { unfold r1. rewrite !require_that_valid, orb_true_iff, !nonblank_given, !Z.ltb_lt. tauto. }
  assert (given (ss_PublicSecurityMode sub) ↔ ToLower (TrimSpace (ss_PublicSecurityMode sub)) ≠ ""%string) as Hg
    by (unfold given; by rewrite Hmode).
  assert (Decision (ToLower (TrimSpace (ss_PublicSecurityMode sub)) = ""%string)) as Hd by apply _.
  change doctor_normalizeSMTPDeliveryMode with normalizeSMTPDeliveryMode.
  case_bool_decide as Hu.
  - rewrite !require_that_valid, !nonblank_given, Z.ltb_lt, H1, Hu, Hg.
    assert ("upstream"%string ≠ "direct"%string) by done. destruct Hd; tauto.
  - case_bool_decide as Hdir; [rewrite H1, Hg; destruct Hd; tauto|]. simpl dg_Valid. naive_solver.
Qed.

Lemma forwarding_valid fw r :
  dg_Valid (validateSMTPForwardingConfig fw r) = true ↔
  dg_Valid r = true ∧ (sf_Enabled fw = true → forwarding_ok (forwarding_config fw)).
Proof.
  unfold validateSMTPForwardingConfig. destruct (sf_Enabled fw); simpl negb; cbv iota; [|naive_solver].
  rewrite !require_that_valid, !nonblank_given, !Z.ltb_lt.
  unfold forwarding_ok, forwarding_config, relay_config, relay_ok. cbn. rewrite !given_trim. tauto.
Qed.

(** The tenant checks, which ask for more than the server's. *)
Definition doctor_tenant_ok (webEnabled : bool) (t : BootstrapTenant) : Prop :=
  tenant_ok t ∧ (webEnabled = true → Exists given (bt_Admins t)).
Lemma tenants_valid web ts r :
  dg_Valid (foldl (λ r t, validateTenantConfig web t (add_tenant_id t r)) r ts) = true ↔
  dg_Valid r = true ∧ Forall (doctor_tenant_ok web) ts.
Proof.
  revert r. induction ts as [|t ts IH]; intros r; simpl; [naive_solver|]. rewrite IH, Forall_cons.
  assert (dg_Valid (add_tenant_id t r) = dg_Valid r) as Ha by (unfold add_tenant_id; by case_bool_decide).
  unfold validateTenantConfig, doctor_tenant_ok, tenant_ok.
  erewrite check_when_valid by apply require_that_valid.
  rewrite !require_that_valid, Ha, nonblank_given, !negb_true_iff, !count_nonblank_zero. tauto.
Qed.

(** Both programs decode a file to the same values, or neither does. *)
Definition same_file (p : pinguinConfig) (f : fileConfig) : Prop :=
  pc_Server p = fc_Server f ∧ pc_Web p = fc_Web f ∧ pc_SMTPSubmission p = fc_SMTPSubmission f ∧
  pc_SMTPForwarding p = fc_SMTPForwarding f ∧
  yn_ConfigPath (pc_Tenants p) = tc_ConfigPath (fc_Tenants f) ∧ yn_Tenants (pc_Tenants p) = tc_Tenants (fc_Tenants f).
Lemma decode_same contents :
  match decode_pinguinConfig contents, decode_fileConfig contents with
  | Ok p, Ok f => same_file p f
  | Err _, Err _ => True
  | _, _ => False
  end.
Proof.
  unfold decode_pinguinConfig, decode_fileConfig. destruct (yaml_Decode contents) as [doc|]; [simpl|done].
  destruct (doc_Tenants doc) as [node|]; [|done]. simpl.
  unfold pinguinYAMLNode_UnmarshalYAML, firstUnsupportedTenantMappingKey, firstUnknownYAMLMappingKey.
  destruct (node_Kind node); [|by destruct (yaml_Decode_list node)|done].
  destruct (guard_err _ _); [simpl|done]. by destruct (yaml_Decode_mapping node).
Qed.

(** The tenants a start of the server would provision. *)
Definition tenants_to_provision (cfg : Config) : option (list BootstrapTenant) :=
  if decide (TenantBootstrap cfg = []) then
    match os_ReadFile (TenantConfigPath cfg) with
    | Ok raw => match yaml_Unmarshal_bootstrap raw with Ok ts => Some ts | Err _ => None end
    | Err _ => None
    end
  else Some (TenantBootstrap cfg).

Lemma tenantsForValidation_spec p f r :
  same_file p f →
  let path_ok := tc_Tenants (fc_Tenants f) = [] → given (tc_ConfigPath (fc_Tenants f)) in
  let '(ts, r') := tenantsForValidation (pc_Tenants p) r in
  (r' = r ∧ path_ok ∧ tenants_to_provision (configuration_of f) = Some ts ∧ ts ≠ []) ∨
  (dg_Valid r' = false ∧ ¬ (path_ok ∧ ∃ ts, tenants_to_provision (configuration_of f) = Some ts ∧ ts ≠ [])).
Proof.
  intros (_ & _ & _ & _ & Hp & Ht). unfold tenantsForValidation, AllTenants, tenants_to_provision. cbn.
  rewrite Hp, Ht. destruct (tc_Tenants (fc_Tenants f)) as [|t ts]; simpl; [|by left].
  unfold given. case_bool_decide as Hg; [right; split; [done|]; intros [Hx _]; by apply Hx|].
  destruct (os_ReadFile _) as [raw|]; [|right; split; [done|]; by intros (_ & ? & ? & _)].
  destruct (yaml_Unmarshal_bootstrap raw) as [[|t ts]|]; simpl; [right|by left|right]; (split; [done|]; naive_solver).
Qed.

(** What the two programs ask of the same file, tenants aside. *)
Lemma config_ok_of f :
  config_ok (configuration_of f) ↔
  (let web := match wb_Enabled (fc_Web f) with Some b => b | None => true end in
   server_ok (fc_Server f) web ∧ (web = true → given (wb_ListenAddr (fc_Web f))) ∧
   (ss_Enabled (fc_SMTPSubmission f) = true → submission_ok (submission_config (fc_SMTPSubmission f))) ∧
   (sf_Enabled (fc_SMTPForwarding f) = true → forwarding_ok (forwarding_config (fc_SMTPForwarding f)))) ∧
  (tc_Tenants (fc_Tenants f) = [] → given (tc_ConfigPath (fc_Tenants f))) ∧ Forall tenant_ok (tc_Tenants (fc_Tenants f)).
Proof.
  unfold config_ok, server_ok, configuration_of. cbn [DatabasePath GRPCAuthToken LogLevel MaxRetries RetryIntervalSec
    MasterEncryptionKey ConnectionTimeoutSec OperationTimeoutSec TenantBootstrap TenantConfigPath WebInterfaceEnabled
    HTTPListenAddr TAuthSigningKey SMTPSubmission SMTPForwarding].
  rewrite !given_trim.
  change (sb_Enabled (submission_config (fc_SMTPSubmission f))) with (ss_Enabled (fc_SMTPSubmission f)).
  change (fw_Enabled (forwarding_config (fc_SMTPForwarding f))) with (sf_Enabled (fc_SMTPForwarding f)).
  destruct (match wb_Enabled (fc_Web f) with Some b => b | None => true end); [rewrite given_trim|];
    assert (false = true ↔ False) by done; tauto.
Qed.

Lemma diagnose_valid p f r :
  same_file p f → dg_Valid r = true →
  dg_Valid (diagnose p r) = true ↔
  config_ok (configuration_of f) ∧ ∃ ts, tenants_to_provision (configuration_of f) = Some ts ∧ ts ≠ [] ∧
    Forall (doctor_tenant_ok (WebInterfaceEnabled (configuration_of f))) ts.
Proof.
  intros Hs Hr. rewrite config_ok_of. unfold diagnose. cbn [configuration_of WebInterfaceEnabled].
  destruct Hs as (Hsv & Hw & Hsub & Hfw & Hrest). assert (same_file p f) as Hs by done. rewrite Hsv, Hw, Hsub, Hfw.
  set (web := match wb_Enabled (fc_Web f) with Some b => b | None => true end).
  set (r1 := validateSMTPForwardingConfig _ _).
  assert (dg_Valid r1 = true ↔ server_ok (fc_Server f) web ∧ (web = true → given (wb_ListenAddr (fc_Web f))) ∧
    (ss_Enabled (fc_SMTPSubmission f) = true → submission_ok (submission_config (fc_SMTPSubmission f))) ∧
    (sf_Enabled (fc_SMTPForwarding f) = true → forwarding_ok (forwarding_config (fc_SMTPForwarding f)))) as H1.
  { unfold r1. rewrite forwarding_valid, submission_valid.
    erewrite check_when_valid by apply require_that_valid.
    rewrite validateServerConfig_valid, nonblank_given, Hr. tauto. }
  pose proof (tenantsForValidation_spec p f r1 Hs) as H2. cbv zeta in H2.
  destruct (tenantsForValidation (pc_Tenants p) r1) as [ts r2]. simpl. rewrite tenants_valid.
  destruct H2 as [(-> & Hpath & Hts & Hne)|(Hf & Hno)].
  - rewrite H1, Hts. split; [|intros [(? & ? & ?) (ts' & [= <-] & ? & ?)]; tauto].
    intros [? Hall]. split; [|eauto]. split_and!; [tauto..|].
    unfold tenants_to_provision in Hts. cbn in Hts. case_decide as E; [rewrite E; done|]. injection Hts as ->.
    eapply Forall_impl; [done|]. by intros ? [].
  - rewrite Hf. split; [by intros [[=] _]|]. intros [(_ & ? & _) (ts' & ? & ? & _)]. destruct Hno. eauto.
Qed.

(** C22: the doctor and the server agree.  With environment expansion, the doctor
    calls a configuration file valid exactly when the server loads it, the tenants it would
    provision can be read and are there, and each of them has a display name, a domain and, when
    the web interface is on, an administrator.  The last is the doctor's own condition. *)
Theorem doctor_agrees (path : string) :
  dg_Valid (validateConfig path true).1 = true ↔
  ∃ cfg ts, loadConfigFromPath path = Ok cfg ∧ tenants_to_provision cfg = Some ts ∧ ts ≠ [] ∧
    Forall (doctor_tenant_ok (WebInterfaceEnabled cfg)) ts.
Proof.
  assert (∀ cfg, loadConfigFromPath path = Ok cfg ↔ ∃ raw contents f, os_ReadFile path = Ok raw ∧
    ExpandConfigEnvironment raw = Ok contents ∧ decode_fileConfig contents = Ok f ∧
    cfg = configuration_of f ∧ config_ok cfg) as Hload by apply loadConfigFromPath_inv.
  unfold validateConfig. destruct (os_ReadFile path) as [raw|e];
    [|split; [done|]; intros (? & ? & (? & ? & ? & ? & _)%Hload & _); done].
  destruct (ExpandConfigEnvironment raw) as [contents|e] eqn:Ex;
    [|split; [done|]; intros (? & ? & (? & ? & ? & [= <-] & ? & _)%Hload & _); congruence].
  pose proof (decode_same contents) as Hd.
  destruct (decode_pinguinConfig contents) as [p|e], (decode_fileConfig contents) as [f|e'] eqn:Ef; try done.
  - simpl. rewrite (diagnose_valid p f) by done. split.
    + intros (Hok & ts & ?). exists (configuration_of f), ts. split; [|done]. apply Hload. exists raw, contents, f. done.
    + intros (cfg & ts & Hl & ?). apply Hload in Hl as (? & ? & f' & [= <-] & ? & ? & -> & ?).
      assert (f' = f) as -> by congruence. eauto.
  - simpl. split; [done|]. intros (cfg & ts & Hl & _).
    apply Hload in Hl as (? & ? & ? & [= <-] & ? & ? & _). congruence.
Qed.

(** * Several files *)
(** Every claim of a domain by a tenant that is written in one of the files. *)
Definition tenant_claims (path : string) (t : BootstrapTenant) : list (tenantLocation * string) :=
  pair (MkLocation path (TrimSpace (bt_ID t))) <$> bt_Domains t.
Definition config_claims (entry : string * pinguinConfig) : list (tenantLocation * string) :=
  AllTenants (pc_Tenants entry.2) ≫= tenant_claims entry.1.
Definition claimed (cs : list (tenantLocation * string)) (d : string) (l : tenantLocation) : Prop :=
  d ≠ ""%string ∧ ∃ domain, (l, domain) ∈ cs ∧ ToLower (TrimSpace domain) = d.
Definition no_conflict (cs : list (tenantLocation * string)) : Prop :=
  ∀ d l1 l2, claimed cs d l1 → claimed cs d l2 → l1 = l2.

Definition claim_step (st : claims) (c : tenantLocation * string) : claims := claim_domain c.1 st c.2.
Lemma foldl_bind {A B C} (f : A → B → A) (g : C → list B) l st :
  foldl f st (l ≫= g) = foldl (λ st x, foldl f st (g x)) st l.
Proof. revert st. induction l as [|x l IH]; intros st; [done|]. by rewrite bind_cons, foldl_app, IH. Qed.
Lemma claim_tenant_steps path st t : claim_tenant path st t = foldl claim_step st (tenant_claims path t).
Proof.
  unfold claim_tenant, tenant_claims. generalize (bt_Domains t) as l. intros l. revert st.
  induction l as [|d l IH]; intros st; [done|]. simpl. apply IH.
Qed.
Lemma claim_config_steps st entry : claim_config st entry = foldl claim_step st (config_claims entry).
Proof.
  unfold claim_config, config_claims. rewrite foldl_bind. revert st.
  induction (AllTenants (pc_Tenants entry.2)) as [|t l IH]; intros st; [done|]. simpl. by rewrite IH, claim_tenant_steps.
Qed.

Lemma claimed_snoc cs c d l :
  claimed (cs ++ [c]) d l ↔ claimed cs d l ∨ (d ≠ ""%string ∧ c.1 = l ∧ ToLower (TrimSpace c.2) = d).
Proof.
  unfold claimed. split.
  - intros (? & domain & [?|<-%list_elem_of_singleton]%elem_of_app & ?); [left|right]; eauto.
  - intros [(? & domain & ? & ?)|(? & <- & <-)]; (split; [done|]);
      [exists domain; rewrite elem_of_app; by auto|exists c.2; rewrite elem_of_app, list_elem_of_singleton, <- surjective_pairing; by auto].
Qed.

(** The table holds a first claim of every claimed domain, and an error is recorded
    exactly when two claims differ. *)
Lemma claim_steps_spec cs :
  let '(m, errors) := foldl claim_step (∅, []) cs in
  (∀ d l, m !! d = Some l → claimed cs d l) ∧ (∀ d l, claimed cs d l → is_Some (m !! d)) ∧
  (errors = [] ↔ no_conflict cs).
Proof.
  induction cs as [|c cs IH] using rev_ind.
  { simpl. split_and!; [by intros ???|by intros d l (_ & ? & []%elem_of_nil & _)|].
    split; [|done]. by intros _ d l1 l2 (_ & ? & []%elem_of_nil & _). }
  rewrite foldl_app. destruct (foldl claim_step (∅, []) cs) as [m errors]. destruct IH as (Hm & Hc & He).
  destruct c as [l domain]. simpl. unfold claim_step, claim_domain. simpl.
  set (d := ToLower (TrimSpace domain)).
  assert (∀ d' l', claimed (cs ++ [(l, domain)]) d' l' ↔ claimed cs d' l' ∨ (d' ≠ ""%string ∧ l = l' ∧ d = d')) as Hsnoc.
  { intros d' l'. apply claimed_snoc. }
  case_bool_decide as Hd.
  { assert (∀ d' l', claimed (cs ++ [(l, domain)]) d' l' ↔ claimed cs d' l') as Hsame.
    { intros d' l'. rewrite Hsnoc. split; [|by left]. intros [?|(? & _ & <-)]; done. }
    split_and!; [intros; rewrite Hsame; auto|intros ??; rewrite Hsame; eauto|].
    rewrite He. unfold no_conflict. by setoid_rewrite Hsame. }
  destruct (m !! d) as [old|] eqn:Eold.
  - pose proof (Hm _ _ Eold) as Hold. destruct (negb _ || negb _) eqn:Eb.
    + split_and!; [intros; apply Hsnoc; left; auto|..].
      * intros d' l' [?|(_ & _ & <-)]%Hsnoc; eauto.
      * split; [by intros []%app_nil|]. intros Hno. exfalso.
        assert (old = l) as ->. { apply (Hno d); apply Hsnoc; [by left|by right]. }
        rewrite !bool_decide_eq_true_2 in Eb by done. done.
    + apply orb_false_iff in Eb as [E1 E2]. to_prop. assert (old = l) as ->. { destruct old, l; simpl in *; congruence. }
      assert (∀ d' l', claimed (cs ++ [(l, domain)]) d' l' ↔ claimed cs d' l') as Hsame.
      { intros d' l'. rewrite Hsnoc. split; [|by left]. intros [?|(_ & <- & <-)]; done. }
      split_and!; [intros; rewrite Hsame; auto|intros ??; rewrite Hsame; eauto|].
      rewrite He. unfold no_conflict. by setoid_rewrite Hsame.
  - split_and!.
    + intros d' l' [[<- <-]|[_ ?]]%lookup_insert_Some; apply Hsnoc; [right|left]; auto.
    + intros d' l' [?|(_ & _ & <-)]%Hsnoc; [|by rewrite lookup_insert_eq].
      destruct (decide (d = d')) as [->|]; [by rewrite lookup_insert_eq|]. rewrite lookup_insert_ne by done. eauto.
    + assert (∀ l', ¬ claimed cs d l') as Hnew. { intros l' [? Hl']%Hc. congruence. }
      rewrite He. split.
      * intros Hno d' l1 l2 [H1|(_ & <- & <-)]%Hsnoc [H2|(_ & <- & Heq)]%Hsnoc; [by eapply Hno|subst d'|..]; try done;
          exfalso; by eapply Hnew.
      * intros Hno d' l1 l2 H1 H2. apply (Hno d'); apply Hsnoc; by left.
Qed.
End agreement.

(** * The verdict of the command *)
Lemma buildSummary_spec diags :
  TotalConfigs (buildSummary diags) = Z.of_nat (length diags) ∧
  InvalidConfigs (buildSummary diags) = Z.of_nat (length (List.filter (λ d, negb (dg_Valid d)) diags)) ∧
  ValidConfigs (buildSummary diags) + InvalidConfigs (buildSummary diags) = Z.of_nat (length diags).
Proof.
  unfold buildSummary.
  assert (∀ s, let s' := foldl add_summary s diags in TotalConfigs s' = TotalConfigs s ∧
    InvalidConfigs s' = InvalidConfigs s + Z.of_nat (length (List.filter (λ d, negb (dg_Valid d)) diags)) ∧
    ValidConfigs s' + InvalidConfigs s' = ValidConfigs s + InvalidConfigs s + Z.of_nat (length diags)) as H.
  { induction diags as [|d diags IH]; intros s; cbn [foldl length List.filter]; [split_and!; simpl; lia|].
    destruct (IH (add_summary s d)) as (H1 & H2 & H3). split_and!; [by rewrite H1|rewrite H2|rewrite H3];
      unfold add_summary; destruct (dg_Valid d); simpl; lia. }
  destruct (H (MkSummary (Z.of_nat (length diags)) 0 0 0 0)) as (H1 & H2 & H3).
  split_and!; [by rewrite H1|by rewrite H2|by rewrite H3].
Qed.

Lemma and_iff_compat_l' (P Q R : Prop) : (P → (Q ↔ R)) → (P ∧ Q ↔ P ∧ R).
Proof. tauto. Qed.

Section verdict.
Context `{U : Unicode} `{O : Host} `{Y : Yaml} `{X : ErrorTexts}.
Context (range : gmap string pinguinConfig → list (string * pinguinConfig)).
Context (range_perm : ∀ m, range m ≡ₚ map_to_list m).

Lemma valid_config path expand :
  dg_Valid (validateConfig path expand).1 = true → ∃ c, (validateConfig path expand).2 = Some c.
Proof.
  unfold validateConfig. destruct (os_ReadFile path); [|done].
  destruct (if expand then _ else _); [|done]. destruct (decode_pinguinConfig _); [|done]. simpl. eauto.
Qed.

(** The claims of the tenants that are written in the files of [paths]. *)
Definition written_claims (expand : bool) (paths : list string) : list (tenantLocation * string) :=
  paths ≫= λ path, match (validateConfig path expand).2 with Some c => config_claims (path, c) | None => [] end.

Definition doctor_fold (expand : bool) (paths : list string) : list DiagnosticResult * gmap string pinguinConfig :=
  foldl (λ '(diagnostics, configs) configPath,
           let '(diagnostic, config) := validateConfig configPath expand in
           (diagnostics ++ [diagnostic],
            match config with
            | Some config => if dg_Valid diagnostic then <[configPath := config]> configs else configs
            | None => configs
            end)) ([], ∅) paths.
Lemma doctor_fold_spec expand paths :
  let '(diagnostics, configs) := doctor_fold expand paths in
  diagnostics = (λ path, (validateConfig path expand).1) <$> paths ∧
  ∀ path c, configs !! path = Some c ↔
    path ∈ paths ∧ dg_Valid (validateConfig path expand).1 = true ∧ (validateConfig path expand).2 = Some c.
Proof.
  induction paths as [|path paths IH] using rev_ind.
  { split; [done|]. intros path c. rewrite lookup_empty. split; [done|]. by intros [[]%elem_of_nil _]. }
  unfold doctor_fold in *. rewrite foldl_app. destruct (foldl _ _ paths) as [diags configs]. destruct IH as [-> IH].
  simpl. destruct (validateConfig path expand) as [d oc] eqn:E. split; [by rewrite fmap_app; simpl; rewrite E|].
  intros q c. rewrite elem_of_app, list_elem_of_singleton.
  assert (q = path → (validateConfig q expand).1 = d ∧ (validateConfig q expand).2 = oc) as Hq by (intros ->; by rewrite E).
  destruct oc as [c'|]; [destruct (dg_Valid d) eqn:Ed|].
  - rewrite lookup_insert_Some, IH. split.
    + intros [[<- <-]|[? ?]]; [|tauto]. rewrite E. auto.
    + intros (Hin & Hv & Hc). destruct (decide (path = q)) as [<-|]; [|right; naive_solver].
      left. rewrite E in Hc. by injection Hc as ->.
  - rewrite IH. split; [tauto|]. intros ([?| ->] & Hv & Hc); [tauto|]. destruct (Hq eq_refl) as [Hd _]. congruence.
  - rewrite IH. split; [tauto|]. intros ([?| ->] & Hv & Hc); [tauto|]. destruct (Hq eq_refl) as [_ ?]. congruence.
Qed.

Lemma validateCrossConfigs_spec (configs : gmap string pinguinConfig) :
  cv_Errors (validateCrossConfigs range configs) = [] ↔ no_conflict (map_to_list configs ≫= config_claims).
Proof.
  unfold validateCrossConfigs.
  assert (∀ st l, foldl claim_config st l = foldl claim_step st (l ≫= config_claims)) as Hf.
  { intros st l. rewrite foldl_bind. revert st. induction l as [|e l IH]; intros st; [done|].
    simpl. by rewrite IH, claim_config_steps. }
  rewrite Hf. pose proof (claim_steps_spec (range configs ≫= config_claims)) as H.
  destruct (foldl _ _ _) as [m errors]. destruct H as (_ & _ & He). simpl.
  pose proof (merge_sort_Permutation String.le errors : sort_strings errors ≡ₚ errors) as Hp.
  transitivity (errors = []).
  { split; intros E; [rewrite E in Hp; by apply Permutation_nil_l in Hp|by rewrite E]. }
  rewrite He. unfold no_conflict, claimed.
  assert (∀ c, c ∈ range configs ≫= config_claims ↔ c ∈ map_to_list configs ≫= config_claims) as Hc.
  { intros c. rewrite !list_elem_of_bind. by setoid_rewrite (range_perm configs). }
  by setoid_rewrite Hc.
Qed.

Lemma size_two (configs : gmap string pinguinConfig) :
  (1 < size configs)%nat ↔ ∃ p1 p2, p1 ≠ p2 ∧ is_Some (configs !! p1) ∧ is_Some (configs !! p2).
Proof.
  rewrite <- length_map_to_list. pose proof (NoDup_fst_map_to_list configs) as Hnd.
  assert (∀ p, is_Some (configs !! p) ↔ p ∈ (map_to_list configs).*1) as Hin.
  { intros p. rewrite list_elem_of_fmap. split.
    - intros [c Hc]. exists (p, c). by rewrite elem_of_map_to_list.
    - intros ([? c] & -> & Hc%elem_of_map_to_list). by exists c. }
  setoid_rewrite Hin. destruct (map_to_list configs) as [|[p c] [|[q d] l]]; simpl in *.
  - split; [lia|]. by intros (? & ? & _ & []%elem_of_nil & _).
  - split; [lia|]. intros (p1 & p2 & Hne & ->%list_elem_of_singleton & ->%list_elem_of_singleton). done.
  - split; [intros _|lia]. exists p, q. apply NoDup_cons in Hnd as [Hn _]. split_and!; set_solver.
Qed.

(** The doctor's verdict.  The command succeeds exactly when every file is valid and,
    with cross-validation of at least two different files, no domain is claimed by two tenants
    written in them, in whatever order the files' table is walked. *)
Theorem doctor_verdict {W} (FormatReport : Report → string) (Write : string → eff W unit)
    timestamp cross expand json paths w w' r :
  paths ≠ [] → (∀ text, (Write text w).2 = Ok ()) →
  runDoctor range FormatReport Write timestamp cross expand json paths w = (w', r) →
  r = Ok () ↔ Forall (λ path, dg_Valid (validateConfig path expand).1 = true) paths ∧
    (cross = true → (∃ p1 p2, p1 ≠ p2 ∧ p1 ∈ paths ∧ p2 ∈ paths) → no_conflict (written_claims expand paths)).
Proof.
  intros Hne Hw. unfold runDoctor, Run. cbn [ConfigPaths ExpandEnv ValidateCrossConfigs].
  rewrite (bool_decide_eq_false_2 (length paths = 0%nat)) by (by destruct paths).
  fold (doctor_fold expand paths). pose proof (doctor_fold_spec expand paths) as Hf.
  destruct (doctor_fold expand paths) as [diags configs]. destruct Hf as [-> Hc]. rewrite lift_bind.
  intros H. apply eff_bind_inv in H as [(e & H & ->)|(w1 & [] & _ & [= <- <-])].
  { apply map_err_inv in H as (x & Hx & H). 
    match type of Hx with Write ?text w = _ => specialize (Hw text) end. rewrite Hx in Hw. simpl in Hw. by subst x. }
  rewrite guard_err_Ok, orb_false_iff, bool_decide_eq_false. cbn [rp_Summary rp_CrossValidation].
  destruct (buildSummary_spec ((λ path, (validateConfig path expand).1) <$> paths)) as (_ & -> & _).
  set (invalid := List.filter _ _).
  assert ((0 <? Z.of_nat (length invalid)) = false ↔ Forall (λ path, dg_Valid (validateConfig path expand).1 = true) paths) as Hv.
  { rewrite Z.ltb_ge. transitivity (invalid = []); [destruct invalid; simpl; split; intros; done || lia|].
    unfold invalid. clear. induction paths as [|p paths IH]; simpl; [by split|]. rewrite Forall_cons.
    destruct (dg_Valid (validateConfig p expand).1); simpl; naive_solver. }
  rewrite Hv. apply and_iff_compat_l'. intros Hall.
  assert (∀ p, is_Some (configs !! p) ↔ p ∈ paths) as Hdom.
  { intros p. split; [by intros [c [? _]%Hc]|]. intros Hp. rewrite Forall_forall in Hall.
    destruct (valid_config p expand (Hall p Hp)) as [c ?]. exists c. apply Hc. auto. }
  assert (∀ cs : list string, ¬ (0 < length cs)%nat ↔ cs = []) as Hlen by (intros []; simpl; split; intros; done || lia).
  rewrite Hlen. destruct cross; simpl; [|by split].
  case_bool_decide as Hs; rewrite size_two in Hs; setoid_rewrite Hdom in Hs; [|simpl; naive_solver].
  rewrite validateCrossConfigs_spec.
  assert (∀ c, c ∈ map_to_list configs ≫= config_claims ↔ c ∈ written_claims expand paths) as Hcl.
  { intros c. unfold written_claims. rewrite !list_elem_of_bind. split.
    - intros ([p cfg] & Hin & [Hp [Hpv Hpc]]%elem_of_map_to_list%Hc). exists p. by rewrite Hpc.
    - intros (p & Hin & Hp). destruct (validateConfig p expand).2 as [cfg|] eqn:E; [|by apply elem_of_nil in Hin].
      exists (p, cfg). split; [done|]. apply elem_of_map_to_list, Hc. rewrite Forall_forall in Hall. auto. }
  unfold no_conflict, claimed. setoid_rewrite Hcl. naive_solver.
Qed.
End verdict.

(** * Witnesses: a format in which a file is the bearer token and the tenant's id *)
Definition demo_relay_section : smtpSubmissionRelaySection := MkRelaySection "" 0 "" "".
Definition demo_document (text : string) : document :=
  MkDocument (MkServerSection "db" text "INFO" 3 30 "key" 5 30 (MkTAuth "sign" ""))
    (MkWebSection None ":8080" [] [])
    (MkSubmissionSection false "" "" "" "" "" 0 "" "" 0 0 false demo_relay_section)
    (MkForwardingSection false "" "" 0 0 demo_relay_section)
    (Some (MkNode SequenceNode text [])).
Definition demo_tenant (id : string) : BootstrapTenant :=
  MkBootstrapTenant id "Acme" "" None "" ["Acme.org"]%string ["a@acme.org"]%string zero_email None.
Definition demo_yaml : Yaml := {|
  yaml_Decode text := Ok (demo_document text);
  yaml_Decode_list node := Ok [demo_tenant (node_Value node)];
  yaml_Decode_mapping _ := Err (New "not a mapping");
  yaml_Unmarshal_bootstrap _ := Ok [];
|}.
Definition demo_texts : ErrorTexts := {| Quote := λ s, s; foreign_text := λ _, ""%string |}.
#[local] Existing Instances demo_yaml demo_host demo_texts ascii_unicode.

(** The doctor passes a.yml, and so the server loads it. *)
Lemma doctor_agrees_witness : ∃ cfg, loadConfigFromPath "a.yml" = Ok cfg ∧ GRPCAuthToken cfg = "s3cret"%string.
Proof.
  destruct (proj1 (doctor_agrees "a.yml")) as (cfg & ts & Hl & _); [vm_compute; reflexivity|].
  exists cfg. split; [exact Hl|]. vm_compute in Hl. injection Hl as <-. reflexivity.
Defined.

(** Both files give acme.org to a tenant, of different names: each is valid, together
    they are refused. *)
Lemma doctor_verdict_witness :
  Forall (λ path, dg_Valid (validateConfig path true).1 = true) ["a.yml"; "b.yml"]%string ∧
  (runDoctor map_to_list (λ _, ""%string) (λ _ w, (w, Ok ())) "" true true false ["a.yml"; "b.yml"]%string ()).2 ≠ Ok ().
Proof.
  split; [repeat constructor; vm_compute; reflexivity|].
  destruct (runDoctor map_to_list _ _ _ _ _ _ _ _) as [w' r] eqn:E. simpl. intros Hr.
  destruct (proj1 (doctor_verdict map_to_list (λ m, Permutation_refl _) (λ _, ""%string) (λ _ w, (w, Ok ())) "" true true false
    ["a.yml"; "b.yml"]%string () w' r ltac:(discriminate) (λ _, eq_refl) E) Hr) as [_ Hno]. clear E Hr. rename Hno into Hr.
  assert (∃ p1 p2 : string, p1 ≠ p2 ∧ p1 ∈ ["a.yml"; "b.yml"]%string ∧ p2 ∈ ["a.yml"; "b.yml"]%string) as H2.
  { exists "a.yml"%string, "b.yml"%string. split; [discriminate|]. split; [constructor 1|constructor 2; constructor 1]. }
  specialize (Hr eq_refl H2).
  specialize (Hr "acme.org"%string (MkLocation "a.yml" "s3cret") (MkLocation "b.yml" "b")).
  assert (∀ l, (l, "Acme.org"%string) ∈ written_claims true ["a.yml"; "b.yml"]%string →
    claimed (written_claims true ["a.yml"; "b.yml"]%string) "acme.org" l) as Hcl.
  { intros l Hl. split; [discriminate|]. exists "Acme.org"%string. split; [exact Hl|reflexivity]. }
  discriminate Hr; apply Hcl; apply (bool_decide_unpack _); vm_compute; exact I.
Defined.
