(* ===== verification/Email.v ===== *)
(** Outgoing e-mail (src/internal/service/email_service.go): the MIME message,
    its base64 attachments and file names, and the SMTP dialogue with the
    configured provider (an interface). *)
From S2P Require Import Prelude GoStrings Throttle Address Base64 Smtp Forwarding ForwardRelay Gorm Model.

(** * Attachments *)

(** The loop of [encodeBase64Chunked]: lines of 76 characters. *)
Fixpoint chunk_lines (fuel : nat) (encoded : list ascii) : list ascii :=
  match fuel, encoded with
  | S fuel, _ :: _ => take 76 encoded ++ CRLF ++ chunk_lines fuel (drop 76 encoded)
  | _, _ => []
  end.
Definition encodeBase64Chunked (data : list ascii) : list ascii :=
  match data with
  | [] => []
  | _ => let encoded := encode StdEncoding data in chunk_lines (length encoded) encoded
  end.

Definition keep_rune (r : rune) : bool :=
  match rune_ascii r with
  | Some x => negb ((x <? 32) || (x =? 127) || (x =? 34) || (x =? 92))%Z
  | None => true
  end.
Definition sanitizeFilename (filename : string) : string :=
  let trimmed := TrimSpace filename in
  if decide (trimmed = ""%string) then "attachment"%string else
  let sanitized := TrimSpace (implode (concat (rune_bytes <$> List.filter keep_rune (runes_b (explode trimmed))))) in
  if decide (sanitized = ""%string) then "attachment"%string else sanitized.

(** * The message *)
Definition header_line (name value : string) : list ascii :=
  explode name ++ explode ": " ++ explode value ++ CRLF.
Definition text_line (s : string) : list ascii := explode s ++ CRLF.
Definition quoted (s : string) : string := (quote ++ s ++ quote)%string.

Definition attachment_part (boundary : string) (a : EmailAttachment) : list ascii :=
  let contentType := if decide (att_ContentType a = ""%string) then "application/octet-stream"%string
                     else att_ContentType a in
  text_line ("--" ++ boundary) ++ header_line "Content-Type" contentType
  ++ header_line "Content-Transfer-Encoding" "base64"
  ++ header_line "Content-Disposition" ("attachment; filename=" ++ quoted (sanitizeFilename (att_Filename a)))
  ++ CRLF ++ encodeBase64Chunked (att_Data a) ++ CRLF.

(** [now] is [time.Now().UnixNano()], for the boundary. *)
Definition buildEmailMessage (now : Z) (fromAddress toAddress subject body : string)
    (attachments : list EmailAttachment) : list ascii :=
  let head := header_line "From" fromAddress ++ header_line "To" toAddress
              ++ header_line "Subject" subject ++ header_line "MIME-Version" "1.0" in
  match attachments with
  | [] => head ++ header_line "Content-Type" ("text/plain; charset=" ++ quoted "utf-8") ++ CRLF ++ explode body
  | _ =>
      let boundary := ("PinguinBoundary-" ++ pretty now)%string in
      head ++ header_line "Content-Type" ("multipart/mixed; boundary=" ++ quoted boundary) ++ CRLF
      ++ text_line ("--" ++ boundary)
      ++ header_line "Content-Type" ("text/plain; charset=" ++ quoted "utf-8")
      ++ header_line "Content-Transfer-Encoding" "7bit" ++ CRLF
      ++ explode body ++ CRLF
      ++ concat (attachment_part boundary <$> attachments)
      ++ text_line ("--" ++ boundary ++ "--")
  end.

(** * The SMTP dialogue *)
Record SMTPConfig := MkSMTPConfig {
  sc_Host : string;
  sc_Port : string;
  sc_Username : string;
  sc_Password : string;
  sc_FromAddress : string;
  sc_ConnectionTimeoutSec : Z;                    (** of [Timeouts] *)
}.

(** [net.JoinHostPort] *)
Definition JoinHostPort (host port : string) : string :=
  if Contains host ":" then "[" ++ host ++ "]:" ++ port else host ++ ":" ++ port.

(** [crypto/tls], [net/smtp] and the request's context.  [dialTLS] takes the
    address, the server name and the time-out; [client_Auth] and [smtp_SendMail]
    the user name, password and host of [smtp.PlainAuth]. *)
Class Upstream (W : Type) := {
  dialTLS : string → string → Z → eff W unit;
  tls_Close : eff W unit;
  ctx_Err : eff W unit;
  newSMTPClient : string → eff W unit;
  client_Auth : string → string → string → eff W unit;
  client_Mail : string → eff W unit;
  client_Rcpt : string → eff W unit;
  client_Data : eff W unit;
  data_Write : list ascii → eff W unit;
  data_Close : eff W unit;
  client_Quit : eff W unit;
  smtp_SendMail : string → string → string → string → string → list string → list ascii → eff W unit;
  unix_nano : eff W Z;
}.

(** [if err != nil { return fmt.Errorf(template, err) }] *)
Definition wrap_with {W A} (template : string) (m : eff W A) : eff W A := λ w,
  let '(w, r) := m w in (w, match r with Ok a => Ok a | Err e => Err (Wrapf template [] e) end).

(** [defer f()]: [f] runs whatever the rest gives. *)
Definition then_always {W A} (m : eff W A) (f : eff W unit) : eff W A := λ w,
  let '(w, r) := m w in ((f w).1, r).

Section sending.
Context {W : Type} `{N : Upstream W}.

Definition write_message (rawMessage : list ascii) : eff W unit := λ w,
  let '(w, r) := data_Write rawMessage w in
  match r with
  | Err e => ((data_Close w).1, Err (Wrapf "failed to write email message: %w" [] e))
  | Ok _ => wrap_with "failed to close data writer: %w" data_Close w
  end.

Definition SendRawEmail (cfg : SMTPConfig) (fromAddress : string) (recipients : list string)
    (rawMessage : list ascii) : eff W unit :=
  if decide (sc_Port cfg = "465"%string) then
    wrap_with "failed to dial TLS: %w"
      (dialTLS (JoinHostPort (sc_Host cfg) (sc_Port cfg)) (sc_Host cfg) (seconds (sc_ConnectionTimeoutSec cfg)));;
    then_always
      (ctx_Err;;
       wrap_with "failed to create SMTP client: %w" (newSMTPClient (sc_Host cfg));;
       then_always
         (wrap_with "failed to authenticate: %w" (client_Auth (sc_Username cfg) (sc_Password cfg) (sc_Host cfg));;
          wrap_with "failed to set sender: %w" (client_Mail fromAddress);;
          for_each (λ recipient, wrap_with "failed to set recipient: %w" (client_Rcpt recipient)) recipients;;
          wrap_with "failed to get data writer: %w" client_Data;;
          write_message rawMessage)
         client_Quit)
      tls_Close
  else
    wrap_with "smtp send failed: %w"
      (smtp_SendMail (JoinHostPort (sc_Host cfg) (sc_Port cfg)) (sc_Username cfg) (sc_Password cfg) (sc_Host cfg)
         fromAddress recipients rawMessage).

Definition SendEmail (cfg : SMTPConfig) (recipient subject message : string)
    (attachments : list EmailAttachment) : eff W unit :=
  now ← (match attachments with [] => mret 0%Z | _ => unix_nano end);
  SendRawEmail cfg (sc_FromAddress cfg) [recipient]
    (buildEmailMessage now (sc_FromAddress cfg) recipient subject message attachments).
End sending.

(** * Lemmas: what a successful dialogue consists of *)
Lemma wrap_with_Ok {W A} template (m : eff W A) w w' a :
  wrap_with template m w = (w', Ok a) ↔ m w = (w', Ok a).
Proof. unfold wrap_with. destruct (m w) as [w1 [b|e]]; split; congruence. Qed.

Lemma then_always_Ok {W A} (m : eff W A) f w w' a :
  then_always m f w = (w', Ok a) ↔ ∃ w1, m w = (w1, Ok a) ∧ w' = (f w1).1.
Proof.
  unfold then_always. destruct (m w) as [w1 r]. split.
  - intros [= <- ->]. eauto.
  - by intros (? & [= -> ->] & ->).
Qed.

Lemma for_each_Ok_proper {W A} (f g : A → eff W unit) l w w' :
  (∀ x w w', f x w = (w', Ok ()) ↔ g x w = (w', Ok ())) →
  for_each f l w = (w', Ok ()) ↔ for_each g l w = (w', Ok ()).
Proof.
  intros Hfg. revert w. induction l as [|x l IH]; intros w; [done|]. cbn [for_each].
  rewrite !eff_bind_Ok. split; intros (w1 & [] & H1 & H2); exists w1, (); (split; [by apply Hfg|by apply IH]).
Qed.

(** The provider took the whole message: each step of the dialogue, in order,
    with the configured credential, sender, recipients and text. *)
Definition provider_accepts {W} `{N : Upstream W} (cfg : SMTPConfig) (fromAddress : string)
    (recipients : list string) (raw : list ascii) (w w' : W) : Prop :=
  if decide (sc_Port cfg = "465"%string) then
    ∃ w1 w2 w3 w4 w5 w6 w7 w8 w9,
      dialTLS (JoinHostPort (sc_Host cfg) "465") (sc_Host cfg) (seconds (sc_ConnectionTimeoutSec cfg)) w = (w1, Ok ()) ∧
      ctx_Err w1 = (w2, Ok ()) ∧ newSMTPClient (sc_Host cfg) w2 = (w3, Ok ()) ∧
      client_Auth (sc_Username cfg) (sc_Password cfg) (sc_Host cfg) w3 = (w4, Ok ()) ∧
      client_Mail fromAddress w4 = (w5, Ok ()) ∧ for_each client_Rcpt recipients w5 = (w6, Ok ()) ∧
      client_Data w6 = (w7, Ok ()) ∧ data_Write raw w7 = (w8, Ok ()) ∧ data_Close w8 = (w9, Ok ()) ∧
      w' = (tls_Close (client_Quit w9).1).1
  else
    smtp_SendMail (JoinHostPort (sc_Host cfg) (sc_Port cfg)) (sc_Username cfg) (sc_Password cfg) (sc_Host cfg)
      fromAddress recipients raw w = (w', Ok ()).

Lemma write_message_Ok {W} `{N : Upstream W} raw w w' :
  write_message raw w = (w', Ok ()) ↔ ∃ w1, data_Write raw w = (w1, Ok ()) ∧ data_Close w1 = (w', Ok ()).
Proof.
  unfold write_message. destruct (data_Write raw w) as [w1 [[]|e]].
  - rewrite wrap_with_Ok. naive_solver.
  - naive_solver.
Qed.

Lemma SendRawEmail_Ok {W} `{N : Upstream W} cfg fromAddress recipients raw w w' :
  SendRawEmail cfg fromAddress recipients raw w = (w', Ok ()) ↔
  provider_accepts cfg fromAddress recipients raw w w'.
Proof.
  unfold SendRawEmail, provider_accepts. case_decide as Hp; [rewrite Hp|apply wrap_with_Ok].
  assert (∀ l w w', for_each (λ r, wrap_with "failed to set recipient: %w" (client_Rcpt r)) l w = (w', Ok ()) ↔
    for_each client_Rcpt l w = (w', Ok ())) as Hr by (intros; apply for_each_Ok_proper; intros; apply wrap_with_Ok).
  split.
  - intros (w1 & [] & H1%wrap_with_Ok & (w2 & H & ->)%then_always_Ok)%eff_bind_Ok.
    apply eff_bind_Ok in H as (w3 & [] & H2 & (w4 & [] & H3%wrap_with_Ok & H)%eff_bind_Ok).
    apply then_always_Ok in H as (w5 & H & ->).
    apply eff_bind_Ok in H as (w6 & [] & H4%wrap_with_Ok & (w7 & [] & H5%wrap_with_Ok & H)%eff_bind_Ok).
    apply eff_bind_Ok in H as (w8 & [] & H6%Hr & (w9 & [] & H7%wrap_with_Ok & H)%eff_bind_Ok).
    apply write_message_Ok in H as (w10 & H8 & H9). by exists w1, w3, w4, w6, w7, w8, w9, w10, w5.
  - intros (w1 & w2 & w3 & w4 & w5 & w6 & w7 & w8 & w9 & H1 & H2 & H3 & H4 & H5 & H6 & H7 & H8 & H9 & ->).
    apply eff_bind_Ok. exists w1, (). rewrite wrap_with_Ok, then_always_Ok. split; [done|].
    eexists. split; [|done]. rewrite (eff_bind_run _ _ _ _ _ H2). apply eff_bind_Ok. exists w3, ().
    rewrite wrap_with_Ok, then_always_Ok. split; [done|]. eexists. split; [|done].
    apply eff_bind_Ok. exists w4, (). rewrite wrap_with_Ok. split; [done|].
    apply eff_bind_Ok. exists w5, (). rewrite wrap_with_Ok. split; [done|].
    apply eff_bind_Ok. exists w6, (). rewrite Hr. split; [done|].
    apply eff_bind_Ok. exists w7, (). rewrite wrap_with_Ok. split; [done|].
    apply write_message_Ok. eauto.
Qed.

(** * Lemmas: lines of base64 *)
Definition lines76 (l : list ascii) : Prop :=
  ∃ ws, l = concat ((λ w, w ++ CRLF) <$> ws) ∧
    Forall (λ w, (0 < length w ≤ 76)%nat ∧ Forall (λ c, newline_char c = false) w) ws.

Lemma chunk_lines_spec fuel l :
  (length l ≤ fuel)%nat → Forall (λ c, newline_char c = false) l →
  lines76 (chunk_lines fuel l) ∧
  List.filter (λ c, negb (newline_char c)) (chunk_lines fuel l) = l.
Proof.
  revert l. induction fuel as [|fuel IH]; intros l Hf Hl.
  - destruct l; [|simpl in Hf; lia]. split; [exists []; split; [done|constructor]|done].
  - destruct l as [|c l0] eqn:El; [split; [exists []; split; [done|constructor]|done]|].
    rewrite <- El in *. assert (0 < length l)%nat by (subst; simpl; lia).
    assert (chunk_lines (S fuel) l = take 76 l ++ CRLF ++ chunk_lines fuel (drop 76 l)) as -> by by subst.
    destruct (IH (drop 76 l)) as [(ws & -> & Hws) Hfil].
    { rewrite length_drop. lia. } { by apply Forall_drop. }
    split.
    + exists (take 76 l :: ws). split; [csimpl; by rewrite <- app_assoc|]. constructor; [|done].
      split; [rewrite length_take; lia|by apply Forall_take].
    + rewrite !List.filter_app, Hfil. rewrite filter_all; [apply take_drop|].
      eapply Forall_impl; [by apply Forall_take|]. simpl. by intros ? ->.
Qed.

(** An attachment's body is its data in base64, in lines of at most 76
    characters, and decodes back to the data. *)
Theorem encodeBase64Chunked_roundtrip data :
  lines76 (encodeBase64Chunked data) ∧ decode StdEncoding (encodeBase64Chunked data) = Some data.
Proof.
  assert (std_or_url StdEncoding) as He by by left.
  unfold encodeBase64Chunked. destruct data as [|c data0] eqn:Ed.
  - split; [exists []; split; [done|constructor]|done].
  - rewrite <- Ed.
    destruct (chunk_lines_spec (length (encode StdEncoding data)) (encode StdEncoding data)) as [Hl Hf];
      [lia|by apply encode_no_newline|].
    split; [done|]. by apply decode_breaks.
Qed.

(** ** File names *)
Definition safe_char (c : ascii) : bool :=
  negb ((code c <? 32) || (code c =? 127) || (code c =? 34) || (code c =? 92))%Z.

Lemma safe_between lo hi c : (128 ≤ lo)%Z → between lo hi c = true → safe_char c = true.
Proof. unfold between, safe_char. intros. to_prop. destruct (code c <? 32)%Z eqn:?, (code c =? 127)%Z eqn:?,
  (code c =? 34)%Z eqn:?, (code c =? 92)%Z eqn:?; simpl; lia. Qed.

Lemma cont_safe c : cont c = true → safe_char c = true.
Proof. apply safe_between. lia. Qed.
Lemma second3_safe c d : second3 c d = true → safe_char d = true.
Proof. unfold second3. repeat case_match; try apply cont_safe; apply safe_between; lia. Qed.
Lemma second4_safe c d : second4 c d = true → safe_char d = true.
Proof. unfold second4. repeat case_match; try apply cont_safe; apply safe_between; lia. Qed.

Lemma rune_bytes_safe l :
  Forall (λ c, safe_char c = true) (concat (rune_bytes <$> List.filter keep_rune (runes_b l))).
Proof.
  assert (Forall (λ c, safe_char c = true) replacement) as Hrep by (repeat constructor).
  induction l as [l IH] using strip_ind_b. destruct l as [|c l]; [constructor|].
  cbn [runes_b]. destruct (code c <? 128)%Z eqn:E.
  { cbn [List.filter]. unfold keep_rune at 1. simpl rune_ascii. cbn match.
    match goal with |- context [if ?b then _ else _] => destruct b eqn:Eb end; csimpl.
    - constructor; [exact Eb|]. apply IH. simpl. lia.
    - apply IH. simpl. lia. }
  assert (Forall (λ c, safe_char c = true)
    (concat (rune_bytes <$> List.filter keep_rune (Rune None replacement :: runes_b l)))) as Hbad.
  { csimpl. repeat (constructor; [done|]). apply IH. simpl. lia. }
  assert (safe_char c = true) as Hc.
  { unfold safe_char. to_prop. destruct (code c <? 32)%Z eqn:?, (code c =? 127)%Z eqn:?,
      (code c =? 34)%Z eqn:?, (code c =? 92)%Z eqn:?; simpl; lia. }
  destruct l as [|d l]; [done|]. destruct (between 194 223 c).
  { destruct (cont d) eqn:Ed; [|done]. csimpl. constructor; [done|]. constructor; [by apply cont_safe|].
    apply IH. simpl. lia. }
  destruct l as [|e l]; [done|]. destruct (between 224 239 c).
  { destruct (second3 c d && cont e) eqn:Ed; [|done]. to_prop. csimpl.
    repeat (constructor; [eauto using second3_safe, cont_safe|]). apply IH. simpl. lia. }
  destruct l as [|f l]; [done|].
  destruct (between 240 244 c && second4 c d && cont e && cont f) eqn:Ed; [|done]. to_prop. csimpl.
  repeat (constructor; [eauto using second4_safe, cont_safe|]). apply IH. simpl. lia.
Qed.

(** The file name put between quotes is not empty and has no quote, backslash
    or control character, so it cannot end the quoted value or the header line. *)
Theorem sanitizeFilename_safe filename :
  sanitizeFilename filename ≠ ""%string ∧
  Forall (λ c, safe_char c = true) (explode (sanitizeFilename filename)).
Proof.
  unfold sanitizeFilename. repeat case_decide; try (split; [done|by repeat constructor]).
  split; [done|]. unfold TrimSpace at 1. autorewrite with gostr.
  apply Forall_forall. intros c Hc%TrimSpace_b_elem.
  pose proof (rune_bytes_safe (explode (TrimSpace filename))) as Hs. rewrite Forall_forall in Hs. auto.
Qed.

(** * The message against a header parser *)
Lemma header_line_print n v : header_line n v = print_header (MkHeader n v).
Proof. unfold header_line, print_header, header_text. simpl. by rewrite <- !app_assoc. Qed.

(** A value that a header line can carry: trimmed and without line breaks. *)
Definition clean (v : string) : Prop := sanitizedHeaderValue v = v.

Definition content_type (now : Z) (attachments : list EmailAttachment) : string :=
  match attachments with
  | [] => "text/plain; charset=" ++ quoted "utf-8"
  | _ => "multipart/mixed; boundary=" ++ quoted ("PinguinBoundary-" ++ pretty now)
  end.

(** When the sender, recipient and subject have no line breaks and are
    trimmed, the message built for them has exactly the five headers From, To,
    Subject, MIME-Version and Content-Type with those values; without attachments
    its body is the message text. *)
Theorem buildEmailMessage_headers now from to subject body attachments :
  clean from → clean to → clean subject → clean (content_type now attachments) →
  ∃ rest,
    parseOrderedForwardedMessage (buildEmailMessage now from to subject body attachments) =
      Ok ([MkHeader "From" from; MkHeader "To" to; MkHeader "Subject" subject;
           MkHeader "MIME-Version" "1.0"; MkHeader "Content-Type" (content_type now attachments)], rest) ∧
    (attachments = [] → rest = explode body).
Proof.
  intros Hf Ht Hs Hc.
  assert (∃ rest, buildEmailMessage now from to subject body attachments =
    concat (print_header <$> [MkHeader "From" from; MkHeader "To" to; MkHeader "Subject" subject;
      MkHeader "MIME-Version" "1.0"; MkHeader "Content-Type" (content_type now attachments)]) ++ CRLF ++ rest
    ∧ (attachments = [] → rest = explode body)) as (rest & -> & Hrest).
  { unfold buildEmailMessage. rewrite !header_line_print.
    destruct attachments as [|a l]; cbn [fmap list_fmap concat]; 
      [exists (explode body)|eexists]; (split; [rewrite <- !app_assoc, app_nil_l; reflexivity|done]). }
  exists rest. split; [|done]. apply parse_print.
  repeat (constructor; [split; [vm_compute; reflexivity|done]|]). constructor.
Qed.

(** [NewNotificationRequest] accepts a subject with a line break in it, and
    the message then built has a header the API never offered, here a Bcc: the
    subject is written into the message as it is. *)
Theorem subject_injects_header :
  let subject := ("Hi" ++ implode CRLF ++ "Bcc: victim@example.org")%string in
  ∃ rq rest,
    NewNotificationRequest NotificationEmail "to@example.com" subject "text" None [] = Ok rq ∧
    parseOrderedForwardedMessage
      (buildEmailMessage 0 "from@example.com" (rq_recipient rq) (rq_subject rq) (rq_message rq) (rq_attachments rq)) =
    Ok ([MkHeader "From" "from@example.com"; MkHeader "To" "to@example.com"; MkHeader "Subject" "Hi";
         MkHeader "Bcc" "victim@example.org"; MkHeader "MIME-Version" "1.0";
         MkHeader "Content-Type" (content_type 0 [])], rest).
Proof.
  intros subject. exists (MkRequest NotificationEmail "to@example.com" subject "text" None []), (explode "text").
  split; vm_compute; reflexivity.
Qed.

Lemma buildEmailMessage_headers_witness :
  ∃ rest, parseOrderedForwardedMessage (buildEmailMessage 0 "a@b.c" "x@y.z" "Hello" "text" []) =
    Ok ([MkHeader "From" "a@b.c"; MkHeader "To" "x@y.z"; MkHeader "Subject" "Hello";
         MkHeader "MIME-Version" "1.0"; MkHeader "Content-Type" (content_type 0 [])], rest).
Proof.
  destruct (buildEmailMessage_headers 0 "a@b.c" "x@y.z" "Hello" "text" []) as (rest & H & _);
    [vm_compute; reflexivity..|]. eauto.
Defined.

Lemma SendEmail_Ok {W} `{N : Upstream W} cfg recipient subject message attachments (w w' : W) :
  SendEmail cfg recipient subject message attachments w = (w', Ok ()) ↔
  ∃ now w0, (attachments = [] ∧ now = 0%Z ∧ w0 = w ∨ attachments ≠ [] ∧ unix_nano w = (w0, Ok now)) ∧
    provider_accepts cfg (sc_FromAddress cfg) [recipient]
      (buildEmailMessage now (sc_FromAddress cfg) recipient subject message attachments) w0 w'.
Proof.
  unfold SendEmail. rewrite eff_bind_Ok. setoid_rewrite SendRawEmail_Ok.
  destruct attachments as [|a l]; split.
  - intros (w0 & now & [= <- <-] & H). eauto 10.
  - intros (now & w0 & [(_ & -> & ->)|[[] _]] & H); [|done]. eexists _, _. split; [reflexivity|exact H].
  - intros (w0 & now & Hn & H). exists now, w0. split; [by right|done].
  - intros (now & w0 & [([=] & _)|[_ Hn]] & H). exists w0, now. by split.
Qed.

(** An e-mail counts as sent exactly when the provider took it.  [SendEmail]
    answers without an error if and only if the configured provider accepted, in
    one dialogue, the configured credential (over TLS on port 465), the configured
    sender, exactly the one recipient asked for, and the whole text that
    [buildEmailMessage] gives for it, up to the final dot. *)
Theorem SendEmail_delivered {W} `{N : Upstream W} cfg recipient subject message attachments (w w' : W) :
  SendEmail cfg recipient subject message attachments w = (w', Ok ()) ↔
  ∃ now w0, (attachments = [] ∧ now = 0%Z ∧ w0 = w ∨ attachments ≠ [] ∧ unix_nano w = (w0, Ok now)) ∧
    provider_accepts cfg (sc_FromAddress cfg) [recipient]
      (buildEmailMessage now (sc_FromAddress cfg) recipient subject message attachments) w0 w'.
Proof. apply SendEmail_Ok. Qed.

(** A provider that logs what it is told and refuses recipients at bad.org. *)
Definition demo_upstream : Upstream (list string) :=
  let say (s : string) (r : result unit) : eff (list string) unit := λ w, (w ++ [s], r) in
  {| dialTLS addr _ _ := say ("dial " ++ addr)%string (Ok ()); tls_Close := say "close" (Ok ()); ctx_Err := mret ();
     newSMTPClient _ := mret (); client_Auth u _ _ := say ("AUTH " ++ u)%string (Ok ());
     client_Mail f := say ("MAIL " ++ f)%string (Ok ());
     client_Rcpt t := say ("RCPT " ++ t)%string (if Contains t "@bad.org" then Err (SMTPReply 550 "no") else Ok ());
     client_Data := say "DATA" (Ok ()); data_Write _ := mret (); data_Close := say "." (Ok ());
     client_Quit := say "QUIT" (Ok ()); smtp_SendMail addr _ _ _ _ _ _ := say ("send " ++ addr)%string (Ok ());
     unix_nano := mret 7%Z |}.
Definition demo_provider (host port : string) : SMTPConfig := MkSMTPConfig host port "u" "p" "f@x.y" 30.
Example demo_sent :
  SendEmail (N := demo_upstream) (demo_provider "mx.org" "465") "t@good.org" "s" "m" [] [] =
  (["dial mx.org:465"; "AUTH u"; "MAIL f@x.y"; "RCPT t@good.org"; "DATA"; "."; "QUIT"; "close"]%string, Ok ()).
Proof. vm_compute. reflexivity. Qed.
Example demo_refused :
  SendEmail (N := demo_upstream) (demo_provider "mx.org" "465") "t@bad.org" "s" "m" [] [] =
  (["dial mx.org:465"; "AUTH u"; "MAIL f@x.y"; "RCPT t@bad.org"; "QUIT"; "close"]%string,
   Err (Wrapf "failed to set recipient: %w" [] (SMTPReply 550 "no"))).
Proof. vm_compute. reflexivity. Qed.
Example demo_ipv6 :
  (SendEmail (N := demo_upstream) (demo_provider "::1" "587") "t@bad.org" "s" "m" [] []).1 = ["send [::1]:587"%string].
Proof. vm_compute. reflexivity. Qed.
