(* ===== verification/Sms.v ===== *)
(** The SMS sender (src/internal/service/sms_service.go): one HTTP request to Twilio.

    [net/url]'s form encoding and what [http.NewRequest] asks of a URL are defined on
    bytes; sending the request is the class [HttpClient].  [form_decode] is what a server
    reads out of a form, the reference the encoding is proved against. *)
From S2P Require Import Prelude GoStrings Base64 Tenant.
Open Scope Z_scope.

(** * [url.Values.Encode] *)
Definition upperhex (z : Z) : ascii := byte (if z <? 10 then 48 + z else 55 + z).
(** [shouldEscape(c, encodeQueryComponent)]. *)
Definition shouldEscape (c : ascii) : bool :=
  negb (between 97 122 c || between 65 90 c || between 48 57 c || bool_decide (c ∈ explode "-_.~")).
Definition escape_byte (c : ascii) : list ascii :=
  if decide (c = " "%char) then ["+"%char] else
  if shouldEscape c then ["%"%char; upperhex (code c / 16); upperhex (code c mod 16)] else [c].
Definition QueryEscape (l : list ascii) : list ascii := l ≫= escape_byte.

(** [Values.Encode] of values with one text per key: the keys in order. *)
Definition key_le (kv kv' : string * string) : Prop := String.le kv.1 kv'.1.
#[export] Instance key_le_dec : RelDecision key_le.
Proof. intros kv kv'. unfold key_le. apply _. Defined.
Definition encode_pair (kv : string * string) : list ascii :=
  QueryEscape (explode kv.1) ++ "="%char :: QueryEscape (explode kv.2).
Fixpoint encode_pairs (values : list (string * string)) : list ascii :=
  match values with
  | [] => []
  | [kv] => encode_pair kv
  | kv :: values => encode_pair kv ++ "&"%char :: encode_pairs values
  end.
Definition Values_Encode (values : list (string * string)) : list ascii := encode_pairs (merge_sort key_le values).

(** * [url.Parse], on the addresses built here *)
Definition unhex (c : ascii) : option Z :=
  if between 48 57 c then Some (code c - 48) else
  if between 97 102 c then Some (code c - 87) else
  if between 65 70 c then Some (code c - 55) else None.

(** [unescape]: [plus] says whether a plus sign is a space. *)
Definition EscapeError (l : list ascii) : error := Text "invalid URL escape %q" [FStr (implode (take 3 l))].
Fixpoint unescape (plus : bool) (l : list ascii) : result (list ascii) :=
  match l with
  | [] => Ok []
  | "%"%char :: (a :: b :: rest) as tail =>
      match unhex a, unhex b with
      | Some x, Some y => rest ← unescape plus rest; Ok (byte (16 * x + y) :: rest)
      | _, _ => Err (EscapeError ("%"%char :: tail))
      end
  | "%"%char :: tail => Err (EscapeError ("%"%char :: tail))
  | c :: tail => rest ← unescape plus tail; Ok ((if plus && bool_decide (c = "+"%char) then " "%char else c) :: rest)
  end.

Definition control_byte (c : ascii) : bool := (code c <? 32) || (code c =? 127).

(** The text before the first occurrence of a byte, and the text after it. *)
Fixpoint cut_at (sep : ascii) (l : list ascii) : list ascii * list ascii :=
  match l with
  | [] => ([], [])
  | c :: l => if decide (c = sep) then ([], l) else let '(a, b) := cut_at sep l in (c :: a, b)
  end.

(** [url.Parse] of a fixed scheme and host with this path and what follows it: no control
    byte before the fragment, and percent signs of the path and the fragment begin an
    escape; the query is not looked into. *)
Definition ErrControl : error := New "net/url: invalid control character in URL".
Definition Parse_at (host : string) (rest : list ascii) : result unit :=
  let '(u, frag) := cut_at "#" rest in
  let '(path, _) := cut_at "?" u in
  let parse_error (text : list ascii) (e : error) : result unit :=
    Err (Wrapf "parse %q: %w" [FStr (host ++ implode text)] e) in
  if existsb control_byte u then parse_error u ErrControl else
  match unescape false path with
  | Err e => parse_error u e
  | Ok _ => match unescape false frag with Err e => parse_error rest e | Ok _ => Ok () end
  end.

(** * The request *)
Record http_post := MkHttpPost {
  post_URL : string;
  post_Authorization : string;
  post_ContentType : string;
  post_Body : list ascii;
  post_Timeout : Z;
}.
Record http_response := MkHttpResponse { StatusCode : Z; Body : string }.

(** [Do] of an [http.Client] and reading the answer's body, whose read error is dropped. *)
Class HttpClient (W : Type) := { client_Do : http_post → eff W http_response }.

Record TwilioSender := MkTwilioSender {
  tw_AccountSID : string;
  tw_AuthToken : string;
  tw_FromNumber : string;
  tw_Timeout : Z;
}.
Definition NewTwilioSmsSender (accountSID authToken fromNumber : string) (connectionTimeoutSec : Z) : TwilioSender :=
  MkTwilioSender accountSID authToken fromNumber (seconds connectionTimeoutSec).

Definition twilio_host : string := "https://api.twilio.com".
Definition twilio_path (accountSID : string) : string := "/2010-04-01/Accounts/" ++ accountSID ++ "/Messages.json".

(** [SetBasicAuth]. *)
Definition basic_auth (username password : string) : string :=
  "Basic " ++ EncodeToString StdEncoding (username ++ ":" ++ password).

Definition twilio_request (sender : TwilioSender) (recipient message : string) : http_post :=
  MkHttpPost (twilio_host ++ twilio_path (tw_AccountSID sender)) (basic_auth (tw_AccountSID sender) (tw_AuthToken sender))
    "application/x-www-form-urlencoded"
    (Values_Encode [("To", recipient); ("From", tw_FromNumber sender); ("Body", message)]) (tw_Timeout sender).

Definition Twilio_SendSms {W} `{H : HttpClient W} (sender : TwilioSender) (recipient message : string)
    : eff W string :=
  lift (Parse_at twilio_host (explode (twilio_path (tw_AccountSID sender))));;
  response ← client_Do (twilio_request sender recipient message);
  if 300 <=? StatusCode response then lift (Err (Text "twilio API error: %s" [FStr (Body response)])) else
  mret (Body response).

(** * What a server reads *)
Definition decode_pair (part : list ascii) : result (string * string) :=
  let '(k, v) := cut_at "=" part in
  k ← unescape true k; v ← unescape true v; Ok (implode k, implode v).
Fixpoint decode_parts (parts : list (list ascii)) : result (list (string * string)) :=
  match parts with
  | [] => Ok []
  | [] :: parts => decode_parts parts
  | part :: parts => kv ← decode_pair part; rest ← decode_parts parts; Ok (kv :: rest)
  end.
Definition form_decode (body : list ascii) : result (list (string * string)) := decode_parts (split_b "&" body).

(** What [escape_byte] writes for a byte reads as that byte, and is no separator: checked
    on all of them. *)
Definition good_escape (c : ascii) : bool :=
  forallb (λ d, negb (bool_decide (d = "="%char)) && negb (bool_decide (d = "&"%char))) (escape_byte c) &&
  match escape_byte c with
  | [d] => negb (bool_decide (d = "%"%char)) && bool_decide ((if bool_decide (d = "+"%char) then " "%char else d) = c)
  | [p; a; b] =>
      bool_decide (p = "%"%char) &&
      match unhex a, unhex b with Some x, Some y => bool_decide (byte (16 * x + y) = c) | _, _ => false end
  | _ => false
  end.
Lemma escape_good c : good_escape c = true.
Proof. destruct c as [[] [] [] [] [] [] [] []]; vm_compute; reflexivity. Qed.

Lemma unescape_percent plus a b rest :
  unescape plus ("%"%char :: a :: b :: rest) =
  match unhex a, unhex b with
  | Some x, Some y => rest ← unescape plus rest; Ok (byte (16 * x + y) :: rest)
  | _, _ => Err (EscapeError ("%"%char :: a :: b :: rest))
  end.
Proof. done. Qed.
Lemma unescape_plain plus c rest : c ≠ "%"%char →
  unescape plus (c :: rest) =
  rest ← unescape plus rest; Ok ((if plus && bool_decide (c = "+"%char) then " "%char else c) :: rest).
Proof. intros Hc. destruct c as [[] [] [] [] [] [] [] []]; done. Qed.

Lemma unescape_escape c l : unescape true (escape_byte c ++ l) = (λ r, c :: r) <$> unescape true l.
Proof.
  pose proof (escape_good c) as H. unfold good_escape in H. apply andb_true_iff in H as [_ H].
  destruct (escape_byte c) as [|p [|a [|b [|]]]]; try done.
  - apply andb_true_iff in H as [Hp%negb_true_iff%bool_decide_eq_false Hc%bool_decide_eq_true].
    cbn [app]. rewrite unescape_plain by done. rewrite andb_true_l, Hc. by destruct (unescape true l).
  - apply andb_true_iff in H as [->%bool_decide_eq_true H]. cbn [app]. rewrite unescape_percent.
    destruct (unhex a), (unhex b); try done. apply bool_decide_eq_true in H as ->. by destruct (unescape true l).
Qed.

Lemma unescape_QueryEscape l : unescape true (QueryEscape l) = Ok l.
Proof.
  unfold QueryEscape. induction l as [|c l IH]; [done|]. cbn [mbind list_bind]. by rewrite unescape_escape, IH.
Qed.

(** The separators of a form do not occur in an escaped text. *)
Lemma escape_safe c : "="%char ∉ escape_byte c ∧ "&"%char ∉ escape_byte c.
Proof.
  pose proof (escape_good c) as H. apply andb_true_iff in H as [H _]. rewrite forallb_forall in H.
  split; intros Hin%list_elem_of_In%H; by rewrite ?andb_false_r in Hin.
Qed.
Lemma QueryEscape_safe l : "="%char ∉ QueryEscape l ∧ "&"%char ∉ QueryEscape l.
Proof.
  unfold QueryEscape. split; intros (c & H & _)%list_elem_of_bind; by apply escape_safe in H.
Qed.

Lemma cut_at_app sep l k : sep ∉ l → cut_at sep (l ++ sep :: k) = (l, k).
Proof.
  induction l as [|c l IH]; simpl; [by rewrite decide_True|].
  intros [Hc Hl]%not_elem_of_cons. by rewrite decide_False, IH.
Qed.

Lemma split_b_app sep l k : sep ∉ l → split_b sep (l ++ sep :: k) = l :: split_b sep k.
Proof.
  induction l as [|c l IH]; simpl; [by rewrite decide_True|].
  intros [Hc Hl]%not_elem_of_cons. by rewrite decide_False, IH.
Qed.
Lemma split_b_none sep l : sep ∉ l → split_b sep l = [l].
Proof.
  induction l as [|c l IH]; simpl; [done|]. intros [Hc Hl]%not_elem_of_cons. by rewrite decide_False, IH.
Qed.

Lemma encode_pair_safe kv : "&"%char ∉ encode_pair kv.
Proof.
  unfold encode_pair. rewrite elem_of_app, elem_of_cons.
  pose proof (QueryEscape_safe (explode kv.1)). pose proof (QueryEscape_safe (explode kv.2)).
  intros [?|[[=]|?]]; tauto.
Qed.

Lemma decode_encode_pair kv : decode_pair (encode_pair kv) = Ok kv.
Proof.
  unfold decode_pair, encode_pair. rewrite cut_at_app by apply QueryEscape_safe.
  rewrite !unescape_QueryEscape. simpl. destruct kv. by rewrite !implode_explode.
Qed.
Lemma decode_parts_cons kv parts :
  decode_parts (encode_pair kv :: parts) = rest ← decode_parts parts; Ok (kv :: rest).
Proof.
  cbn [decode_parts]. rewrite decode_encode_pair. unfold encode_pair.
  by destruct (QueryEscape (explode kv.1)).
Qed.

Lemma form_roundtrip values : form_decode (encode_pairs values) = Ok values.
Proof.
  unfold form_decode. induction values as [|kv [|kv' values] IH]; [done|..]; cbn [encode_pairs] in *.
  - rewrite split_b_none by apply encode_pair_safe. by rewrite decode_parts_cons.
  - rewrite split_b_app by apply encode_pair_safe. by rewrite decode_parts_cons, IH.
Qed.

(** Basic authentication gives its user and password back, when the user has no colon. *)
Definition parse_basic_auth (header : string) : option (string * string) :=
  l ← prefix_b (explode "Basic ") (explode header);
  match DecodeString StdEncoding (implode l) with
  | Ok text => let '(u, p) := cut_at ":" (explode text) in Some (implode u, implode p)
  | Err _ => None
  end.
Lemma parse_basic_auth_ok u p : ":"%char ∉ explode u → parse_basic_auth (basic_auth u p) = Some (u, p).
Proof.
  intros Hu. unfold parse_basic_auth, basic_auth.
  rewrite explode_app, (proj2 (prefix_b_Some _ _ _) eq_refl). simpl.
  rewrite implode_explode, DecodeString_EncodeToString by (by left).
  rewrite !explode_app. simpl. rewrite cut_at_app by done. by rewrite !implode_explode.
Qed.


(** A message with separators in it, and a client that notes what it is asked. *)
Definition noting_client : HttpClient (list http_post) := {| client_Do post p := (p ++ [post], Ok (MkHttpResponse 201 "SM7")) |}.
Definition demo_twilio : TwilioSender := NewTwilioSmsSender "AC1" "tok" "+1 555" 30.
