(* ===== verification/Service.v ===== *)
(** The notification service (src/internal/service/notification_service.go and
    notification_retry.go): sending, reading, rescheduling and cancelling, the
    choice of a sender per tenant, and the retry worker's store and dispatcher.

    The world [S] holds the notifications table; [Outside] is the rest of what the
    service calls: the clock, the e-mail and SMS providers, the tenant lookup and
    the scheduler's view of tenant states.  Its laws say that none of them touches
    the notifications table. *)
From S2P Require Import Prelude GoStrings Gorm Model Tenant.
Open Scope Z_scope.

Definition ErrSMSDisabled : error := New "sms delivery disabled: missing Twilio credentials".
Definition ErrNotificationNotEditable : error := New "notification must be queued before editing".
Definition ErrMissingTenantContext : error := New "tenant context missing".

(** * Senders: the one the service was built with, or one per tenant *)
Inductive EmailSender := DefaultEmailSender | SMTPEmailSender (credentials : EmailCredentials).
Inductive SmsSender := DefaultSmsSender | TwilioSmsSender (credentials : SMSCredentials).

Class Outside (S : Type) := {
  TimeNow : eff S Time;
  SendEmail : EmailSender → string → string → string → list EmailAttachment → eff S unit;
  SendSms : SmsSender → string → string → eff S string;
  ResolveByID : string → eff S RuntimeConfig;
  activeTenant : S → string → bool;
}.

(** None of them changes the notifications, and the clock does not fail. *)
Class OutsideLaws (S : Type) `{T : Table S Notification} `{O : Outside S} : Prop := {
  TimeNow_rows s : rows (TimeNow s).1 = rows s;
  TimeNow_ok s : ∃ t, (TimeNow s).2 = Ok t;
  SendEmail_rows x a b c d s : rows (SendEmail x a b c d s).1 = rows s;
  SendSms_rows x a b s : rows (SendSms x a b s).1 = rows s;
  ResolveByID_rows x s : rows (ResolveByID x s).1 = rows s;
}.

(** * The service *)
Record service := MkService {
  hasTenantRepo : bool;
  defaultEmailSender : bool;
  defaultSmsSender : bool;
  maxRetries : Z;
  emailSenders : gmap string EmailSender;
  smsSenders : gmap string SmsSender;
}.

Definition emailSenderForTenant (svc : service) (cfg : RuntimeConfig) : service * result EmailSender :=
  if defaultEmailSender svc then (svc, Ok DefaultEmailSender) else
  let e := rc_Email cfg in
  if bool_decide (ec_Host e = ""%string) || bool_decide (ec_Username e = ""%string)
     || bool_decide (ec_Password e = ""%string) || bool_decide (ec_FromAddress e = ""%string)
  then (svc, Err (Text "email credentials unavailable for tenant %s" [FStr (rc_TenantID cfg)])) else
  match emailSenders svc !! rc_TenantID cfg with
  | Some cached => (svc, Ok cached)
  | None =>
      let sender := SMTPEmailSender e in
      (MkService (hasTenantRepo svc) (defaultEmailSender svc) (defaultSmsSender svc) (maxRetries svc)
         (<[rc_TenantID cfg := sender]> (emailSenders svc)) (smsSenders svc), Ok sender)
  end.

Definition smsSenderForTenant (svc : service) (cfg : RuntimeConfig) : service * result SmsSender :=
  if defaultSmsSender svc then (svc, Ok DefaultSmsSender) else
  match rc_SMS cfg with
  | None => (svc, Err ErrSMSDisabled)
  | Some c =>
      if bool_decide (sms_AccountSID c = ""%string) || bool_decide (sms_AuthToken c = ""%string)
         || bool_decide (sms_FromNumber c = ""%string)
      then (svc, Err ErrSMSDisabled) else
      match smsSenders svc !! rc_TenantID cfg with
      | Some cached => (svc, Ok cached)
      | None =>
          let sender := TwilioSmsSender c in
          (MkService (hasTenantRepo svc) (defaultEmailSender svc) (defaultSmsSender svc) (maxRetries svc)
             (emailSenders svc) (<[rc_TenantID cfg := sender]> (smsSenders svc)), Ok sender)
      end
  end.

(** [NewNotificationServiceWithSenders]: without a tenant repository the senders
    come from the configuration; [given_email] and [given_sms] say that the caller
    passed one, [twilioConfigured] is [cfg.TwilioConfigured()]. *)
Definition NewNotificationServiceWithSenders (given_email given_sms hasTenantRepo twilioConfigured : bool)
    (maxRetries : Z) : service :=
  MkService hasTenantRepo (given_email || negb hasTenantRepo)
    (if given_sms then true else if negb hasTenantRepo && twilioConfigured then true else false)
    maxRetries ∅ ∅.

(** The context's tenant, which the interceptor or the HTTP session put there. *)
Definition requireTenant (ctx : option RuntimeConfig) : result RuntimeConfig :=
  match ctx with Some cfg => Ok cfg | None => Err ErrMissingTenantContext end.

(** Updates of a record by the service. *)
Definition set_outcome (n : Notification) (status provider : string) (at_ : Time) : Notification :=
  MkNotification (n_ID n) (n_TenantID n) (n_NotificationID n) (n_NotificationType n) (n_Recipient n)
    (n_Subject n) (n_Message n) provider status (n_RetryCount n) at_ (n_ScheduledFor n) (n_CreatedAt n)
    (n_UpdatedAt n) (n_Attachments n).
Definition set_schedule (n : Notification) (status : string) (scheduledFor : option Time) (now : Time)
    : Notification :=
  MkNotification (n_ID n) (n_TenantID n) (n_NotificationID n) (n_NotificationType n) (n_Recipient n)
    (n_Subject n) (n_Message n) (n_ProviderMessageID n) status (n_RetryCount n) (n_LastAttemptedAt n)
    scheduledFor (n_CreatedAt n) now (n_Attachments n).
Definition set_attempt (n : Notification) (status provider : string) (retryCount : Z) (at_ : Time)
    : Notification :=
  MkNotification (n_ID n) (n_TenantID n) (n_NotificationID n) (n_NotificationType n) (n_Recipient n)
    (n_Subject n) (n_Message n) provider status retryCount at_ (n_ScheduledFor n) (n_CreatedAt n) at_
    (n_Attachments n).

Section service.
Context {S : Type} `{T : Table S Notification} `{O : Outside S}.

(** Operations on the service and the world together. *)
Definition state : Type := service * S.
Definition on_world {A} (m : eff S A) : eff state A := λ st,
  let '(s, r) := m st.2 in ((st.1, s), r).
Definition on_service {A} (f : service → service * result A) : eff state A := λ st,
  let '(svc, r) := f st.1 in ((svc, st.2), r).
(** A call whose error the caller looks at instead of returning. *)
Definition attempt {A} (m : eff S A) : eff state (result A) := λ st,
  let '(s, r) := m st.2 in ((st.1, s), Ok r).

(** The dispatch inside [SendNotification]: what the record becomes. *)
Definition dispatch_now (cfg : RuntimeConfig) (request : NotificationRequest) (n : Notification)
    (currentTime : Time) : eff state Notification :=
  if decide (n_NotificationType n = NotificationEmail) then
    sender ← on_service (λ svc, emailSenderForTenant svc cfg);
    r ← attempt (SendEmail sender (rq_recipient request) (rq_subject request) (rq_message request)
                  (rq_attachments request));
    mret (set_outcome n (match r with Ok _ => StatusSent | Err _ => StatusErrored end)
            (n_ProviderMessageID n) currentTime)
  else if decide (n_NotificationType n = NotificationSMS) then
    sender ← on_service (λ svc, smsSenderForTenant svc cfg);
    r ← attempt (SendSms sender (rq_recipient request) (rq_message request));
    mret (match r with
          | Ok provider => set_outcome n StatusSent provider currentTime
          | Err _ => set_outcome n StatusErrored (n_ProviderMessageID n) currentTime
          end)
  else mret n.

Definition SendNotification (ctx : option RuntimeConfig) (request : NotificationRequest)
    : eff state NotificationResponse :=
  cfg ← lift (requireTenant ctx);
  nano ← on_world TimeNow;
  now ← on_world TimeNow;
  let newNotification := NewNotification ("notif-" ++ pretty nano) (rc_TenantID cfg) request now in
  currentTime ← on_world TimeNow;
  let later := match rq_scheduledFor request with Some t => currentTime <? t | None => false end in
  n ← (if later then mret newNotification else dispatch_now cfg request newNotification currentTime);
  created ← on_world (CreateNotification n);
  mret (NewNotificationResponse created).

Definition GetNotificationStatus (ctx : option RuntimeConfig) (notificationID : string)
    : eff state NotificationResponse :=
  cfg ← lift (requireTenant ctx);
  n ← on_world (MustGetNotificationByID (rc_TenantID cfg) notificationID);
  mret (NewNotificationResponse n).

Definition Service_ListNotifications `{Q : Sql} (ctx : option RuntimeConfig)
    (filters : NotificationListFilters) : eff state (list NotificationResponse) :=
  cfg ← lift (requireTenant ctx);
  records ← on_world (ListNotifications (rc_TenantID cfg) filters);
  mret (NewNotificationResponse <$> records).

Definition Service_ListNotificationsPage `{Q : Sql} `{C : CursorCodec} (ctx : option RuntimeConfig)
    (filters : NotificationListFilters) (pageRequest : NotificationListPageRequest)
    : eff state (list NotificationResponse * string) :=
  cfg ← lift (requireTenant ctx);
  page ← on_world (ListNotificationsPage (rc_TenantID cfg) filters pageRequest);
  mret (NewNotificationResponse <$> pg_Notifications page, pg_NextCursor page).

Definition Service_ListNotificationsAll `{Q : Sql} (filters : NotificationListFilters)
    : eff state (list NotificationResponse) :=
  records ← on_world (ListNotificationsAll filters);
  mret (NewNotificationResponse <$> records).

Definition RescheduleNotification (ctx : option RuntimeConfig) (notificationID : string)
    (scheduledFor : Time) : eff state NotificationResponse :=
  cfg ← lift (requireTenant ctx);
  existing ← on_world (MustGetNotificationByID (rc_TenantID cfg) notificationID);
  if bool_decide (n_Status existing ≠ StatusQueued) then lift (Err ErrNotificationNotEditable) else
  now ← on_world TimeNow;
  let updated := set_schedule existing (n_Status existing) (Some scheduledFor) now in
  saved ← on_world (SaveNotification updated);
  mret (NewNotificationResponse saved).

Definition CancelNotification (ctx : option RuntimeConfig) (notificationID : string)
    : eff state NotificationResponse :=
  cfg ← lift (requireTenant ctx);
  existing ← on_world (MustGetNotificationByID (rc_TenantID cfg) notificationID);
  if bool_decide (n_Status existing ≠ StatusQueued) then lift (Err ErrNotificationNotEditable) else
  now ← on_world TimeNow;
  let updated := set_schedule existing StatusCancelled None now in
  saved ← on_world (SaveNotification updated);
  mret (NewNotificationResponse saved).

(** * Retries (notification_retry.go) *)

(** [pendingJobsFilter] is the [pending] of the model; with a tenant repository
    only active tenants' notifications are taken. *)
Definition pendingJobsFilter : Z → Time → Notification → bool := pending.

(** A job of the scheduler; its payload is an [any]. *)
Inductive Payload := NoPayload | OtherPayload | NotificationPayload (record : Notification).
Record Job := MkJob {
  job_ID : string;
  job_ScheduledFor : option Time;
  job_RetryCount : Z;
  job_LastAttemptedAt : Time;
  job_Payload : Payload;
}.
Definition jobsFromNotifications (records : list Notification) : list Job :=
  (λ n, MkJob (n_NotificationID n) (n_ScheduledFor n) (n_RetryCount n) (n_LastAttemptedAt n)
          (NotificationPayload n)) <$> records.

Definition pendingJobsAll (maxRetries : Z) (now : Time) : eff S (list Job) :=
  notifications ← Find (pendingJobsFilter maxRetries now);
  mret (jobsFromNotifications notifications).
(** The inner join with the active tenants. *)
Definition pendingJobsForActiveTenants (maxRetries : Z) (now : Time) : eff S (list Job) := λ s,
  (notifications ← Find (λ n, activeTenant s (n_TenantID n) && pendingJobsFilter maxRetries now n);
   mret (jobsFromNotifications notifications)) s.
Definition PendingJobs (hasTenantRepo : bool) (maxRetries : Z) (now : Time) : eff S (list Job) :=
  if hasTenantRepo then pendingJobsForActiveTenants maxRetries now else pendingJobsAll maxRetries now.

Definition notificationFromJob (job : Job) : result Notification :=
  match job_Payload job with
  | NoPayload => Err (Text "missing notification payload for job %s" [FStr (job_ID job)])
  | OtherPayload => Err (Text "invalid notification payload type for job %s" [FStr (job_ID job)])
  | NotificationPayload record => Ok record
  end.
Definition recordFromJob (job : Job) : result Notification :=
  match job_Payload job with
  | NotificationPayload record => Ok record
  | _ => Err (Text "notification payload missing from job" [])
  end.

(** What the scheduler reports of an attempt. *)
Record AttemptUpdate := MkUpdate {
  up_Status : string;
  up_ProviderMessageID : string;
  up_RetryCount : Z;
  up_LastAttemptedAt : Time;
}.

(** The job's payload is the record as [PendingJobs] read it. *)
Definition ApplyAttemptResult (job : Job) (update : AttemptUpdate) : eff S unit :=
  record ← lift (notificationFromJob job);
  let canonicalStatus := CanonicalStatus (up_Status update) in
  let canonicalStatus := if decide (canonicalStatus = ""%string) then StatusErrored else canonicalStatus in
  SaveNotification (set_attempt record canonicalStatus (up_ProviderMessageID update)
    (up_RetryCount update) (up_LastAttemptedAt update));;
  mret ().

(** [runtimeForTenantID]; [ctx] is the worker's context. *)
Definition runtimeForTenantID (ctx : option RuntimeConfig) (tenantID : string) : eff state RuntimeConfig := λ st,
  if decide (tenantID = ""%string) then (st, Err ErrMissingTenantContext) else
  if hasTenantRepo st.1 then on_world (ResolveByID tenantID) st else
  match ctx with
  | None =>
      if defaultEmailSender st.1 || defaultSmsSender st.1
      then (st, Ok (MkRuntime (MkTenant tenantID "" "" "" zeroTime zeroTime) (MkEmailCredentials "" 0 "" "" "") None))
      else (st, Err ErrMissingTenantContext)
  | Some cfg =>
      if decide (rc_TenantID cfg = tenantID) then (st, Ok cfg)
      else (st, Err (Text "tenant mismatch: context=%s payload=%s" [FStr (rc_TenantID cfg); FStr tenantID]))
  end.

Record DispatchResult := MkDispatchResult { dr_Status : string; dr_ProviderMessageID : string }.

(** [Attempt] returns a result and maybe an error with it. *)
Definition Attempt (ctx : option RuntimeConfig) (job : Job)
    : state → state * (DispatchResult * option error) := λ st,
  let errored e := (MkDispatchResult StatusErrored "", Some e) in
  match recordFromJob job with
  | Err e => (st, (MkDispatchResult "" "", Some e))
  | Ok record =>
  let '(st, cfg) := runtimeForTenantID ctx (n_TenantID record) st in
  match cfg with
  | Err e => (st, errored e)
  | Ok cfg =>
      if decide (n_NotificationType record = NotificationEmail) then
        let '(st, sender) := on_service (λ svc, emailSenderForTenant svc cfg) st in
        match sender with
        | Err e => (st, errored e)
        | Ok sender =>
            let '(st, r) := on_world (SendEmail sender (n_Recipient record) (n_Subject record)
              (n_Message record) (ToEmailAttachments (n_Attachments record))) st in
            (st, match r with
                 | Err e => (MkDispatchResult "" "", Some e)
                 | Ok _ => (MkDispatchResult StatusSent "", None)
                 end)
        end
      else if decide (n_NotificationType record = NotificationSMS) then
        let '(st, sender) := on_service (λ svc, smsSenderForTenant svc cfg) st in
        match sender with
        | Err e => (st, errored e)
        | Ok sender =>
            let '(st, r) := on_world (SendSms sender (n_Recipient record) (n_Message record)) st in
            (st, match r with
                 | Err e => (MkDispatchResult "" "", Some e)
                 | Ok provider => (MkDispatchResult StatusSent provider, None)
                 end)
        end
      else (st, errored (Text "unsupported notification type: %s" [FStr (n_NotificationType record)]))
  end
  end.
End service.

(** * Lemmas *)
Lemma on_world_inv {S A} (m : eff S A) st st' r :
  on_world m st = (st', r) → st'.1 = st.1 ∧ m st.2 = (st'.2, r).
Proof. unfold on_world. destruct (m st.2) as [s x] eqn:E. by intros [= <- <-]. Qed.

Lemma attempt_inv {S A} (m : eff S A) st st' r :
  attempt m st = (st', r) → st'.1 = st.1 ∧ st'.2 = (m st.2).1 ∧ r = Ok (m st.2).2.
Proof. unfold attempt. destruct (m st.2) as [s x] eqn:E. by intros [= <- <-]. Qed.

Lemma on_service_inv {S A} (f : service → service * result A) (st st' : service * S) r :
  on_service f st = (st', r) → st'.2 = st.2.
Proof. unfold on_service. destruct (f st.1). by intros [= <- <-]. Qed.

Section lemmas.
Context {S : Type} `{T : Table S Notification} `{O : Outside S}.
Context `{L : !TableLaws S Notification} `{OL : !OutsideLaws S}.

Lemma now_rows (st st' : service * S) r :
  on_world TimeNow st = (st', r) → st'.1 = st.1 ∧ rows st'.2 = rows st.2 ∧ ∃ t, r = Ok t.
Proof.
  intros [H1 H2]%on_world_inv. split; [done|].
  pose proof (TimeNow_rows st.2) as Hr. pose proof (TimeNow_ok st.2) as [t Ht].
  rewrite H2 in Hr, Ht. simpl in *. eauto.
Qed.

Lemma MustGet_inv tenantID notificationID (st st' : service * S) r :
  on_world (MustGetNotificationByID tenantID notificationID) st = (st', r) →
  rows st'.2 = rows st.2 ∧
  ∀ n, r = Ok n → tenantID ≠ ""%string → notificationID ≠ ""%string →
    n ∈ rows st.2 ∧ n_TenantID n = tenantID ∧ n_NotificationID n = notificationID.
Proof.
  intros [_ H]%on_world_inv. unfold MustGetNotificationByID in H.
  destruct (GetNotificationByID tenantID notificationID st.2) as [s x] eqn:E. injection H as -> <-.
  apply First_law in E as [Hr Hx]. split; [done|]. intros n Hn Ht Hid.
  destruct x as [n'|e]; [|by case_match]. injection Hn as ->.
  apply find_Some_spec in Hx as [Hin Hp]. to_prop. split; [done|].
  split; by apply whereField_eq.
Qed.

(** On a database that answers, the first row found, or the not-found error. *)
Lemma MustGet_run `{R : !Reliable S Notification} tenantID notificationID (st : service * S) :
  ∃ s, on_world (MustGetNotificationByID tenantID notificationID) st =
    ((st.1, s), match List.find (λ n, whereField (n_TenantID n) tenantID && whereField (n_NotificationID n) notificationID)
                        (rows st.2) with
                | Some n => Ok n
                | None => Err (Wrapf "%w: %s" [FStr notificationID] ErrNotificationNotFound)
                end).
Proof.
  unfold on_world, MustGetNotificationByID, GetNotificationByID. set (q := λ n, _ && _).
  destruct (First q st.2) as [s x] eqn:E. exists s. destruct (List.find q (rows st.2)) as [n|] eqn:Ef.
  - apply First_reliable in Ef. rewrite E in Ef. simpl in Ef. by subst x.
  - apply First_missing in Ef. rewrite E in Ef. simpl in Ef. by subst x.
Qed.

Lemma Save_inv n (st st' : service * S) r :
  n_ID n ∈ (n_ID <$> rows st.2) → on_world (SaveNotification n) st = (st', r) →
  match r with
  | Ok y => ∃ t, y = set_UpdatedAt n t ∧
      rows st'.2 = (λ z, if n_ID n =? n_ID z then set_UpdatedAt n t else z) <$> rows st.2
  | Err _ => rows st'.2 = rows st.2
  end.
Proof.
  intros Hin [_ H]%on_world_inv. unfold SaveNotification in H.
  apply Save_law in H.
  - destruct r; [|done]. destruct H as ((t & ->) & ->). eauto.
  - apply existsb_exists. apply list_elem_of_fmap in Hin as (z & Hz & Hin).
    exists z. split; [by apply list_elem_of_In|]. simpl. by apply Z.eqb_eq.
Qed.

(** The shape of the two editing operations. *)
Lemma edit_inv (ctx : option RuntimeConfig) notificationID (edit : Notification → Time → Notification)
    (st st' : service * S) r cfg :
  (∀ n t, n_ID (edit n t) = n_ID n) →
  ctx = Some cfg → rc_TenantID cfg ≠ ""%string → notificationID ≠ ""%string →
  (cfg ← lift (requireTenant ctx);
   existing ← on_world (MustGetNotificationByID (rc_TenantID cfg) notificationID);
   if bool_decide (n_Status existing ≠ StatusQueued) then lift (Err ErrNotificationNotEditable) else
   now ← on_world TimeNow;
   saved ← on_world (SaveNotification (edit existing now));
   mret (NewNotificationResponse saved)) st = (st', r) →
  match r with
  | Ok resp => ∃ n now t, n ∈ rows st.2 ∧ n_TenantID n = rc_TenantID cfg ∧
      n_NotificationID n = notificationID ∧ n_Status n = StatusQueued ∧
      resp = NewNotificationResponse (set_UpdatedAt (edit n now) t) ∧
      rows st'.2 = (λ z, if n_ID n =? n_ID z then set_UpdatedAt (edit n now) t else z) <$> rows st.2
  | Err _ => rows st'.2 = rows st.2
  end.
Proof.
  intros Hedit -> Ht Hid H. apply eff_bind_inv in H as [(e & [=] & _)|(st0 & c & [= <- <-] & H)].
  apply eff_bind_inv in H as [(e & H & ->)|(st1 & n & Hget & H)].
  { by apply MustGet_inv in H as [-> _]. }
  apply MustGet_inv in Hget as [Hr1 Hn]. destruct (Hn n eq_refl Ht Hid) as (Hin & Hten & Hnid).
  case_bool_decide as Hq; [by injection H as <- <-|].
  apply eff_bind_inv in H as [(e & H & ->)|(st2 & now & Hnow & H)].
  { apply now_rows in H as (_ & -> & _). done. }
  apply now_rows in Hnow as (_ & Hr2 & _).
  assert (n_ID (edit n now) ∈ (n_ID <$> rows st2.2)) as Hin2.
  { rewrite Hr2, Hr1, Hedit. by apply list_elem_of_fmap_2. }
  apply eff_bind_inv in H as [(e & H & ->)|(st3 & u & Hsave & H)].
  { apply Save_inv in H; [|done]. by rewrite H, Hr2. }
  apply Save_inv in Hsave; [|done]. destruct Hsave as (t & -> & Hrows). injection H as <- <-.
  exists n, now, t. rewrite Hrows, Hr2, Hr1. split_and!; try done.
  apply list_fmap_ext. intros ? z _. by rewrite Hedit.
Qed.
End lemmas.

(** * Sending *)

(** What the provider answered to this request, over a sender of this tenant: the
    provider's message id, empty for e-mail. *)
Definition provider_answer {S} `{O : Outside S} (cfg : RuntimeConfig) (request : NotificationRequest)
    (svc : service) (s1 s2 : S) (r : result string) : Prop :=
  (rq_type request = NotificationEmail ∧ ∃ sender u, (emailSenderForTenant svc cfg).2 = Ok sender ∧
     SendEmail sender (rq_recipient request) (rq_subject request) (rq_message request)
       (rq_attachments request) s1 = (s2, u) ∧
     r = match u with Ok _ => Ok ""%string | Err e => Err e end) ∨
  (rq_type request = NotificationSMS ∧ ∃ sender, (smsSenderForTenant svc cfg).2 = Ok sender ∧
     SendSms sender (rq_recipient request) (rq_message request) s1 = (s2, r)).

(** The record carries the request, for this tenant. *)
Definition carries (cfg : RuntimeConfig) (request : NotificationRequest) (n : Notification) : Prop :=
  n_TenantID n = rc_TenantID cfg ∧ n_NotificationType n = rq_type request ∧
  n_Recipient n = rq_recipient request ∧ n_Subject n = rq_subject request ∧
  n_Message n = rq_message request ∧ n_ScheduledFor n = rq_scheduledFor request ∧
  n_RetryCount n = 0 ∧ ToEmailAttachments (n_Attachments n) = rq_attachments request.

Lemma ToEmailAttachments_convert tenantID notificationID l :
  ToEmailAttachments (convertEmailAttachments tenantID notificationID l) = l.
Proof. induction l as [|[]]; [done|]. csimpl. by f_equal. Qed.

Section sending.
Context {S : Type} `{T : Table S Notification} `{O : Outside S}.
Context `{L : !TableLaws S Notification} `{OL : !OutsideLaws S}.

Lemma dispatch_now_spec cfg request notificationID now currentTime (st st' : service * S) r :
  isSupportedNotificationType (rq_type request) = true →
  dispatch_now cfg request (NewNotification notificationID (rc_TenantID cfg) request now) currentTime st
    = (st', r) →
  rows st'.2 = rows st.2 ∧
  ∀ n, r = Ok n → carries cfg request n ∧ ∃ s2 answer,
    provider_answer cfg request st.1 st.2 s2 answer ∧ st'.2 = s2 ∧
    match answer with
    | Ok provider => n_Status n = StatusSent ∧ n_ProviderMessageID n = provider
    | Err _ => n_Status n = StatusErrored ∧ n_ProviderMessageID n = ""%string
    end.
Proof.
  intros Hsup H. unfold dispatch_now, isSupportedNotificationType in *.
  cbn [NewNotification n_NotificationType] in H.
  pose proof (ToEmailAttachments_convert (rc_TenantID cfg) notificationID (rq_attachments request)).
  destruct (decide (rq_type request = NotificationEmail)) as [Ht|Ht].
  - apply eff_bind_inv in H as [(e & H & ->)|(st1 & sender & Hs & H)].
    { apply on_service_inv in H as ->. done. }
    pose proof (on_service_inv _ _ _ _ Hs) as Hw. unfold on_service in Hs.
    destruct (emailSenderForTenant st.1 cfg) as [svc x] eqn:Ex. injection Hs as <- ->. simpl in *.
    apply eff_bind_inv in H as [(e & H & ->)|(st2 & u & Hu & H)].
    { apply attempt_inv in H as (_ & _ & [=]). }
    apply attempt_inv in Hu as (_ & Hst2 & [= ->]). simpl in Hst2. injection H as <- <-. rewrite Hst2.
    split; [apply SendEmail_rows|]. intros n [= <-]. split; [done|].
    destruct (SendEmail _ _ _ _ _ st.2) as [s2 u] eqn:Es. exists s2, (match u with Ok _ => Ok ""%string | Err e => Err e end).
    split; [left; split; [done|]; exists sender, u; by rewrite Ex|]. split; [done|]. by destruct u.
  - destruct (decide (rq_type request = NotificationSMS)) as [Hm|Hm].
    2:{ by rewrite !bool_decide_false in Hsup. }
    apply eff_bind_inv in H as [(e & H & ->)|(st1 & sender & Hs & H)].
    { apply on_service_inv in H as ->. done. }
    pose proof (on_service_inv _ _ _ _ Hs) as Hw. unfold on_service in Hs.
    destruct (smsSenderForTenant st.1 cfg) as [svc x] eqn:Ex. injection Hs as <- ->. simpl in *.
    apply eff_bind_inv in H as [(e & H & ->)|(st2 & u & Hu & H)].
    { apply attempt_inv in H as (_ & _ & [=]). }
    apply attempt_inv in Hu as (_ & Hst2 & [= ->]). simpl in Hst2. injection H as <- <-. rewrite Hst2.
    split; [apply SendSms_rows|]. intros n [= <-].
    destruct (SendSms _ _ _ st.2) as [s2 u] eqn:Es.
    split; [by destruct u|]. exists s2, u.
    split; [right; split; [done|]; exists sender; by rewrite Ex|]. split; [done|]. by destruct u.
Qed.
End sending.

(** What became of a request at [currentTime]: it is kept for later, or the provider was
    given it and answered. *)
Definition dispatched {S} `{O : Outside S} (cfg : RuntimeConfig) (request : NotificationRequest)
    (svc : service) (currentTime : Time) (s1 s2 : S) (n : Notification) : Prop :=
  match rq_scheduledFor request with
  | Some t => currentTime < t ∧ s2 = s1 ∧ n_Status n = StatusQueued
  | None => False
  end ∨
  match rq_scheduledFor request with Some t => t ≤ currentTime | None => True end ∧
  ∃ answer, provider_answer cfg request svc s1 s2 answer ∧
    match answer with
    | Ok provider => n_Status n = StatusSent ∧ n_ProviderMessageID n = provider
    | Err _ => n_Status n = StatusErrored ∧ n_ProviderMessageID n = ""%string
    end.

(** The run of a request from [s] to [s']: the clock is read three times, the request is
    dispatched, and the record is created with what came of it. *)
Definition outcome {S} `{T : Table S Notification} `{O : Outside S} (cfg : RuntimeConfig)
    (request : NotificationRequest) (svc : service) (currentTime : Time) (s s' : S) (n : Notification) : Prop :=
  ∃ sa sb s1 s2 nano now n0,
    TimeNow s = (sa, Ok nano) ∧ TimeNow sa = (sb, Ok now) ∧ TimeNow sb = (s1, Ok currentTime) ∧
    dispatched cfg request svc currentTime s1 s2 n0 ∧ CreateNotification n0 s2 = (s', Ok n) ∧
    n_Status n = n_Status n0 ∧ n_ProviderMessageID n = n_ProviderMessageID n0.

Section sent.
Context {S : Type} `{T : Table S Notification} `{O : Outside S}.
Context `{L : !TableLaws S Notification} `{OL : !OutsideLaws S}.

Lemma now_step (st st' : service * S) t :
  on_world TimeNow st = (st', Ok t) → st' = (st.1, st'.2) ∧ TimeNow st.2 = (st'.2, Ok t) ∧ rows st'.2 = rows st.2.
Proof.
  intros H. pose proof (now_rows _ _ _ H) as (H1 & H2 & _). apply on_world_inv in H as [_ H].
  destruct st'. simpl in *. by subst.
Qed.

Lemma dispatch_stage cfg request id now currentTime (st st' : service * S) r :
  isSupportedNotificationType (rq_type request) = true →
  let n0 := NewNotification id (rc_TenantID cfg) request now in
  let later := match rq_scheduledFor request with Some t => currentTime <? t | None => false end in
  (if later then mret n0 else dispatch_now cfg request n0 currentTime) st = (st', r) →
  rows st'.2 = rows st.2 ∧
  ∀ n, r = Ok n → carries cfg request n ∧ dispatched cfg request st.1 currentTime st.2 st'.2 n.
Proof.
  intros Hsup n0 later H. unfold dispatched. destruct later eqn:Hl; subst later.
  - injection H as <- <-. split; [done|]. intros n [= <-].
    split; [unfold carries; split_and!; try done; apply ToEmailAttachments_convert|]. left.
    destruct (rq_scheduledFor request); [|done]. by to_prop.
  - apply dispatch_now_spec in H as [-> Hspec]; [|done]. split; [done|]. intros n ->.
    destruct (Hspec n eq_refl) as (Hc & s2 & answer & Ha & -> & Hst). split; [done|]. right.
    split; [|by exists answer]. destruct (rq_scheduledFor request); [|done]. by to_prop.
Qed.

Lemma SendNotification_inv ctx request (st st' : service * S) r :
  isSupportedNotificationType (rq_type request) = true →
  SendNotification ctx request st = (st', r) →
  match r with
  | Ok response => ∃ cfg n currentTime, ctx = Some cfg ∧ rows st'.2 = rows st.2 ++ [n] ∧
      response = NewNotificationResponse n ∧ carries cfg request n ∧
      outcome cfg request st.1 currentTime st.2 st'.2 n
  | Err _ => rows st'.2 = rows st.2
  end.
Proof.
  intros Hsup H. unfold SendNotification in H.
  apply eff_bind_inv in H as [(e & [= <- _] & ->)|(st0 & cfg & Hcfg & H)]; [done|].
  destruct ctx as [c|]; [|done]. injection Hcfg as <- <-.
  apply eff_bind_inv in H as [(e & H & ->)|(st1 & nano & H1 & H)]; [by apply now_rows in H as (_ & -> & _)|].
  apply now_step in H1 as (E1 & T1 & R1). rewrite E1 in H.
  apply eff_bind_inv in H as [(e & H & ->)|(st2 & now & H2 & H)]; [by apply now_rows in H as (_ & -> & _)|].
  apply now_step in H2 as (E2 & T2 & R2). rewrite E2 in H.
  apply eff_bind_inv in H as [(e & H & ->)|(st3 & currentTime & H3 & H)].
  { apply now_rows in H as (_ & -> & _). simpl in R2 |- *. by rewrite R2. }
  apply now_step in H3 as (E3 & T3 & R3). rewrite E3 in H. simpl in *.
  apply eff_bind_inv in H as [(e & H & ->)|(st4 & n & H4 & H)].
  { apply dispatch_stage in H as [-> _]; [|done]. simpl. by rewrite R3, R2. }
  apply dispatch_stage in H4 as [R4 Hn]; [|done]. destruct (Hn n eq_refl) as [Hc Hd]. simpl in *.
  apply eff_bind_inv in H as [(e & H & ->)|(st5 & y & Hcr & H)].
  { apply on_world_inv in H as [_ H]. apply Create_law in H. simpl in H. by rewrite H, R4, R3, R2. }
  apply on_world_inv in Hcr as [_ Hcr]. pose proof (Create_law _ _ _ _ Hcr) as [(id & -> & Hid) Hr].
  injection H as <- <-. exists c, (set_ID n id), currentTime. rewrite Hr, R4, R3, R2, R1.
  split_and!; try done. by exists st1.2, st2.2, st3.2, st4.2, nano, now, n.
Qed.

(** The id of the new row is new. *)
Lemma outcome_fresh cfg request svc currentTime (s s' : S) n :
  outcome cfg request svc currentTime s s' n → rows s' = rows s ++ [n] → n_ID n ∉ (n_ID <$> rows s).
Proof.
  intros (sa & sb & s1 & s2 & ? & ? & n0 & _ & _ & _ & _ & Hcr & _) Hr.
  unfold CreateNotification in Hcr. apply Create_law in Hcr as [(id & -> & _ & Hfresh) Hr2].
  rewrite Hr in Hr2. apply app_inj_tail in Hr2 as [Hr2 _]. rewrite Hr2.
  intros (z & Hz & Hin)%list_elem_of_fmap. rewrite Forall_forall in Hfresh. destruct (Hfresh z Hin) as [Hne _]. by apply Hne.
Qed.
End sent.

(** C10: sending stores one record for the caller's tenant, or nothing.  When
    [SendNotification] answers without an error, the table has gained exactly one
    row, carrying the request under the caller's tenant, and the response is that
    row: it is queued when the request is scheduled for later than the moment it
    was handled, and otherwise it says what the provider answered to exactly this
    message over a sender of this tenant ("sent" with the provider's id when it
    accepted, "errored" when it did not).  On an error no row is added or
    changed. *)
Theorem SendNotification_outcome {S} `{T : Table S Notification} `{O : Outside S}
    `{L : !TableLaws S Notification} `{OL : !OutsideLaws S} ctx request (st st' : service * S) r :
  isSupportedNotificationType (rq_type request) = true →
  SendNotification ctx request st = (st', r) →
  match r with
  | Ok response => ∃ cfg n currentTime, ctx = Some cfg ∧ rows st'.2 = rows st.2 ++ [n] ∧
      response = NewNotificationResponse n ∧ carries cfg request n ∧
      outcome cfg request st.1 currentTime st.2 st'.2 n
  | Err _ => rows st'.2 = rows st.2
  end.
Proof. apply SendNotification_inv. Qed.

(** * Rescheduling and cancelling *)

(** An edit of one row leaves every other row, and the place of each, alone. *)
Lemma edit_rows (l : list Notification) n (f : Notification) z :
  z ∈ l → n_ID z ≠ n_ID n → z ∈ ((λ z, if n_ID n =? n_ID z then f else z) <$> l).
Proof.
  intros Hz Hne. apply list_elem_of_fmap. exists z. split; [|done].
  by rewrite (proj2 (Z.eqb_neq _ _)).
Qed.

Lemma edited_in (l : list Notification) n f :
  n ∈ l → f ∈ ((λ z, if n_ID n =? n_ID z then f else z) <$> l).
Proof. intros Hn. apply list_elem_of_fmap. exists n. by rewrite Z.eqb_refl. Qed.

(** The relation between the tables before and after an accepted edit of a
    tenant's queued notification: one row [n] became [n'], the rest is unchanged. *)
Definition edited (tenantID notificationID : string) (l l' : list Notification) (n n' : Notification) : Prop :=
  n ∈ l ∧ n_TenantID n = tenantID ∧ n_NotificationID n = notificationID ∧ n_Status n = StatusQueued ∧
  l' = (λ z, if n_ID n =? n_ID z then n' else z) <$> l.

Lemma edits_inv {S} `{T : Table S Notification} `{O : Outside S}
    `{L : !TableLaws S Notification} `{OL : !OutsideLaws S} (cfg : RuntimeConfig) notificationID scheduledFor
    (cancel : bool) (st st' : service * S) r :
  rc_TenantID cfg ≠ ""%string → notificationID ≠ ""%string →
  (if cancel then CancelNotification (Some cfg) notificationID st
   else RescheduleNotification (Some cfg) notificationID scheduledFor st) = (st', r) →
  match r with
  | Ok response => ∃ n t, let n' := set_schedule n (if cancel then StatusCancelled else StatusQueued)
                             (if cancel then None else Some scheduledFor) t in
      edited (rc_TenantID cfg) notificationID (rows st.2) (rows st'.2) n n' ∧
      response = NewNotificationResponse n'
  | Err _ => rows st'.2 = rows st.2
  end.
Proof.
  intros Ht Hid. destruct cancel; intros H.
  - apply (edit_inv (Some cfg) notificationID (λ n t, set_schedule n StatusCancelled None t) _ _ _ cfg)
      in H; [|done..].
    destruct r as [response|]; [|done]. destruct H as (n & now & t & Hn & Hten & Hnid & Hq & -> & Hr).
    exists n, t. by split.
  - apply (edit_inv (Some cfg) notificationID (λ n t, set_schedule n (n_Status n) (Some scheduledFor) t)
      _ _ _ cfg) in H; [|done..].
    destruct r as [response|]; [|done]. destruct H as (n & now & t & Hn & Hten & Hnid & Hq & -> & Hr).
    exists n, t. rewrite Hr, Hq. by split.
Qed.


(** * Confinement: what one tenant's request may touch and show *)

(** What never changes in a stored notification: who it is for and what it says. *)
Definition same_content (n n' : Notification) : Prop :=
  n_ID n' = n_ID n ∧ n_TenantID n' = n_TenantID n ∧ n_NotificationID n' = n_NotificationID n ∧
  n_NotificationType n' = n_NotificationType n ∧ n_Recipient n' = n_Recipient n ∧ n_Subject n' = n_Subject n ∧
  n_Message n' = n_Message n ∧ n_CreatedAt n' = n_CreatedAt n ∧ n_Attachments n' = n_Attachments n.
#[export] Instance same_content_refl : Reflexive same_content.
Proof. by intros n. Qed.
#[export] Instance same_content_trans : Transitive same_content.
Proof. unfold same_content. intros x y z ? ?. naive_solver congruence. Qed.
#[export] Instance same_content_sym : Symmetric same_content.
Proof. unfold same_content. intros x y ?. naive_solver. Qed.

(** No row is lost, moved, given another content or the id of another; rows may be added. *)
Definition kept (l l' : list Notification) : Prop :=
  (NoDup (n_ID <$> l) → NoDup (n_ID <$> l')) ∧ ∃ l0 more, l' = l0 ++ more ∧ Forall2 same_content l l0.
#[export] Instance kept_refl : Reflexive kept.
Proof. intros l. split; [done|]. exists l, []. rewrite app_nil_r. split; [done|]. by apply Forall_Forall2_diag, Forall_true. Qed.
#[export] Instance kept_trans : Transitive kept.
Proof.
  intros x y z [H1 (x0 & m & -> & Hx)] [H2 (y0 & m' & -> & Hy)]. split; [auto|].
  apply Forall2_app_inv_l in Hy as (y1 & y2 & Hy1 & Hy2 & ->). exists y1, (y2 ++ m').
  split; [by rewrite app_assoc|]. by transitivity x0.
Qed.

Lemma kept_elem l l' n : kept l l' → n ∈ l → ∃ n', n' ∈ l' ∧ same_content n n'.
Proof.
  intros [_ (l0 & more & -> & Hl)] [i Hi]%list_elem_of_lookup. destruct (Forall2_lookup_l _ _ _ _ _ Hl Hi) as (n' & Hn' & Hs).
  exists n'. split; [apply elem_of_app; left; by eapply list_elem_of_lookup_2|done].
Qed.

(** The rows of the other tenants are the same, in the same order, and the tenant's own
    are kept. *)
Definition confined (tenantID : string) (l l' : list Notification) : Prop :=
  let others := List.filter (λ n, negb (bool_decide (n_TenantID n = tenantID))) in others l' = others l ∧ kept l l'.

Lemma confined_refl tenantID l : confined tenantID l l.
Proof. by split. Qed.
Lemma confined_append tenantID l n :
  n_TenantID n = tenantID → n_ID n ∉ (n_ID <$> l) → confined tenantID l (l ++ [n]).
Proof.
  intros H Hn. split; [rewrite List.filter_app; simpl; rewrite bool_decide_true by done; simpl; apply app_nil_r|].
  split; [|exists l, [n]; split; [done|]; by apply Forall_Forall2_diag, Forall_true].
  intros Hnd. rewrite fmap_app. apply NoDup_app. split_and!; [done| |by apply NoDup_singleton].
  by intros x Hx ->%list_elem_of_singleton.
Qed.
(** One row replaced by another version of itself. *)
Lemma confined_replaced l n n' :
  NoDup (n_ID <$> l) → n ∈ l → same_content n n' →
  confined (n_TenantID n) l ((λ z, if n_ID n =? n_ID z then n' else z) <$> l).
Proof.
  intros Hnd Hn Hsame. assert (∀ z, z ∈ l → n_ID n = n_ID z → z = n) as Hu.
  { intros z Hz Heq. by apply (NoDup_fmap_inj_on n_ID l). }
  pose proof Hsame as (Hid & Ht & _). split.
  - clear Hn Hnd. induction l as [|z l IH]; [done|]. csimpl.
    assert (∀ y, y ∈ l → n_ID n = n_ID y → y = n) as Hu' by (intros y Hy; apply Hu; by right).
    destruct (Z.eqb_spec (n_ID n) (n_ID z)) as [He|He].
    + assert (z = n) as -> by (apply Hu; [by left|done]). rewrite !bool_decide_true by done. simpl. by apply IH.
    + by rewrite IH.
  - split.
    + intros _. rewrite <- list_fmap_compose. erewrite list_fmap_ext; [exact Hnd|].
      intros i z _. simpl. destruct (Z.eqb_spec (n_ID n) (n_ID z)); congruence.
    + eexists _, []. split; [by rewrite app_nil_r|]. apply Forall2_fmap_r. apply Forall_Forall2_diag, Forall_forall.
      intros z Hz. unfold compose. destruct (Z.eqb_spec (n_ID n) (n_ID z)) as [He|]; [|reflexivity]. by rewrite (Hu z Hz He).
Qed.
Lemma confined_edited tenantID notificationID l l' n n' :
  NoDup (n_ID <$> l) → same_content n n' → edited tenantID notificationID l l' n n' → confined tenantID l l'.
Proof. intros Hnd Hsame (Hn & <- & _ & _ & ->). by apply confined_replaced. Qed.

Section confinement.
Context {S : Type} `{T : Table S Notification} `{O : Outside S}.
Context `{L : !TableLaws S Notification} `{OL : !OutsideLaws S}.
Context (cfg : RuntimeConfig) (Hcfg : rc_TenantID cfg ≠ ""%string).

(** The operations of the service for this tenant are confined to it, and so are their
    answers. *)
Definition confined_to {A} (tenant_of : A → list string) (m : eff (service * S) A) : Prop :=
  ∀ st st' r, NoDup (n_ID <$> rows st.2) → m st = (st', r) →
    confined (rc_TenantID cfg) (rows st.2) (rows st'.2) ∧
    (∀ e, r = Err e → rows st'.2 = rows st.2) ∧
    ∀ a, r = Ok a → Forall (λ id, id = rc_TenantID cfg) (tenant_of a).
Definition response_tenant (response : NotificationResponse) : list string := [r_TenantID response].

Lemma Send_confined request :
  isSupportedNotificationType (rq_type request) = true →
  confined_to response_tenant (SendNotification (Some cfg) request).
Proof.
  intros Hsup st st' r _ H%SendNotification_inv; [|done]. destruct r as [response|e].
  - destruct H as (c & n & t & [= <-] & Hr & -> & (Hn & _) & Ho). rewrite Hr.
    split_and!; [apply confined_append; [done|by eapply outcome_fresh]|done|]. intros a [= <-]. by repeat constructor.
  - rewrite H. by split_and!.
Qed.

Lemma Get_confined notificationID :
  notificationID ≠ ""%string → confined_to response_tenant (GetNotificationStatus (Some cfg) notificationID).
Proof.
  intros Hid st st' r _ H. unfold GetNotificationStatus in H.
  apply eff_bind_inv in H as [(e & [=] & _)|(st0 & c & [= <- <-] & H)].
  apply eff_bind_inv in H as [(e & H & ->)|(st1 & n & Hget & [= <- <-])].
  - by apply MustGet_inv in H as [-> _].
  - apply MustGet_inv in Hget as [-> Hn]. split_and!; [done..|]. intros a [= <-].
    destruct (Hn n eq_refl Hcfg Hid) as (_ & Ht & _). by repeat constructor.
Qed.

Lemma edits_confined_to notificationID scheduledFor (cancel : bool) :
  notificationID ≠ ""%string →
  confined_to response_tenant (if cancel then CancelNotification (Some cfg) notificationID
                               else RescheduleNotification (Some cfg) notificationID scheduledFor).
Proof.
  intros Hid st st' r Hnd H.
  assert (match r with
    | Ok response => ∃ n t, let n' := set_schedule n (if cancel then StatusCancelled else StatusQueued)
                             (if cancel then None else Some scheduledFor) t in
        edited (rc_TenantID cfg) notificationID (rows st.2) (rows st'.2) n n' ∧ response = NewNotificationResponse n'
    | Err _ => rows st'.2 = rows st.2 end) as He.
  { apply (edits_inv cfg notificationID scheduledFor cancel); [done..|]. by destruct cancel. }
  destruct r as [response|e]; [|by rewrite He]. destruct He as (n & t & He & ->).
  pose proof He as (_ & Ht & _). split_and!; [eapply (confined_edited _ _ _ _ _ _ Hnd); [|exact He]; done|done|].
  intros a [= <-]. by repeat constructor.
Qed.

Lemma List_confined `{Q : Sql} filters :
  confined_to (fmap r_TenantID) (Service_ListNotifications (Some cfg) filters).
Proof.
  intros st st' r _ H. unfold Service_ListNotifications in H.
  apply eff_bind_inv in H as [(e & [=] & _)|(st0 & c & [= <- <-] & H)].
  apply eff_bind_inv in H as [(e & [_ H]%on_world_inv & ->)|(st1 & l & [_ Hl]%on_world_inv & [= <- <-])].
  - by apply FindOrdered_law in H as [-> _].
  - apply FindOrdered_law in Hl as [-> (l0 & Hp & _ & ->)]. split_and!; [done..|]. intros a [= <-].
    cbn [limit_to]. rewrite <- list_fmap_compose. apply Forall_fmap, Forall_forall. intros n Hn.
    rewrite Hp, list_elem_of_filter_bool in Hn. destruct Hn as [_ Hn]. to_prop. simpl. by apply whereField_eq.
Qed.

(** A page holds rows of the tenant, at most as many as its limit. *)
Definition page_of (limit : Z) (l : list Notification) : Prop :=
  Forall (λ n, n_TenantID n = rc_TenantID cfg) l ∧ (0 ≤ limit → Z.of_nat (length l) ≤ limit).

Lemma ListNotificationsPage_inv `{Q : Sql} `{C : CursorCodec} filters page (s s' : S) r :
  ListNotificationsPage (rc_TenantID cfg) filters page s = (s', r) →
  rows s' = rows s ∧ ∀ pg, r = Ok pg → page_of (page_limit page) (pg_Notifications pg).
Proof.
  intros H. unfold ListNotificationsPage in H.
  apply eff_bind_inv in H as [(e & H & ->)|(s1 & l & Hl & [= <- <-])]; [by apply FindOrdered_law in H as [-> _]|].
  apply FindOrdered_law in Hl as [-> (l0 & Hp & _ & ->)]. split; [done|]. intros pg Hpg.
  set (l := limit_to _ _) in *.
  assert (Forall (λ n, n_TenantID n = rc_TenantID cfg) l) as Hall.
  { apply Forall_forall. intros n Hn. assert (n ∈ l0) as Hn0.
    { unfold l, limit_to in Hn. by apply (subseteq_take _ l0) in Hn. }
    rewrite Hp, list_elem_of_filter_bool in Hn0. destruct Hn0 as [_ Hn0]. to_prop. by apply whereField_eq. }
  unfold notificationPageFromRecords in Hpg. destruct (Z.leb_spec (Z.of_nat (length l)) (page_limit page)).
  - by injection Hpg as <-.
  - destruct (last _); [|done]. apply bind_Ok in Hpg as (c & _ & [= <-]). simpl.
    split; [by apply Forall_take|]. intros ?. rewrite length_take. lia.
Qed.

Lemma Page_inv `{Q : Sql} `{C : CursorCodec} filters page (st st' : service * S) r :
  Service_ListNotificationsPage (Some cfg) filters page st = (st', r) →
  rows st'.2 = rows st.2 ∧
  ∀ p, r = Ok p → Forall (λ x, r_TenantID x = rc_TenantID cfg) p.1 ∧
    (0 ≤ page_limit page → Z.of_nat (length p.1) ≤ page_limit page).
Proof.
  intros H. unfold Service_ListNotificationsPage in H.
  apply eff_bind_inv in H as [(e & [=] & _)|(st0 & c & [= <- <-] & H)].
  apply eff_bind_inv in H as [(e & [_ H]%on_world_inv & ->)|(st1 & pg & [_ H]%on_world_inv & [= <- <-])].
  - by apply ListNotificationsPage_inv in H as [-> _].
  - apply ListNotificationsPage_inv in H as [-> H]. split; [done|]. intros p [= <-].
    destruct (H pg eq_refl) as [Hall Hlen]. simpl. rewrite length_fmap. split; [|done]. by apply Forall_fmap.
Qed.
End confinement.

(** * Retries *)
Section retries.
Context {S : Type} `{T : Table S Notification} `{O : Outside S}.
Context `{L : !TableLaws S Notification}.

Lemma PendingJobs_inv hasTenantRepo maxRetries now (s s' : S) jobs :
  PendingJobs hasTenantRepo maxRetries now s = (s', Ok jobs) →
  rows s' = rows s ∧
  ∃ l, jobs = jobsFromNotifications l ∧
    l ≡ₚ List.filter (λ n, (negb hasTenantRepo || activeTenant s (n_TenantID n))
                          && pendingJobsFilter maxRetries now n) (rows s).
Proof.
  unfold PendingJobs, pendingJobsForActiveTenants, pendingJobsAll.
  destruct hasTenantRepo; intros (s1 & l & Hf & [= <- <-])%eff_bind_Ok;
    apply Find_law in Hf as [Hs Hl]; (split; [done|]); exists l; (split; [done|]); done.
Qed.
End retries.

(** C33: the retry worker is handed exactly the notifications that are due.  The
    jobs of [PendingJobs] are, each once and with the stored record as its
    payload, the notifications whose status is queued or errored, that have been
    tried fewer than [maxRetries] times, that are not scheduled for later than
    [now], and, when there is a tenant repository, whose tenant is active; a sent
    or cancelled notification is never among them, and the table is not changed. *)
Theorem PendingJobs_exact {S} `{T : Table S Notification} `{O : Outside S} `{L : !TableLaws S Notification}
    hasTenantRepo maxRetries now (s s' : S) jobs :
  PendingJobs hasTenantRepo maxRetries now s = (s', Ok jobs) →
  rows s' = rows s ∧ length jobs = length (List.filter (λ n, (negb hasTenantRepo || activeTenant s (n_TenantID n))
     && pendingJobsFilter maxRetries now n) (rows s)) ∧
  ∀ n, (∃ job, job ∈ jobs ∧ recordFromJob job = Ok n ∧ notificationFromJob job = Ok n) ↔
    n ∈ rows s ∧ (n_Status n = StatusQueued ∨ n_Status n = StatusErrored) ∧
    n_RetryCount n < maxRetries ∧ (∀ t, n_ScheduledFor n = Some t → t ≤ now) ∧
    (hasTenantRepo = true → activeTenant s (n_TenantID n) = true).
Proof.
  intros H. apply PendingJobs_inv in H as (Hs & l & -> & Hl). split; [done|].
  split; [by rewrite <- Hl; unfold jobsFromNotifications; rewrite length_fmap|].
  intros n. transitivity (n ∈ l).
  - unfold jobsFromNotifications. split.
    + intros (job & (n' & -> & Hn)%list_elem_of_fmap & [= ->] & _). done.
    + intros Hn. eexists. split; [by apply list_elem_of_fmap_2, Hn|done].
  - rewrite Hl, list_elem_of_filter_bool. unfold pendingJobsFilter, pending.
    rewrite !andb_true_iff, bool_decide_eq_true, Z.ltb_lt, orb_true_iff, negb_true_iff.
    rewrite !elem_of_cons. assert (n_Status n ∈ [] ↔ False) as -> by (split; [by intros ?%elem_of_nil|done]).
    destruct (n_ScheduledFor n) as [t|], hasTenantRepo; rewrite ?Z.leb_le; naive_solver.
Qed.

(** A cancelled notification stays out of the queue.  After a successful
    [CancelNotification], no later poll of the retry worker on that table yields a
    job for that notification id, whatever the time and the retry limit: the
    worker can only send it if it had read it before (the notification ids are
    unique in the table). *)
Theorem cancelled_not_pending {S} `{T : Table S Notification} `{O : Outside S}
    `{L : !TableLaws S Notification} `{OL : !OutsideLaws S} (cfg : RuntimeConfig) notificationID
    (st st' : service * S) (s s' : S) response hasTenantRepo maxRetries now jobs :
  rc_TenantID cfg ≠ ""%string → notificationID ≠ ""%string →
  NoDup (n_NotificationID <$> rows st.2) →
  CancelNotification (Some cfg) notificationID st = (st', Ok response) →
  rows s = rows st'.2 →
  PendingJobs hasTenantRepo maxRetries now s = (s', Ok jobs) →
  r_Status response = StatusCancelled ∧ notificationID ∉ (job_ID <$> jobs).
Proof.
  intros Ht Hid Hnd Hc Hrows Hp.
  apply (edit_inv (Some cfg) notificationID (λ n t, set_schedule n StatusCancelled None t) _ _ _ cfg)
    in Hc; [|done..].
  destruct Hc as (n & tm & t & Hn & Hten & Hnid & Hq & -> & Hr). split; [done|].
  apply PendingJobs_inv in Hp as (_ & l & -> & Hl). intros Hin.
  apply list_elem_of_fmap in Hin as (job & Heq & (m & -> & Hm)%list_elem_of_fmap). simpl in Heq.
  rewrite Hl, list_elem_of_filter_bool, Hrows, Hr in Hm. destruct Hm as [Hm Hpend].
  apply list_elem_of_fmap in Hm as (z & Hz & Hzin).
  destruct (n_ID n =? n_ID z) eqn:E; subst m.
  - unfold pendingJobsFilter, pending in Hpend. simpl in Hpend. by destruct hasTenantRepo, (activeTenant s _).
  - to_prop. apply E. f_equal. apply (NoDup_fmap_inj_on n_NotificationID (rows st.2)); [done..|congruence].
Qed.

(** C34: a result reported for a stale job undoes a cancellation.  If the worker had
    read the notification before it was cancelled, then [ApplyAttemptResult] of
    that job writes the whole record back: although [CancelNotification] had
    reported success, the row has the attempt's status again and none of the rows
    with that key is cancelled (there is no check of the stored status, and no
    status is reserved for a notification being sent). *)
Theorem stale_attempt_undoes_cancel {S} `{T : Table S Notification} `{O : Outside S}
    `{L : !TableLaws S Notification} `{OL : !OutsideLaws S} (cfg : RuntimeConfig)
    (st st' : service * S) (s s' s'' : S) hasTenantRepo maxRetries now jobs job record response update :
  rc_TenantID cfg ≠ ""%string → n_NotificationID record ≠ ""%string →
  NoDup (n_NotificationID <$> rows st.2) →
  PendingJobs hasTenantRepo maxRetries now s = (s', Ok jobs) → rows st.2 = rows s' →
  job ∈ jobs → recordFromJob job = Ok record →
  CancelNotification (Some cfg) (n_NotificationID record) st = (st', Ok response) →
  up_Status update = StatusSent → ApplyAttemptResult job update st'.2 = (s'', Ok tt) →
  r_Status response = StatusCancelled ∧
  (∃ n, n ∈ rows s'' ∧ n_ID n = n_ID record ∧ n_Status n = StatusSent) ∧
  ∀ n, n ∈ rows s'' → n_ID n = n_ID record → n_Status n = StatusSent.
Proof.
  intros Ht Hid Hnd Hp Hrows Hjob Hrec Hc Hup Hap.
  apply PendingJobs_inv in Hp as (Hs & l & -> & Hl).
  apply list_elem_of_fmap in Hjob as (n0 & -> & Hn0). injection Hrec as ->.
  rewrite Hl, list_elem_of_filter_bool, <- Hs, <- Hrows in Hn0. destruct Hn0 as [Hn0 _].
  apply (edit_inv (Some cfg) (n_NotificationID record) (λ n t, set_schedule n StatusCancelled None t) _ _ _ cfg)
    in Hc; [|done..].
  destruct Hc as (n & tm & t & Hn & Hten & Hnid & Hq & -> & Hr). split; [done|].
  assert (n = record) as -> by by apply (NoDup_fmap_inj_on n_NotificationID (rows st.2)).
  unfold ApplyAttemptResult in Hap. apply eff_bind_Ok in Hap as (s1 & rec & [= <- <-] & Hap).
  apply eff_bind_Ok in Hap as (s2 & y & Hsave & [= <-]). rewrite Hup in Hsave.
  apply Save_law in Hsave as [(t' & ->) Hr2].
  2:{ apply existsb_exists. exists (set_UpdatedAt (set_schedule record StatusCancelled None tm) t).
      split; [|simpl; apply Z.eqb_refl]. rewrite Hr. by apply list_elem_of_In, edited_in. }
  rewrite Hr2. split.
  - eexists. split; [apply list_elem_of_fmap_2; rewrite Hr; by apply edited_in|].
    simpl. by rewrite Z.eqb_refl.
  - intros m (z & -> & Hz)%list_elem_of_fmap. simpl. by destruct (Z.eqb_spec (n_ID record) (n_ID z)).
Qed.

(** * Senders *)

(** The two caches after a sequence of requests for a sender (the flag says e-mail
    or SMS). *)
Definition sender_request (svc : service) (c : bool * RuntimeConfig) : service :=
  if c.1 then (emailSenderForTenant svc c.2).1 else (smsSenderForTenant svc c.2).1.

Definition senders_from (calls : list RuntimeConfig) (svc : service) : Prop :=
  map_Forall (λ t s, ∃ cfg, cfg ∈ calls ∧ rc_TenantID cfg = t ∧ s = SMTPEmailSender (rc_Email cfg))
    (emailSenders svc) ∧
  map_Forall (λ t s, ∃ cfg c, cfg ∈ calls ∧ rc_TenantID cfg = t ∧ rc_SMS cfg = Some c ∧ s = TwilioSmsSender c)
    (smsSenders svc).

Lemma sender_request_from calls svc c :
  senders_from calls svc → c.2 ∈ calls → senders_from calls (sender_request svc c).
Proof.
  intros [He Hs] Hc. unfold sender_request, emailSenderForTenant, smsSenderForTenant.
  destruct c as [[] cfg]; simpl in *; repeat (case_match; simpl; try done); split; simpl; try done;
    apply map_Forall_insert_2; eauto 10.
Qed.

Lemma senders_from_fold calls calls' svc :
  senders_from calls svc → Forall (λ c, c.2 ∈ calls) calls' →
  senders_from calls (foldl sender_request svc calls').
Proof.
  intros H Hc. revert svc H. induction Hc as [|c calls' Hc _ IH]; [done|]. intros svc H. simpl.
  by apply IH, sender_request_from.
Qed.

Lemma sender_request_defaults calls svc :
  defaultEmailSender (foldl sender_request svc calls) = defaultEmailSender svc ∧
  defaultSmsSender (foldl sender_request svc calls) = defaultSmsSender svc.
Proof.
  revert svc. induction calls as [|[[] cfg] calls IH]; intros svc; [done|..]; simpl;
    destruct (IH (sender_request svc (true, cfg))) as [H1 H2];
    destruct (IH (sender_request svc (false, cfg))) as [H3 H4]; rewrite ?H1, ?H2, ?H3, ?H4;
    unfold sender_request, emailSenderForTenant, smsSenderForTenant; simpl; by repeat case_match.
Qed.

(** A tenant's messages leave through that tenant's credentials.  Starting from
    a new service with a tenant repository and no senders of its own, after any
    sequence of requests for senders in which each tenant always has the same
    configuration, the e-mail sender given for a tenant is built from exactly that
    tenant's SMTP credentials, and the SMS sender from its Twilio credentials;
    never from another tenant's, cached or not. *)
Theorem senders_isolated twilioConfigured maxRetries (calls : list (bool * RuntimeConfig)) cfg :
  (∀ c, c ∈ calls → rc_TenantID c.2 = rc_TenantID cfg → c.2 = cfg) →
  let svc := foldl sender_request
    (NewNotificationServiceWithSenders false false true twilioConfigured maxRetries) calls in
  (∀ sender, (emailSenderForTenant svc cfg).2 = Ok sender → sender = SMTPEmailSender (rc_Email cfg)) ∧
  (∀ sender, (smsSenderForTenant svc cfg).2 = Ok sender →
     ∃ c, rc_SMS cfg = Some c ∧ sender = TwilioSmsSender c).
Proof.
  intros Hsame svc.
  assert (senders_from (snd <$> calls) svc) as [He Hs].
  { apply senders_from_fold; [by split; apply map_Forall_empty|].
    apply Forall_forall. intros c. by apply list_elem_of_fmap_2. }
  assert (∀ c, c ∈ snd <$> calls → rc_TenantID c = rc_TenantID cfg → c = cfg) as Hsame'.
  { intros c (c' & -> & Hc)%list_elem_of_fmap. by apply Hsame. }
  destruct (sender_request_defaults calls (NewNotificationServiceWithSenders false false true
    twilioConfigured maxRetries)) as [Hde Hds]. fold svc in Hde, Hds. simpl in Hde, Hds.
  unfold emailSenderForTenant, smsSenderForTenant. rewrite Hde, Hds. split.
  - intros sender. case_match; [done|]. destruct (emailSenders svc !! _) as [x|] eqn:E; simpl.
    + intros [= ->]. apply He in E as (c & Hc & Heq & ->). by rewrite (Hsame' c Hc Heq).
    + by intros [= <-].
  - intros sender. destruct (rc_SMS cfg) as [c|] eqn:Ec; [|done]. case_match; [done|].
    destruct (smsSenders svc !! _) as [x|] eqn:E; simpl.
    + intros [= ->]. apply Hs in E as (c' & d & Hc & Heq & Hd & ->).
      rewrite (Hsame' c' Hc Heq) in Hd. exists d. by rewrite <- Ec.
    + intros [= <-]. eauto.
Qed.

(** * Witnesses *)
Definition demo_cfg : RuntimeConfig :=
  MkRuntime (MkTenant "t1" "" "" TenantStatusActive 0 0) (MkEmailCredentials "smtp.x" 587 "u" "p" "a@x.y") None.
Definition demo_outside : Outside (list Notification) :=
  {| TimeNow := λ s, (s, Ok 100);
     SendEmail := λ _ to_ _ _ _ s,
       (s, if decide (to_ = "down@x.y"%string) then Err (Text "connection refused" []) else Ok tt);
     SendSms := λ _ _ _ s, (s, Ok "SM1"%string);
     ResolveByID := λ _ s, (s, Ok demo_cfg);
     activeTenant := λ _ t, bool_decide (t = "t1"%string) |}.
Lemma demo_outside_laws : OutsideLaws (list Notification) (T := demo_table) (O := demo_outside).
Proof. by constructor; eauto. Qed.

Definition demo_service : service := NewNotificationServiceWithSenders false false true false 3.
Definition demo_st : service * list Notification := (demo_service, demo_rows).
Definition demo_request : NotificationRequest :=
  MkRequest NotificationEmail "down@x.y" "s" "m" None [MkAttachment "f" "text/plain" ["x"%char]].

(** The provider is down: the notification is stored as errored. *)
Lemma SendNotification_outcome_witness :
  ∃ st' response n, SendNotification (T := demo_table) (O := demo_outside) (Some demo_cfg) demo_request demo_st
      = (st', Ok response) ∧ st'.2 = demo_rows ++ [n] ∧ n_Status n = StatusErrored.
Proof.
  eexists _, _, _. split; [vm_compute; reflexivity|].
  destruct (SendNotification_outcome (T := demo_table) (O := demo_outside) (L := demo_laws)
    (OL := demo_outside_laws) (Some demo_cfg) demo_request demo_st _ _ eq_refl
    ltac:(vm_compute; reflexivity)) as (cfg & n & t & _ & _ & Hresp & _ & _).
  split; vm_compute; reflexivity.
Defined.


Lemma PendingJobs_exact_witness :
  ∃ jobs, PendingJobs (T := demo_table) (O := demo_outside) true 3 50 demo_rows = (demo_rows, Ok jobs) ∧
    length jobs = 3%nat.
Proof.
  eexists. split; [vm_compute; reflexivity|].
  destruct (PendingJobs_exact (T := demo_table) (O := demo_outside) (L := demo_laws) true 3 50 demo_rows _ _
    ltac:(vm_compute; reflexivity)) as (_ & Hlen & _).
  reflexivity.
Defined.

Definition demo_jobs : list Job :=
  jobsFromNotifications [demo_note 1 10 "t1" StatusQueued; demo_note 3 10 "t1" StatusErrored;
                         demo_note 5 20 "t1" StatusQueued].
Definition demo_cancelled : list Notification :=
  [demo_note 1 10 "t1" StatusQueued; demo_note 2 30 "t1" StatusSent; demo_note 3 10 "t1" StatusErrored;
   demo_note 4 20 "t2" StatusQueued; set_schedule (demo_note 5 20 "t1" StatusQueued) StatusCancelled None 100].

Lemma cancelled_not_pending_witness :
  "n5"%string ∉ (job_ID <$> take 2 demo_jobs).
Proof.
  destruct (cancelled_not_pending (T := demo_table) (O := demo_outside) (L := demo_laws)
    (OL := demo_outside_laws) demo_cfg "n5" demo_st (demo_service, demo_cancelled) demo_cancelled
    demo_cancelled (NewNotificationResponse (set_schedule (demo_note 5 20 "t1" StatusQueued) StatusCancelled None 100))
    true 3 50 (take 2 demo_jobs)) as [_ H]; [done|done| |reflexivity..|exact H].
  apply (bool_decide_unpack _). vm_compute. exact I.
Defined.

(** The worker polls, the user cancels n5, the worker sends it and reports. *)
Definition demo_job : Job := MkJob "n5" None 0 zeroTime (NotificationPayload (demo_note 5 20 "t1" StatusQueued)).
Lemma stale_attempt_undoes_cancel_witness :
  (Attempt (O := demo_outside) None demo_job (demo_service, demo_cancelled)).2
    = (MkDispatchResult StatusSent "", None) ∧
  ∃ s'' n, ApplyAttemptResult (T := demo_table) demo_job (MkUpdate StatusSent "" 0 100) demo_cancelled
      = (s'', Ok tt) ∧ n ∈ s'' ∧ n_ID n = 5 ∧ n_Status n = StatusSent.
Proof.
  split; [vm_compute; reflexivity|].
  destruct (stale_attempt_undoes_cancel (T := demo_table) (O := demo_outside) (L := demo_laws)
    (OL := demo_outside_laws) demo_cfg demo_st (demo_service, demo_cancelled) demo_rows demo_rows
    (take 4 demo_rows ++ [set_attempt (demo_note 5 20 "t1" StatusQueued) StatusSent "" 0 100])
    true 3 50 demo_jobs demo_job (demo_note 5 20 "t1" StatusQueued)
    (NewNotificationResponse (set_schedule (demo_note 5 20 "t1" StatusQueued) StatusCancelled None 100))
    (MkUpdate StatusSent "" 0 100)) as (_ & (n & Hn & Hid & Hs) & _); [done|done| |reflexivity|reflexivity| |reflexivity..|].
  - apply (bool_decide_unpack _). vm_compute. exact I.
  - unfold demo_jobs, jobsFromNotifications. csimpl. set_solver.
  - exists (take 4 demo_rows ++ [set_attempt (demo_note 5 20 "t1" StatusQueued) StatusSent "" 0 100]), n.
    split_and!; [vm_compute; reflexivity|done..].
Defined.

Lemma senders_isolated_witness :
  ∃ sender, (emailSenderForTenant (foldl sender_request demo_service [(true, demo_cfg)]) demo_cfg).2
    = Ok sender ∧ sender = SMTPEmailSender (rc_Email demo_cfg).
Proof.
  destruct (senders_isolated false 3 [(true, demo_cfg)] demo_cfg) as [H _].
  { intros c [->|Hc%elem_of_nil]%elem_of_cons _; done. }
  eexists. split; [vm_compute; reflexivity|]. apply H. vm_compute. reflexivity.
Defined.
