(* ===== verification/Retry.v ===== *)
(** The retry worker ([StartRetryWorker] of src/internal/service/notification_service.go)
    with the store and the dispatcher of src/internal/service/notification_retry.go, while
    users send, reschedule and cancel.

    The worker is the scheduler library's: it asks the store for the pending jobs, attempts
    those it finds due, one after the other, and reports each result to the store.  When a
    job is due and what a report says is the class [Scheduler]; its laws are the library's
    bookkeeping of attempts.  [worker_step] is one thing that happens, in any order, so a
    user's edit may fall between the poll and the attempt. *)
From S2P Require Import Prelude GoStrings Gorm Model Tenant Service.
Open Scope Z_scope.

(** * The worker's configuration *)
Record scheduler_config := MkSchedulerConfig {
  sch_Interval : Z;
  sch_MaxRetries : Z;
  sch_SuccessStatus : string;
  sch_FailureStatus : string;
}.
Definition StartRetryWorker (svc : service) (retryIntervalSec : Z) : scheduler_config :=
  MkSchedulerConfig (seconds retryIntervalSec) (maxRetries svc) StatusSent StatusErrored.

Class Scheduler := {
  sch_update : scheduler_config → Job → DispatchResult → option error → Time → AttemptUpdate;
}.
(** One more attempt is counted, and a dispatch without an error is reported as sent. *)
Class SchedulerLaws `{X : Scheduler} : Prop := {
  update_count c job d e t : up_RetryCount (sch_update c job d e t) = job_RetryCount job + 1;
  update_sent c job d t : dr_Status d = sch_SuccessStatus c → up_Status (sch_update c job d None t) = sch_SuccessStatus c;
}.

(** * What happens *)

(** An attempt: the row it was for, whether the provider took the message, and whether the
    result was written. *)
Record attempted := Attempted { a_ID : Z; a_taken : bool; a_written : bool }.
Definition tally (p : attempted → bool) (log : list attempted) : Z := Z.of_nat (length (List.filter p log)).
Definition attempts (id : Z) : list attempted → Z := tally (λ a, a_ID a =? id).
Definition deliveries (id : Z) : list attempted → Z := tally (λ a, (a_ID a =? id) && a_taken a).
(** Attempts whose result the database did not take. *)
Definition lost (id : Z) : list attempted → Z := tally (λ a, (a_ID a =? id) && negb (a_written a)).

Section worker.
Context {S : Type} `{T : Table S Notification} `{O : Outside S} `{X : Scheduler}.
Context (c : scheduler_config).

Record working := Working {
  k_state : service * S;
  k_jobs : list Job;                        (** polled and not yet looked at *)
  k_log : list attempted;
}.

Inductive worker_step : working → working → Prop :=
| poll st st' log hasTenantRepo now jobs :
    on_world (PendingJobs hasTenantRepo (sch_MaxRetries c) now) st = (st', Ok jobs) →
    worker_step (Working st [] log) (Working st' jobs log)
| not_due st job jobs log : worker_step (Working st (job :: jobs) log) (Working st jobs log)
| attempt_job st st1 st2 job jobs log ctx d err now r record :
    recordFromJob job = Ok record →
    Attempt ctx job st = (st1, (d, err)) →
    on_world (ApplyAttemptResult job (sch_update c job d err now)) st1 = (st2, r) →
    worker_step (Working st (job :: jobs) log)
      (Working st2 jobs (log ++ [Attempted (n_ID record) (match err with None => true | Some _ => false end)
                                  (match r with Ok _ => true | Err _ => false end)]))
| user_sends st st' jobs log ctx request r :
    isSupportedNotificationType (rq_type request) = true →
    SendNotification ctx request st = (st', r) →
    worker_step (Working st jobs log) (Working st' jobs log)
| user_edits st st' jobs log cfg notificationID scheduledFor (cancel : bool) r :
    rc_TenantID cfg ≠ ""%string → notificationID ≠ ""%string →
    (if cancel then CancelNotification (Some cfg) notificationID st
     else RescheduleNotification (Some cfg) notificationID scheduledFor st) = (st', r) →
    worker_step (Working st jobs log) (Working st' jobs log)
| anything_else st st' jobs log :
    rows st'.2 = rows st.2 → worker_step (Working st jobs log) (Working st' jobs log).

(** * The invariant *)

(** A polled job is a copy of a row that may have been edited since: its retry count is the
    row's, below the limit, and the row is not sent. *)
Definition job_current (l : list Notification) (job : Job) : Prop :=
  ∃ m, job_Payload job = NotificationPayload m ∧ job_RetryCount job = n_RetryCount m ∧
    n_RetryCount m < sch_MaxRetries c ∧ n_ID m ∈ (n_ID <$> l) ∧
    ∀ n, n ∈ l → n_ID n = n_ID m → n_RetryCount n = n_RetryCount m ∧ n_Status n ≠ StatusSent.

Definition written_for (id : Z) (log : list attempted) : Z := attempts id log - lost id log.
Definition delivered_for (id : Z) : list attempted → Z := tally (λ a, (a_ID a =? id) && (a_taken a && a_written a)).

Definition job_row (job : Job) : Z := match job_Payload job with NotificationPayload m => n_ID m | _ => 0 end.

Record worker_inv (w : working) : Prop := {
  wi_ids : NoDup (n_ID <$> rows (k_state w).2);
  wi_known id : 0 < written_for id (k_log w) → id ∈ (n_ID <$> rows (k_state w).2);
  wi_counts n : n ∈ rows (k_state w).2 → written_for (n_ID n) (k_log w) ≤ n_RetryCount n;
  wi_sent n : n ∈ rows (k_state w).2 → 0 < delivered_for (n_ID n) (k_log w) → n_Status n = StatusSent;
  wi_jobs : Forall (job_current (rows (k_state w).2)) (k_jobs w);
  wi_nodup : NoDup (job_row <$> k_jobs w);
  wi_bound id : written_for id (k_log w) ≤ Z.max 0 (sch_MaxRetries c);
  wi_once id : delivered_for id (k_log w) ≤ 1;
}.

Lemma tally_app p log a : tally p (log ++ [a]) = tally p log + if p a then 1 else 0.
Proof. unfold tally. rewrite List.filter_app, length_app. simpl. destruct (p a); simpl; lia. Qed.
Lemma written_app id log a :
  written_for id (log ++ [a]) = written_for id log + if (a_ID a =? id) && a_written a then 1 else 0.
Proof. unfold written_for, attempts, lost. rewrite !tally_app. destruct (_ =? _), (a_written a); simpl; lia. Qed.
Lemma delivered_app id log a :
  delivered_for id (log ++ [a]) = delivered_for id log + if (a_ID a =? id) && (a_taken a && a_written a) then 1 else 0.
Proof. apply tally_app. Qed.
Lemma delivered_written id log : delivered_for id log ≤ written_for id log.
Proof.
  induction log as [|a log IH] using rev_ind; [done|]. rewrite delivered_app, written_app.
  destruct (_ =? _), (a_taken a), (a_written a); simpl; lia.
Qed.
(** Every delivery was written or lost. *)
Lemma deliveries_split id log : deliveries id log ≤ delivered_for id log + lost id log.
Proof.
  induction log as [|a log IH] using rev_ind; [done|]. rewrite delivered_app. unfold deliveries, lost in *. rewrite !tally_app.
  destruct (_ =? _), (a_taken a), (a_written a); simpl; lia.
Qed.

(** ** Every step keeps it *)
Context `{L : !TableLaws S Notification} `{OL : !OutsideLaws S} `{XL : !SchedulerLaws}.
Hypothesis Hsuccess : sch_SuccessStatus c = StatusSent.

Lemma Attempt_inv ctx job (st st' : service * S) d err :
  Attempt ctx job st = (st', (d, err)) →
  rows st'.2 = rows st.2 ∧ (err = None → dr_Status d = StatusSent).
Proof.
  unfold Attempt. destruct (recordFromJob job) as [record|e]; [|intros [= <- <- <-]; done].
  destruct (runtimeForTenantID ctx (n_TenantID record) st) as [st1 cfg] eqn:E1.
  assert (rows st1.2 = rows st.2) as Hr1.
  { unfold runtimeForTenantID in E1. repeat case_match; try (injection E1 as <- _; done).
    apply on_world_inv in E1 as [_ E1]. pose proof (ResolveByID_rows (n_TenantID record) st.2) as Hr. by rewrite E1 in Hr. }
  destruct cfg as [cfg|e]; [|intros [= <- <- <-]; done].
  case_decide; [|case_decide; [|intros [= <- <- <-]; done]].
  all: destruct (on_service _ st1) as [st2 sender] eqn:E2; apply on_service_inv in E2; rewrite <- E2 in Hr1.
  all: destruct sender as [sender|e]; [|intros [= <- <- <-]; done].
  all: destruct (on_world _ st2) as [st3 r] eqn:E3; apply on_world_inv in E3 as [_ E3].
  - pose proof (SendEmail_rows sender (n_Recipient record) (n_Subject record) (n_Message record)
      (ToEmailAttachments (n_Attachments record)) st2.2) as Hr. rewrite E3 in Hr. simpl in Hr.
    destruct r; intros [= <- <- <-]; by rewrite Hr.
  - pose proof (SendSms_rows sender (n_Recipient record) (n_Message record) st2.2) as Hr. rewrite E3 in Hr. simpl in Hr.
    destruct r; intros [= <- <- <-]; by rewrite Hr.
Qed.

(** Nothing but rows matters, and not all of a row. *)
Lemma inv_same_rows st st' jobs log :
  rows st'.2 = rows st.2 → worker_inv (Working st jobs log) → worker_inv (Working st' jobs log).
Proof. intros Hr []. simpl in *. by constructor; simpl; rewrite ?Hr. Qed.

Lemma inv_append st st' jobs log n :
  rows st'.2 = rows st.2 ++ [n] → n_ID n ∉ (n_ID <$> rows st.2) → 0 ≤ n_RetryCount n →
  worker_inv (Working st jobs log) → worker_inv (Working st' jobs log).
Proof.
  intros Hr Hfresh Hn [Hids Hknown Hcounts Hsent Hjobs Hnd Hb Ho]. simpl in *.
  assert (written_for (n_ID n) log ≤ 0) as Hw.
  { destruct (decide (0 < written_for (n_ID n) log)) as [H|H]; [|lia]. by apply Hknown in H. }
  pose proof (delivered_written (n_ID n) log).
  constructor; simpl; rewrite ?Hr, ?fmap_app; try done.
  - apply NoDup_app. split_and!; [done| |by apply NoDup_singleton]. intros x Hx Hin. by apply list_elem_of_singleton in Hin as ->.
  - intros id Hid. apply elem_of_app. left. by apply Hknown.
  - intros m [Hm| ->%list_elem_of_singleton]%elem_of_app; [by apply Hcounts|lia].
  - intros m [Hm| ->%list_elem_of_singleton]%elem_of_app; [by apply Hsent|lia].
  - eapply Forall_impl; [exact Hjobs|]. intros job (m & Hp & Hc & Hlt & Hin & Hall). exists m. rewrite fmap_app.
    split_and!; [done..|by apply elem_of_app; left|].
    intros z [Hz| ->%list_elem_of_singleton]%elem_of_app Hid; [by apply Hall|by rewrite Hid in Hfresh].
Qed.

(** An edit of one row: its id stays, and so do its retry count and its being sent. *)
Lemma inv_replace st st' jobs log m n' :
  rows st'.2 = (λ z, if m =? n_ID z then n' else z) <$> rows st.2 → n_ID n' = m →
  (∀ z, z ∈ rows st.2 → n_ID z = m → n_RetryCount n' = n_RetryCount z ∧ n_Status z ≠ StatusSent ∧ n_Status n' ≠ StatusSent) →
  worker_inv (Working st jobs log) → worker_inv (Working st' jobs log).
Proof.
  intros Hr Hid Hz [Hids Hknown Hcounts Hsent Hjobs Hnd Hb Ho]. simpl in *.
  assert (n_ID <$> rows st'.2 = n_ID <$> rows st.2) as Hsame.
  { rewrite Hr, <- list_fmap_compose. apply list_fmap_ext. intros i z _. simpl. destruct (Z.eqb_spec m (n_ID z)); congruence. }
  assert (∀ z', z' ∈ rows st'.2 → ∃ z, z ∈ rows st.2 ∧ n_ID z' = n_ID z ∧ n_RetryCount z' = n_RetryCount z ∧
    (z' = z ∨ n_Status z ≠ StatusSent ∧ n_Status z' ≠ StatusSent)) as Hold.
  { rewrite Hr. intros z' (z & -> & Hin)%list_elem_of_fmap. exists z. destruct (Z.eqb_spec m (n_ID z)) as [Hm|]; [|by eauto].
    destruct (Hz z Hin (eq_sym Hm)) as (? & ? & ?). split_and!; [done|congruence|done|by right]. }
  constructor; simpl; rewrite ?Hsame; try done.
  - intros z' (z & Hin & -> & -> & _)%Hold. by apply Hcounts.
  - intros z' (z & Hin & -> & _ & [->|[Hn _]])%Hold Hd; [by apply Hsent|by apply Hsent in Hd].
  - eapply Forall_impl; [exact Hjobs|]. intros job (p & Hp & Hc & Hlt & Hin & Hall). exists p. rewrite Hsame.
    split_and!; [done..|]. intros z' (z & Hzin & -> & -> & Hcase)%Hold Heq. destruct (Hall z Hzin Heq) as [? ?].
    split; [done|]. destruct Hcase as [->|[_ ?]]; done.
Qed.

Lemma Apply_inv job update m (st st' : service * S) r :
  job_Payload job = NotificationPayload m → n_ID m ∈ (n_ID <$> rows st.2) →
  on_world (ApplyAttemptResult job update) st = (st', r) →
  match r with
  | Ok _ => ∃ n', same_content m n' ∧ n_RetryCount n' = up_RetryCount update ∧
      (up_Status update = StatusSent → n_Status n' = StatusSent) ∧
      rows st'.2 = (λ z, if n_ID m =? n_ID z then n' else z) <$> rows st.2
  | Err _ => rows st'.2 = rows st.2
  end.
Proof.
  intros Hp Hin [_ H]%on_world_inv. unfold ApplyAttemptResult, notificationFromJob in H. rewrite Hp, lift_bind in H.
  set (n0 := set_attempt _ _ _ _ _) in H.
  assert (existsb (same_key n0) (rows st.2) = true) as Hex.
  { apply existsb_exists. apply list_elem_of_fmap in Hin as (z & Hz & Hin).
    exists z. split; [by apply list_elem_of_In|]. simpl. by apply Z.eqb_eq. }
  apply eff_bind_inv in H as [(e & H & ->)|(s1 & y & H & [= Hs <-])]; unfold SaveNotification in H;
    apply Save_law in H; [done..| |done].
  destruct H as ((t & ->) & Hr). exists (set_UpdatedAt n0 t). rewrite <- Hs. split_and!; [done..| |done].
  intros Hu. subst n0. rewrite Hu. done.
Qed.

Lemma job_current_pop job jobs l : Forall (job_current l) (job :: jobs) → Forall (job_current l) jobs.
Proof. by intros [_ H]%Forall_cons. Qed.

(** A result that was not written changes no row and no count. *)
Lemma inv_lost st st' job jobs log id taken :
  rows st'.2 = rows st.2 → worker_inv (Working st (job :: jobs) log) →
  worker_inv (Working st' jobs (log ++ [Attempted id taken false])).
Proof.
  intros Hr [Hids Hknown Hcounts Hsent Hjobs Hnd Hb Ho]. simpl in *. apply NoDup_cons in Hnd as [_ Hnd].
  assert (∀ i, written_for i (log ++ [Attempted id taken false]) = written_for i log) as Hw.
  { intros i. rewrite written_app. simpl. rewrite andb_false_r. lia. }
  assert (∀ i, delivered_for i (log ++ [Attempted id taken false]) = delivered_for i log) as Hd.
  { intros i. rewrite delivered_app. simpl. rewrite !andb_false_r. lia. }
  constructor; simpl; rewrite ?Hr; try done; intros; rewrite ?Hw, ?Hd in *; eauto using job_current_pop.
Qed.

Lemma inv_written st st' job jobs log m n' taken :
  job_Payload job = NotificationPayload m → worker_inv (Working st (job :: jobs) log) →
  n_ID n' = n_ID m → n_RetryCount n' = job_RetryCount job + 1 → (taken = true → n_Status n' = StatusSent) →
  rows st'.2 = (λ z, if n_ID m =? n_ID z then n' else z) <$> rows st.2 →
  worker_inv (Working st' jobs (log ++ [Attempted (n_ID m) taken true])).
Proof.
  intros Hp [Hids Hknown Hcounts Hsent Hjobs Hnd Hb Ho] Hid Hcount Htaken Hr. simpl in *.
  apply NoDup_cons in Hnd as [Hnew Hnd]. apply Forall_cons in Hjobs as [(m' & Hp' & Hjc & Hlt & Hin & Hall) Hjobs].
  rewrite Hp in Hp'. injection Hp' as <-.
  assert (n_ID <$> rows st'.2 = n_ID <$> rows st.2) as Hsame.
  { rewrite Hr, <- list_fmap_compose. apply list_fmap_ext. intros i z _. simpl. destruct (Z.eqb_spec (n_ID m) (n_ID z)); congruence. }
  pose proof Hin as (n & Hn & Hnin)%list_elem_of_fmap. destruct (Hall n Hnin (eq_sym Hn)) as [Hnc Hns].
  assert (delivered_for (n_ID m) log ≤ 0) as Hd0.
  { destruct (decide (0 < delivered_for (n_ID m) log)) as [Hd|Hd]; [|lia]. rewrite Hn in Hd. by apply Hsent in Hd. }
  pose proof (Hcounts n Hnin) as Hw0. rewrite <- Hn in Hw0.
  constructor; simpl; rewrite ?Hsame; try done.
  - intros id. rewrite written_app. simpl. destruct (Z.eqb_spec (n_ID m) id) as [<-|]; [done|]. simpl. rewrite Z.add_0_r. apply Hknown.
  - rewrite Hr. intros z' (z & -> & Hz)%list_elem_of_fmap. rewrite written_app. simpl.
    destruct (Z.eqb_spec (n_ID m) (n_ID z)) as [He|He].
    + rewrite Hid, Z.eqb_refl. simpl. lia.
    + rewrite (proj2 (Z.eqb_neq _ _)) by done. simpl. rewrite Z.add_0_r. by apply Hcounts.
  - rewrite Hr. intros z' (z & -> & Hz)%list_elem_of_fmap. rewrite delivered_app. simpl.
    destruct (Z.eqb_spec (n_ID m) (n_ID z)) as [He|He].
    + rewrite Hid, Z.eqb_refl. simpl. destruct taken; [by intros _; apply Htaken|]. simpl. lia.
    + rewrite (proj2 (Z.eqb_neq _ _)) by done. simpl. rewrite Z.add_0_r. by apply Hsent.
  - apply Forall_forall. intros j Hj. rewrite Forall_forall in Hjobs. destruct (Hjobs j Hj) as (p & Hpp & Hpc & Hplt & Hpin & Hpall).
    assert (n_ID p ≠ n_ID m) as Hne.
    { intros Heq. apply Hnew. apply list_elem_of_fmap. exists j. unfold job_row. by rewrite Hp, Hpp. }
    exists p. rewrite Hsame. split_and!; [done..|]. rewrite Hr.
    intros z' (z & -> & Hz)%list_elem_of_fmap. destruct (Z.eqb_spec (n_ID m) (n_ID z)); [congruence|]. by apply Hpall.
  - intros id. rewrite written_app. simpl. destruct (Z.eqb_spec (n_ID m) id) as [<-|]; simpl; [lia|]. rewrite Z.add_0_r. apply Hb.
  - intros id. rewrite delivered_app. simpl. destruct (Z.eqb_spec (n_ID m) id) as [<-|]; simpl; [destruct taken; simpl; lia|].
    rewrite Z.add_0_r. apply Ho.
Qed.

Lemma inv_poll hasTenantRepo now st st' jobs log :
  on_world (PendingJobs hasTenantRepo (sch_MaxRetries c) now) st = (st', Ok jobs) →
  worker_inv (Working st [] log) → worker_inv (Working st' jobs log).
Proof.
  intros [_ H]%on_world_inv Hi. apply PendingJobs_inv in H as (Hr & l & -> & Hl).
  apply (inv_same_rows st st') in Hi; [|done]. destruct Hi as [Hids Hknown Hcounts Hsent _ _ Hb Ho]. simpl in *.
  constructor; simpl; try done.
  - unfold jobsFromNotifications. apply Forall_fmap, Forall_forall. intros m Hm.
    rewrite Hl, list_elem_of_filter_bool, <- Hr in Hm. destruct Hm as [Hm Hpend]. simpl. exists m.
    apply andb_true_iff in Hpend as [_ Hpend]. unfold pendingJobsFilter, pending in Hpend.
    apply andb_true_iff in Hpend as [[Hst Hlt%Z.ltb_lt]%andb_true_iff _].
    split_and!; [done..|by apply list_elem_of_fmap_2|]. intros n Hn Hid.
    assert (n = m) as -> by by apply (NoDup_fmap_inj_on n_ID (rows st'.2)).
    split; [done|]. intros Heq. by rewrite Heq in Hst.
  - unfold jobsFromNotifications. rewrite <- list_fmap_compose.
    assert (job_row ∘ (λ n, MkJob (n_NotificationID n) (n_ScheduledFor n) (n_RetryCount n) (n_LastAttemptedAt n)
      (NotificationPayload n)) = n_ID) as -> by done.
    rewrite Hl. apply NoDup_filter_fmap. by rewrite <- Hr.
Qed.

Lemma worker_step_inv w w' : worker_inv w → worker_step w w' → worker_inv w'.
Proof.
  intros Hi Hs. destruct Hs as [st st' log hasRepo now jobs Hp|st job jobs log|st st1 st2 job jobs log ctx d err now r record Hrec Ha Hw
    |st st' jobs log ctx request r Hsup Hsend|st st' jobs log cfg nid t cancel r Hc Hn He|st st' jobs log Hr].
  - by eapply inv_poll.
  - destruct Hi as [????? [_ ?]%NoDup_cons ??]. constructor; simpl in *; try done. by eapply job_current_pop.
  - apply Attempt_inv in Ha as [Hr Hsent].
    pose proof (wi_jobs _ Hi) as Hj. simpl in Hj. apply Forall_cons in Hj as [(m & Hpay & Hjc & _ & Hin & _) _].
    assert (record = m) as -> by (unfold recordFromJob in Hrec; rewrite Hpay in Hrec; congruence).
    apply (Apply_inv _ _ m) in Hw; [|done|by rewrite Hr]. destruct r as [[]|e]; [|by apply inv_lost with st job; [rewrite Hw|]].
    destruct Hw as (n' & [H1 _] & H2 & H3 & H4). eapply (inv_written st); [done..| | |by rewrite <- Hr].
    + by rewrite H2, update_count.
    + destruct err; [done|]. intros _. apply H3. rewrite <- Hsuccess. apply update_sent. rewrite Hsuccess. by apply Hsent.
  - apply SendNotification_inv in Hsend; [|done]. destruct r as [response|e]; [|by eapply inv_same_rows].
    destruct Hsend as (cfg & n & t & -> & Hr & _ & Hcar & Ho). eapply inv_append; [exact Hr|..|done].
    + by eapply outcome_fresh.
    + destruct Hcar as (_ & _ & _ & _ & _ & _ & -> & _). done.
  - apply edits_inv in He; [|done..]. destruct r as [response|e]; [|by eapply inv_same_rows].
    destruct He as (n & t' & (Hin & _ & _ & Hq & Hr) & _). eapply inv_replace; [exact Hr|done| |done].
    intros z Hz Hid. assert (z = n) as -> by (by apply (NoDup_fmap_inj_on n_ID (rows st.2)); [apply (wi_ids _ Hi)|..]).
    split_and!; [done|by rewrite Hq|by destruct cancel].
  - by eapply inv_same_rows.
Qed.
End worker.

(** C17: retries are bounded, and a message is delivered at most once.  Let users send,
    reschedule and cancel, and let edits fall between the worker's poll and its attempt, in any
    order: the worker attempts a notification at most [maxRetries] times and gets it delivered at
    most once, not counting attempts whose result the database refused to store; and it never
    holds a job for a notification that is stored as sent, which includes those the service sent
    at once. *)
Theorem retries_bounded {S} `{T : Table S Notification} `{O : Outside S} `{X : Scheduler}
    `{L : !TableLaws S Notification} `{OL : !OutsideLaws S} `{XL : !SchedulerLaws} svc interval (st : service * S) w id :
  let c := StartRetryWorker svc interval in
  NoDup (n_ID <$> rows st.2) → Forall (λ n, 0 ≤ n_RetryCount n) (rows st.2) →
  rtc (worker_step c) (Working st [] []) w →
  attempts id (k_log w) ≤ Z.max 0 (maxRetries svc) + lost id (k_log w) ∧
  deliveries id (k_log w) ≤ 1 + lost id (k_log w) ∧
  ∀ job n, job ∈ k_jobs w → n ∈ rows (k_state w).2 → job_row job = n_ID n → n_Status n ≠ StatusSent.
Proof.
  intros c Hids Hcounts Hr.
  assert (worker_inv c (Working st [] [])) as Hi.
  { rewrite Forall_forall in Hcounts. constructor; simpl; try done; intros; try (by apply NoDup_nil_2).
    unfold written_for, attempts, lost, tally. simpl. lia. }
  assert (worker_inv c w) as Hw by (clear -Hi Hr L OL XL; induction Hr; [done|]; apply IHHr; by eapply worker_step_inv).
  destruct Hw as [_ _ _ _ Hjobs _ Hb Ho]. specialize (Hb id). specialize (Ho id).
  pose proof (deliveries_split id (k_log w)). unfold written_for in Hb. simpl in Hb.
  split_and!; [lia..|]. intros job n Hj Hn Hrow. rewrite Forall_forall in Hjobs.
  destruct (Hjobs job Hj) as (m & Hp & _ & _ & _ & Hall). unfold job_row in Hrow. rewrite Hp in Hrow.
  by destruct (Hall n Hn (eq_sym Hrow)).
Qed.

(** * Witnesses *)
Definition plain_scheduler : Scheduler :=
  {| sch_update c job d err t :=
       MkUpdate (match err with None => dr_Status d | Some _ => sch_FailureStatus c end) (dr_ProviderMessageID d)
         (job_RetryCount job + 1) t |}.
Lemma plain_scheduler_laws : SchedulerLaws (X := plain_scheduler).
Proof. by constructor. Qed.

Section witnesses.
#[local] Existing Instances demo_table demo_laws demo_outside demo_outside_laws plain_scheduler plain_scheduler_laws.

(** The worker polls three jobs; before it attempts the last one, its user cancels it. *)
Definition round_config : scheduler_config := StartRetryWorker demo_service 60.
Definition apply_job (job : Job) (st : service * list Notification) : service * list Notification :=
  let '(st, (d, err)) := Attempt None job st in
  (on_world (ApplyAttemptResult job (sch_update round_config job d err 100)) st).1.
Definition cancel_n5 (st : service * list Notification) : service * list Notification :=
  (CancelNotification (Some demo_cfg) "n5" st).1.
Definition after_round : working :=
  Working (apply_job demo_job (cancel_n5 demo_st)) []
    [Attempted 5 true true].

Lemma after_round_reachable : rtc (worker_step round_config) (Working demo_st [] []) after_round.
Proof.
  eapply rtc_l. { apply (poll _ _ demo_st _ true 50 demo_jobs). vm_compute. reflexivity. }
  eapply rtc_l. { apply not_due. } eapply rtc_l. { apply not_due. }
  eapply rtc_l. { eapply (user_edits _ _ _ _ _ demo_cfg "n5" 0 true); [done|done|vm_compute; reflexivity]. }
  eapply rtc_l. { eapply (attempt_job _ _ _ _ _ _ _ None _ _ 100); vm_compute; reflexivity. }
  vm_compute. apply rtc_refl.
Qed.

Lemma retries_bounded_witness : deliveries 5 (k_log after_round) ≤ 1 ∧ attempts 5 (k_log after_round) = 1.
Proof.
  destruct (retries_bounded demo_service 60 demo_st after_round 5) as (_ & H & _).
  - apply (bool_decide_unpack _). vm_compute. exact I.
  - apply (bool_decide_unpack _). vm_compute. exact I.
  - apply after_round_reachable.
  - split; [exact H|vm_compute; reflexivity].
Defined.

(** An edit is a read and a write.  When the worker's whole attempt falls in between, the write
    puts the notification back into the queue, and it is delivered a second time. *)
Example overlapping_reschedule_resends :
  let '(s1, record) := MustGetNotificationByID "t1" "n5" demo_rows in
  match record with
  | Err _ => False
  | Ok record =>
      n_Status record = StatusQueued ∧
      let '(st2, (_, err)) := Attempt None demo_job (demo_service, s1) in
      err = None ∧
      let s3 := (apply_job demo_job st2).2 in
      n_Status <$> List.find (λ n, n_ID n =? 5) s3 = Some StatusSent ∧
      let s4 := (SaveNotification (set_schedule record StatusQueued (Some 40) 100) s3).1 in
      let '(s5, jobs) := PendingJobs true 3 50 s4 in
      match jobs with
      | Err _ => False
      | Ok jobs => ∃ job, job ∈ jobs ∧ job_ID job = "n5"%string ∧ (Attempt None job (demo_service, s5)).2.2 = None
      end
  end.
Proof.
  vm_compute. split; [done|]. split; [done|]. split; [done|]. eexists. split; [right; right; left|done].
Qed.
End witnesses.
