(* ===== verification/Directory.v ===== *)
(** What the API promises itself of tenants, and the process it runs in.

    The gRPC and HTTP handlers see tenants through the class [TenantDirectory]: the
    calls of [*tenant.Repository] they make, with laws that say what the answers mean
    in terms of three lists of rows.  [process] is the state of the running server
    (notifications, tenants with their caches, the providers); the repository of
    [Tenant] discharges the laws on it, so what is proved of the handlers against the
    interface holds of the real directory. *)
From S2P Require Import Prelude GoStrings Crypto Gorm Model Tenant TenantProofs Service.
Open Scope Z_scope.

(** * The interface *)
Class TenantDirectory (S : Type) := {
  dir_ok : S → Prop;
  dir_tenants : S → list Tenant;
  dir_domains : S → list TenantDomain;
  dir_admins : S → list TenantAdmin;
  repo_ResolveByHost : string → eff S RuntimeConfig;
  repo_ResolveByID : string → eff S RuntimeConfig;
  repo_ListActiveTenants : eff S (list Tenant);
  repo_ListActiveTenantsByDomain : string → eff S (list Tenant);
  repo_IsActiveTenantAdmin : string → eff S bool;
}.

(** A call that only looks: the directory and the notifications are as they were. *)
Definition quiet {S} `{T : Table S Notification} `{D : TenantDirectory S} (s s' : S) : Prop :=
  dir_ok s' ∧ dir_tenants s' = dir_tenants s ∧ dir_domains s' = dir_domains s ∧ dir_admins s' = dir_admins s ∧
  rows s' = rows s.

(** An administrator of some active tenant; the tenants a mail domain belongs to. *)
Definition is_admin_of `{U : Unicode} (tenants : list Tenant) (admins : list TenantAdmin) (email : string) : Prop :=
  normalizeAdminEmail email ≠ ""%string ∧
  ∃ t a, t ∈ tenants ∧ t_Status t = TenantStatusActive ∧ a ∈ admins ∧ ta_TenantID a = t_ID t ∧
    ta_Email a = normalizeAdminEmail email.
Definition in_domain `{U : Unicode} (tenants : list Tenant) (domains : list TenantDomain) (domain : string) (t : Tenant)
    : Prop :=
  t ∈ tenants ∧ t_Status t = TenantStatusActive ∧
  ∃ x, x ∈ domains ∧ td_TenantID x = t_ID t ∧ td_Host x = normalizeHost domain.

Class TenantDirectoryLaws (S : Type) `{U : Unicode} `{T : Table S Notification} `{O : Outside S} `{D : TenantDirectory S}
    : Prop := {
  TimeNow_quiet s : dir_ok s → quiet s (TimeNow s).1;
  repo_ResolveByHost_law host s s' r : dir_ok s → repo_ResolveByHost host s = (s', r) →
    quiet s s' ∧ ∀ cfg, r = Ok cfg → normalizeHost host ≠ ""%string ∧
      ∃ x, x ∈ dir_domains s ∧ td_Host x = normalizeHost host ∧
        (td_TenantID x ≠ ""%string → rc_TenantID cfg = td_TenantID x ∧ rc_Tenant cfg ∈ dir_tenants s);
  repo_ResolveByID_law id s s' r : dir_ok s → repo_ResolveByID id s = (s', r) →
    quiet s s' ∧ ∀ cfg, r = Ok cfg → TrimSpace id ≠ ""%string ∧ rc_TenantID cfg = TrimSpace id ∧
      rc_Tenant cfg ∈ dir_tenants s;
  repo_ListActiveTenants_law s s' r : dir_ok s → repo_ListActiveTenants s = (s', r) →
    quiet s s' ∧ ∀ l, r = Ok l → ∀ t, t ∈ l ↔ t ∈ dir_tenants s ∧ t_Status t = TenantStatusActive;
  repo_ListActiveTenantsByDomain_law domain s s' r : dir_ok s → repo_ListActiveTenantsByDomain domain s = (s', r) →
    quiet s s' ∧ ∀ l, r = Ok l → ∀ t, t ∈ l ↔ in_domain (dir_tenants s) (dir_domains s) domain t;
  repo_IsActiveTenantAdmin_law email s s' r : dir_ok s → repo_IsActiveTenantAdmin email s = (s', r) →
    quiet s s' ∧ ∀ b, r = Ok b → b = true ↔ is_admin_of (dir_tenants s) (dir_admins s) email;
}.

(** * The process *)
Class Providers (P : Type) := {
  provider_Now : P → P * Time;
  provider_SendEmail : EmailSender → string → string → string → list EmailAttachment → eff P unit;
  provider_SendSms : SmsSender → string → string → eff P string;
}.

Record process (SN DB E P : Type) := MkProcess {
  p_notifications : SN;
  p_tenants : tenant_world DB E;
  p_providers : P;
}.
Arguments MkProcess {SN DB E P} _ _ _.
Arguments p_notifications {SN DB E P} _.
Arguments p_tenants {SN DB E P} _.
Arguments p_providers {SN DB E P} _.

Section process.
Context `{U : Unicode} `{K : Crypto}.
Context {SN ST SD SA SE SS E P : Type}.
Context `{TN : Table SN Notification}.
Context `{TT : Table ST Tenant} `{TD : Table SD TenantDomain} `{TA : Table SA TenantAdmin}.
Context `{TE : Table SE EmailProfile} `{TS : Table SS SMSProfile}.
Context `{JD : Joins ST Tenant SD TenantDomain} `{JA : Joins ST Tenant SA TenantAdmin}.
Context `{Env : Environment E} `{PR : Providers P}.
(** The keeper's key, and the repository [main] made. *)
Context (key : string) (repo : nat).
#[local] Abbreviation DB := (tenant_db ST SD SA SE SS).
#[local] Abbreviation W := (process SN DB E P).

Definition process_table : Table W Notification :=
  zoom_table p_notifications (λ s w, MkProcess s (p_tenants w) (p_providers w)).

Definition in_tenants {A} : eff (tenant_world DB E) A → eff W A :=
  zoom p_tenants (λ t w, MkProcess (p_notifications w) t (p_providers w)).
Definition in_providers {A} : eff P A → eff W A :=
  zoom p_providers (λ x w, MkProcess (p_notifications w) (p_tenants w) x).

Definition process_outside : Outside W :=
  {| TimeNow := in_providers (λ x, let '(x, t) := provider_Now x in (x, Ok t));
     SendEmail := λ sender to_ subject message attachments,
       in_providers (provider_SendEmail sender to_ subject message attachments);
     SendSms := λ sender to_ message, in_providers (provider_SendSms sender to_ message);
     ResolveByID := λ id, in_tenants (Tenant.ResolveByID key repo id);
     activeTenant := λ w id, existsb (λ t, bool_decide (t_ID t = id) && is_active t) (tn (tw_db (p_tenants w))) |}.

Definition process_directory : TenantDirectory W :=
  {| dir_ok := λ w, coherent key (p_tenants w);
     dir_tenants := λ w, tn (tw_db (p_tenants w));
     dir_domains := λ w, dm (tw_db (p_tenants w));
     dir_admins := λ w, ad (tw_db (p_tenants w));
     repo_ResolveByHost := λ host, in_tenants (ResolveByHost key repo host);
     repo_ResolveByID := λ id, in_tenants (Tenant.ResolveByID key repo id);
     repo_ListActiveTenants := in_tenants (on_db ListActiveTenants);
     repo_ListActiveTenantsByDomain := λ domain, in_tenants (on_db (ListActiveTenantsByDomain domain));
     repo_IsActiveTenantAdmin := λ email, in_tenants (on_db (IsActiveTenantAdmin email)) |}.

Lemma process_table_laws `{LN : !TableLaws SN Notification} : TableLaws W Notification (T := process_table).
Proof. by apply zoom_table_laws. Qed.

Lemma process_outside_laws : OutsideLaws W (T := process_table) (O := process_outside).
Proof.
  constructor; simpl; unfold in_providers, in_tenants, zoom.
  - intros s. by destruct (provider_Now (p_providers s)).
  - intros s. destruct (provider_Now (p_providers s)). eauto.
  - intros x a b c d s. by destruct (provider_SendEmail x a b c d (p_providers s)).
  - intros x a b s. by destruct (provider_SendSms x a b (p_providers s)).
  - intros x s. by destruct (Tenant.ResolveByID key repo x (p_tenants s)).
Qed.

Context `{LT : !TableLaws ST Tenant} `{LD : !TableLaws SD TenantDomain} `{LA : !TableLaws SA TenantAdmin}.
Context `{LE : !TableLaws SE EmailProfile} `{LS : !TableLaws SS SMSProfile}.
Context `{JDL : !JoinLaws ST Tenant SD TenantDomain} `{JAL : !JoinLaws ST Tenant SA TenantAdmin}.

(** The tenants' part of the process changes only in its caches. *)
Lemma quiet_tenants w (t : tenant_world DB E) :
  coherent key t → same_tables (p_tenants w) t →
  quiet (T := process_table) (D := process_directory) w (MkProcess (p_notifications w) t (p_providers w)).
Proof.
  intros Ht (H1 & H2 & H3 & _)%tables_eq. unfold quiet. simpl. by split_and!.
Qed.
Lemma quiet_db w (d : DB) :
  coherent key (p_tenants w) → tables d = tables (tw_db (p_tenants w)) →
  quiet (T := process_table) (D := process_directory) w
    (MkProcess (p_notifications w) (MkTenantWorld d (tw_env (p_tenants w)) (tw_repos (p_tenants w))) (p_providers w)).
Proof. intros Hw Hd. apply quiet_tenants; [by apply coherent_db|done]. Qed.

(** The repository is such a directory. *)
Lemma process_directory_laws :
  TenantDirectoryLaws W (T := process_table) (O := process_outside) (D := process_directory).
Proof.
  constructor; simpl.
  - intros w Hw. unfold in_providers, zoom. destruct (provider_Now (p_providers w)). by split_and!.
  - intros host w w' r Hw (t & H & ->)%zoom_inv. apply ResolveByHost_inv in H as (Hc & Hs & Hr); [|done].
    split; [by apply quiet_tenants|]. intros cfg ->. destruct (Hr cfg eq_refl) as (Hne & id & Hh & Hcfg).
    split; [done|]. apply fmap_Some in Hh as (x & [Hx Hp]%find_Some_spec & ->).
    apply whereField_eq in Hp; [|done]. exists x. split_and!; [done..|].
    intros Hid. by destruct (runtime_of_tenant _ _ _ _ Hcfg Hid).
  - intros id w w' r Hw (t & H & ->)%zoom_inv. apply ResolveByID_inv in H as (Hc & Hs & Hr); [|done].
    split; [by apply quiet_tenants|]. intros cfg ->. destruct (Hr cfg eq_refl) as (Hne & Hcfg).
    destruct (runtime_of_tenant _ _ _ _ Hcfg Hne) as [Hid ?]. by split_and!.
  - intros w w' r Hw (t & (d & H & ->)%zoom_inv & ->)%zoom_inv. apply ListActiveTenants_inv in H as [Hd Hl].
    split; [by apply quiet_db|]. intros l ->. by apply Hl.
  - intros domain w w' r Hw (t & (d & H & ->)%zoom_inv & ->)%zoom_inv.
    apply ListActiveTenantsByDomain_inv in H as [Hd Hl].
    split; [by apply quiet_db|]. intros l ->. by apply Hl.
  - intros email w w' r Hw (t & (d & H & ->)%zoom_inv & ->)%zoom_inv.
    apply IsActiveTenantAdmin_inv in H as [Hd Hl].
    split; [by apply quiet_db|]. intros b ->. by apply Hl.
Qed.
End process.

(** * A process in memory *)
Definition memory_providers : Providers Z :=
  {| provider_Now := λ x, (x, 100);
     provider_SendEmail := λ _ to_ _ _ _ x,
       (x, if decide (to_ = "down@x.y"%string) then Err (Text "connection refused" []) else Ok ());
     provider_SendSms := λ _ _ _ x, (x, Ok "SM1"%string) |}.

Module MemoryProcess.
Export TenantTables.
#[export] Existing Instances ascii_unicode plain_crypto counter_env counter_env_laws memory_providers.
#[export] Existing Instances demo_table demo_laws demo_sql binary_codec.
Definition memory_process : Type := process (list Notification) memory_db Z Z.
#[export] Instance notifications : Table memory_process Notification := process_table.
#[export] Instance notifications_laws : TableLaws memory_process Notification := process_table_laws.
#[export] Instance notifications_reliable : Reliable memory_process Notification :=
  zoom_table_reliable (T := demo_table) (RR := list_table_reliable _ _) _ _.
#[export] Instance outside : Outside memory_process := process_outside memory_key 0.
#[export] Instance outside_laws : OutsideLaws memory_process := process_outside_laws memory_key 0.
#[export] Instance directory : TenantDirectory memory_process := process_directory memory_key 0.
#[export] Instance directory_laws : TenantDirectoryLaws memory_process := process_directory_laws memory_key 0.

(** After a bootstrap of acme and of beta, which is suspended. *)
Definition running : memory_process :=
  MkProcess [demo_note 1 10 "acme" StatusQueued; demo_note 2 20 "beta" StatusQueued; demo_note 3 30 "acme" StatusSent]
    booted 0.
Lemma running_ok : dir_ok running.
Proof.
  intros i repo Hi. vm_compute in Hi. destruct i; [injection Hi as <-|discriminate].
  split; intros ? ? H; vm_compute in H; discriminate.
Qed.
End MemoryProcess.
