(* ===== verification/Delivery.v ===== *)
(** From the service to the providers: the senders the notification service builds
    (src/internal/service/notification_service.go) over the e-mail sender of [Email] and
    the SMS sender of [Sms].

    [production_providers] is what [Directory.Providers] abstracts: every sender value is
    turned into the configured client it stands for.  [sent_is_delivered] follows a
    notification from the call of the service to what the provider was told. *)
From S2P Require Import Prelude GoStrings Strconv Base64 Crypto Gorm Model Tenant TenantProofs Config Email Sms Service Directory.
Open Scope Z_scope.

(** * Senders and their clients *)

(** The sender of a service without tenants, and the sender of a tenant. *)
Definition default_smtp_config (cfg : Config) : SMTPConfig :=
  MkSMTPConfig (SMTPHost cfg) (pretty (SMTPPort cfg)) (SMTPUsername cfg) (SMTPPassword cfg) (FromEmail cfg)
    (ConnectionTimeoutSec cfg).
Definition tenant_smtp_config (cfg : Config) (c : EmailCredentials) : SMTPConfig :=
  MkSMTPConfig (ec_Host c) (pretty (ec_Port c)) (ec_Username c) (ec_Password c) (ec_FromAddress c)
    (ConnectionTimeoutSec cfg).
Definition default_twilio_sender (cfg : Config) : TwilioSender :=
  NewTwilioSmsSender (TwilioAccountSID cfg) (TwilioAuthToken cfg) (TwilioFromNumber cfg) (ConnectionTimeoutSec cfg).
Definition tenant_twilio_sender (cfg : Config) (c : SMSCredentials) : TwilioSender :=
  NewTwilioSmsSender (sms_AccountSID c) (sms_AuthToken c) (sms_FromNumber c) (ConnectionTimeoutSec cfg).

Definition smtp_config_of (cfg : Config) (sender : EmailSender) : SMTPConfig :=
  match sender with
  | DefaultEmailSender => default_smtp_config cfg
  | SMTPEmailSender c => tenant_smtp_config cfg c
  end.
Definition twilio_sender_of (cfg : Config) (sender : SmsSender) : TwilioSender :=
  match sender with
  | DefaultSmsSender => default_twilio_sender cfg
  | TwilioSmsSender c => tenant_twilio_sender cfg c
  end.

(** [NewNotificationServiceWithSenders], the service [main] makes. *)
Definition NewNotificationService (cfg : Config) (hasTenantRepo : bool) : service :=
  NewNotificationServiceWithSenders false false hasTenantRepo (TwilioConfigured cfg) (MaxRetries cfg).

Definition production_providers {P} `{N : Upstream P} `{H : HttpClient P} (now : P → P * Time) (cfg : Config)
    : Providers P :=
  {| provider_Now := now;
     provider_SendEmail := λ sender, Email.SendEmail (smtp_config_of cfg sender);
     provider_SendSms := λ sender, Twilio_SendSms (twilio_sender_of cfg sender) |}.

(** * What a provider took *)

(** The senders a service has for a tenant are built from this configuration of it: none is
    a default, and none is left from another configuration. *)
Definition own_senders (svc : service) (tenant : RuntimeConfig) : Prop :=
  defaultEmailSender svc = false ∧ defaultSmsSender svc = false ∧
  (∀ x, emailSenders svc !! rc_TenantID tenant = Some x → x = SMTPEmailSender (rc_Email tenant)) ∧
  (∀ x, smsSenders svc !! rc_TenantID tenant = Some x → ∃ c, rc_SMS tenant = Some c ∧ x = TwilioSmsSender c).

Lemma own_email_sender svc tenant sender :
  own_senders svc tenant → (emailSenderForTenant svc tenant).2 = Ok sender → sender = SMTPEmailSender (rc_Email tenant).
Proof.
  intros (He & _ & Hc & _). unfold emailSenderForTenant. rewrite He. repeat case_match; intros [= <-]; eauto.
Qed.
Lemma own_sms_sender svc tenant sender :
  own_senders svc tenant → (smsSenderForTenant svc tenant).2 = Ok sender →
  ∃ c, rc_SMS tenant = Some c ∧ sender = TwilioSmsSender c.
Proof.
  intros (_ & Hs & _ & Hc). unfold smsSenderForTenant. rewrite Hs.
  destruct (rc_SMS tenant) as [c|] eqn:E; [|done]. repeat case_match; intros [= <-]; eauto.
Qed.

Section delivery.
Context {P : Type} `{N : Upstream P} `{H : HttpClient P} (now : P → P * Time) (cfg : Config).

(** The tenant's provider took this message between [p1] and [p2], and called it [id]: for an
    e-mail, the whole SMTP dialogue with the tenant's relay, credential and sender; for an
    SMS, one request to the tenant's Twilio account, answered below 300. *)
Definition delivered (tenant : RuntimeConfig) (request : NotificationRequest) (p1 p2 : P) (id : string) : Prop :=
  if decide (rq_type request = NotificationEmail) then
    id = ""%string ∧
    let relay := tenant_smtp_config cfg (rc_Email tenant) in
    ∃ nano p0, (rq_attachments request = [] ∧ nano = 0 ∧ p0 = p1 ∨
                rq_attachments request ≠ [] ∧ unix_nano p1 = (p0, Ok nano)) ∧
      provider_accepts relay (sc_FromAddress relay) [rq_recipient request]
        (buildEmailMessage nano (sc_FromAddress relay) (rq_recipient request) (rq_subject request)
           (rq_message request) (rq_attachments request)) p0 p2
  else
    ∃ c answer, rc_SMS tenant = Some c ∧
      Parse_at twilio_host (explode (twilio_path (sms_AccountSID c))) = Ok () ∧
      client_Do (twilio_request (tenant_twilio_sender cfg c) (rq_recipient request) (rq_message request)) p1
        = (p2, Ok answer) ∧
      StatusCode answer < 300 ∧ id = Body answer.

Lemma Twilio_SendSms_Ok sender recipient message (p p' : P) id :
  Twilio_SendSms sender recipient message p = (p', Ok id) ↔
  Parse_at twilio_host (explode (twilio_path (tw_AccountSID sender))) = Ok () ∧
  ∃ answer, client_Do (twilio_request sender recipient message) p = (p', Ok answer) ∧
    StatusCode answer < 300 ∧ id = Body answer.
Proof.
  unfold Twilio_SendSms. destruct (Parse_at _ _) as [[]|e]; [|by split; [intros [=]|intros [[=] _]]].
  rewrite lift_bind, eff_bind_Ok. split.
  - intros (w & answer & Hw & Hr). split; [done|]. exists answer.
    destruct (Z.leb_spec 300 (StatusCode answer)); [done|]. injection Hr as -> <-. by split_and!.
  - intros [_ (answer & Hw & Hc & ->)]. exists p', answer. split; [done|].
    by rewrite (proj2 (Z.leb_gt _ _)).
Qed.

(** * The process over production providers *)
Context `{U : Unicode} `{K : Crypto} {SN ST SD SA SE SS E : Type}.
Context `{TN : Table SN Notification} `{LN : !TableLaws SN Notification}.
Context `{TT : Table ST Tenant} `{TD : Table SD TenantDomain} `{TA : Table SA TenantAdmin}.
Context `{TE : Table SE EmailProfile} `{TS : Table SS SMSProfile}.
Context `{JD : Joins ST Tenant SD TenantDomain} `{JA : Joins ST Tenant SA TenantAdmin} `{Env : Environment E}.
Context (key : string) (repo : nat).
#[local] Abbreviation W := (process SN (tenant_db ST SD SA SE SS) E P).
#[local] Instance the_providers : Providers P := production_providers now cfg.
#[local] Instance the_table : Table W Notification := process_table.
#[local] Instance the_outside : Outside W := process_outside key repo.

(** A provider's answer is [Ok id] exactly when it took the message. *)
Lemma answer_delivered tenant request svc (s1 s2 : W) answer :
  own_senders svc tenant → provider_answer tenant request svc s1 s2 answer →
  p_notifications s2 = p_notifications s1 ∧
  match answer with
  | Ok id => delivered tenant request (p_providers s1) (p_providers s2) id
  | Err _ => ∀ p id, ¬ delivered tenant request (p_providers s1) p id
  end.
Proof.
  intros Hown [(Ht & sender & u & Hs & Hsend & ->)|(Ht & sender & Hs & Hsend)].
  - apply (own_email_sender _ _ _ Hown) in Hs as ->.
    simpl in Hsend. unfold in_providers, zoom in Hsend.
    destruct (Email.SendEmail _ _ _ _ _ (p_providers s1)) as [p2 v] eqn:Ep. injection Hsend as <- ->. split; [done|].
    unfold delivered. destruct u as [[]|e]; simpl; rewrite Ht.
    + split; [done|]. by apply SendEmail_Ok.
    + intros p id [_ Hd%SendEmail_Ok]. simpl in Hd. congruence.
  - apply (own_sms_sender _ _ _ Hown) in Hs as (c & Hc & ->).
    simpl in Hsend. unfold in_providers, zoom in Hsend.
    destruct (Twilio_SendSms _ _ _ (p_providers s1)) as [p2 v] eqn:Ep. injection Hsend as <- ->. split; [done|].
    unfold delivered. destruct answer as [id|e]; simpl; rewrite Ht.
    + apply Twilio_SendSms_Ok in Ep as (Hp & answer & Hd). by exists c, answer.
    + intros p id (c' & answer & Hc' & Hp & Hd). rewrite Hc in Hc'. injection Hc' as <-.
      rewrite (proj2 (Twilio_SendSms_Ok _ _ _ _ p id)) in Ep; [done|]. split; [done|]. by exists answer.
Qed.

(** Reading the clock and writing the table leave the rest of the process alone. *)
Lemma TimeNow_process (w w' : W) t : TimeNow w = (w', Ok t) → (p_providers w', t) = now (p_providers w).
Proof. simpl. unfold in_providers, zoom. simpl. destruct (now (p_providers w)) as [p u]. by intros [= <- <-]. Qed.
Lemma Create_process n (w w' : W) r : CreateNotification n w = (w', r) → p_providers w' = p_providers w.
Proof.
  unfold CreateNotification. simpl. unfold zoom. destruct (Create n (p_notifications w)) as [x y]. by intros [= <- <-].
Qed.

Lemma sends_or_not tenant request svc svc' (w w' : W) response :
  own_senders svc tenant → isSupportedNotificationType (rq_type request) = true →
  SendNotification (Some tenant) request (svc, w) = ((svc', w'), Ok response) →
  let pa := (now (p_providers w)).1 in let pb := (now pa).1 in
  let '(p1, currentTime) := now pb in
  (∃ t, rq_scheduledFor request = Some t ∧ currentTime < t ∧ r_Status response = StatusQueued ∧ p_providers w' = p1) ∨
  (∀ t, rq_scheduledFor request = Some t → t ≤ currentTime) ∧
  (r_Status response = StatusSent ∧ delivered tenant request p1 (p_providers w') (r_ProviderMessageID response) ∨
   r_Status response = StatusErrored ∧ ∀ p id, ¬ delivered tenant request p1 p id).
Proof.
  intros Hown Hsup Hs pa pb.
  apply (SendNotification_inv (L := process_table_laws) (OL := process_outside_laws key repo)) in Hs as (? & n & t & [= <-] & _ & -> & _ & Ho); [|done].
  destruct Ho as (sa & sb & s1 & s2 & t1 & t2 & n0 & H1%TimeNow_process & H2%TimeNow_process & H3%TimeNow_process & Hd & Hc & Hst & Hid).
  simpl in *. apply Create_process in Hc. assert (now pb = (p_providers s1, t)) as ->.
  { subst pa pb. rewrite <- H1. simpl. rewrite <- H2. simpl. by rewrite <- H3. }
  rewrite Hst, Hid, Hc. destruct Hd as [Hlater|(Hdue & answer & Ha & Hans)].
  - left. destruct (rq_scheduledFor request) as [x|]; [|done]. destruct Hlater as (? & -> & ->). by exists x.
  - right. split; [intros x Hx; by rewrite Hx in Hdue|].
    apply answer_delivered in Ha as [_ Ha]; [|done]. destruct answer as [id|e]; destruct Hans as [-> ->]; [left|right]; done.
Qed.

(** The message of a stored notification. *)
Definition request_of (n : Notification) : NotificationRequest :=
  MkRequest (n_NotificationType n) (n_Recipient n) (n_Subject n) (n_Message n) (n_ScheduledFor n)
    (ToEmailAttachments (n_Attachments n)).

(** The service has no sender for this kind of message of the tenant. *)
Definition no_sender (svc : service) (tenant : RuntimeConfig) (kind : string) : Prop :=
  kind = NotificationEmail ∧ (∃ e, (emailSenderForTenant svc tenant).2 = Err e) ∨
  kind = NotificationSMS ∧ (∃ e, (smsSenderForTenant svc tenant).2 = Err e).

(** The worker resolves the tenant and asks one of its senders, once. *)
Lemma Attempt_answer ctx job record tenant svc (w w1 : W) st' d e :
  job_Payload job = NotificationPayload record → hasTenantRepo svc = true → n_TenantID record ≠ ""%string →
  ResolveByID (n_TenantID record) w = (w1, Ok tenant) →
  isSupportedNotificationType (n_NotificationType record) = true →
  Attempt ctx job (svc, w) = (st', (d, e)) →
  (∃ answer, provider_answer tenant (request_of record) svc w1 st'.2 answer ∧
    match answer with
    | Ok id => d = MkDispatchResult StatusSent id ∧ e = None
    | Err e' => d = MkDispatchResult "" "" ∧ e = Some e'
    end) ∨
  no_sender svc tenant (n_NotificationType record) ∧ e ≠ None ∧ d = MkDispatchResult StatusErrored "" ∧ st'.2 = w1.
Proof.
  intros Hj Hr Hne Hres Hsup. unfold Attempt, recordFromJob, runtimeForTenantID. rewrite Hj, decide_False by done.
  cbn [fst]. rewrite Hr. unfold on_world at 1. cbn [fst snd]. rewrite Hres.
  destruct (decide (n_NotificationType record = NotificationEmail)) as [Ht|Ht].
  - unfold on_service. cbn [fst snd]. destruct (emailSenderForTenant svc tenant) as [svc1 [sender|e']] eqn:Es.
    2:{ intros [= <- <- <-]. right. split_and!; try done. left. rewrite Es. eauto. }
    unfold on_world. cbn [fst snd].
    destruct (SendEmail _ _ _ _ _ w1) as [w2 u] eqn:Ep. intros [= <- Hu]. left.
    exists (match u with Ok _ => Ok ""%string | Err e' => Err e' end).
    split; [left; split; [done|]; exists sender, u; by rewrite Es|]. by destruct u; simplify_eq.
  - destruct (decide (n_NotificationType record = NotificationSMS)) as [Ht'|Ht'].
    2:{ unfold isSupportedNotificationType in Hsup. by rewrite !bool_decide_eq_false_2 in Hsup. }
    unfold on_service. cbn [fst snd]. destruct (smsSenderForTenant svc tenant) as [svc1 [sender|e']] eqn:Es.
    + unfold on_world. cbn [fst snd].
      destruct (SendSms _ _ _ w1) as [w2 u] eqn:Ep. intros [= <- Hu]. left. exists u.
      split; [right; split; [done|]; exists sender; by rewrite Es|]. by destruct u; simplify_eq.
    + intros [= <- <- <-]. right. split_and!; try done. right. rewrite Es. eauto.
Qed.

Lemma retries_or_not ctx job record tenant svc (w w1 : W) svc' w' d e :
  own_senders svc tenant → job_Payload job = NotificationPayload record → hasTenantRepo svc = true →
  n_TenantID record ≠ ""%string → ResolveByID (n_TenantID record) w = (w1, Ok tenant) →
  isSupportedNotificationType (n_NotificationType record) = true →
  Attempt ctx job (svc, w) = ((svc', w'), (d, e)) →
  (e = None ∧ dr_Status d = StatusSent ∧
     delivered tenant (request_of record) (p_providers w) (p_providers w') (dr_ProviderMessageID d)) ∨
  e ≠ None ∧ dr_Status d ≠ StatusSent ∧
    ((∀ p id, ¬ delivered tenant (request_of record) (p_providers w) p id) ∨
     no_sender svc tenant (n_NotificationType record) ∧ p_providers w' = p_providers w).
Proof.
  intros Hown Hj Hr Hne Hres Hsup Ha.
  assert (p_providers w1 = p_providers w) as Hp.
  { simpl in Hres. unfold in_tenants, zoom in Hres. destruct (Tenant.ResolveByID _ _ _ _). by injection Hres as <- _. }
  rewrite <- Hp. destruct (Attempt_answer _ _ _ _ _ _ _ _ _ _ Hj Hr Hne Hres Hsup Ha)
    as [(answer & Hans & Hd)|(Hno & He & -> & Hw)].
  - apply answer_delivered in Hans as [_ Hans]; [|done]. destruct answer as [id|e']; destruct Hd as [-> ->]; [by left|].
    right. split_and!; [done..|]. by left.
  - right. split_and!; [done..|]. right. simpl in Hw. by rewrite Hw.
Qed.

End delivery.

(** * Witnesses *)
Definition twilio_client : HttpClient (list string) :=
  {| client_Do post p :=
       (p ++ [post_URL post; implode (post_Body post)],
        Ok (if Contains (implode (post_Body post)) "bad" then MkHttpResponse 400 "no" else MkHttpResponse 201 "SM7")) |}.
Definition texting : RuntimeConfig :=
  MkRuntime (MkTenant "acme" "" "" TenantStatusActive 0 0) (MkEmailCredentials "smtp.x" 465 "u" "p" "a@x.y")
    (Some (MkSMSCredentials "AC1" "tok" "+1 555")).
Definition small_config : Config :=
  let relay := MkRelayConfig "" 0 "" "" in
  MkConfig "" "" "" 3 60 "" "" [] false "" [] [] (MkSubmissionConfig false "" "" "" "" "" 0 "" "" 0 0 false relay)
    (MkForwardingConfig false "" "" 0 0 relay) "" "" "" "" "" 0 "" "" "" "" 30 30.
Definition noon (p : list string) : list string * Time := (p, 100).
Definition sms_request (message : string) : NotificationRequest := MkRequest NotificationSMS "+1 999" "" message None [].

Section witnesses.
#[local] Existing Instances ascii_unicode plain_crypto counter_env demo_upstream twilio_client.
Import TenantTables.
#[local] Existing Instances demo_table demo_laws.
#[local] Instance w_providers : Providers (list string) := production_providers noon small_config.
Definition sending_process : Type := process (list Notification) memory_db Z (list string).
Definition idle : sending_process := MkProcess [] booted [].
#[local] Instance w_table : Table sending_process Notification := process_table.
#[local] Instance w_outside : Outside sending_process := process_outside memory_key 0.

(** An SMS with separators in its text is sent; a stored e-mail is sent by the worker, through
    the relay of the tenant it resolves. *)
Definition stored_mail : Notification :=
  NewNotification "n-1" "acme" (MkRequest NotificationEmail "b@z.w" "Hi" "text" None []) 50.
Definition mail_job : Job := MkJob "n-1" None 0 0 (NotificationPayload stored_mail).
Definition acme_runtime : RuntimeConfig :=
  match (ResolveByID "acme" idle).2 with Ok tenant => tenant | Err _ => texting end.

Example refused_is_errored :
  ∃ svc' w' response,
    SendNotification (Some texting) (sms_request "bad") (NewNotificationService small_config true, idle)
      = ((svc', w'), Ok response) ∧ r_Status response = StatusErrored.
Proof. eexists _, _, _. split; vm_compute; reflexivity. Qed.
End witnesses.
