(* ===== verification/Grpc.v ===== *)
(** The gRPC API (src/cmd/server/main.go): the five handlers, the translation between
    protocol-buffer and model values, and the two interceptors every call goes through.

    The messages of pinguin.proto are records; enumerations are numbers, because a
    client may send any; a repeated message is a list of optional values, because Go has
    it as a slice of pointers.  Time stamps and their text are the classes [Timestamps]
    and [TimeText]; the directory of tenants is [TenantDirectory]. *)
From S2P Require Import Prelude GoStrings Crypto Gorm Model Tenant TenantProofs Service Directory.
Open Scope Z_scope.

(** * Status codes *)
Definition codes_Unknown : Z := 2.
Definition codes_InvalidArgument : Z := 3.
Definition codes_NotFound : Z := 5.
Definition codes_Internal : Z := 13.
Definition codes_Unauthenticated : Z := 16.

(** [status.Code(err)]: what the client sees. *)
Fixpoint status_Code (err : error) : Z :=
  match err with
  | StatusError code _ => code
  | Wrapf _ _ inner | WrapfV _ _ inner _ => status_Code inner
  | _ => codes_Unknown
  end.
Definition status_Error (code : Z) (msg : string) : error := StatusError code (Text msg []).

Definition tenantMetadataKey : string := "x-tenant-id".
Definition tenantIDRequiredMessage : string := "tenant_id is required".
Definition tenantNotFoundMessage : string := "tenant not found".
Definition tenantRepositoryUnavailableError : string := "tenant repository unavailable".
Definition notificationIDRequiredMessage : string := "notification_id is required".
Definition scheduledTimeRequiredMessage : string := "scheduled_time is required".
Definition scheduledTimeFutureMessage : string := "scheduled_time must be in the future".

(** * Messages (pinguin.proto) *)
Definition NotificationType_EMAIL : Z := 0.
Definition NotificationType_SMS : Z := 1.
Definition Status_QUEUED : Z := 0.
Definition Status_SENT : Z := 1.
Definition Status_UNKNOWN : Z := 3.
Definition Status_CANCELLED : Z := 4.
Definition Status_ERRORED : Z := 5.

(** [timestamppb.Timestamp]: a valid one denotes an instant of the years 1 to 9999. *)
Class Timestamps := {
  Timestamp : Type;
  CheckValid : Timestamp → result unit;
  AsTime : Timestamp → Time;
  timestamppb_New : Time → Timestamp;
  New_valid t : rfc3339_range t → CheckValid (timestamppb_New t) = Ok ();
  New_AsTime t : rfc3339_range t → AsTime (timestamppb_New t) = t;
}.
(** [t.Format(time.RFC3339)] and [time.Parse(time.RFC3339, s)]. *)
Class TimeText := { Format_RFC3339 : Time → string; Parse_RFC3339 : string → result Time }.

Record pb_EmailAttachment := PbAttachment { pa_Filename : string; pa_ContentType : string; pa_Data : list ascii }.

Section messages.
Context `{TS : Timestamps}.
Record pb_NotificationRequest := PbRequest {
  pr_NotificationType : Z;
  pr_Recipient : string;
  pr_Subject : string;
  pr_Message : string;
  pr_ScheduledTime : option Timestamp;
  pr_Attachments : list (option pb_EmailAttachment);
  pr_TenantId : string;
}.
Record pb_NotificationResponse := PbResponse {
  ps_NotificationId : string;
  ps_NotificationType : Z;
  ps_Recipient : string;
  ps_Subject : string;
  ps_Message : string;
  ps_Status : Z;
  ps_ProviderMessageId : string;
  ps_RetryCount : Z;
  ps_CreatedAt : string;
  ps_UpdatedAt : string;
  ps_ScheduledTime : option Timestamp;
  ps_Attachments : list (option pb_EmailAttachment);
  ps_TenantId : string;
}.
Inductive grpc_request :=
| GrpcSend (req : pb_NotificationRequest)
| GrpcGetStatus (notificationId tenantId : string)
| GrpcList (statuses : list Z) (tenantId : string)
| GrpcReschedule (notificationId : string) (scheduledTime : option Timestamp) (tenantId : string)
| GrpcCancel (notificationId tenantId : string).
Inductive grpc_response :=
| GrpcNotification (response : pb_NotificationResponse)
| GrpcNotifications (responses : list pb_NotificationResponse).

(** Every request has a tenant id, so [req.(tenantIDGetter)] succeeds. *)
Definition GetTenantId (req : grpc_request) : string :=
  match req with
  | GrpcSend req => pr_TenantId req
  | GrpcGetStatus _ t | GrpcList _ t | GrpcReschedule _ _ t | GrpcCancel _ t => t
  end.
End messages.

(** * Translations *)
Definition mapGrpcAttachments (source : list (option pb_EmailAttachment)) : list EmailAttachment :=
  omap (λ o, a ← o; Some (MkAttachment (pa_Filename a) (pa_ContentType a) (pa_Data a))) source.
Definition mapModelAttachments (source : list EmailAttachment) : list (option pb_EmailAttachment) :=
  (λ a, Some (PbAttachment (att_Filename a) (att_ContentType a) (att_Data a))) <$> source.

Definition mapGrpcStatus (statusValue : Z) : option string :=
  if statusValue =? Status_QUEUED then Some StatusQueued
  else if statusValue =? Status_SENT then Some StatusSent
  else if statusValue =? Status_CANCELLED then Some StatusCancelled
  else if statusValue =? Status_ERRORED then Some StatusErrored
  else if statusValue =? Status_UNKNOWN then Some StatusUnknown
  else None.
Definition mapGrpcStatuses (source : list Z) : list string := omap mapGrpcStatus source.

Section server.
Context `{TS : Timestamps} `{TX : TimeText}.

Definition mapModelToGrpcResponse (modelResp : NotificationResponse) : pb_NotificationResponse :=
  let grpcNotifType :=
    if decide (r_NotificationType modelResp = NotificationEmail) then NotificationType_EMAIL
    else if decide (r_NotificationType modelResp = NotificationSMS) then NotificationType_SMS
    else NotificationType_EMAIL in
  let grpcStatus :=
    if decide (r_Status modelResp = StatusQueued) then Status_QUEUED
    else if decide (r_Status modelResp = StatusSent) then Status_SENT
    else if decide (r_Status modelResp = StatusCancelled) then Status_CANCELLED
    else if decide (r_Status modelResp = StatusErrored) then Status_ERRORED
    else Status_UNKNOWN in
  PbResponse (r_NotificationID modelResp) grpcNotifType (r_Recipient modelResp) (r_Subject modelResp)
    (r_Message modelResp) grpcStatus (r_ProviderMessageID modelResp) (int32 (r_RetryCount modelResp))
    (Format_RFC3339 (r_CreatedAt modelResp)) (Format_RFC3339 (r_UpdatedAt modelResp))
    (timestamppb_New <$> r_ScheduledFor modelResp) (mapModelAttachments (r_Attachments modelResp))
    (r_TenantID modelResp).

(** * Handlers *)
Context {S : Type} `{T : Table S Notification} `{O : Outside S} `{Q : Sql}.

Definition invalidScheduledTime (err : error) : error :=
  StatusError codes_InvalidArgument (Wrapf "invalid scheduled_time: %v" [] err).

Definition server_SendNotification (ctx : context) (req : pb_NotificationRequest)
    : eff (service * S) pb_NotificationResponse :=
  internalType ← lift (
    if pr_NotificationType req =? NotificationType_EMAIL then Ok NotificationEmail
    else if pr_NotificationType req =? NotificationType_SMS then Ok NotificationSMS
    else Err (Text "unsupported notification type: %v" [FInt (pr_NotificationType req)]));
  scheduledFor ← lift (
    match pr_ScheduledTime req with
    | None => Ok None
    | Some ts => match CheckValid ts with
                 | Err err => Err (invalidScheduledTime err)
                 | Ok _ => Ok (Some (AsTime ts))
                 end
    end);
  let attachments := mapGrpcAttachments (pr_Attachments req) in
  modelRequest ← lift (
    match NewNotificationRequest internalType (pr_Recipient req) (pr_Subject req) (pr_Message req)
            scheduledFor attachments with
    | Err requestError => Err (StatusError codes_InvalidArgument requestError)
    | Ok r => Ok r
    end);
  modelResponse ← SendNotification ctx modelRequest;
  mret (mapModelToGrpcResponse modelResponse).

Definition missingID (notificationID : string) : result unit :=
  guard_err (bool_decide (notificationID = ""%string))
    (status_Error codes_InvalidArgument notificationIDRequiredMessage).

Definition server_GetNotificationStatus (ctx : context) (rawID : string) : eff (service * S) pb_NotificationResponse :=
  let notificationID := TrimSpace rawID in
  lift (missingID notificationID);;
  modelResponse ← GetNotificationStatus ctx notificationID;
  mret (mapModelToGrpcResponse modelResponse).

Definition server_ListNotifications (ctx : context) (statuses : list Z)
    : eff (service * S) (list pb_NotificationResponse) :=
  let filters := MkFilters (mapGrpcStatuses statuses) "" in
  responses ← Service_ListNotifications ctx filters;
  mret (mapModelToGrpcResponse <$> responses).

Definition server_RescheduleNotification (ctx : context) (rawID : string) (scheduledTime : option Timestamp)
    : eff (service * S) pb_NotificationResponse :=
  let notificationID := TrimSpace rawID in
  lift (missingID notificationID);;
  scheduledFor ← lift (
    match scheduledTime with
    | None => Err (status_Error codes_InvalidArgument scheduledTimeRequiredMessage)
    | Some ts => match CheckValid ts with
                 | Err err => Err (invalidScheduledTime err)
                 | Ok _ => Ok (AsTime ts)
                 end
    end);
  now ← on_world TimeNow;
  lift (guard_err (scheduledFor <? now) (status_Error codes_InvalidArgument scheduledTimeFutureMessage));;
  modelResponse ← RescheduleNotification ctx notificationID scheduledFor;
  mret (mapModelToGrpcResponse modelResponse).

Definition server_CancelNotification (ctx : context) (rawID : string) : eff (service * S) pb_NotificationResponse :=
  let notificationID := TrimSpace rawID in
  lift (missingID notificationID);;
  modelResponse ← CancelNotification ctx notificationID;
  mret (mapModelToGrpcResponse modelResponse).

(** The registered service: one handler per method. *)
Definition notificationServiceServer (ctx : context) (req : grpc_request) : eff (service * S) grpc_response :=
  match req with
  | GrpcSend req => r ← server_SendNotification ctx req; mret (GrpcNotification r)
  | GrpcGetStatus id _ => r ← server_GetNotificationStatus ctx id; mret (GrpcNotification r)
  | GrpcList statuses _ => l ← server_ListNotifications ctx statuses; mret (GrpcNotifications l)
  | GrpcReschedule id t _ => r ← server_RescheduleNotification ctx id t; mret (GrpcNotification r)
  | GrpcCancel id _ => r ← server_CancelNotification ctx id; mret (GrpcNotification r)
  end.

(** * Interceptors *)

(** The call's metadata: header names in lower case, with their values. *)
Definition metadata : Type := gmap string (list string).
Definition md_Get (md : metadata) (key : string) : list string := default [] (md !! key).
Record grpc_context := MkGrpcContext { gc_metadata : option metadata; gc_tenant : context }.
Definition UnaryHandler : Type := grpc_context → grpc_request → eff (service * S) grpc_response.

Definition buildAuthInterceptor (requiredToken : string) (handler : UnaryHandler) : UnaryHandler := λ ctx req,
  match gc_metadata ctx with
  | None => lift (Err (status_Error codes_Unauthenticated "missing metadata"))
  | Some metadataValues =>
      match md_Get metadataValues "authorization" with
      | [] => lift (Err (status_Error codes_Unauthenticated "missing authorization header"))
      | headerValue :: _ =>
          if negb (HasPrefix headerValue "Bearer ")
          then lift (Err (status_Error codes_Unauthenticated "invalid authorization header"))
          else if bool_decide (TrimPrefix headerValue "Bearer " ≠ requiredToken)
          then lift (Err (status_Error codes_Unauthenticated "invalid token"))
          else handler ctx req
      end
  end.

(** The tenant a call is for: the request's, or else the header's. *)
Definition requested_tenant (ctx : grpc_context) (req : grpc_request) : string :=
  let tenantID := TrimSpace (GetTenantId req) in
  if decide (tenantID = ""%string) then
    match gc_metadata ctx with
    | Some metadataValues =>
        match md_Get metadataValues tenantMetadataKey with value :: _ => TrimSpace value | [] => tenantID end
    | None => tenantID
    end
  else tenantID.

(** [repo] says that there is a repository, which is [TenantDirectory]. *)
Definition buildTenantInterceptor `{D : TenantDirectory S} (repo : bool) (handler : UnaryHandler) : UnaryHandler :=
  λ ctx req,
  if negb repo then lift (Err (status_Error codes_Internal tenantRepositoryUnavailableError)) else
  let tenantID := requested_tenant ctx req in
  if decide (tenantID = ""%string)
  then lift (Err (status_Error codes_InvalidArgument tenantIDRequiredMessage)) else
  runtimeCfg ← map_err (λ _, status_Error codes_NotFound tenantNotFoundMessage) (on_world (repo_ResolveByID tenantID));
  handler (MkGrpcContext (gc_metadata ctx) (WithRuntime (gc_tenant ctx) runtimeCfg)) req.

(** The chain [serveGRPC] installs, around the registered service. *)
Definition serveGRPC `{D : TenantDirectory S} (repo : bool) (requiredToken : string) : UnaryHandler :=
  buildAuthInterceptor requiredToken
    (buildTenantInterceptor repo (λ ctx req, notificationServiceServer (RuntimeFromContext (gc_tenant ctx)) req)).
End server.

(** * Authentication *)
Definition presents_token (ctx : grpc_context) (requiredToken : string) : Prop :=
  ∃ md rest, gc_metadata ctx = Some md ∧ md_Get md "authorization" = ("Bearer " ++ requiredToken)%string :: rest.

Section guarantees.
Context `{TS : Timestamps} `{TX : TimeText}.
Context {S : Type} `{T : Table S Notification} `{O : Outside S} `{Q : Sql} `{D : TenantDirectory S}.

Lemma auth_passes repo requiredToken ctx req (st : service * S) :
  presents_token ctx requiredToken →
  serveGRPC repo requiredToken ctx req st =
  buildTenantInterceptor repo (λ ctx req, notificationServiceServer (RuntimeFromContext (gc_tenant ctx)) req) ctx req st.
Proof.
  unfold serveGRPC, buildAuthInterceptor. intros (md & rest & -> & ->).
  destruct (proj2 (HasPrefix_cut ("Bearer " ++ requiredToken) "Bearer " requiredToken) eq_refl) as [-> ->].
  rewrite bool_decide_false; [done|]. intros Hx. by apply Hx.
Qed.

(** Every call needs the token.  When the first authorization header of a call is
    exactly "Bearer " and the configured token, the call goes on to the tenant
    interceptor; any other call (no metadata, no header, another scheme, another token)
    is answered Unauthenticated, and nothing whatever has changed. *)
Theorem grpc_requires_token repo requiredToken ctx req (st : service * S) :
  (presents_token ctx requiredToken →
     serveGRPC repo requiredToken ctx req st =
     buildTenantInterceptor repo (λ ctx req, notificationServiceServer (RuntimeFromContext (gc_tenant ctx)) req)
       ctx req st) ∧
  (¬ presents_token ctx requiredToken →
     ∃ e, serveGRPC repo requiredToken ctx req st = (st, Err e) ∧ status_Code e = codes_Unauthenticated).
Proof.
  split; [apply auth_passes|].
  unfold serveGRPC, buildAuthInterceptor, presents_token.
  - intros Hno. destruct (gc_metadata ctx) as [md|] eqn:Emd; [|by eexists].
    destruct (md_Get md "authorization") as [|h rest] eqn:Eh; [by eexists|].
    destruct (HasPrefix h "Bearer ") eqn:Ep; [|by eexists]. simpl. case_bool_decide as Ht; [by eexists|].
    destruct Hno. exists md, rest. split; [done|]. rewrite Eh. f_equal. apply HasPrefix_cut. split; [done|].
    by destruct (decide (TrimPrefix h "Bearer " = requiredToken)).
Qed.

(** * Isolation *)
Context `{U : Unicode} `{L : !TableLaws S Notification} `{OL : !OutsideLaws S} `{DL : !TenantDirectoryLaws S}.

Definition responses_of (reply : grpc_response) : list pb_NotificationResponse :=
  match reply with GrpcNotification r => [r] | GrpcNotifications l => l end.
Definition tenants_of (reply : grpc_response) : list string := ps_TenantId <$> responses_of reply.

(** A confined computation behind steps that do not touch the table. *)
Lemma confined_map cfg {A B} (ta : A → list string) (tb : B → list string) (f : A → B) (m : eff (service * S) A) :
  (∀ a, tb (f a) = ta a) → confined_to cfg ta m → confined_to cfg tb (a ← m; mret (f a)).
Proof.
  intros Hf Hm st st' r Hnd [(e & H & ->)|(st1 & a & H & [= <- <-])]%eff_bind_inv.
  - destruct (Hm _ _ _ Hnd H) as (? & He & _). split_and!; [done|by intros; apply (He e)|]. by intros a [=].
  - destruct (Hm _ _ _ Hnd H) as (? & _ & Ha). split_and!; [done|by intros e [=]|]. intros b [= <-].
    rewrite Hf. by apply Ha.
Qed.
Lemma confined_lift cfg {A B} (r : result B) (tb : A → list string) (m : B → eff (service * S) A) :
  (∀ b, r = Ok b → confined_to cfg tb (m b)) → confined_to cfg tb (b ← lift r; m b).
Proof.
  intros Hm st st' x Hnd. destruct r as [b|e].
  - intros [(e & [=] & _)|(st1 & b' & [= <- <-] & H)]%eff_bind_inv. by apply (Hm b eq_refl).
  - intros [= <- <-]. split_and!; [done|done|]. by intros a [=].
Qed.
Lemma confined_now cfg {A} (tb : A → list string) (m : Time → eff (service * S) A) :
  (∀ t, confined_to cfg tb (m t)) → confined_to cfg tb (t ← on_world TimeNow; m t).
Proof.
  intros Hm st st' x Hnd [(e & H%now_rows & ->)|(st1 & t & H%now_rows & H2)]%eff_bind_inv.
  - destruct H as (_ & -> & _). split_and!; [done|done|]. by intros a [=].
  - destruct H as (_ & Hr & _). rewrite <- Hr in Hnd |- *. by apply (Hm t).
Qed.

Lemma server_confined cfg req :
  rc_TenantID cfg ≠ ""%string → confined_to cfg tenants_of (notificationServiceServer (Some cfg) req).
Proof.
  intros Hcfg. destruct req as [req|id t|statuses t|id ts t|id t]; cbn [notificationServiceServer].
  - apply (confined_map _ (λ p, [ps_TenantId p])); [done|]. unfold server_SendNotification.
    apply confined_lift. intros type Htype. apply confined_lift. intros sched _. apply confined_lift. intros rq Hrq.
    apply (confined_map _ response_tenant); [done|]. apply Send_confined.
    destruct (NewNotificationRequest _ _ _ _ _ _) as [rq'|] eqn:E; [|done]. injection Hrq as <-.
    unfold NewNotificationRequest in E. repeat (apply bind_Ok in E as (? & ?%guard_err_Ok & E)).
    apply bind_Ok in E as (? & _ & [= <-]). simpl. by to_prop.
  - apply (confined_map _ (λ p, [ps_TenantId p])); [done|]. apply confined_lift. intros [] Hid%guard_err_Ok. to_prop.
    apply (confined_map _ response_tenant); [done|]. by apply Get_confined.
  - apply (confined_map _ (fmap ps_TenantId)); [done|].
    apply (confined_map _ (fmap r_TenantID)); [|by apply List_confined].
    intros a. rewrite <- list_fmap_compose. by apply list_fmap_ext.
  - apply (confined_map _ (λ p, [ps_TenantId p])); [done|]. apply confined_lift. intros [] Hid%guard_err_Ok. to_prop.
    apply confined_lift. intros sched _. apply confined_now. intros now. apply confined_lift. intros [] _.
    apply (confined_map _ response_tenant); [done|]. by apply (edits_confined_to cfg Hcfg (TrimSpace id) sched false).
  - apply (confined_map _ (λ p, [ps_TenantId p])); [done|]. apply confined_lift. intros [] Hid%guard_err_Ok. to_prop.
    apply (confined_map _ response_tenant); [done|]. by apply (edits_confined_to cfg Hcfg (TrimSpace id) 0 true).
Qed.

Lemma requested_tenant_trimmed ctx req : TrimSpace (requested_tenant ctx req) = requested_tenant ctx req.
Proof. unfold requested_tenant. repeat case_match; by rewrite ?TrimSpace_idem. Qed.

Lemma served_presents_token repo requiredToken ctx req (st st' : service * S) reply :
  serveGRPC repo requiredToken ctx req st = (st', Ok reply) → presents_token ctx requiredToken.
Proof.
  unfold serveGRPC, buildAuthInterceptor, presents_token. destruct (gc_metadata ctx) as [md|]; [|done].
  destruct (md_Get md "authorization") as [|h rest] eqn:Eh; [done|].
  destruct (HasPrefix h "Bearer ") eqn:Ep; [|done]. cbn [negb]. case_bool_decide as Ht; [done|]. intros _.
  exists md, rest. split; [done|]. rewrite Eh. f_equal. apply HasPrefix_cut. done.
Qed.

Lemma serveGRPC_confined repo requiredToken ctx req (st st' : service * S) r :
  dir_ok st.2 → NoDup (n_ID <$> rows st.2) →
  serveGRPC repo requiredToken ctx req st = (st', r) →
  confined (requested_tenant ctx req) (rows st.2) (rows st'.2) ∧
  match r with
  | Err _ => rows st'.2 = rows st.2
  | Ok reply => presents_token ctx requiredToken ∧ (∃ t, t ∈ dir_tenants st.2 ∧ t_ID t = requested_tenant ctx req) ∧
      Forall (λ p, ps_TenantId p = requested_tenant ctx req) (responses_of reply)
  end.
Proof.
  intros Hok Hnd H.
  assert (∀ reply, r = Ok reply → presents_token ctx requiredToken) as Htok by (intros reply ->; by eapply served_presents_token).
  unfold serveGRPC, buildAuthInterceptor in H.
  destruct (gc_metadata ctx) as [md|]; [|by injection H as <- <-].
  destruct (md_Get md "authorization") as [|h rest]; [by injection H as <- <-|].
  destruct (negb (HasPrefix h "Bearer ")); [by injection H as <- <-|].
  case_bool_decide; [by injection H as <- <-|]. unfold buildTenantInterceptor in H.
  destruct (negb repo); [by injection H as <- <-|]. case_decide as Hne; [by injection H as <- <-|].
  pose proof (requested_tenant_trimmed ctx req) as Htrim.
  apply eff_bind_inv in H as [(e & H & ->)|(st1 & cfg & H1 & H)].
  { apply map_err_inv in H as (x & [_ H]%on_world_inv & _). apply repo_ResolveByID_law in H as [(_ & _ & _ & _ & ->) _]; done. }
  apply map_err_Ok in H1. apply on_world_inv in H1 as [_ H1].
  apply repo_ResolveByID_law in H1 as [(_ & _ & _ & _ & Hr) Hcfg]; [|done].
  destruct (Hcfg cfg eq_refl) as (_ & Hid & Hin). rewrite Htrim in Hid. rewrite <- Hr in Hnd |- *. rewrite <- Hid.
  destruct (server_confined cfg req ltac:(by rewrite Hid) st1 st' r Hnd H) as (Hc & He & Ha).
  split; [done|]. destruct r as [reply|e]; [|by apply (He e)].
  split; [by apply (Htok reply)|]. split; [by eexists|].
  pose proof (Ha reply eq_refl) as Hf. unfold tenants_of in Hf. by rewrite Forall_fmap in Hf.
Qed.

(** C5: a call touches and shows one tenant only.  Whatever a gRPC call does, the rows of
    every tenant other than the one it names (in the request, or else in the metadata)
    are the same, in the same order, and that tenant's own rows keep their place and content; a
    call that fails changes no row at all; and a call that succeeds presented the server's token
    and names a tenant of the directory, and every notification in its answer is of that
    tenant. *)
Theorem grpc_tenant_isolated repo requiredToken ctx req (st st' : service * S) r :
  dir_ok st.2 → NoDup (n_ID <$> rows st.2) →
  serveGRPC repo requiredToken ctx req st = (st', r) →
  confined (requested_tenant ctx req) (rows st.2) (rows st'.2) ∧
  match r with
  | Err _ => rows st'.2 = rows st.2
  | Ok reply => presents_token ctx requiredToken ∧ (∃ t, t ∈ dir_tenants st.2 ∧ t_ID t = requested_tenant ctx req) ∧
      Forall (λ p, ps_TenantId p = requested_tenant ctx req) (responses_of reply)
  end.
Proof. apply serveGRPC_confined. Qed.
End guarantees.

(** * Translation *)

(** A record with the content of a request. *)
Definition has_content (rq : NotificationRequest) (n : Notification) : Prop :=
  n_NotificationType n = rq_type rq ∧ n_Recipient n = rq_recipient rq ∧ n_Subject n = rq_subject rq ∧
  n_Message n = rq_message rq ∧ n_ScheduledFor n = rq_scheduledFor rq ∧
  ToEmailAttachments (n_Attachments n) = rq_attachments rq.

Lemma mapGrpcAttachments_mapModel l : mapGrpcAttachments (mapModelAttachments l) = l.
Proof. induction l as [|[]]; [done|]. cbn. f_equal. done. Qed.

Section translation.
Context `{TS : Timestamps} `{TX : TimeText}.
Context {S : Type} `{T : Table S Notification} `{O : Outside S}.

(** A client that sends again what an answer showed it. *)
Definition resubmit (p : pb_NotificationResponse) : pb_NotificationRequest :=
  PbRequest (ps_NotificationType p) (ps_Recipient p) (ps_Subject p) (ps_Message p) (ps_ScheduledTime p)
    (ps_Attachments p) (ps_TenantId p).

Lemma response_status n :
  mapGrpcStatuses [ps_Status (mapModelToGrpcResponse (NewNotificationResponse n))] = [r_Status (NewNotificationResponse n)].
Proof.
  assert (r_Status (NewNotificationResponse n) ∈ known_statuses) as Hk.
  { unfold NewNotificationResponse. simpl. case_decide as Hd.
    - unfold known_statuses. set_solver.
    - apply CanonicalStatus_spec in Hd. by rewrite CanonicalStatus_id. }
  unfold mapModelToGrpcResponse, known_statuses in *. cbn [ps_Status].
  rewrite !elem_of_cons in Hk. destruct Hk as [->|[->|[->|[->|[->|[]%elem_of_nil]]]]]; reflexivity.
Qed.

(** Answers carry everything back.  The answer that shows a stored notification has
    its status, which selects it again in a list request, and its retry count whenever
    that fits in 32 bits; and a client that submits the type, recipient, subject, message,
    schedule and attachments of the answer as a new request is served exactly as if the
    original request had been sent again (the schedule being within the years 1 to 9999
    that a time stamp can hold). *)
Theorem grpc_answer_roundtrip t recipient subject message scheduledFor attachments rq n ctx (st : service * S) :
  NewNotificationRequest t recipient subject message scheduledFor attachments = Ok rq →
  (∀ at_, rq_scheduledFor rq = Some at_ → rfc3339_range at_) → has_content rq n →
  let p := mapModelToGrpcResponse (NewNotificationResponse n) in
  server_SendNotification ctx (resubmit p) st
    = (response ← SendNotification ctx rq; mret (mapModelToGrpcResponse response)) st ∧
  mapGrpcStatuses [ps_Status p] = [r_Status (NewNotificationResponse n)] ∧
  (- 2 ^ 31 ≤ n_RetryCount n < 2 ^ 31 → ps_RetryCount p = n_RetryCount n).
Proof.
  intros Hrq Hrange (Ht & Hr & Hs & Hm & Hsch & Ha) p. split_and!.
  - assert (isSupportedNotificationType (rq_type rq) = true) as Hsup.
    { unfold NewNotificationRequest in Hrq. repeat (apply bind_Ok in Hrq as (? & ?%guard_err_Ok & Hrq)).
      apply bind_Ok in Hrq as (? & _ & [= <-]). simpl. by to_prop. }
    apply NewNotificationRequest_idem in Hrq. subst p. unfold server_SendNotification, resubmit.
    cbn [mapModelToGrpcResponse NewNotificationResponse pr_NotificationType pr_Recipient pr_Subject pr_Message
      pr_ScheduledTime pr_Attachments ps_NotificationType ps_Recipient ps_Subject ps_Message ps_ScheduledTime
      ps_Attachments r_NotificationType r_Recipient r_Subject r_Message r_ScheduledFor r_Attachments].
    rewrite mapGrpcAttachments_mapModel, Ht, Hr, Hs, Hm, Hsch, Ha.
    match goal with |- (lift ?r ≫= _) _ = _ => assert (r = Ok (rq_type rq)) as -> end.
    { apply orb_true_iff in Hsup as [Hty|Hty]; to_prop; by rewrite Hty. }
    rewrite lift_bind. match goal with |- (lift ?r ≫= _) _ = _ => assert (r = Ok (rq_scheduledFor rq)) as -> end.
    { destruct (rq_scheduledFor rq) as [at_|] eqn:E; [|done]. simpl. specialize (Hrange at_ eq_refl).
      by rewrite New_valid, New_AsTime. }
    rewrite lift_bind. cbv zeta. by rewrite Hrq, lift_bind.
  - apply response_status.
  - intros Hb. unfold p. cbn. by apply (wrap_id 32).
Qed.
End translation.

(** * Suspended tenants *)
Section suspended.
Context `{TS : Timestamps} `{TX : TimeText} `{Q : Sql} `{U : Unicode} `{K : Crypto}.
Context {SN ST SD SA SE SS E P : Type}.
Context `{TN : Table SN Notification} `{LN : !TableLaws SN Notification}.
Context `{TT : Table ST Tenant} `{TD : Table SD TenantDomain} `{TA : Table SA TenantAdmin}.
Context `{TE : Table SE EmailProfile} `{TSM : Table SS SMSProfile}.
Context `{JD : Joins ST Tenant SD TenantDomain} `{JA : Joins ST Tenant SA TenantAdmin}.
Context `{LT : !TableLaws ST Tenant} `{LE : !TableLaws SE EmailProfile} `{LS : !TableLaws SS SMSProfile}.
Context `{LD : !TableLaws SD TenantDomain} `{LA : !TableLaws SA TenantAdmin}.
Context `{RT : !Reliable ST Tenant} `{RE : !Reliable SE EmailProfile} `{RS : !Reliable SS SMSProfile}.
Context `{Env : Environment E} `{PR : Providers P} (key : string) (i : nat).
#[local] Abbreviation W := (process SN (tenant_db ST SD SA SE SS) E P).
#[local] Existing Instances process_table process_table_laws.
#[local] Instance process_O : Outside W := process_outside key i.
#[local] Instance process_D : TenantDirectory W := process_directory key i.

(** A suspended tenant is still served, but its queued notifications are not sent.
    In a running server whose tenant [id] is suspended, every gRPC call for it that
    presents the token is handled by the service as for an active tenant, so
    notifications are accepted, sent at once or queued; but as long as the tenants stay
    as they are no poll of the retry worker takes up a notification of that tenant. *)
Theorem suspended_tenant_served (w : W) svc id cfg requiredToken ctx req :
  coherent key (p_tenants w) → NoDup (t_ID <$> tn (tw_db (p_tenants w))) →
  runtime_of key (tw_db (p_tenants w)) id = Some cfg → t_Status (rc_Tenant cfg) = TenantStatusSuspended →
  id ≠ ""%string → requested_tenant ctx req = id → presents_token ctx requiredToken →
  (∃ w1, rows w1 = rows w ∧
     serveGRPC true requiredToken ctx req (svc, w) = notificationServiceServer (Some cfg) req (svc, w1)) ∧
  ∀ maxRetries now w' w'' jobs job n,
    tn (tw_db (p_tenants w')) = tn (tw_db (p_tenants w)) →
    PendingJobs true maxRetries now w' = (w'', Ok jobs) → job ∈ jobs → recordFromJob job = Ok n → n_TenantID n ≠ id.
Proof.
  intros Hw Hnd Hcfg Hst Hne Hreq (md & rest & Hmd & Hauth). split.
  - destruct (resolve_loaded key i id (p_tenants w) cfg Hw Hcfg) as (t & Ht).
    exists (MkProcess (p_notifications w) t (p_providers w)). split; [done|].
    rewrite auth_passes by (by exists md, rest). unfold buildTenantInterceptor. cbn [negb].
    pose proof (requested_tenant_trimmed ctx req) as Htrim. rewrite Hreq in *. rewrite decide_False by done.
    erewrite eff_bind_run; [reflexivity|]. apply map_err_run. unfold on_world, repo_ResolveByID. simpl.
    unfold in_tenants, zoom, Tenant.ResolveByID. rewrite Htrim, decide_False by done. by rewrite Ht.
  - intros maxRetries now w' w'' jobs job n Htn Hp Hjob Hn Hid.
    apply PendingJobs_inv in Hp as (_ & l & -> & Hl). apply list_elem_of_fmap in Hjob as (m & -> & Hm).
    injection Hn as ->. rewrite Hl, list_elem_of_filter_bool in Hm. destruct Hm as [_ Hm]. to_prop.
    apply existsb_exists in H as (t & Ht%list_elem_of_In & Ha). to_prop. unfold is_active in *. to_prop.
    destruct (runtime_of_tenant _ _ _ _ Hcfg Hne) as [Hid' Hin]. rewrite Htn in Ht.
    assert (TenantStatusSuspended ≠ TenantStatusActive) by done. assert (t = rc_Tenant cfg) as ->; [|congruence].
    apply (NoDup_fmap_inj_on t_ID (tn (tw_db (p_tenants w)))); [done..|]. unfold rc_TenantID in Hid'. congruence.
Qed.
End suspended.

(** * Witnesses *)
Import MemoryProcess.

(** Time stamps as instants, and their text by a codec. *)
Definition plain_timestamps : Timestamps.
Proof. by refine {| Timestamp := Time; CheckValid := λ _, Ok (); AsTime := λ t, t; timestamppb_New := λ t, t |}. Defined.
Definition codec_text : TimeText := {| Format_RFC3339 := time_Format; Parse_RFC3339 := time_Parse |}.
#[local] Existing Instances plain_timestamps codec_text.

Definition grpc_service : service := NewNotificationServiceWithSenders false false true false 3.
Definition grpc_ctx : grpc_context :=
  MkGrpcContext (Some {["authorization" := ["Bearer s3cret"]; "x-tenant-id" := [" acme "]]}) None.
Definition cancel_call : grpc_request := GrpcCancel " n1 " "".
Definition send_call (tenant : string) : grpc_request := GrpcSend (PbRequest 0 "to@x.y" "s" "m" None [] tenant).

(** Cancelling acme's queued notification: beta's row stays. *)
Lemma grpc_tenant_isolated_witness :
  ∃ st' reply, serveGRPC true "s3cret" grpc_ctx cancel_call (grpc_service, running) = (st', Ok reply) ∧
    confined "acme" (rows running) (rows st'.2) ∧ Forall (λ p, ps_TenantId p = "acme"%string) (responses_of reply).
Proof.
  destruct (serveGRPC true "s3cret" grpc_ctx cancel_call (grpc_service, running)) as [st' [reply|e]] eqn:E;
    [|vm_compute in E; discriminate].
  exists st', reply. split; [reflexivity|].
  destruct (grpc_tenant_isolated true "s3cret" grpc_ctx cancel_call (grpc_service, running) st' (Ok reply)
    running_ok) as [H1 (_ & _ & H2)]; [|exact E|by split].
  apply (bool_decide_unpack _). vm_compute. exact I.
Defined.

Lemma grpc_answer_roundtrip_witness :
  let n := demo_note 1 10 "acme" StatusQueued in
  mapGrpcStatuses [ps_Status (mapModelToGrpcResponse (NewNotificationResponse n))] = [StatusQueued].
Proof.
  destruct (grpc_answer_roundtrip NotificationEmail "to@x.y" "s" "m" None []
    (MkRequest NotificationEmail "to@x.y" "s" "m" None []) (demo_note 1 10 "acme" StatusQueued) None
    (grpc_service, running)) as (_ & H & _); [reflexivity|discriminate|by split_and!|exact H].
Defined.

(** A message for beta, which is suspended, is accepted and sent. *)
Lemma suspended_tenant_served_witness :
  ∃ w1 cfg, rows w1 = rows running ∧
    serveGRPC true "s3cret" grpc_ctx (send_call "beta") (grpc_service, running)
      = notificationServiceServer (Some cfg) (send_call "beta") (grpc_service, w1).
Proof.
  destruct (runtime_of memory_key (tw_db (p_tenants running)) "beta") as [cfg|] eqn:E; [|vm_compute in E; discriminate].
  destruct (suspended_tenant_served memory_key 0 running grpc_service "beta" cfg "s3cret" grpc_ctx (send_call "beta")
    running_ok ltac:(apply (bool_decide_unpack _); vm_compute; exact I) E
    ltac:(vm_compute in E; injection E as <-; reflexivity) ltac:(discriminate) ltac:(vm_compute; reflexivity)
    ltac:(eexists _, _; split; [reflexivity|vm_compute; reflexivity])) as [(w1 & Hr & Hs) _].
  exists w1, cfg. split; [exact Hr|exact Hs].
Defined.
