(* ===== verification/Client.v ===== *)
(** The clients: the gRPC client package (src/pkg/client/client.go), attachment files
    (src/pkg/attachments/attachments.go) and the command line (src/cmd/client).

    The connection, the clock and the terminal are the class [ClientWorld]; cobra's
    parsed flags are records, viper's values an argument.  [cli_request_served] puts the
    command line and the server's interceptors and handler together. *)
From S2P Require Import Prelude GoStrings Strconv Crypto Gorm Model Tenant Service Directory Grpc Config.
Open Scope Z_scope.

(** * Settings *)
Definition ErrInvalidSettings : error := New "invalid_client_settings".
Record Settings := MkSettings {
  serverAddress : string;
  authToken : string;
  tenantID : string;
  connectionTimeout : Z;
  operationTimeout : Z;
}.
Definition NewSettings (address token tenant : string) (connectionTimeoutSeconds operationTimeoutSeconds : Z)
    : result Settings :=
  let address := TrimSpace address in
  guard_err (bool_decide (address = ""%string)) (Wrapf "%w: empty server address" [] ErrInvalidSettings);;
  let token := TrimSpace token in
  guard_err (bool_decide (token = ""%string)) (Wrapf "%w: empty auth token" [] ErrInvalidSettings);;
  let tenant := TrimSpace tenant in
  guard_err (bool_decide (tenant = ""%string)) (Wrapf "%w: empty tenant id" [] ErrInvalidSettings);;
  guard_err (connectionTimeoutSeconds <=? 0)
    (Wrapf "%w: invalid connection timeout %d" [FInt connectionTimeoutSeconds] ErrInvalidSettings);;
  guard_err (operationTimeoutSeconds <=? 0)
    (Wrapf "%w: invalid operation timeout %d" [FInt operationTimeoutSeconds] ErrInvalidSettings);;
  Ok (MkSettings address token tenant (seconds connectionTimeoutSeconds) (seconds operationTimeoutSeconds)).

(** * The client *)
(** The connection with its two methods in use, the clock, and the terminal; the
    metadata are those of the outgoing context. *)
Class ClientWorld (W : Type) `{TS : Timestamps} := {
  grpc_NewClient : string → eff W unit;
  conn_Close : eff W unit;
  rpc_SendNotification : metadata → pb_NotificationRequest → eff W pb_NotificationResponse;
  rpc_GetNotificationStatus : metadata → string → string → eff W pb_NotificationResponse;
  client_Now : W → W * Time;
  Sleep : Z → W → W;
  Fprintf : string → eff W unit;
}.
(** Time passes, and sleeping takes at least as long as asked. *)
Class ClientClock (W : Type) `{CW : ClientWorld W} := {
  clock_of : W → Time;
  Now_clock w : clock_of w ≤ clock_of (client_Now w).1 ∧ (client_Now w).2 = clock_of (client_Now w).1;
  Sleep_clock d w : clock_of w + d ≤ clock_of (Sleep d w);
  rpc_clock md id tenant w : clock_of w ≤ clock_of (rpc_GetNotificationStatus md id tenant w).1;
}.

Record NotificationClient := MkClient { c_authToken : string; c_tenantID : string; c_settings : Settings }.

(** [metadata.AppendToOutgoingContext] of one pair. *)
Definition md_append (md : metadata) (key value : string) : metadata := <[key := md_Get md key ++ [value]]> md.
Definition withMetadata (c : NotificationClient) (ctx : metadata) : metadata :=
  md_append (md_append ctx "authorization" ("Bearer " ++ c_authToken c)) "x-tenant-id" (c_tenantID c).

Section client.
Context `{TS : Timestamps} {W : Type} `{CW : !ClientWorld W}.

Definition NewNotificationClient (settings : Settings) : eff W NotificationClient :=
  map_err (Wrapf "failed to dial gRPC server: %w" []) (grpc_NewClient (serverAddress settings));;
  mret (MkClient (authToken settings) (tenantID settings) settings).

Definition with_tenant (req : pb_NotificationRequest) (tenant : string) : pb_NotificationRequest :=
  PbRequest (pr_NotificationType req) (pr_Recipient req) (pr_Subject req) (pr_Message req) (pr_ScheduledTime req)
    (pr_Attachments req) tenant.
Definition client_SendNotification (c : NotificationClient) (ctx : metadata) (req : pb_NotificationRequest)
    : eff W pb_NotificationResponse :=
  let ctx := withMetadata c ctx in
  let req := if bool_decide (pr_TenantId req = ""%string) then with_tenant req (c_tenantID c) else req in
  rpc_SendNotification ctx req.
Definition client_GetNotificationStatus (c : NotificationClient) (notificationID : string) : eff W pb_NotificationResponse :=
  rpc_GetNotificationStatus (withMetadata c ∅) notificationID (c_tenantID c).

Definition sendPollInterval : Z := 2 * Second.

(** What a wait returns: a response, an error, or both. *)
Definition wait_result : Type := option pb_NotificationResponse * option error.
(** The loop; [None] is fuel used up. *)
Fixpoint poll (fuel : nat) (c : NotificationClient) (pollTimeout startTime : Z) (resp : pb_NotificationResponse) (w : W)
    : option (W * wait_result) :=
  match fuel with
  | O => None
  | S fuel =>
      if ps_Status resp =? Status_SENT then Some (w, (Some resp, None)) else
      if ps_Status resp =? Status_ERRORED then Some (w, (Some resp, Some (Text "notification errored" []))) else
      let '(w, now) := client_Now w in
      if pollTimeout <? now - startTime
      then Some (w, (Some resp, Some (Text "timeout waiting for notification to be sent" []))) else
      let '(w, r) := client_GetNotificationStatus c (ps_NotificationId resp) (Sleep sendPollInterval w) in
      match r with
      | Err statusErr => Some (w, (None, Some statusErr))
      | Ok statusResp => poll fuel c pollTimeout startTime statusResp w
      end
  end.
Definition poll_fuel (pollTimeout : Z) : nat := S (S (Z.to_nat (pollTimeout / sendPollInterval))).
Definition SendNotificationAndWait (c : NotificationClient) (req : pb_NotificationRequest) (w : W) : option (W * wait_result) :=
  let '(w, r) := client_SendNotification c ∅ req w in
  match r with
  | Err err => Some (w, (None, Some err))
  | Ok resp =>
      let pollTimeout := operationTimeout (c_settings c) in
      let '(w, startTime) := client_Now w in
      poll (poll_fuel pollTimeout) c pollTimeout startTime resp w
  end.

(** * Termination *)
Context `{CC : !ClientClock W}.
Lemma poll_terminates fuel c pollTimeout startTime resp w k :
  startTime + k * sendPollInterval ≤ clock_of w → 0 ≤ k →
  pollTimeout / sendPollInterval + 1 < k + Z.of_nat fuel → (0 < fuel)%nat →
  ∃ w' r e, poll fuel c pollTimeout startTime resp w = Some (w', (r, e)) ∧
    (e = None → ∃ x, r = Some x ∧ ps_Status x = Status_SENT).
Proof.
  revert resp w k. induction fuel as [|fuel IH]; intros resp w k Hc Hk Hf Hpos; [lia|]. cbn [poll].
  destruct (Z.eqb_spec (ps_Status resp) Status_SENT); [by eexists _, _, _; split; [done|eauto]|].
  destruct (_ =? Status_ERRORED); [by eexists _, _, _|].
  pose proof (Now_clock w) as [Hnow Ht]. destruct (client_Now w) as [w1 now]. simpl in Hnow, Ht. subst now.
  destruct (Z.ltb_spec pollTimeout (clock_of w1 - startTime)); [by eexists _, _, _|].
  unfold client_GetNotificationStatus.
  pose proof (rpc_clock (withMetadata c ∅) (ps_NotificationId resp) (c_tenantID c) (Sleep sendPollInterval w1)) as Hr.
  pose proof (Sleep_clock sendPollInterval w1) as Hs.
  destruct (rpc_GetNotificationStatus _ _ _ _) as [w2 [statusResp|e]]; [|by eexists _, _, _]. simpl in Hr.
  assert (k ≤ pollTimeout / sendPollInterval).
  { apply Z.div_le_lower_bound; [done|]. lia. }
  apply (IH statusResp w2 (k + 1)); lia.
Qed.

(** Waiting ends.  [SendNotificationAndWait] returns, whatever the server answers, and
    when it returns without an error the notification is reported sent. *)
Theorem wait_terminates c req w :
  ∃ w' resp err, SendNotificationAndWait c req w = Some (w', (resp, err)) ∧
    (err = None → ∃ r, resp = Some r ∧ ps_Status r = Status_SENT).
Proof.
  unfold SendNotificationAndWait. destruct (client_SendNotification c ∅ req w) as [w1 [resp|e]]; [|by eexists _, _, _].
  pose proof (Now_clock w1) as [_ Ht]. destruct (client_Now w1) as [w2 startTime]. simpl in Ht. subst startTime.
  apply (poll_terminates _ _ _ _ _ _ 0); unfold poll_fuel; lia.
Qed.
End client.

(** * Attachment files *)

(** [filepath.Base] and [filepath.Ext], on Unix. *)
Definition is_slash (c : ascii) : bool := bool_decide (c = "/"%char).
Definition filepath_Base (path : string) : string :=
  if bool_decide (path = ""%string) then "." else
  let kept := drop_while is_slash (reverse (explode path)) in
  let last := reverse (take_while (λ c, negb (is_slash c)) kept) in
  if bool_decide (last = []) then "/" else implode last.
Definition filepath_Ext (path : string) : string :=
  let last := take_while (λ c, negb (is_slash c)) (reverse (explode path)) in
  match find_b ["."%char] last with
  | Some (ext, _) => implode ("."%char :: reverse ext)
  | None => ""
  end.

Definition defaultContentType : string := "application/octet-stream".
Definition splitInput (input : string) : string * string :=
  let trimmed := TrimSpace input in
  if bool_decide (trimmed = ""%string) then (""%string, ""%string) else
  let '(before, after, found) := Cut trimmed "::" in
  (TrimSpace before, if found : bool then TrimSpace after else ""%string).

(** The content types of the mime and net/http packages. *)
Class Mime := { TypeByExtension : string → string; DetectContentType : list ascii → string }.

Section attachments.
Context `{U : Unicode} `{O : Host} `{MI : Mime}.
Definition inferContentType (path : string) (data : list ascii) : string :=
  let ext := ToLower (filepath_Ext path) in
  let detected := if bool_decide (ext = ""%string) then ""%string else TypeByExtension ext in
  if negb (bool_decide (detected = ""%string)) then detected else
  let sniffed := if bool_decide (data = []) then ""%string else DetectContentType data in
  if negb (bool_decide (sniffed = ""%string)) then sniffed else defaultContentType.

Definition load_one (raw : string) : result pb_EmailAttachment :=
  let '(path, explicitType) := splitInput raw in
  guard_err (bool_decide (path = ""%string)) (Text "attachment path is required" []);;
  data ← match os_ReadFile path with
         | Ok data => Ok (explode data)
         | Err readErr => Err (Wrapf "failed to read attachment %q: %w" [FStr path] readErr)
         end;
  guard_err (bool_decide (length data = 0%nat)) (Text "attachment %q is empty" [FStr path]);;
  let contentType := if bool_decide (explicitType = ""%string) then inferContentType path data else explicitType in
  Ok (PbAttachment (filepath_Base path) contentType data).
Fixpoint attachments_Load (inputs : list string) : result (list (option pb_EmailAttachment)) :=
  match inputs with
  | [] => Ok []
  | raw :: inputs =>
      attachment ← load_one raw;
      rest ← attachments_Load inputs;
      Ok (Some attachment :: rest)
  end.
End attachments.

(** * The command line's configuration (cmd/client/internal/config/config.go) *)
Record cli_Config := MkCliConfig {
  cc_serverAddress : string;
  cc_authToken : string;
  cc_tenantID : string;
  cc_connectionTimeout : Z;
  cc_operationTimeout : Z;
  cc_logLevel : string;
}.
Definition zero_cli_Config : cli_Config := MkCliConfig "" "" "" 0 0 "".
(** A viper: the value of a key, given its default. *)
Record viper := MkViper { viper_GetString : string → string → string; viper_GetInt : string → Z → Z }.
(** [viper.New()]: nothing was read into it, so every key has its default. *)
Definition new_viper : viper := MkViper (λ _ d, d) (λ _ d, d).

Section command.
Context `{U : Unicode}.
Definition cli_Load (provider : option viper) : result cli_Config :=
  match provider with
  | None => Err (Text "nil config provider" [])
  | Some provider =>
      let serverAddress := TrimSpace (viper_GetString provider "grpc_server_addr" "localhost:50051") in
      guard_err (bool_decide (serverAddress = ""%string)) (Text "missing gRPC server address" []);;
      let authToken := TrimSpace (viper_GetString provider "grpc_auth_token" "") in
      let tenantID := TrimSpace (viper_GetString provider "tenant_id" "") in
      let connectionTimeout := viper_GetInt provider "connection_timeout_sec" 5 in
      guard_err (connectionTimeout <=? 0) (Text "invalid connection timeout %d" [FInt connectionTimeout]);;
      let operationTimeout := viper_GetInt provider "operation_timeout_sec" 30 in
      guard_err (operationTimeout <=? 0) (Text "invalid operation timeout %d" [FInt operationTimeout]);;
      let logLevel := TrimSpace (viper_GetString provider "log_level" "INFO") in
      let logLevel := if bool_decide (logLevel = ""%string) then "INFO"%string else logLevel in
      Ok (MkCliConfig serverAddress authToken tenantID connectionTimeout operationTimeout (ToUpper logLevel))
  end.

(** * The command (cmd/client/internal/command/root.go) *)
(** A parsed flag, and the two flag sets of a command. *)
Record flag := MkFlag { fl_Changed : bool; fl_Value : farg }.
Record cobra_Command := MkCommand { Flags_Lookup : string → option flag; InheritedFlags_Lookup : string → option flag }.
Definition GetString (f : flag) (name : string) : result string :=
  match fl_Value f with
  | FStr s => Ok s
  | FInt _ => Err (Text "trying to get string value of flag of type int: %s" [FStr name])
  end.
Definition GetInt (f : flag) (name : string) : result Z :=
  match fl_Value f with
  | FInt z => Ok z
  | FStr _ => Err (Text "trying to get int value of flag of type string: %s" [FStr name])
  end.

Definition valueOrConfig (cmd : cobra_Command) (flagName configValue : string) : result string :=
  match Flags_Lookup cmd flagName with
  | Some localFlag => if fl_Changed localFlag then GetString localFlag flagName else Ok configValue
  | None =>
      match InheritedFlags_Lookup cmd flagName with
      | None => Err (Text "unknown flag %q" [FStr flagName])
      | Some inheritedFlag => if fl_Changed inheritedFlag then GetString inheritedFlag flagName else Ok configValue
      end
  end.
Definition positive_value (flagName : string) (value : Z) : result Z :=
  if value <=? 0 then Err (Text "%s must be positive" [FStr flagName]) else Ok value.
Definition intOrConfig (cmd : cobra_Command) (flagName : string) (configValue : Z) : result Z :=
  match Flags_Lookup cmd flagName with
  | Some localFlag =>
      if fl_Changed localFlag then value ← GetInt localFlag flagName; positive_value flagName value
      else Ok configValue
  | None =>
      match InheritedFlags_Lookup cmd flagName with
      | None => Err (Text "unknown flag %q" [FStr flagName])
      | Some inheritedFlag =>
          if fl_Changed inheritedFlag then value ← GetInt inheritedFlag flagName; positive_value flagName value
          else positive_value flagName configValue
      end
  end.

Definition parseNotificationType (input : string) : result Z :=
  let t := ToLower (TrimSpace input) in
  if bool_decide (t = ""%string) then Ok NotificationType_EMAIL else
  if bool_decide (t = "email"%string) then Ok NotificationType_EMAIL else
  if bool_decide (t = "sms"%string) then Ok NotificationType_SMS else
  Err (Text "invalid notification type %q" [FStr input]).

(** The flags of [send]; [--recipient] and [--to] set the same variable. *)
Record send_flags := MkSendFlags {
  typeInput : string;
  recipientInput : string;
  subjectInput : string;
  messageInput : string;
  scheduledInput : string;
  attachmentArgs : list string;
}.

(** [Status.String()] of the generated code. *)
Definition Status_String (status : Z) : string :=
  if status =? Status_QUEUED then "QUEUED" else if status =? Status_SENT then "SENT"
  else if status =? Status_UNKNOWN then "UNKNOWN" else if status =? Status_CANCELLED then "CANCELLED"
  else if status =? Status_ERRORED then "ERRORED" else pretty status.

Context `{TS : Timestamps} `{TX : TimeText} `{O : Host} `{MI : Mime}.
(** The request [send] builds, from the notification's type on. *)
Definition build_request (flags : send_flags) (tenantID : string) : result pb_NotificationRequest :=
  notificationType ← parseNotificationType (typeInput flags);
  let recipient := TrimSpace (recipientInput flags) in
  guard_err (bool_decide (recipient = ""%string)) (Text "recipient is required" []);;
  let message := TrimSpace (messageInput flags) in
  guard_err (bool_decide (message = ""%string)) (Text "message is required" []);;
  let subject := TrimSpace (subjectInput flags) in
  guard_err ((notificationType =? NotificationType_EMAIL) && bool_decide (subject = ""%string))
    (Text "subject is required for email notifications" []);;
  attachmentPayloads ← attachments_Load (attachmentArgs flags);
  guard_err ((notificationType =? NotificationType_SMS) && bool_decide (0 < length attachmentPayloads)%nat)
    (Text "attachments are only supported for email notifications" []);;
  scheduled ← (if bool_decide (scheduledInput flags = ""%string) then Ok None else
    match Parse_RFC3339 (scheduledInput flags) with
    | Err parseErr => Err (Wrapf "invalid scheduled time %q: %w" [FStr (scheduledInput flags)] parseErr)
    | Ok scheduledTime => Ok (Some (timestamppb_New scheduledTime))
    end);
  Ok (PbRequest notificationType recipient subject message scheduled attachmentPayloads tenantID).

(** The connection settings of [send]: flags, or else the configuration, whose error is
    dropped. *)
Definition command_settings (cmd : cobra_Command) (provider : viper) : result (Settings * string) :=
  let configDefaults := match cli_Load (Some provider) with Ok c => c | Err _ => zero_cli_Config end in
  serverAddress ← valueOrConfig cmd "grpc-server-addr" (cc_serverAddress configDefaults);
  authToken ← valueOrConfig cmd "grpc-auth-token" (cc_authToken configDefaults);
  guard_err (bool_decide (TrimSpace authToken = ""%string)) (Text "grpc-auth-token is required" []);;
  tenantID ← valueOrConfig cmd "tenant-id" (cc_tenantID configDefaults);
  let tenantID := TrimSpace tenantID in
  guard_err (bool_decide (tenantID = ""%string)) (Text "tenant-id is required" []);;
  connectionTimeoutSec ← intOrConfig cmd "connection-timeout-sec" (cc_connectionTimeout configDefaults);
  operationTimeoutSec ← intOrConfig cmd "operation-timeout-sec" (cc_operationTimeout configDefaults);
  logLevel ← valueOrConfig cmd "log-level" (cc_logLevel configDefaults);
  match NewSettings serverAddress authToken tenantID connectionTimeoutSec operationTimeoutSec with
  | Err e => Err (Wrapf "invalid client settings: %w" [] e)
  | Ok settings => Ok (settings, tenantID)
  end.

Context {W : Type} `{CW : !ClientWorld W}.
(** [defer closer.Close()] *)
Definition defer_close {A} (m : eff W A) : eff W A := λ w, let '(w, r) := m w in ((conn_Close w).1, r).
(** [RunE] of the send command. *)
Definition run_send (cmd : cobra_Command) (provider : viper) (flags : send_flags) : eff W unit :=
  st ← lift (command_settings cmd provider);
  sender ← NewNotificationClient st.1;
  defer_close (
    request ← lift (build_request flags st.2);
    response ← client_SendNotification sender ∅ request;
    Fprintf ("Notification " ++ ps_NotificationId response ++ " sent with status "
             ++ Status_String (ps_Status response) ++ String "010" "")).

(** [run] of cmd/client/main.go: an error is shown, and the exit code is 1. *)
Definition client_run (Execute : eff W unit) (show_error : error → eff W unit) : W → W * Z := λ w,
  let '(w, r) := Execute w in
  match r with Err execErr => ((show_error execErr w).1, 1) | Ok _ => (w, 0) end.
End command.

(** * The command line against the server *)
Lemma NewSettings_Ok address token tenant c o st :
  NewSettings address token tenant c o = Ok st →
  st = MkSettings (TrimSpace address) (TrimSpace token) (TrimSpace tenant) (seconds c) (seconds o) ∧
  TrimSpace token ≠ ""%string ∧ TrimSpace tenant ≠ ""%string ∧ 0 < c ∧ 0 < o.
Proof.
  unfold NewSettings. intros (? & _ & (? & Ht%guard_err_Ok & (? & Hn%guard_err_Ok & (? & Hc%guard_err_Ok &
    (? & Ho%guard_err_Ok & [= <-])%bind_Ok)%bind_Ok)%bind_Ok)%bind_Ok)%bind_Ok. by to_prop.
Qed.
Lemma command_settings_Ok `{U : Unicode} cmd provider st tenant :
  command_settings cmd provider = Ok (st, tenant) →
  tenantID st = tenant ∧ tenant ≠ ""%string ∧ TrimSpace tenant = tenant ∧ authToken st ≠ ""%string.
Proof.
  unfold command_settings. intros H. do 3 (apply bind_Ok in H as (? & _ & H)). apply bind_Ok in H as (t & _ & H).
  apply bind_Ok in H as (? & Ht%guard_err_Ok & H). to_prop. do 3 (apply bind_Ok in H as (? & _ & H)).
  destruct (NewSettings _ _ _ _ _) as [s|e] eqn:Es; [|done]. injection H as <- <-.
  apply NewSettings_Ok in Es as (-> & ? & ? & _). simpl. by rewrite TrimSpace_idem.
Qed.

Section served.
Context `{U : Unicode} `{TS : Timestamps} `{TX : TimeText} `{H0 : Host} `{MI : Mime}.
Context {S : Type} `{T : Table S Notification} `{O : Outside S} `{Q : Sql} `{D : TenantDirectory S}.

(** What [send] builds without attachments, the server accepts. *)
Lemma build_request_accepted flags tenant req :
  build_request flags tenant = Ok req → attachmentArgs flags = [] →
  (∀ t, Parse_RFC3339 (scheduledInput flags) = Ok t → rfc3339_range t) →
  ∃ mreq, rq_recipient mreq = TrimSpace (recipientInput flags) ∧ rq_message mreq = TrimSpace (messageInput flags) ∧
    rq_subject mreq = TrimSpace (subjectInput flags) ∧ rq_attachments mreq = [] ∧
    (rq_scheduledFor mreq = None ↔ scheduledInput flags = ""%string) ∧
    (∀ t, rq_scheduledFor mreq = Some t → Parse_RFC3339 (scheduledInput flags) = Ok t) ∧
    isSupportedNotificationType (rq_type mreq) = true ∧
    parseNotificationType (typeInput flags) =
      Ok (if decide (rq_type mreq = NotificationEmail) then NotificationType_EMAIL else NotificationType_SMS) ∧
    pr_TenantId req = tenant ∧
    ∀ ctx (st : service * S), server_SendNotification ctx req st = (r ← SendNotification ctx mreq; mret (mapModelToGrpcResponse r)) st.
Proof.
  intros H Ha Hrange. unfold build_request in H. apply bind_Ok in H as (ty & Hty & H).
  apply bind_Ok in H as ([] & Hr%guard_err_Ok & H). apply bind_Ok in H as ([] & Hm%guard_err_Ok & H). to_prop.
  apply bind_Ok in H as ([] & Hs%guard_err_Ok & H). rewrite Ha in H. cbn [attachments_Load] in H.
  apply bind_Ok in H as (? & [= <-] & H). apply bind_Ok in H as ([] & _ & H). apply bind_Ok in H as (sched & Hsched & [= <-]).
  assert (∃ oty, (if ty =? NotificationType_EMAIL then Ok NotificationEmail
            else if ty =? NotificationType_SMS then Ok NotificationSMS
            else Err (Text "unsupported notification type: %v" [FInt ty])) = Ok oty ∧
            isSupportedNotificationType oty = true ∧
            ty = if decide (oty = NotificationEmail) then NotificationType_EMAIL else NotificationType_SMS) as (oty & Hoty & Hsup & Heq).
  { clear Hs Hsched. unfold parseNotificationType in Hty. do 3 (case_bool_decide; [injection Hty as <-; by eexists|]). done. }
  assert (∃ osched : option Time, (sched = timestamppb_New <$> osched) ∧ (osched = None ↔ scheduledInput flags = ""%string) ∧
    ∀ t, osched = Some t → Parse_RFC3339 (scheduledInput flags) = Ok t) as (osched & -> & Hnone & Hsome).
  { case_bool_decide as E; [injection Hsched as <-; by exists None|].
    destruct (Parse_RFC3339 _) as [t|] eqn:Ep; [|done]. injection Hsched as <-. exists (Some t). naive_solver. }
  exists (MkRequest oty (TrimSpace (recipientInput flags)) (TrimSpace (subjectInput flags))
    (TrimSpace (messageInput flags)) osched []).
  split_and!; try done; [apply Hnone..|by rewrite Hty, Heq|]. intros ctx st. unfold server_SendNotification. cbn [pr_NotificationType].
  rewrite Hoty, lift_bind. cbn [pr_ScheduledTime].
  assert ((match timestamppb_New <$> osched with
     | None => Ok None
     | Some ts => match CheckValid ts with Err err => Err (invalidScheduledTime err) | Ok _ => Ok (Some (AsTime ts)) end
     end) = Ok osched) as ->.
  { destruct osched as [t|]; [|done]. simpl. pose proof (Hrange t (Hsome t eq_refl)). by rewrite New_valid, New_AsTime. }
  rewrite lift_bind. cbn [pr_Attachments pr_Recipient pr_Subject pr_Message].
  unfold NewNotificationRequest. rewrite !TrimSpace_idem, !bool_decide_eq_false_2 by done. rewrite Hsup.
  assert (normalizeNotificationAttachments oty (mapGrpcAttachments []) = Ok []) as Hn.
  { done. }
  cbn [guard_err negb mbind result_bind]. rewrite Hn. cbn [mbind result_bind]. by rewrite lift_bind.
Qed.

(** A client connected to a server: its calls go through the interceptors, with the
    metadata it sends; the terminal is a list of lines. *)
Definition over_server (m : eff (service * S) grpc_response) : eff (service * S * list string) pb_NotificationResponse :=
  reply ← zoom fst (λ st w, (st, w.2)) m;
  lift (match reply with
        | GrpcNotification r => Ok r
        | GrpcNotifications _ => Err (Text "unexpected message type" [])
        end).
Definition connected (requiredToken : string) : ClientWorld (service * S * list string) := {|
  grpc_NewClient _ := mret ();
  conn_Close := mret ();
  rpc_SendNotification md req :=
    over_server (serveGRPC true requiredToken (MkGrpcContext (Some md) None) (GrpcSend req));
  rpc_GetNotificationStatus md id tenant :=
    over_server (serveGRPC true requiredToken (MkGrpcContext (Some md) None) (GrpcGetStatus id tenant));
  client_Now w := (w, 0);
  Sleep _ w := w;
  Fprintf text := λ w, ((w.1, w.2 ++ [text]), Ok ());
|}.

Lemma withMetadata_presents c : presents_token (MkGrpcContext (Some (withMetadata c ∅)) None) (c_authToken c).
Proof. exists (withMetadata c ∅), []. done. Qed.

(** The interceptors pass a call of this client on, with the configuration of its tenant. *)
Lemma client_call_served c req svc (s s1 : S) cfg :
  TrimSpace (pr_TenantId req) = pr_TenantId req → pr_TenantId req ≠ ""%string →
  repo_ResolveByID (pr_TenantId req) s = (s1, Ok cfg) →
  serveGRPC true (c_authToken c) (MkGrpcContext (Some (withMetadata c ∅)) None) (GrpcSend req) (svc, s) =
  notificationServiceServer (Some cfg) (GrpcSend req) (svc, s1).
Proof.
  intros Ht Hne Hres. rewrite auth_passes by apply withMetadata_presents. unfold buildTenantInterceptor.
  assert (requested_tenant (MkGrpcContext (Some (withMetadata c ∅)) None) (GrpcSend req) = pr_TenantId req) as ->.
  { unfold requested_tenant. cbn [GetTenantId]. by rewrite Ht, decide_False. }
  cbn [negb]. rewrite decide_False by done. rewrite (eff_bind_run _ _ _ (svc, s1) cfg); [done|].
  apply map_err_run. unfold on_world, zoom. cbn. by rewrite Hres.
Qed.

Lemma run_send_served cmd provider flags settings tenant req requiredToken svc (s s1 : S) cfg out :
  command_settings cmd provider = Ok (settings, tenant) → build_request flags tenant = Ok req →
  attachmentArgs flags = [] → (∀ t, Parse_RFC3339 (scheduledInput flags) = Ok t → rfc3339_range t) →
  authToken settings = requiredToken → repo_ResolveByID tenant s = (s1, Ok cfg) →
  ∃ mreq, isSupportedNotificationType (rq_type mreq) = true ∧
    parseNotificationType (typeInput flags) =
      Ok (if decide (rq_type mreq = NotificationEmail) then NotificationType_EMAIL else NotificationType_SMS) ∧
    rq_recipient mreq = TrimSpace (recipientInput flags) ∧ rq_message mreq = TrimSpace (messageInput flags) ∧
    rq_subject mreq = TrimSpace (subjectInput flags) ∧ rq_attachments mreq = [] ∧
    (∀ t, rq_scheduledFor mreq = Some t → Parse_RFC3339 (scheduledInput flags) = Ok t) ∧
    run_send (CW := connected requiredToken) cmd provider flags ((svc, s), out) =
    match SendNotification (Some cfg) mreq (svc, s1) with
    | (st, Ok resp) =>
        ((st, out ++ ["Notification " ++ r_NotificationID resp ++ " sent with status "
                      ++ Status_String (ps_Status (mapModelToGrpcResponse resp)) ++ String "010" ""]%string), Ok ())
    | (st, Err e) => ((st, out), Err e)
    end.
Proof.
  intros Hs Hb Ha Hr <- Hres. destruct (command_settings_Ok _ _ _ _ Hs) as (Htid & Hne & Htrim & _).
  destruct (build_request_accepted flags tenant req Hb Ha Hr) as (mreq & H1 & H2 & H3 & H4 & _ & H5 & H6 & H7 & Htenant & Hserve).
  exists mreq. split_and!; try done. unfold run_send. rewrite Hs, lift_bind.
  set (c := MkClient (authToken settings) (tenantID settings) settings).
  erewrite (eff_bind_run (NewNotificationClient _)) by reflexivity. fold c. unfold defer_close.
  change ((settings, tenant).2) with tenant. rewrite Hb, lift_bind. unfold client_SendNotification. rewrite bool_decide_eq_false_2 by (by rewrite Htenant).
  cbn [rpc_SendNotification connected]. unfold over_server, zoom at 1, mbind at 1 2, eff_bind at 1 2. cbn [fst].
  pose proof (client_call_served c req svc s s1 cfg ltac:(by rewrite Htenant) ltac:(by rewrite Htenant)
    ltac:(by rewrite Htenant)) as Hcall. change (c_authToken c) with (authToken settings) in Hcall.
  unfold c in Hcall. rewrite Hcall.
  unfold notificationServiceServer, mbind at 1, eff_bind at 1. rewrite Hserve. unfold mbind at 1, eff_bind at 1.
  destruct (SendNotification (Some cfg) mreq (svc, s1)) as [st [resp|e]]; reflexivity.
Qed.

(** A call that is answered carried the server's token, and its tenant was found. *)
Lemma client_call_inv c req requiredToken svc (s : S) st reply :
  TrimSpace (pr_TenantId req) = pr_TenantId req → pr_TenantId req ≠ ""%string →
  serveGRPC true requiredToken (MkGrpcContext (Some (withMetadata c ∅)) None) (GrpcSend req) (svc, s) = (st, Ok reply) →
  c_authToken c = requiredToken ∧ ∃ s1 cfg, repo_ResolveByID (pr_TenantId req) s = (s1, Ok cfg).
Proof.
  intros Ht Hne H. pose proof (served_presents_token _ _ _ _ _ _ _ H) as (md & rest & [= <-] & Hmd).
  assert (c_authToken c = requiredToken) as <-.
  { destruct (withMetadata_presents c) as (? & ? & [= <-] & Hc). rewrite Hc in Hmd. by injection Hmd. }
  split; [done|]. rewrite auth_passes in H by apply withMetadata_presents. unfold buildTenantInterceptor in H.
  assert (requested_tenant (MkGrpcContext (Some (withMetadata c ∅)) None) (GrpcSend req) = pr_TenantId req) as Hreq.
  { unfold requested_tenant. cbn [GetTenantId]. by rewrite Ht, decide_False. }
  rewrite Hreq in H. cbn [negb] in H. rewrite decide_False in H by done.
  apply eff_bind_inv in H as [(e & _ & [=])|([svc1 s1] & cfg & H1 & _)].
  apply map_err_Ok, on_world_inv in H1 as [_ H1]. by exists s1, cfg.
Qed.
Lemma run_send_inv cmd provider flags requiredToken svc (s : S) out st :
  run_send (CW := connected requiredToken) cmd provider flags ((svc, s), out) = (st, Ok ()) →
  ∃ settings tenant req s1 cfg,
    command_settings cmd provider = Ok (settings, tenant) ∧ build_request flags tenant = Ok req ∧
    authToken settings = requiredToken ∧ repo_ResolveByID tenant s = (s1, Ok cfg).
Proof.
  unfold run_send. destruct (command_settings cmd provider) as [[settings tenant]|e] eqn:Es; [|done]. rewrite lift_bind.
  destruct (command_settings_Ok _ _ _ _ Es) as (Htid & Hne & Htrim & _).
  erewrite (eff_bind_run (NewNotificationClient _)) by reflexivity. unfold defer_close. cbn [snd fst].
  destruct (build_request flags tenant) as [req|e] eqn:Eb; [|done]. rewrite lift_bind. unfold client_SendNotification.
  assert (pr_TenantId req = tenant) as Hreq.
  { unfold build_request in Eb. repeat (apply bind_Ok in Eb as (? & _ & Eb)). by injection Eb as <-. }
  rewrite bool_decide_eq_false_2 by (by rewrite Hreq). cbn [rpc_SendNotification connected].
  unfold over_server, zoom at 1, mbind at 1 2, eff_bind at 1 2. cbn [fst].
  destruct (serveGRPC _ _ _ _ _) as [st1 [reply|e]] eqn:E; [|done]. intros _.
  apply client_call_inv in E as (Htok & s1 & cfg & Hres); [|by rewrite Hreq..]. rewrite Hreq in Hres.
  by exists settings, tenant, req, s1, cfg.
Qed.

(** The command line and the server fit together.  When [send] accepts its flags,
    none of them an attachment, its token is the server's and its tenant exists, then the server
    authenticates the call, finds the tenant and accepts the request: all that happens is that the
    service sends, for that tenant, the trimmed recipient, subject and message given, at the
    given time, and the answer's id and status are printed; an error of the service is the
    command's error. *)
Theorem cli_request_served cmd provider flags settings tenant req requiredToken svc (s s1 : S) cfg out :
  command_settings cmd provider = Ok (settings, tenant) → build_request flags tenant = Ok req →
  attachmentArgs flags = [] → (∀ t, Parse_RFC3339 (scheduledInput flags) = Ok t → rfc3339_range t) →
  authToken settings = requiredToken → repo_ResolveByID tenant s = (s1, Ok cfg) →
  ∃ mreq, rq_recipient mreq = TrimSpace (recipientInput flags) ∧ rq_message mreq = TrimSpace (messageInput flags) ∧
    rq_subject mreq = TrimSpace (subjectInput flags) ∧ rq_attachments mreq = [] ∧
    (∀ t, rq_scheduledFor mreq = Some t → Parse_RFC3339 (scheduledInput flags) = Ok t) ∧
    run_send (CW := connected requiredToken) cmd provider flags ((svc, s), out) =
    match SendNotification (Some cfg) mreq (svc, s1) with
    | (st, Ok resp) =>
        ((st, out ++ ["Notification " ++ r_NotificationID resp ++ " sent with status "
                      ++ Status_String (ps_Status (mapModelToGrpcResponse resp)) ++ String "010" ""]%string), Ok ())
    | (st, Err e) => ((st, out), Err e)
    end.
Proof.
  intros Hs Hb Ha Hr Htok Hres.
  destruct (run_send_served cmd provider flags settings tenant req requiredToken svc s s1 cfg out) as (mreq & _ & _ & H); try done.
  by exists mreq.
Qed.
End served.

(** * Witnesses *)
Import MemoryProcess.
#[local] Existing Instances plain_timestamps codec_text demo_host.
Definition plain_mime : Mime := {| TypeByExtension := λ _, ""%string; DetectContentType := λ _, "text/plain"%string |}.
#[local] Existing Instance plain_mime.

(** A server that only ever answers that the notification is queued; the world is the
    clock. *)
Definition queued_response : pb_NotificationResponse := PbResponse "n1" 0 "" "" "" Status_QUEUED "" 0 "" "" None [] "acme".
Definition waiting_world : ClientWorld Z := {|
  grpc_NewClient _ := mret ();
  conn_Close := mret ();
  rpc_SendNotification _ _ := mret queued_response;
  rpc_GetNotificationStatus _ _ _ := mret queued_response;
  client_Now w := (w, w);
  Sleep d w := w + d;
  Fprintf _ := mret ();
|}.
Definition waiting_clock : ClientClock Z (CW := waiting_world).
Proof. refine {| clock_of := λ w, w |}; simpl; intros; lia. Defined.
Definition waiting_client : NotificationClient :=
  MkClient "s3cret" "acme" (MkSettings "localhost:50051" "s3cret" "acme" (seconds 5) (seconds 30)).
Lemma wait_terminates_witness :
  ∃ w' resp e, SendNotificationAndWait (CW := waiting_world) waiting_client
    (PbRequest 0 "to@x.y" "s" "m" None [] "") 0 = Some (w', (resp, Some e)).
Proof.
  destruct (wait_terminates (CW := waiting_world) (CC := waiting_clock) waiting_client (PbRequest 0 "to@x.y" "s" "m" None [] "") 0)
    as (w' & resp & [e|] & H & _); [exists w', resp, e; exact H|vm_compute in H; discriminate].
Defined.

(** send --to " to@x.y " --subject s --message m, for acme. *)
Definition demo_flag (name : string) : option flag :=
  if decide (name = "grpc-auth-token"%string) then Some (MkFlag true (FStr " s3cret ")) else
  if decide (name = "tenant-id"%string) then Some (MkFlag true (FStr "acme")) else Some (MkFlag false (FStr "")).
Definition demo_command : cobra_Command := MkCommand demo_flag (λ _, None).
Definition demo_flags : send_flags := MkSendFlags "email" " to@x.y " "s" "m" "" [].
Lemma cli_request_served_witness :
  ∃ mreq st, rq_recipient mreq = "to@x.y"%string ∧
    run_send (CW := connected "s3cret") demo_command new_viper demo_flags ((grpc_service, running), []) = (st, Ok ()).
Proof.
  destruct (command_settings demo_command new_viper) as [[settings tenant]|e] eqn:Es; [|vm_compute in Es; discriminate].
  destruct (build_request demo_flags tenant) as [req|e] eqn:Eb; [|vm_compute in Es; injection Es as <- <-; vm_compute in Eb; discriminate].
  destruct (repo_ResolveByID tenant running) as [s1 [cfg|e]] eqn:Er;
    [|vm_compute in Es; injection Es as <- <-; vm_compute in Er; discriminate].
  destruct (cli_request_served demo_command new_viper demo_flags settings tenant req "s3cret" grpc_service running s1 cfg []
    Es Eb) as (mreq & Hr & _ & _ & _ & _ & H).
  - reflexivity.
  - intros t Ht. vm_compute in Ht. injection Ht as <-. unfold rfc3339_range, zeroTime, Second. lia.
  - vm_compute in Es. injection Es as <- <-. reflexivity.
  - exact Er.
  - exists mreq. destruct (run_send (CW := connected "s3cret") demo_command new_viper demo_flags _) as [st r] eqn:E.
    exists st. split; [rewrite Hr; vm_compute; reflexivity|]. f_equal.
    clear H. vm_compute in E. injection E as _ <-. reflexivity.
Defined.
