(* ===== verification/Cli.v ===== *)
(** The command lines of the client (src/cmd/client) and of the doctor (src/cmd/doctor): the
    flags they declare, what the parsed flags mean to their commands, and the exit codes.

    cobra is the class [Cobra]: it finds the command to run, or shows help, or fails, and
    tells which flags were given with which values, in order; its laws say that these are
    declared flags with values of their kind.  Where a flag is looked up (a command's own set, or
    the set it inherits) is left open ([cobra_merges]). *)
From S2P Require Import Prelude GoStrings Strconv Crypto Gorm Model Tenant Service Directory Grpc Config Doctor Client.
Open Scope Z_scope.

(** * Declared flags *)
Record flag_decl := MkDecl { fd_name : string; fd_default : farg }.
Definition StringFlag (name value : string) : flag_decl := MkDecl name (FStr value).
Definition IntFlag (name : string) (value : Z) : flag_decl := MkDecl name (FInt value).

(** [NewRootCommand] *)
Definition root_flags : list flag_decl :=
  [StringFlag "grpc-server-addr" "localhost:50051"; StringFlag "grpc-auth-token" ""; StringFlag "tenant-id" "";
   IntFlag "connection-timeout-sec" 5; IntFlag "operation-timeout-sec" 30; StringFlag "log-level" "INFO"].
(** [buildSendCommand]; the repeatable flag has no default. *)
Definition send_flag_decls : list flag_decl :=
  [StringFlag "type" "email"; StringFlag "recipient" ""; StringFlag "to" ""; StringFlag "subject" "";
   StringFlag "message" ""; StringFlag "scheduled-time" ""; StringFlag "attachment" ""].
(** [newRootCommand] of the doctor; booleans are 0 and 1, and one argument is needed. *)
Definition flagCrossValidate : string := "cross-validate".
Definition flagExpandEnv : string := "expand-env".
Definition flagOutputJSON : string := "json".
Definition doctor_flags : list flag_decl :=
  [IntFlag flagCrossValidate 0; IntFlag flagExpandEnv 0; IntFlag flagOutputJSON 0].

(** A command with its subcommands. *)
Record cobra := MkCobra {
  co_Use : string;
  co_persistent : list flag_decl;
  co_flags : list flag_decl;
  co_minArgs : nat;
  co_commands : list (string * list flag_decl);
}.
Definition NewRootCommand : cobra := MkCobra "pinguin-cli" root_flags [] 0 [("send"%string, send_flag_decls)].
Definition newRootCommand : cobra := MkCobra "pinguin-doctor [config-paths...]" [] doctor_flags 1 [].

(** What was given on the command line. *)
Record parsed := MkParsed { ps_assigned : list (string * farg); ps_arguments : list string }.
Definition same_kind (a b : farg) : bool :=
  match a, b with FStr _, FStr _ => true | FInt _, FInt _ => true | _, _ => false end.
(** The command that runs, by its name ([None] is the root), and its flags. *)
Definition flags_of (c : cobra) (name : option string) : list flag_decl :=
  match name with
  | None => co_persistent c ++ co_flags c
  | Some name => co_persistent c ++ default [] (snd <$> List.find (λ x, bool_decide (x.1 = name)) (co_commands c))
  end.
Class Cobra := {
  cobra_Parse : cobra → list string → result (option (option string * parsed));
  cobra_merges : bool;
  cobra_declared c args name p x : cobra_Parse c args = Ok (Some (name, p)) → x ∈ ps_assigned p →
    ∃ d, d ∈ flags_of c name ∧ fd_name d = x.1 ∧ same_kind (fd_default d) x.2 = true;
  cobra_minArgs c args p : cobra_Parse c args = Ok (Some (None, p)) → (co_minArgs c ≤ length (ps_arguments p))%nat;
  cobra_runnable c args name p : cobra_Parse c args = Ok (Some (Some name, p)) → name ∈ fst <$> co_commands c;
}.

(** * Flags after parsing *)

(** The last of the values given to any of these flags. *)
Definition last_given (names : list string) (p : parsed) : option farg :=
  snd <$> last (List.filter (λ x, bool_decide (x.1 ∈ names)) (ps_assigned p)).
Definition find_decl (name : string) (l : list flag_decl) : option flag_decl :=
  List.find (λ d, bool_decide (fd_name d = name)) l.
Definition parsed_flag (p : parsed) (d : flag_decl) : flag :=
  match last_given [fd_name d] p with Some v => MkFlag true v | None => MkFlag false (fd_default d) end.
Definition string_of (v : option farg) (fallback : string) : string := match v with Some (FStr s) => s | _ => fallback end.
Definition int_of (v : option farg) (fallback : Z) : Z := match v with Some (FInt z) => z | _ => fallback end.

Section commands.
Context `{CO : Cobra}.
Definition send_command (p : parsed) : cobra_Command := {|
  Flags_Lookup name :=
    parsed_flag p <$> find_decl name (if cobra_merges then send_flag_decls ++ root_flags else send_flag_decls);
  InheritedFlags_Lookup name := parsed_flag p <$> find_decl name root_flags;
|}.
(** The variables of [buildSendCommand]: two flags write the same one. *)
Definition send_inputs (p : parsed) : send_flags := {|
  typeInput := string_of (last_given ["type"%string] p) "email";
  recipientInput := string_of (last_given ["recipient"; "to"]%string p) "";
  subjectInput := string_of (last_given ["subject"%string] p) "";
  messageInput := string_of (last_given ["message"%string] p) "";
  scheduledInput := string_of (last_given ["scheduled-time"%string] p) "";
  attachmentArgs := (λ x, string_of (Some x.2) "") <$> List.filter (λ x, bool_decide (x.1 = "attachment"%string)) (ps_assigned p);
|}.

(** * The programs *)

(** [root.Execute]: without [send] there is nothing to run but help. *)
Definition root_Execute `{U : Unicode} `{TS : Timestamps} `{TX : TimeText} `{O : Host} `{MI : Mime} {W} `{CW : !ClientWorld W}
    (arguments : list string) : eff W unit :=
  invoked ← lift (cobra_Parse NewRootCommand arguments);
  match invoked with
  | Some (Some _, p) => run_send (send_command p) new_viper (send_inputs p)
  | _ => mret ()
  end.
(** [run] of the client, whose exit code [runAndExit] exits with. *)
Definition client_main `{U : Unicode} `{TS : Timestamps} `{TX : TimeText} `{O : Host} `{MI : Mime} {W} `{CW : !ClientWorld W}
    (show_error : error → eff W unit) (arguments : list string) : W → W * Z :=
  client_run (root_Execute arguments) show_error.

(** [run] and [runAndExit] of the doctor. *)
Definition doctor_Execute `{U : Unicode} `{O : Host} `{Y : Yaml} `{X : ErrorTexts}
    (range : gmap string pinguinConfig → list (string * pinguinConfig)) (FormatReport : Report → string)
    {W} (Write : string → eff W unit) (timestamp : string) (arguments : list string) : eff W unit :=
  invoked ← lift (cobra_Parse newRootCommand arguments);
  match invoked with
  | Some (None, p) =>
      let flag name := negb (int_of (last_given [name] p) 0 =? 0) in
      runDoctor range FormatReport Write timestamp (flag flagCrossValidate) (flag flagExpandEnv) (flag flagOutputJSON)
        (ps_arguments p)
  | _ => mret ()
  end.
Definition doctor_main `{U : Unicode} `{O : Host} `{Y : Yaml} `{X : ErrorTexts}
    (range : gmap string pinguinConfig → list (string * pinguinConfig)) (FormatReport : Report → string)
    {W} (Write show_error : string → eff W unit) (timestamp : string) (arguments : list string) : W → W * Z := λ w,
  let '(w, r) := doctor_Execute range FormatReport Write timestamp arguments w in
  match r with Err err => ((show_error (Error err) w).1, 1) | Ok _ => (w, 0) end.
End commands.

(** * What the flags mean *)
Section settings.
Context `{U : Unicode} `{CO : Cobra}.

Lemma last_given_in names p v : last_given names p = Some v → ∃ name, name ∈ names ∧ (name, v) ∈ ps_assigned p.
Proof.
  unfold last_given. intros ([name v'] & Hl & ->)%fmap_Some. apply last_Some_elem_of in Hl.
  apply list_elem_of_filter_bool in Hl as [Hin Hn%bool_decide_eq_true]. by exists name.
Qed.
Lemma find_decl_app name l k :
  find_decl name (l ++ k) = match find_decl name l with Some d => Some d | None => find_decl name k end.
Proof. unfold find_decl. induction l as [|d l IH]; [done|]. simpl. by case_bool_decide. Qed.
(** A value given to a flag of [send] is of the kind its declaration says. *)
Lemma given_kind args name p flagName d v :
  cobra_Parse NewRootCommand args = Ok (Some (Some name, p)) →
  find_decl flagName (root_flags ++ send_flag_decls) = Some d → last_given [flagName] p = Some v →
  same_kind (fd_default d) v = true.
Proof.
  intros Hp Hd (n & ->%list_elem_of_singleton & Hin)%last_given_in.
  pose proof (cobra_runnable _ _ _ _ Hp) as Hname. apply list_elem_of_singleton in Hname as ->.
  destruct (cobra_declared _ _ _ _ _ Hp Hin) as (d' & Hd' & Hn & Hk). simpl in Hn, Hk.
  assert (d' = d) as ->; [|done]. unfold find_decl in Hd. apply find_Some_spec in Hd as [Hd Hdn%bool_decide_eq_true].
  apply (NoDup_fmap_inj_on fd_name (root_flags ++ send_flag_decls)); [|done..|congruence].
  apply (bool_decide_unpack _). vm_compute. exact I.
Qed.

(** A root flag is found in one of the two sets. *)
Lemma root_lookup p flagName d :
  find_decl flagName root_flags = Some d →
  Flags_Lookup (send_command p) flagName = Some (parsed_flag p d) ∨
  Flags_Lookup (send_command p) flagName = None ∧ InheritedFlags_Lookup (send_command p) flagName = Some (parsed_flag p d).
Proof.
  intros Hd. assert (find_decl flagName send_flag_decls = None) as Hnone.
  { assert (flagName ∈ fd_name <$> root_flags) as Hin.
    { unfold find_decl in Hd. apply find_Some_spec in Hd as [Hd Hn%bool_decide_eq_true]. apply list_elem_of_fmap. by exists d. }
    clear Hd. vm_compute in Hin. repeat (apply elem_of_cons in Hin as [->|Hin]; [by vm_compute|]). by apply elem_of_nil in Hin. }
  unfold send_command. cbn [Flags_Lookup InheritedFlags_Lookup]. destruct cobra_merges; [left|right].
  - by rewrite find_decl_app, Hnone, Hd.
  - by rewrite Hnone, Hd.
Qed.
Lemma root_kind args name p flagName d v :
  cobra_Parse NewRootCommand args = Ok (Some (Some name, p)) →
  find_decl flagName root_flags = Some d → last_given [flagName] p = Some v → same_kind (fd_default d) v = true.
Proof. intros Hp Hd. eapply given_kind; [exact Hp|]. by rewrite find_decl_app, Hd. Qed.

(** The last value given wins over the configuration; the two lookups cannot fail. *)
Lemma string_flag args name p flagName fallback fb :
  cobra_Parse NewRootCommand args = Ok (Some (Some name, p)) →
  find_decl flagName root_flags = Some (StringFlag flagName fallback) →
  valueOrConfig (send_command p) flagName fb = Ok (string_of (last_given [flagName] p) fb).
Proof.
  intros Hp Hd.
  assert (∀ v, last_given [flagName] p = Some v → ∃ s, v = FStr s) as Hk.
  { intros v Hv. pose proof (root_kind _ _ _ _ _ v Hp Hd Hv). destruct v; [by eexists|done]. }
  unfold valueOrConfig. destruct (root_lookup p _ _ Hd) as [-> | [-> ->]]; unfold parsed_flag; cbn [fd_name StringFlag];
    (destruct (last_given [flagName] p) as [v|]; [|done]); by destruct (Hk v eq_refl) as [s ->].
Qed.
Lemma int_flag args name p flagName fallback fb :
  cobra_Parse NewRootCommand args = Ok (Some (Some name, p)) →
  find_decl flagName root_flags = Some (IntFlag flagName fallback) → 0 < fb →
  intOrConfig (send_command p) flagName fb = positive_value flagName (int_of (last_given [flagName] p) fb).
Proof.
  intros Hp Hd Hfb. assert (positive_value flagName fb = Ok fb) as Hok by (unfold positive_value; by rewrite (proj2 (Z.leb_gt _ _))).
  assert (∀ v, last_given [flagName] p = Some v → ∃ n, v = FInt n) as Hk.
  { intros v Hv. pose proof (root_kind _ _ _ _ _ v Hp Hd Hv). destruct v; [done|by eexists]. }
  unfold intOrConfig. destruct (root_lookup p _ _ Hd) as [-> | [-> ->]]; unfold parsed_flag; cbn [fd_name IntFlag];
    (destruct (last_given [flagName] p) as [v|]; [by destruct (Hk v eq_refl) as [n ->]|done]).
Qed.
Lemma positive_value_Ok flagName v z : positive_value flagName v = Ok z ↔ z = v ∧ 0 < v.
Proof. unfold positive_value. destruct (Z.leb_spec v 0); split; [done|lia|intros [= <-]; lia|by intros [-> _]]. Qed.

(** The settings of a run of [send], as the command line gives them. *)
Definition given_settings (p : parsed) : Settings * Z * Z :=
  let c := int_of (last_given ["connection-timeout-sec"%string] p) 5 in
  let o := int_of (last_given ["operation-timeout-sec"%string] p) 30 in
  (MkSettings (TrimSpace (string_of (last_given ["grpc-server-addr"%string] p) "localhost:50051"))
     (TrimSpace (string_of (last_given ["grpc-auth-token"%string] p) ""))
     (TrimSpace (string_of (last_given ["tenant-id"%string] p) "")) (seconds c) (seconds o), c, o).

Lemma command_settings_exact args name p st tenant :
  cobra_Parse NewRootCommand args = Ok (Some (Some name, p)) →
  let '(given, c, o) := given_settings p in
  command_settings (send_command p) new_viper = Ok (st, tenant) ↔
  serverAddress given ≠ ""%string ∧ authToken given ≠ ""%string ∧ tenantID given ≠ ""%string ∧ 0 < c ∧ 0 < o ∧
  st = given ∧ tenant = tenantID given.
Proof.
  intros Hp. unfold given_settings, command_settings.
  assert (cli_Load (Some new_viper) = Ok (MkCliConfig "localhost:50051" "" "" 5 30 (ToUpper "INFO"))) as -> by reflexivity.
  cbn [cc_serverAddress cc_authToken cc_tenantID cc_connectionTimeout cc_operationTimeout cc_logLevel].
  rewrite (string_flag _ _ _ "grpc-server-addr" _ _ Hp eq_refl), (string_flag _ _ _ "grpc-auth-token" _ _ Hp eq_refl),
    (string_flag _ _ _ "tenant-id" _ _ Hp eq_refl), (string_flag _ _ _ "log-level" _ _ Hp eq_refl),
    (int_flag _ _ _ "connection-timeout-sec" _ _ Hp eq_refl), (int_flag _ _ _ "operation-timeout-sec" _ _ Hp eq_refl) by done.
  generalize (string_of (last_given ["grpc-server-addr"%string] p) "localhost:50051"), (string_of (last_given ["grpc-auth-token"%string] p) ""),
    (string_of (last_given ["tenant-id"%string] p) ""), (string_of (last_given ["log-level"%string] p) (ToUpper "INFO")),
    (int_of (last_given ["connection-timeout-sec"%string] p) 5), (int_of (last_given ["operation-timeout-sec"%string] p) 30).
  intros address token tenant' level c o. unfold NewSettings, positive_value. cbn [mbind result_bind serverAddress authToken tenantID].
  rewrite TrimSpace_idem. repeat case_bool_decide; destruct (c <=? 0) eqn:Ec, (o <=? 0) eqn:Eo; to_prop; simpl;
    rewrite ?(proj2 (Z.leb_gt _ _)) by done; simpl.
  all: split; [intros; simplify_eq; by split_and!|intros (? & ? & ? & ? & ? & -> & ->)]; done || lia.
Qed.
End settings.

(** * A command line parser for the witnesses: [--flag value], for the flags with text *)
Fixpoint read_pairs (decls : list flag_decl) (args : list string) : result parsed :=
  match args with
  | [] => Ok (MkParsed [] [])
  | a :: rest =>
      match List.find (λ d, bool_decide ("--" ++ fd_name d = a)%string) decls, rest with
      | Some (MkDecl name (FStr _)), v :: rest =>
          p ← read_pairs decls rest; Ok (MkParsed ((name, FStr v) :: ps_assigned p) (ps_arguments p))
      | Some _, _ => Err (Text "invalid flag" [])
      | None, _ => p ← read_pairs decls rest; Ok (MkParsed (ps_assigned p) (a :: ps_arguments p))
      end
  end.
Lemma read_pairs_declared decls args p x : read_pairs decls args = Ok p → x ∈ ps_assigned p →
  ∃ d, d ∈ decls ∧ fd_name d = x.1 ∧ same_kind (fd_default d) x.2 = true.
Proof.
  induction (Nat.lt_wf_0_projected length args) as [[|a rest] _ IH] in p |- *; [intros [= <-]; by intros ?%elem_of_nil|].
  cbn [read_pairs]. destruct (List.find _ decls) as [[name v0]|] eqn:Ef.
  - destruct v0 as [s|]; [|done]. destruct rest as [|v rest]; [done|].
    intros (q & Hq & [= <-])%bind_Ok [->|Hin]%elem_of_cons; [|by apply (IH rest ltac:(simpl; lia) q)].
    apply find_Some_spec in Ef as [Hd _]. by eexists.
  - intros (q & Hq & [= <-])%bind_Ok Hin. by apply (IH rest ltac:(simpl; lia) q).
Qed.
Definition pair_Parse (c : cobra) (args : list string) : result (option (option string * parsed)) :=
  match args with
  | a :: rest =>
      if bool_decide (a ∈ fst <$> co_commands c) then p ← read_pairs (flags_of c (Some a)) rest; Ok (Some (Some a, p))
      else p ← read_pairs (flags_of c None) args;
        if decide (co_minArgs c ≤ length (ps_arguments p))%nat then Ok (Some (None, p)) else Err (Text "requires arguments" [])
  | [] => Ok None
  end.
Lemma pair_Parse_inv c args name p : pair_Parse c args = Ok (Some (name, p)) →
  (∃ args, read_pairs (flags_of c name) args = Ok p) ∧
  match name with Some n => n ∈ fst <$> co_commands c | None => (co_minArgs c ≤ length (ps_arguments p))%nat end.
Proof.
  unfold pair_Parse. destruct args as [|a rest]; [done|]. case_bool_decide as Ha; intros (q & Hq & H)%bind_Ok.
  - injection H as <- <-. by split; [eexists|].
  - case_decide; [|done]. injection H as <- <-. by split; [eexists|].
Qed.
Definition pair_cobra : Cobra.
Proof.
  refine {| cobra_Parse := pair_Parse; cobra_merges := true |}; intros * Hp;
    apply pair_Parse_inv in Hp as [[rest Hr] Hn]; [|exact Hn..]. exact (read_pairs_declared _ _ _ _ Hr).
Defined.
(** send --to " to@x.y " --subject s --message m, for acme; the last tenant given counts. *)
Definition demo_arguments : list string :=
  ["send"; "--grpc-auth-token"; " s3cret "; "--tenant-id"; "globex"; "--to"; " to@x.y "; "--subject"; "s"; "--message"; "m";
   "--tenant-id"; "acme"]%string.
Definition demo_parsed : parsed := MkParsed
  [("grpc-auth-token", FStr " s3cret "); ("tenant-id", FStr "globex"); ("to", FStr " to@x.y "); ("subject", FStr "s");
   ("message", FStr "m"); ("tenant-id", FStr "acme")]%string [].
