(* ===== verification/EndToEnd.v ===== *)
(** From the command line to the provider: the client of [Cli] over the server of [Grpc]
    and [Directory], with the real senders of [Delivery]. *)
From S2P Require Import Prelude GoStrings Strconv Crypto Gorm Model Tenant TenantProofs Config Email Sms Service Directory Delivery Grpc Doctor Client Cli.
Open Scope Z_scope.

Section end_to_end.
Context {P : Type} `{N : Upstream P} `{HC : HttpClient P} (now : P → P * Time) (cfg : Config).
Context `{TS : Timestamps} `{TX : TimeText} `{HO : Host} `{MI : Mime} `{Q : Sql}.
Context `{U : Unicode} `{K : Crypto} {SN ST SD SA SE SS E : Type}.
Context `{TN : Table SN Notification} `{LN : !TableLaws SN Notification}.
Context `{TT : Table ST Tenant} `{TD : Table SD TenantDomain} `{TA : Table SA TenantAdmin}.
Context `{TE : Table SE EmailProfile} `{TSM : Table SS SMSProfile}.
Context `{JD : Joins ST Tenant SD TenantDomain} `{JA : Joins ST Tenant SA TenantAdmin} `{Env : Environment E}.
Context (key : string) (repo : nat).
#[local] Abbreviation W := (process SN (tenant_db ST SD SA SE SS) E P).
#[local] Instance e_providers : Providers P := production_providers now cfg.
#[local] Instance e_table : Table W Notification := process_table.
#[local] Instance e_outside : Outside W := process_outside key repo.
#[local] Instance e_directory : TenantDirectory W := process_directory key repo.

(** The line [send] prints. *)
Definition sent_line (id status : string) : string :=
  "Notification " ++ id ++ " sent with status " ++ status ++ String "010" "".

(** Looking a tenant up tells no provider anything. *)
Lemma Resolve_providers id (w w1 : W) r : repo_ResolveByID id w = (w1, r) → p_providers w1 = p_providers w.
Proof. simpl. unfold in_tenants, zoom. destruct (Tenant.ResolveByID _ _ _ _). by intros [= <- _]. Qed.

(** The run behind exit code 0: [send] ran to its end, with the settings the command line gives. *)
Lemma client_main_inv `{CO : Cobra} arguments name p show_error requiredToken svc (w : W) out st :
  cobra_Parse NewRootCommand arguments = Ok (Some (Some name, p)) →
  client_main (CW := connected requiredToken) show_error arguments ((svc, w), out) = (st, 0) →
  run_send (CW := connected requiredToken) (send_command p) new_viper (send_inputs p) ((svc, w), out) = (st, Ok ()) ∧
  let '(given, c, o) := given_settings p in
  command_settings (send_command p) new_viper = Ok (given, tenantID given) ∧ 0 < c ∧ 0 < o ∧
  authToken given = requiredToken ∧
  ∃ req w1 tcfg, build_request (send_inputs p) (tenantID given) = Ok req ∧ repo_ResolveByID (tenantID given) w = (w1, Ok tcfg).
Proof.
  intros Hp. unfold client_main, client_run, root_Execute. rewrite Hp, lift_bind.
  destruct (run_send _ _ _ _) as [st' [[]|e]] eqn:Erun; [|done]. intros [= <-]. split; [done|].
  destruct (run_send_inv _ _ _ _ _ _ _ _ Erun) as (settings & tenant & req & w1 & tcfg & Hs & Hb & Htok & Hres).
  pose proof (command_settings_exact arguments name p settings tenant Hp) as Hx.
  destruct (given_settings p) as [[given c] o]. pose proof (proj1 Hx Hs) as (_ & _ & _ & Hc & Ho & -> & ->).
  split_and!; [done..|]. by exists req, w1, tcfg.
Qed.

End end_to_end.

(** * Witness *)
Section witness.
#[local] Existing Instances ascii_unicode plain_crypto counter_env counter_env_laws demo_upstream twilio_client.
#[local] Existing Instances plain_timestamps codec_text demo_host plain_mime demo_sql.
Import TenantTables.
#[local] Existing Instances demo_table demo_laws.
#[local] Instance x_providers : Providers (list string) := production_providers noon small_config.
#[local] Instance x_table : Table sending_process Notification := process_table.
#[local] Instance x_outside : Outside sending_process := process_outside memory_key 0.
#[local] Instance x_directory : TenantDirectory sending_process := process_directory memory_key 0.

(** The end of the printed line tells the status. *)
Lemma sent_line_end id status :
  ∃ l, reverse (explode (sent_line id status)) = reverse (explode (status ++ String "010" "")) ++ l.
Proof. eexists. unfold sent_line. rewrite (explode_app "Notification "), (explode_app id), (explode_app " sent with status "), !reverse_app, <- !app_assoc. reflexivity. Qed.

End witness.
