(* ===== verification/Identity.v ===== *)
(** SMTP identities (src/internal/smtpidentity/repository.go): credentials,
    forwarding recipients, authentication and forwarding lookup.

    The world is the three tables, each behind the interface of Gorm, and the
    environment of Crypto.  Byte slices are strings. *)
From S2P Require Import Prelude GoStrings Address Base64 Crypto Gorm.
Open Scope Z_scope.

(** * Errors and data *)
Definition ErrAuthenticationFailed : error := New "smtp_identity.auth_failed".
Definition ErrSenderDomainNotAllowed : error := New "smtp_identity.sender_domain_not_allowed".
Definition ErrIdentityExists : error := New "smtp_identity.exists".
Definition ErrIdentityNotFound : error := New "smtp_identity.not_found".
Definition ErrForwardRecipientsRequired : error := New "smtp_identity.forward_recipients_required".
Definition ErrForwardRecipientDuplicate : error := New "smtp_identity.forward_recipient_duplicate".
Definition ErrForwardRecipientSelf : error := New "smtp_identity.forward_recipient_self".

Definition IdentityStatusActive : string := "active".
Definition IdentityStatusDeleted : string := "deleted".
Definition SenderDomainStatusPending : string := "pending".
Definition SenderDomainStatusVerified : string := "verified".

(** A row of the identities table; [ForwardTo] is the table of forwarding
    recipients, loaded where the code preloads it. *)
Record Identity := MkIdentity {
  i_ID : string;
  i_OwnerEmail : string;
  i_EmailAddress : string;
  i_Username : string;
  i_PasswordSalt : string;
  i_PasswordDigest : string;
  i_PasswordCipher : string;
  i_Status : string;
  i_LastUsedAt : option Time;
  i_CreatedAt : Time;
  i_UpdatedAt : Time;
}.

Record ForwardRecipient := MkForward {
  f_ID : string;
  f_IdentityID : string;
  f_EmailAddress : string;
  f_CreatedAt : Time;
  f_UpdatedAt : Time;
}.

Record SenderDomain := MkDomain {
  d_ID : Z;
  d_OwnerEmail : string;
  d_Domain : string;
  d_Status : string;
  d_VerificationToken : string;
  d_LastCheckedAt : option Time;
  d_CreatedAt : Time;
  d_UpdatedAt : Time;
}.

Record PublicIdentity := MkPublic {
  p_ID : string;
  p_EmailAddress : string;
  p_Username : string;
  p_ForwardTo : list string;
  p_Status : string;
  p_LastUsedAt : option Time;
  p_CreatedAt : Time;
  p_UpdatedAt : Time;
}.

Record AccessScope := MkScope { OwnerEmail : string; Admin : bool }.

(** Record updates. *)
Definition i_with_credential (i : Identity) (owner username salt digest cipher status : string)
    (lastUsed : option Time) (now : Time) : Identity :=
  MkIdentity (i_ID i) owner (i_EmailAddress i) username salt digest cipher status lastUsed (i_CreatedAt i) now.
Definition i_with_status (i : Identity) (status : string) (now : Time) : Identity :=
  MkIdentity (i_ID i) (i_OwnerEmail i) (i_EmailAddress i) (i_Username i) (i_PasswordSalt i)
    (i_PasswordDigest i) (i_PasswordCipher i) status (i_LastUsedAt i) (i_CreatedAt i) now.
Definition i_with_used (i : Identity) (used : option Time) (now : Time) : Identity :=
  MkIdentity (i_ID i) (i_OwnerEmail i) (i_EmailAddress i) (i_Username i) (i_PasswordSalt i)
    (i_PasswordDigest i) (i_PasswordCipher i) (i_Status i) used (i_CreatedAt i) now.
Definition i_touch (i : Identity) (now : Time) : Identity := i_with_used i (i_LastUsedAt i) now.
Definition d_touch (d : SenderDomain) (now : Time) : SenderDomain :=
  MkDomain (d_ID d) (d_OwnerEmail d) (d_Domain d) (d_Status d) (d_VerificationToken d) (d_LastCheckedAt d)
    (d_CreatedAt d) now.
Definition d_set_ID (d : SenderDomain) (id : Z) : SenderDomain :=
  MkDomain id (d_OwnerEmail d) (d_Domain d) (d_Status d) (d_VerificationToken d) (d_LastCheckedAt d)
    (d_CreatedAt d) (d_UpdatedAt d).

(** The schema: address and user name are unique among identities, the pair of
    identity and address among forwarding recipients, the name among domains. *)
#[export] Instance Identity_row : Row Identity :=
  {| same_key := λ a b, bool_decide (i_ID a = i_ID b);
     placed := insert_by i_ID;
     stored := λ table a b, b = a ∧
       Forall (λ r, i_ID r ≠ i_ID a ∧ i_EmailAddress r ≠ i_EmailAddress a ∧ i_Username r ≠ i_Username a) table;
     touched := λ table a b, (∃ t, b = i_touch a t) ∧
       Forall (λ r, i_ID r ≠ i_ID a → i_EmailAddress r ≠ i_EmailAddress a ∧ i_Username r ≠ i_Username a) table |}.
#[export] Instance ForwardRecipient_row : Row ForwardRecipient :=
  {| same_key := λ a b, bool_decide (f_ID a = f_ID b);
     placed := insert_by f_ID;
     stored := λ table a b, b = a ∧
       Forall (λ r, f_ID r ≠ f_ID a ∧ (f_IdentityID r, f_EmailAddress r) ≠ (f_IdentityID a, f_EmailAddress a)) table;
     touched := λ _ a b, ∃ t, b = MkForward (f_ID a) (f_IdentityID a) (f_EmailAddress a) (f_CreatedAt a) t |}.
#[export] Instance SenderDomain_row : Row SenderDomain :=
  {| same_key := λ a b, d_ID a =? d_ID b;
     placed := λ table b, table ++ [b];
     stored := λ table a b, ∃ id, b = d_set_ID a id ∧ 0 < id ∧
       Forall (λ r, d_ID r ≠ id ∧ d_Domain r ≠ d_Domain a) table;
     touched := λ table a b, (∃ t, b = d_touch a t) ∧
       Forall (λ r, d_ID r ≠ d_ID a → d_Domain r ≠ d_Domain a) table |}.

(** * Keys *)
Definition decodeMasterKey (rawMasterKey : string) : result string :=
  match hex_DecodeString (TrimSpace rawMasterKey) with
  | Err e => Err (Wrapf "smtp identity: invalid master key: %w" [] e)
  | Ok key =>
      if decide (String.length key = 32%nat) then Ok key
      else Err (Text "smtp identity: master key must decode to 32 bytes" [])
  end.

(** [NewRepository]: the key; [db] says whether a database was given. *)
Definition NewIdentityRepository (db : bool) (rawMasterKey : string) : result string :=
  guard_err (negb db) (Text "smtp identity: database is required" []);;
  decodeMasterKey rawMasterKey.

(** * Forwarding recipients *)
Fixpoint check_recipients (seen : gset string) (forwardTo : list Address) : result unit :=
  match forwardTo with
  | [] => Ok ()
  | recipient :: forwardTo =>
      let key := String_ recipient in
      guard_err (bool_decide (key = ""%string)) ErrForwardRecipientsRequired;;
      guard_err (bool_decide (key ∈ seen)) (Wrapf "%w: %s" [FStr key] ErrForwardRecipientDuplicate);;
      check_recipients ({[key]} ∪ seen) forwardTo
  end.
Definition validateForwardRecipients (forwardTo : list Address) : result unit :=
  match forwardTo with
  | [] => Err ErrForwardRecipientsRequired
  | _ => check_recipients ∅ forwardTo
  end.

Fixpoint validateForwardRecipientTarget (address : Address) (forwardTo : list Address) : result unit :=
  match forwardTo with
  | [] => Ok ()
  | recipient :: forwardTo =>
      guard_err (Equals recipient address) (Wrapf "%w: %s" [FStr (String_ recipient)] ErrForwardRecipientSelf);;
      validateForwardRecipientTarget address forwardTo
  end.

Definition email_le (a b : ForwardRecipient) : bool := String.leb (f_EmailAddress a) (f_EmailAddress b).

Definition publicForwardRecipients (records : list ForwardRecipient) : list string :=
  sort_strings (f_EmailAddress <$> records).
Definition publicIdentity (record : Identity) (forwardTo : list ForwardRecipient) : PublicIdentity :=
  MkPublic (i_ID record) (i_EmailAddress record) (i_Username record) (publicForwardRecipients forwardTo)
    (i_Status record) (i_LastUsedAt record) (i_CreatedAt record) (i_UpdatedAt record).

Record credential := MkCredential {
  c_username : string;
  c_password : string;
  c_salt : string;
  c_digest : string;
  c_cipher : string;
}.

(** * The repository *)
Record world (SI SF SD E : Type) := MkWorld { w_identities : SI; w_forwards : SF; w_domains : SD; w_env : E }.
Arguments MkWorld {SI SF SD E} _ _ _ _.
Arguments w_identities {SI SF SD E} _.
Arguments w_forwards {SI SF SD E} _.
Arguments w_domains {SI SF SD E} _.
Arguments w_env {SI SF SD E} _.

Section repository.
Context `{U : Unicode} `{M : NetMail} `{K : Crypto}.
Context {SI SF SD E : Type}.
Context `{TI : Table SI Identity} `{TF : Table SF ForwardRecipient} `{TD : Table SD SenderDomain}.
Context `{Env : Environment E}.
(** [repository.key] and whether a commit goes through. *)
Context (key : string) (Commit : SI → SF → SD → result unit).

Definition W : Type := world SI SF SD E.
Definition on_identities {A} : eff SI A → eff W A :=
  zoom w_identities (λ x w, MkWorld x (w_forwards w) (w_domains w) (w_env w)).
Definition on_forwards {A} : eff SF A → eff W A :=
  zoom w_forwards (λ x w, MkWorld (w_identities w) x (w_domains w) (w_env w)).
Definition on_domains {A} : eff SD A → eff W A :=
  zoom w_domains (λ x w, MkWorld (w_identities w) (w_forwards w) x (w_env w)).
Definition on_env {A} : eff E A → eff W A :=
  zoom w_env (λ x w, MkWorld (w_identities w) (w_forwards w) (w_domains w) x).
Definition clock : eff W Time := on_env (λ e, let '(e, t) := clockFunc e in (e, Ok t)).

(** [db.Transaction(f)]: the tables are as before when [f] or the commit fails. *)
Definition transaction {A} (f : eff W A) : eff W A := λ w,
  let '(w', r) := f w in
  let rolled_back := MkWorld (w_identities w) (w_forwards w) (w_domains w) (w_env w') in
  match r with
  | Err e => (rolled_back, Err e)
  | Ok a =>
      match Commit (w_identities w') (w_forwards w') (w_domains w') with
      | Ok _ => (w', Ok a)
      | Err e => (rolled_back, Err e)
      end
  end.

(** ** Credentials *)
Definition randomToken (byteCount : nat) : eff E string :=
  rawBytes ← map_err (Wrapf "smtp identity credential: random: %w" []) (io_ReadFull byteCount);
  mret (EncodeToString RawURLEncoding rawBytes).

Definition digest (salt password : string) : string :=
  HMAC_SHA256 key (salt ++ implode ["000"%char] ++ password).

Definition encryptPassword (password : string) : eff E string :=
  lift (aes_NewCipher key);;
  nonce ← io_ReadFull 12;
  mret (nonce ++ gcm_Seal key nonce password)%string.

Definition decryptPassword (ciphertext : string) : result string :=
  aes_NewCipher key;;
  guard_err (Z.of_nat (String.length ciphertext) <? 12) (Text "ciphertext too short" []);;
  gcm_Open key (implode (take 12 (explode ciphertext))) (implode (drop 12 (explode ciphertext))).

Definition newCredential : eff E credential :=
  usernameToken ← randomToken 12;
  passwordToken ← randomToken 24;
  salt ← map_err (Wrapf "smtp identity credential: salt: %w" []) (io_ReadFull 16);
  let password := ("pgsmtp_" ++ passwordToken)%string in
  cipher ← map_err (Wrapf "smtp identity credential: password cipher: %w" []) (encryptPassword password);
  mret (MkCredential ("smtp_" ++ usernameToken) password salt (digest salt password) cipher).

(** ** Scopes and domains *)
Definition normalizeOwnerEmail (email : string) : string :=
  match NewAddress email with Err _ => ToLower (TrimSpace email) | Ok address => String_ address end.

(** The condition of the domain query. *)
Definition domain_allows (scope : AccessScope) (normalizedDomain : string) (d : SenderDomain) : bool :=
  let ownerEmail := normalizeOwnerEmail (OwnerEmail scope) in
  let owned := bool_decide (d_OwnerEmail d = ownerEmail) && bool_decide (d_Status d = SenderDomainStatusVerified) in
  let shared := bool_decide (d_OwnerEmail d = ""%string)
    && (bool_decide (d_Status d = SenderDomainStatusVerified) || bool_decide (d_Status d = ""%string)) in
  bool_decide (d_Domain d = normalizedDomain) && (if Admin scope then owned || shared else owned).

Definition requireSenderDomainForScope (scope : AccessScope) (domain : string) : eff W unit :=
  let normalizedDomain := ToLower (TrimSpace domain) in
  map_err (λ e, if errors_Is e ErrRecordNotFound
                then Wrapf "%w: %s" [FStr normalizedDomain] ErrSenderDomainNotAllowed
                else Wrapf "smtp identity sender domain lookup: domain %s: %w" [FStr normalizedDomain] e)
    (on_domains (First (domain_allows scope normalizedDomain)));;
  mret ().
Definition requireSenderDomainForIdentity (ownerEmail domain : string) : eff W unit :=
  requireSenderDomainForScope (MkScope ownerEmail true) domain.

Definition owner_scope (scope : AccessScope) (owner : string) : bool :=
  Admin scope || bool_decide (owner = normalizeOwnerEmail (OwnerEmail scope)).

Definition requireIdentityForScope (scope : AccessScope) (identityID : string) : eff W Identity :=
  let normalizedIdentityID := TrimSpace identityID in
  map_err (λ e, if errors_Is e ErrRecordNotFound then ErrIdentityNotFound
                else Wrapf "smtp identity lookup: identity %s: %w" [FStr normalizedIdentityID] e)
    (on_identities (First (λ i, whereField (i_ID i) normalizedIdentityID
                                && whereField (i_Status i) IdentityStatusActive
                                && owner_scope scope (i_OwnerEmail i)))).

(** ** Forwarding rows *)
Fixpoint new_forwards (identityID : string) (forwardTo : list Address) (now : Time) : E → E * list ForwardRecipient :=
  match forwardTo with
  | [] => λ e, (e, [])
  | recipient :: forwardTo => λ e,
      let '(e, id) := uuid_NewString e in
      let '(e, records) := new_forwards identityID forwardTo now e in
      (e, MkForward id identityID (String_ recipient) now now :: records)
  end.
Definition forwardRecipientRecords (identityID : string) (forwardTo : list Address) (now : Time)
    : eff W (list ForwardRecipient) :=
  on_env (λ e, let '(e, records) := new_forwards identityID forwardTo now e in
               (e, Ok (sorted_by email_le records))).

(** [tx.Create(&records)] inserts all rows; gorm refuses an empty slice. *)
Definition createForwardRecipients (identityID : string) (forwardTo : list Address) (now : Time) : eff W unit :=
  records ← forwardRecipientRecords identityID forwardTo now;
  map_err (Wrapf "smtp identity forwarding recipients: %w" [])
    (match records with
     | [] => lift (Err (New "empty slice found"))
     | _ => for_each (λ record, on_forwards (Create record);; mret ()) records
     end).

Definition deleteForwardRecipients (context : string) (identityID : string) : eff W unit :=
  map_err (Wrapf context []) (on_forwards (Delete (λ f, whereField (f_IdentityID f) identityID))).

(** ** Operations *)
Definition ListForScope (scope : AccessScope) : eff W (list PublicIdentity) :=
  map_err (Wrapf "smtp identity list: %w" [])
    (records ← on_identities (FindOrdered
       (λ i, whereField (i_Status i) IdentityStatusActive && owner_scope scope (i_OwnerEmail i))
       (λ a b, String.leb (i_EmailAddress a) (i_EmailAddress b)) None);
     forwardTo ← match records with
       | [] => mret []
       | _ => on_forwards (FindOrdered (λ f, bool_decide (f_IdentityID f ∈ i_ID <$> records)) email_le None)
       end;
     mret ((λ r, publicIdentity r (List.filter (λ f, bool_decide (f_IdentityID f = i_ID r)) forwardTo)) <$> records)).

Definition find_existing (address : Address) : eff W (option Identity) :=
  found ← try_eff (on_identities (First (λ i, whereField (i_EmailAddress i) (String_ address))));
  lift (match found with
        | Ok existing => if decide (i_Status existing = IdentityStatusActive) then Err ErrIdentityExists
                         else Ok (Some existing)
        | Err e => if errors_Is e ErrRecordNotFound then Ok None
                   else Err (Wrapf "smtp identity create: find existing: %w" [] e)
        end).

(** The two transactions of [CreateForScope]: reactivate or insert. *)
Definition store_identity (scope : AccessScope) (address : Address) (forwardTo : list Address)
    (existing : option Identity) (c : credential) (now : Time) : eff W Identity :=
  let ownerEmail := normalizeOwnerEmail (OwnerEmail scope) in
  match existing with
  | Some existing =>
      let record := i_with_credential existing ownerEmail (c_username c) (c_salt c) (c_digest c) (c_cipher c)
                      IdentityStatusActive None now in
      transaction (
        deleteForwardRecipients "smtp identity create: reset forwarding: %w" (i_ID record);;
        saved ← map_err (Wrapf "smtp identity create: reactivate: %w" []) (on_identities (Save record));
        createForwardRecipients (i_ID saved) forwardTo now;;
        mret saved)
  | None =>
      id ← on_env (λ e, let '(e, id) := uuid_NewString e in (e, Ok id));
      let record := MkIdentity id ownerEmail (String_ address) (c_username c) (c_salt c) (c_digest c)
                      (c_cipher c) IdentityStatusActive None now now in
      transaction (
        created ← map_err (Wrapf "smtp identity create: %w" []) (on_identities (Create record));
        createForwardRecipients (i_ID created) forwardTo now;;
        mret created)
  end.

Definition CreateForScope (scope : AccessScope) (address : Address) (forwardTo : list Address)
    : eff W (PublicIdentity * string) :=
  requireSenderDomainForScope scope (Domain address);;
  lift (validateForwardRecipients forwardTo);;
  lift (validateForwardRecipientTarget address forwardTo);;
  existing ← find_existing address;
  c ← on_env newCredential;
  now ← clock;
  record ← store_identity scope address forwardTo existing c now;
  records ← forwardRecipientRecords (i_ID record) forwardTo now;
  mret (publicIdentity record records, c_password c).

Definition CredentialsForScope (scope : AccessScope) (identityID : string) : eff W (PublicIdentity * string) :=
  record ← requireIdentityForScope scope identityID;
  password ← map_err (Wrapf "smtp identity credentials: decrypt password: %w" [])
    (lift (decryptPassword (i_PasswordCipher record)));
  mret (publicIdentity record [], password).

Definition UpdateForwardingForScope (scope : AccessScope) (identityID : string) (forwardTo : list Address)
    : eff W PublicIdentity :=
  lift (validateForwardRecipients forwardTo);;
  record ← requireIdentityForScope scope identityID;
  recordAddress ← map_err (Wrapf "smtp identity forwarding update: stored address: %w" [])
    (lift (NewAddress (i_EmailAddress record)));
  lift (validateForwardRecipientTarget recordAddress forwardTo);;
  now ← clock;
  let record := i_touch record now in
  transaction (
    deleteForwardRecipients "smtp identity forwarding update: reset: %w" (i_ID record);;
    createForwardRecipients (i_ID record) forwardTo now;;
    map_err (Wrapf "smtp identity forwarding update: timestamp: %w" [])
      (on_identities (Update (λ i, whereField (i_ID i) (i_ID record)) (λ i, i_touch i now)));;
    mret ());;
  records ← forwardRecipientRecords (i_ID record) forwardTo now;
  mret (publicIdentity record records).

Definition RotateForScope (scope : AccessScope) (identityID : string) : eff W (PublicIdentity * string) :=
  record ← requireIdentityForScope scope identityID;
  c ← on_env newCredential;
  now ← clock;
  let record := i_with_credential record (i_OwnerEmail record) (c_username c) (c_salt c) (c_digest c)
                  (c_cipher c) (i_Status record) (i_LastUsedAt record) now in
  saved ← map_err (Wrapf "smtp identity rotate: %w" []) (on_identities (Save record));
  mret (publicIdentity saved [], c_password c).

Definition DeleteForScope (scope : AccessScope) (identityID : string) : eff W unit :=
  record ← requireIdentityForScope scope identityID;
  now ← clock;
  map_err (Wrapf "smtp identity delete: %w" [])
    (on_identities (Save (i_with_status record IdentityStatusDeleted now)));;
  mret ().

(** The admin variants. *)
Definition admin : AccessScope := MkScope "" true.
Definition Repository_List : eff W (list PublicIdentity) := ListForScope admin.
Definition Repository_Create (address : Address) (forwardTo : list Address) := CreateForScope admin address forwardTo.
Definition Repository_Credentials (identityID : string) := CredentialsForScope admin identityID.
Definition Repository_UpdateForwarding (identityID : string) (forwardTo : list Address) :=
  UpdateForwardingForScope admin identityID forwardTo.
Definition Repository_Rotate (identityID : string) := RotateForScope admin identityID.
Definition Repository_Delete (identityID : string) := DeleteForScope admin identityID.

(** The stored recipients as addresses. *)
Fixpoint stored_recipients (records : list ForwardRecipient) : result (list Address) :=
  match records with
  | [] => Ok []
  | record :: records =>
      match NewAddress (f_EmailAddress record) with
      | Err e => Err (Wrapf "smtp identity forwarding lookup: stored recipient: %w" [] e)
      | Ok recipient => rest ← stored_recipients records; Ok (recipient :: rest)
      end
  end.

(** [None] is the answer "not found". *)
Definition ResolveForwarding (address : Address) : eff W (option (Address * list Address)) :=
  found ← try_eff (
    record ← on_identities (First (λ i, whereField (i_EmailAddress i) (String_ address)
                                        && whereField (i_Status i) IdentityStatusActive));
    forwardTo ← on_forwards (FindOrdered (λ f, bool_decide (f_IdentityID f = i_ID record)) email_le None);
    mret (record, forwardTo));
  match found with
  | Err e => if errors_Is e ErrRecordNotFound then mret None
             else lift (Err (Wrapf "smtp identity forwarding lookup: %w" [] e))
  | Ok (record, []) => mret None
  | Ok (record, forwardTo) =>
      allowed ← try_eff (requireSenderDomainForIdentity (i_OwnerEmail record) (Domain address));
      match allowed with
      | Err e => if errors_Is e ErrSenderDomainNotAllowed then mret None else lift (Err e)
      | Ok _ =>
          recipients ← lift (stored_recipients forwardTo);
          mret (Some (address, recipients))
      end
  end.

Definition markAuthenticatedIdentityUsed (record : Identity) (now : Time) : eff W unit :=
  rowsAffected ← map_err (Wrapf "smtp identity auth: mark used: %w" [])
    (on_identities (Update
       (λ i, bool_decide (i_ID i = i_ID record) && bool_decide (i_Status i = IdentityStatusActive)
             && bool_decide (i_Username i = i_Username record))
       (λ i, i_with_used i (Some now) now)));
  lift (guard_err (rowsAffected =? 0) ErrAuthenticationFailed).

Definition Authenticate (username password : string) : eff W AuthenticatedIdentity :=
  let normalizedUsername := TrimSpace username in
  if bool_decide (normalizedUsername = ""%string) || bool_decide (TrimSpace password = ""%string)
  then lift (Err ErrAuthenticationFailed) else
  record ← map_err (λ _, ErrAuthenticationFailed)
    (on_identities (First (λ i, whereField (i_Username i) normalizedUsername
                                && whereField (i_Status i) IdentityStatusActive)));
  if negb (bool_decide (digest (i_PasswordSalt record) password = i_PasswordDigest record))
  then lift (Err ErrAuthenticationFailed) else
  address ← map_err (Wrapf "smtp identity auth: stored address: %w" []) (lift (NewAddress (i_EmailAddress record)));
  map_err (λ e, if errors_Is e ErrSenderDomainNotAllowed then ErrAuthenticationFailed else e)
    (requireSenderDomainForIdentity (i_OwnerEmail record) (Domain address));;
  now ← clock;
  markAuthenticatedIdentityUsed record now;;
  mret (MkAuthenticated (i_ID record) address (i_Username record)).
End repository.
