(* ===== verification/IdentityProofs.v ===== *)
(** Proofs about SMTP identities: the invariant of the identity tables, who can
    authenticate, what creating, rotating and deleting a credential do, where
    inbound mail is forwarded, and the isolation of owners. *)
From S2P Require Import Prelude GoStrings Address Base64 Crypto Gorm Identity.
Open Scope Z_scope.

(** * Lemmas *)

(** The rows kept when an identity's recipients are deleted. *)
Definition without (id : string) (F : list ForwardRecipient) : list ForwardRecipient :=
  List.filter (λ f, negb (bool_decide (f_IdentityID f = id))) F.

Section lemmas.
Context `{U : Unicode} `{M : NetMail} `{K : Crypto}.
Context {SI SF SD E : Type}.
Context `{TI : Table SI Identity} `{TF : Table SF ForwardRecipient} `{TD : Table SD SenderDomain}.
Context `{LI : !TableLaws SI Identity} `{LF : !TableLaws SF ForwardRecipient} `{LD : !TableLaws SD SenderDomain}.
Context `{Env : Environment E}.
Context (key : string) (Commit : SI → SF → SD → result unit).
Implicit Types w : world SI SF SD E.

(** What the tables hold. *)
Definition idents w : list Identity := rows (w_identities w).
Definition fwds w : list ForwardRecipient := rows (w_forwards w).
Definition doms w : list SenderDomain := rows (w_domains w).
Definition view w : list Identity * list ForwardRecipient * list SenderDomain := (idents w, fwds w, doms w).

Lemma on_env_inv {A} (m : eff E A) w w' r : on_env m w = (w', r) →
  view w' = view w ∧ ∃ e, m (w_env w) = (e, r).
Proof. unfold on_env. intros (v & H & ->)%zoom_inv. eauto. Qed.

Lemma clock_inv w w' r : clock w = (w', r) → view w' = view w ∧ ∃ t, r = Ok t.
Proof.
  unfold clock. intros [Hv (e & H)]%on_env_inv. split; [done|]. destruct (clockFunc (w_env w)). injection H as _ <-. eauto.
Qed.

Lemma identity_First_inv p w w' r :
  on_identities (First p) w = (w', r) → view w' = view w ∧
  match r with
  | Ok x => x ∈ idents w ∧ p x = true
  | Err e => errors_Is e ErrRecordNotFound = true → ∀ x, x ∈ idents w → p x = false
  end.
Proof.
  intros (v & H & ->)%zoom_inv. apply First_law in H as [Hr H]. unfold view, idents, fwds, doms. simpl.
  rewrite Hr. split; [done|]. destruct r as [x|e]; [by apply find_Some_spec|].
  intros He x. by apply find_None_spec, H.
Qed.

Lemma domain_First_inv p w w' r :
  on_domains (First p) w = (w', r) → view w' = view w ∧
  match r with
  | Ok x => x ∈ doms w ∧ p x = true
  | Err e => errors_Is e ErrRecordNotFound = true → ∀ x, x ∈ doms w → p x = false
  end.
Proof.
  intros (v & H & ->)%zoom_inv. apply First_law in H as [Hr H]. unfold view, idents, fwds, doms. simpl.
  rewrite Hr. split; [done|]. destruct r as [x|e]; [by apply find_Some_spec|].
  intros He x. by apply find_None_spec, H.
Qed.

Lemma requireSenderDomain_inv scope domain w w' r :
  requireSenderDomainForScope scope domain w = (w', r) → view w' = view w ∧
  (r = Ok tt → ∃ d, d ∈ doms w ∧ domain_allows scope (ToLower (TrimSpace domain)) d = true).
Proof.
  unfold requireSenderDomainForScope. intros H.
  apply eff_bind_inv in H as [(e & H & ->)|(w1 & d & H & [= <- <-])];
    apply map_err_inv in H as (x & H & Hx); apply domain_First_inv in H as [Hv Hd]; (split; [done|]); [done|].
  intros _. destruct x as [d'|]; simplify_eq. eauto.
Qed.

Lemma requireIdentity_inv scope identityID w w' r :
  requireIdentityForScope scope identityID w = (w', r) → view w' = view w ∧
  ∀ i, r = Ok i → i ∈ idents w ∧ i_Status i = IdentityStatusActive ∧
    owner_scope scope (i_OwnerEmail i) = true ∧
    (TrimSpace identityID ≠ ""%string → i_ID i = TrimSpace identityID).
Proof.
  intros H. apply map_err_inv in H as (x & H & ->). apply identity_First_inv in H as [Hv H].
  split; [done|]. intros i Hi. destruct x as [i'|e]; [|done]. injection Hi as ->.
  destruct H as [Hin Hp]. to_prop. split_and!; [done| |done|].
  - by apply whereField_eq.
  - intros Hne. by apply whereField_eq.
Qed.

(** ** Changes of the identities table *)
Lemma identity_Save_inv x w w' r :
  i_ID x ∈ (i_ID <$> idents w) → on_identities (Save x) w = (w', r) →
  match r with
  | Ok y => (∃ t, y = i_touch x t) ∧
      view w' = ((λ z, if bool_decide (i_ID x = i_ID z) then y else z) <$> idents w, fwds w, doms w) ∧
      Forall (λ z, i_ID z ≠ i_ID x → i_EmailAddress z ≠ i_EmailAddress x ∧ i_Username z ≠ i_Username x) (idents w)
  | Err _ => view w' = view w
  end.
Proof.
  intros Hin (v & H & ->)%zoom_inv. apply Save_law in H.
  - unfold view, idents, fwds, doms in *. simpl. destruct r as [y|]; [|by rewrite H].
    destruct H as ((Ht & Hu) & Hr). rewrite Hr. done.
  - apply list_elem_of_fmap in Hin as (z & Hz & Hzin).
    apply existsb_exists. exists z. split; [by apply list_elem_of_In|]. by apply bool_decide_true.
Qed.

Lemma transaction_inv {A} (f : eff (world SI SF SD E) A) w w' r :
  transaction Commit f w = (w', r) →
  match r with Ok a => f w = (w', Ok a) | Err _ => view w' = view w end.
Proof.
  unfold transaction. destruct (f w) as [w1 [a|e]]; [|by intros [= <- <-]].
  destruct (Commit _ _ _); by intros [= <- <-].
Qed.

(** ** Forwarding rows *)
Lemma new_forwards_spec identityID forwardTo now (e : E) :
  let records := (new_forwards identityID forwardTo now e).2 in
  f_EmailAddress <$> records = String_ <$> forwardTo ∧ Forall (λ f, f_IdentityID f = identityID) records.
Proof.
  revert e. induction forwardTo as [|a forwardTo IH]; intros e; simpl; [done|].
  destruct (uuid_NewString e) as [e1 id]. specialize (IH e1).
  destruct (new_forwards identityID forwardTo now e1) as [e2 records]. simpl in *. destruct IH as [IH1 IH2].
  csimpl. split; [by f_equal|by constructor].
Qed.

Lemma forwardRecipientRecords_inv identityID forwardTo now w w' r :
  forwardRecipientRecords identityID forwardTo now w = (w', r) → view w' = view w ∧
  ∃ records, r = Ok records ∧ f_EmailAddress <$> records ≡ₚ String_ <$> forwardTo ∧
    Forall (λ f, f_IdentityID f = identityID) records.
Proof.
  unfold forwardRecipientRecords. intros [Hv (e & H)]%on_env_inv. split; [done|].
  pose proof (new_forwards_spec identityID forwardTo now (w_env w)) as [H1 H2].
  destruct (new_forwards _ _ _ _) as [e1 records]. simpl in *. injection H as _ <-.
  pose proof (merge_sort_Permutation (holds email_le) records) as Hp.
  eexists. split; [done|]. split; [by rewrite <- H1; apply fmap_Permutation|].
  unfold sorted_by. by rewrite Hp.
Qed.

Lemma create_all_inv records w w' r :
  for_each (λ record, on_forwards (Create record);; mret ()) records w = (w', r) →
  idents w' = idents w ∧ doms w' = doms w ∧ (r = Ok tt → fwds w' ≡ₚ records ++ fwds w).
Proof.
  revert w. induction records as [|record records IH]; intros w H; [by injection H as <- <-|].
  cbn [for_each] in H. apply eff_bind_inv in H as [(e & H & ->)|(w1 & [] & H & Hrest)].
  - apply eff_bind_inv in H as [(e' & (v & H & ->)%zoom_inv & _)|(w1 & y & _ & [=])]. done.
  - apply eff_bind_inv in H as [(e' & _ & [=])|(w2 & y & (v & H & ->)%zoom_inv & [= <-])].
    apply Create_law in H as [[-> _] Hr]. apply IH in Hrest as (H1 & H2 & H3).
    split_and!; [done..|]. intros Hok. rewrite (H3 Hok). unfold fwds at 1. simpl. rewrite Hr. simpl.
    rewrite insert_by_perm. by rewrite Permutation_middle.
Qed.

Lemma createForwardRecipients_inv identityID forwardTo now w w' :
  createForwardRecipients identityID forwardTo now w = (w', Ok tt) →
  idents w' = idents w ∧ doms w' = doms w ∧ ∃ records, fwds w' ≡ₚ records ++ fwds w ∧
    f_EmailAddress <$> records ≡ₚ String_ <$> forwardTo ∧ Forall (λ f, f_IdentityID f = identityID) records.
Proof.
  unfold createForwardRecipients. intros (w1 & records & H1 & H)%eff_bind_Ok.
  apply forwardRecipientRecords_inv in H1 as ([= Hi Hf Hd] & records' & [= <-] & Hp & Hall).
  apply map_err_inv in H as (x & H & Hx). destruct x as [[]|]; [|done].
  destruct records as [|record records]; [done|].
  apply create_all_inv in H as (H1 & H2 & H3). rewrite H1, H2, Hi, Hd.
  split_and!; [done..|]. eexists. split; [by rewrite (H3 eq_refl), Hf|done].
Qed.

Lemma deleteForwardRecipients_inv context identityID w w' :
  identityID ≠ ""%string → deleteForwardRecipients context identityID w = (w', Ok tt) →
  view w' = (idents w, without identityID (fwds w), doms w).
Proof.
  intros Hne H. apply map_err_inv in H as (x & (v & H & ->)%zoom_inv & Hx). destruct x as [[]|]; [|done].
  apply Delete_law in H. unfold view, idents, fwds, doms. simpl. rewrite H. do 2 f_equal.
  apply List.filter_ext. intros f. unfold whereField. by rewrite (bool_decide_false _ Hne).
Qed.
End lemmas.

(** * Well-formed tables *)
Definition routes (identityID : string) (l : list ForwardRecipient) : list ForwardRecipient :=
  List.filter (λ f, bool_decide (f_IdentityID f = identityID)) l.

(** An address that reads back as itself, as those from [NewAddress] do. *)
Definition canonical `{U : Unicode} `{M : NetMail} (a : Address) : Prop := NewAddress (String_ a) = Ok a.

(** At least one recipient, none twice, none blank, and not the address itself. *)
Definition good_routes (email : string) (l : list string) : Prop :=
  l ≠ [] ∧ NoDup l ∧ email ∉ l ∧ ""%string ∉ l.

#[export] Instance good_routes_proper email : Proper ((≡ₚ) ==> iff) (good_routes email).
Proof.
  intros l k H. unfold good_routes.
  assert (l ≠ [] ↔ k ≠ []) as ->.
  { split; intros Hne ->; apply Hne; [by apply Permutation_nil_r in H|by apply Permutation_nil_l in H]. }
  by setoid_rewrite H.
Qed.

Lemma check_recipients_spec seen forwardTo :
  check_recipients seen forwardTo = Ok tt →
  NoDup (String_ <$> forwardTo) ∧ ""%string ∉ (String_ <$> forwardTo) ∧
  (∀ x, x ∈ String_ <$> forwardTo → x ∉ seen).
Proof.
  revert seen. induction forwardTo as [|a l IH]; intros seen; csimpl.
  { intros _. split_and!; [constructor|by intros ?%elem_of_nil|by intros x ?%elem_of_nil]. }
  rewrite bind_Ok. intros ([] & H1 & H). apply guard_err_Ok in H1. to_prop.
  apply bind_Ok in H as ([] & H2 & H). apply guard_err_Ok in H2. to_prop.
  apply IH in H as (Hnd & Hne & Hseen).
  split_and!.
  - constructor; [|done]. intros Hin. apply (Hseen _ Hin). set_solver.
  - rewrite not_elem_of_cons. done.
  - intros x [->|Hx]%elem_of_cons; [done|]. specialize (Hseen x Hx). set_solver.
Qed.

Lemma validated_routes forwardTo address :
  validateForwardRecipients forwardTo = Ok tt → validateForwardRecipientTarget address forwardTo = Ok tt →
  good_routes (String_ address) (String_ <$> forwardTo).
Proof.
  intros H1 H2. unfold validateForwardRecipients in H1.
  assert (forwardTo ≠ []) as Hne by (by intros ->).
  assert (check_recipients ∅ forwardTo = Ok tt) as (Hnd & Hb & _)%check_recipients_spec by (by destruct forwardTo).
  split_and!; [by destruct forwardTo|done| |done]. clear -H2.
  induction forwardTo as [|a l IH]; [by intros ?%elem_of_nil|]. csimpl in H2.
  apply bind_Ok in H2 as ([] & Ha%guard_err_Ok & H2). csimpl. rewrite not_elem_of_cons.
  split; [|by apply IH]. intros Heq. unfold Equals in Ha. to_prop. by apply Ha.
Qed.

Section wf.
Context `{U : Unicode} `{M : NetMail}.

Record wf_tables (I : list Identity) (F : list ForwardRecipient) : Prop := {
  wf_ids : NoDup (i_ID <$> I);
  wf_emails : NoDup (i_EmailAddress <$> I);
  wf_usernames : NoDup (i_Username <$> I);
  wf_rows : Forall (λ i, i_ID i ≠ ""%string ∧ (∃ a, canonical a ∧ String_ a = i_EmailAddress i) ∧
                         good_routes (i_EmailAddress i) (f_EmailAddress <$> routes (i_ID i) F)) I;
  wf_fk : Forall (λ f, f_IdentityID f ∈ (i_ID <$> I)) F;
}.

Lemma routes_perm id F F' : F ≡ₚ F' → routes id F ≡ₚ routes id F'.
Proof. unfold routes. induction 1; simpl; repeat case_match; eauto using Permutation. Qed.

Lemma wf_perm I I' F F' : I ≡ₚ I' → F ≡ₚ F' → wf_tables I F → wf_tables I' F'.
Proof.
  intros HI HF [H1 H2 H3 H4 H5]. split.
  - by rewrite <- HI.
  - by rewrite <- HI.
  - by rewrite <- HI.
  - rewrite <- HI. eapply Forall_impl; [exact H4|]. intros i (Hi & Ha & Hr). split_and!; [done..|].
    rewrite <- (fmap_Permutation f_EmailAddress _ _ (routes_perm (i_ID i) _ _ HF)). done.
  - rewrite <- HF. eapply Forall_impl; [exact H5|]. intros f Hf. by rewrite <- HI.
Qed.

(** A change of rows that keeps the unique columns. *)
Lemma wf_map (g : Identity → Identity) I F :
  (∀ i, i ∈ I → i_ID (g i) = i_ID i ∧ i_EmailAddress (g i) = i_EmailAddress i) →
  NoDup (i_Username <$> (g <$> I)) → wf_tables I F → wf_tables (g <$> I) F.
Proof.
  intros Hg Hu [H1 H2 H3 H4 H5].
  assert (i_ID <$> (g <$> I) = i_ID <$> I) as Eid.
  { rewrite <- list_fmap_compose. apply list_fmap_ext. intros k i Hi%list_elem_of_lookup_2. by apply Hg. }
  assert (i_EmailAddress <$> (g <$> I) = i_EmailAddress <$> I) as Eem.
  { rewrite <- list_fmap_compose. apply list_fmap_ext. intros k i Hi%list_elem_of_lookup_2. by apply Hg. }
  split; rewrite ?Eid, ?Eem; try done.
  apply Forall_forall. intros i' (i & -> & Hi)%list_elem_of_fmap. destruct (Hg i Hi) as [-> ->].
  rewrite Forall_forall in H4. by apply H4.
Qed.

(** Replacing the row with a key. *)
Definition replace_row (x y z : Identity) : Identity := if bool_decide (i_ID x = i_ID z) then y else z.

Lemma wf_replace I F x y :
  wf_tables I F → x ∈ I → i_ID y = i_ID x → i_EmailAddress y = i_EmailAddress x →
  Forall (λ z, i_ID z ≠ i_ID x → i_Username z ≠ i_Username y) I →
  wf_tables (replace_row x y <$> I) F.
Proof.
  intros Hwf Hx Hid Hem Hu. apply wf_map; [|clear Hem|done].
  - intros z Hz. unfold replace_row. case_bool_decide as E; [|done].
    assert (z = x) as -> by by apply (NoDup_fmap_inj_on i_ID I); [apply Hwf|..]. done.
  - destruct Hwf as [Hids _ Hus _ _]. clear Hx. induction I as [|z I IH]; csimpl; [constructor|].
    csimpl in Hids. csimpl in Hus. apply NoDup_cons in Hids as [Hz Hids]. apply NoDup_cons in Hus as [Huz Hus].
    apply Forall_cons in Hu as [Hzu Hu]. constructor; [|by apply IH].
    intros (i & Heq & (z' & -> & Hz')%list_elem_of_fmap)%list_elem_of_fmap. rewrite Forall_forall in Hu.
    unfold replace_row in Heq.
    assert (i_ID z ≠ i_ID z') by (intros E; apply Hz; rewrite E; by apply list_elem_of_fmap_2).
    repeat case_bool_decide.
    + congruence.
    + apply (Hu z' Hz'); congruence.
    + apply Hzu; congruence.
    + apply Huz. rewrite Heq. by apply list_elem_of_fmap_2.
Qed.

Lemma replace_row_other x y (I : list Identity) i :
  i_ID y = i_ID x → i_ID i ≠ i_ID x → i ∈ I ↔ i ∈ replace_row x y <$> I.
Proof.
  intros Hy Hne. split.
  - intros Hin. apply list_elem_of_fmap. exists i. split; [|done]. unfold replace_row.
    rewrite bool_decide_false; congruence.
  - intros (z & -> & Hz)%list_elem_of_fmap. unfold replace_row in *. by case_bool_decide.
Qed.

Lemma routes_app id F F' : routes id (F ++ F') = routes id F ++ routes id F'.
Proof. apply List.filter_app. Qed.
Lemma routes_all id F : Forall (λ f, f_IdentityID f = id) F → routes id F = F.
Proof. intros H. apply filter_all. eapply Forall_impl; [exact H|]. intros f ->. by apply bool_decide_true. Qed.
Lemma routes_other id id' F : Forall (λ f, f_IdentityID f = id') F → id ≠ id' → routes id F = [].
Proof.
  intros H Hne. apply filter_none. eapply Forall_impl; [exact H|]. intros f ->. apply bool_decide_false. congruence.
Qed.

Lemma routes_without id F : routes id (without id F) = [].
Proof.
  apply filter_none, Forall_forall. intros f [_ Hf]%list_elem_of_filter_bool.
  apply bool_decide_false. by to_prop.
Qed.
Lemma routes_without_other id id' F : id ≠ id' → routes id (without id' F) = routes id F.
Proof.
  intros Hne. unfold routes, without. induction F as [|f F IH]; [done|]. simpl.
  destruct (bool_decide (f_IdentityID f = id')) eqn:E; simpl; rewrite IH; [|done].
  to_prop. rewrite bool_decide_false; [done|congruence].
Qed.

(** A new set of recipients for one identity. *)
Lemma wf_reroute I F x records F' :
  wf_tables I F → x ∈ I → F' ≡ₚ records ++ without (i_ID x) F →
  Forall (λ f, f_IdentityID f = i_ID x) records → good_routes (i_EmailAddress x) (f_EmailAddress <$> records) →
  wf_tables I F'.
Proof.
  intros Hwf Hx HF Hrec Hgood. apply (wf_perm I I (records ++ without (i_ID x) F) F'); [done|by symmetry|].
  destruct Hwf as [H1 H2 H3 H4 H5]. split; [done..| |].
  - apply Forall_forall. intros i Hi. rewrite Forall_forall in H4. destruct (H4 i Hi) as (Hne & Ha & Hr).
    split_and!; [done..|]. rewrite routes_app. destruct (decide (i_ID i = i_ID x)) as [E|E].
    + assert (i = x) as -> by by apply (NoDup_fmap_inj_on i_ID I).
      by rewrite routes_without, app_nil_r, routes_all.
    + rewrite routes_without_other by done. by rewrite (routes_other _ (i_ID x)).
  - apply Forall_app. split.
    + eapply Forall_impl; [exact Hrec|]. intros f ->. by apply list_elem_of_fmap_2.
    + apply Forall_forall. intros f [Hf _]%list_elem_of_filter_bool. rewrite Forall_forall in H5. by apply H5.
Qed.

(** A new identity with its recipients. *)
Lemma wf_insert I F x a records F' :
  wf_tables I F → i_ID x ≠ ""%string → canonical a → String_ a = i_EmailAddress x →
  Forall (λ r, i_ID r ≠ i_ID x ∧ i_EmailAddress r ≠ i_EmailAddress x ∧ i_Username r ≠ i_Username x) I →
  F' ≡ₚ records ++ F → Forall (λ f, f_IdentityID f = i_ID x) records →
  good_routes (i_EmailAddress x) (f_EmailAddress <$> records) →
  wf_tables (x :: I) F'.
Proof.
  intros Hwf Hne Ha Hem Hnew HF Hrec Hgood.
  apply (wf_perm (x :: I) (x :: I) (records ++ F) F'); [done|by symmetry|].
  destruct Hwf as [H1 H2 H3 H4 H5]. rewrite Forall_forall in Hnew; rewrite Forall_forall in H4; rewrite Forall_forall in H5.
  assert (routes (i_ID x) F = []) as Hno.
  { apply filter_none, Forall_forall. intros f Hf. apply bool_decide_false. intros E.
    specialize (H5 f Hf). rewrite E in H5. apply list_elem_of_fmap in H5 as (r & Hr & Hin).
    destruct (Hnew r Hin) as (? & ? & ?); congruence. }
  split; csimpl.
  - constructor; [|done]. intros (r & Hr & Hin)%list_elem_of_fmap. destruct (Hnew r Hin) as (? & ? & ?); congruence.
  - constructor; [|done]. intros (r & Hr & Hin)%list_elem_of_fmap. destruct (Hnew r Hin) as (? & ? & ?); congruence.
  - constructor; [|done]. intros (r & Hr & Hin)%list_elem_of_fmap. destruct (Hnew r Hin) as (? & ? & ?); congruence.
  - constructor.
    + split_and!; [done|eauto|]. by rewrite routes_app, Hno, app_nil_r, routes_all.
    + apply Forall_forall. intros i Hi. destruct (H4 i Hi) as (? & ? & ?). split_and!; [done..|].
      rewrite routes_app, (routes_other _ (i_ID x)); [done..|]. by destruct (Hnew i Hi).
  - apply Forall_app. split.
    + eapply Forall_impl; [exact Hrec|]. intros f ->. by left.
    + apply Forall_forall. intros f Hf. right. by apply H5.
Qed.
End wf.

(** * Operations on well-formed tables *)
Lemma TrimSpace_plain_app s t :
  Forall (λ c, plain_ascii c = true) (explode s) → Forall (λ c, plain_ascii c = true) (explode t) →
  TrimSpace (s ++ t) = (s ++ t)%string.
Proof. intros Hs Ht. apply TrimSpace_plain. autorewrite with gostr. by apply Forall_app. Qed.

Lemma encoded_plain s : Forall (λ c, plain_ascii c = true) (explode (EncodeToString RawURLEncoding s)).
Proof. unfold EncodeToString. autorewrite with gostr. apply encode_plain. by right. Qed.

Section operations.
Context `{U : Unicode} `{M : NetMail} `{K : Crypto}.
Context {SI SF SD E : Type}.
Context `{TI : Table SI Identity} `{TF : Table SF ForwardRecipient} `{TD : Table SD SenderDomain}.
Context `{LI : !TableLaws SI Identity} `{LF : !TableLaws SF ForwardRecipient} `{LD : !TableLaws SD SenderDomain}.
Context `{Env : Environment E} `{EL : !EnvironmentLaws E}.
Context (key : string) (Commit : SI → SF → SD → result unit).
Implicit Types w : world SI SF SD E.

Definition wf w : Prop := wf_tables (idents w) (fwds w).

(** What a credential is good for: its user name is read back as it is, and the
    stored digest and cipher text belong to its password. *)
Definition good_credential (username password salt stored cipher : string) : Prop :=
  TrimSpace username = username ∧ username ≠ ""%string ∧ TrimSpace password ≠ ""%string ∧
  digest key salt password = stored ∧ decryptPassword key cipher = Ok password.

Lemma newCredential_inv (e e' : E) c :
  newCredential key e = (e', Ok c) →
  good_credential (c_username c) (c_password c) (c_salt c) (c_digest c) (c_cipher c).
Proof.
  unfold newCredential. intros (e1 & u & Hu & H)%eff_bind_Ok.
  apply eff_bind_Ok in H as (e2 & p & Hp & H). apply eff_bind_Ok in H as (e3 & salt & _ & H).
  apply eff_bind_Ok in H as (e4 & cipher & Hc & [= _ <-]). simpl.
  apply eff_bind_Ok in Hu as (? & u' & _ & [= _ <-]). apply eff_bind_Ok in Hp as (? & p' & _ & [= _ <-]).
  apply map_err_inv in Hc as ([y|] & Hc & Hy); [|done]. injection Hy as <-.
  unfold encryptPassword in Hc. apply eff_bind_Ok in Hc as (e5 & [] & Hk & Hc).
  apply eff_bind_Ok in Hc as (e6 & nonce & Hn & [= _ <-]).
  injection Hk as _ Hk. apply io_ReadFull_length in Hn.
  split_and!; [|done| |done|].
  - apply (TrimSpace_plain_app "smtp_"); [by repeat constructor|apply encoded_plain].
  - rewrite (TrimSpace_plain_app "pgsmtp_"); [done|by repeat constructor|apply encoded_plain].
  - unfold decryptPassword. rewrite Hk. destruct (sealed_nonce nonce (gcm_Seal key nonce ("pgsmtp_" ++ EncodeToString RawURLEncoding p')) Hn)
      as (-> & -> & ->). simpl. apply gcm_roundtrip.
Qed.

Lemma find_existing_inv address w w' r :
  String_ address ≠ ""%string → find_existing address w = (w', r) → view w' = view w ∧
  ∀ i, r = Ok (Some i) → i ∈ idents w ∧ i_EmailAddress i = String_ address ∧ i_Status i ≠ IdentityStatusActive.
Proof.
  intros Hne H. unfold find_existing in H.
  apply eff_bind_inv in H as [(e & H & ->)|(w1 & x & H & Hr)]; apply try_eff_inv in H as (y & Hy & H);
    apply identity_First_inv in H as [Hv H]; [done|]. injection Hy as ->. injection Hr as <- <-.
  split; [done|]. intros i Hi. destruct y as [i'|e]; [|by destruct (errors_Is e _)].
  case_decide; [done|]. injection Hi as ->. destruct H as [Hin Hp].
  split_and!; [done| |done]. by apply whereField_eq.
Qed.

(** The state a successful creation leaves: an active row with this address and
    owner, a good credential, the recipients asked for, and nothing else changed
    for other identities. *)
Definition created (scope : AccessScope) (address : Address) (forwardTo : list Address) w w'
    (record : Identity) (password : string) : Prop :=
  record ∈ idents w' ∧ i_Status record = IdentityStatusActive ∧ i_EmailAddress record = String_ address ∧
  i_OwnerEmail record = normalizeOwnerEmail (OwnerEmail scope) ∧
  good_credential (i_Username record) password (i_PasswordSalt record) (i_PasswordDigest record)
    (i_PasswordCipher record) ∧
  (f_EmailAddress <$> routes (i_ID record) (fwds w')) ≡ₚ (String_ <$> forwardTo) ∧
  doms w' = doms w ∧
  (∀ i, i_ID i ≠ i_ID record →
     (i ∈ idents w ↔ i ∈ idents w') ∧ routes (i_ID i) (fwds w') ≡ₚ routes (i_ID i) (fwds w)) ∧
  (∀ i, i ∈ idents w → i_ID i = i_ID record → i_Status i ≠ IdentityStatusActive).

Lemma reactivate_inv scope address forwardTo existing c now w w' record :
  wf w → existing ∈ idents w → i_EmailAddress existing = String_ address →
  i_Status existing ≠ IdentityStatusActive →
  good_routes (String_ address) (String_ <$> forwardTo) →
  good_credential (c_username c) (c_password c) (c_salt c) (c_digest c) (c_cipher c) →
  (let record := i_with_credential existing (normalizeOwnerEmail (OwnerEmail scope)) (c_username c) (c_salt c)
                   (c_digest c) (c_cipher c) IdentityStatusActive None now in
   deleteForwardRecipients "smtp identity create: reset forwarding: %w" (i_ID record);;
   saved ← map_err (Wrapf "smtp identity create: reactivate: %w" []) (on_identities (Save record));
   createForwardRecipients (i_ID saved) forwardTo now;;
   mret saved) w = (w', Ok record) →
  wf w' ∧ created scope address forwardTo w w' record (c_password c).
Proof.
  intros Hwf Hex Hem Hdead Hgood Hcred. cbv zeta. intros (w1 & [] & Hdel & H)%eff_bind_Ok.
  assert (i_ID existing ≠ ""%string) as Hid.
  { destruct Hwf as [_ _ _ Hr _]. rewrite Forall_forall in Hr. by apply Hr. }
  apply deleteForwardRecipients_inv in Hdel; [|done]. injection Hdel as Hi1 Hf1 Hd1.
  apply eff_bind_Ok in H as (w2 & saved & Hs & H). apply map_err_inv in Hs as ([y|] & Hs & Hy); [|done].
  injection Hy as ->. apply identity_Save_inv in Hs; [|simpl; rewrite Hi1; by apply list_elem_of_fmap_2].
  destruct Hs as ((t & ->) & [= Hi2 Hf2 Hd2] & Huniq).
  apply eff_bind_Ok in H as (w3 & [] & Hc & [= <- <-]).
  apply createForwardRecipients_inv in Hc as (Hi3 & Hd3 & records & Hf3 & Hrec & Hall).
  rewrite Hf2, Hf1 in Hf3. rewrite Hi2, Hi1 in Hi3. simpl in *. rewrite Hi1 in Huniq.
  set (y := i_touch _ t) in *.
  assert (wf_tables (replace_row existing y <$> idents w) (fwds w)) as Hwf2.
  { apply wf_replace; [done..|]. eapply Forall_impl; [exact Huniq|]. simpl. intros z Hz Hne. by apply Hz. }
  assert (y ∈ replace_row existing y <$> idents w) as Hyin.
  { apply list_elem_of_fmap. exists existing. split; [|done]. unfold replace_row. by rewrite bool_decide_true. }
  split.
  - unfold wf. rewrite Hi3. eapply (wf_reroute _ (fwds w) y); [exact Hwf2|done|exact Hf3|done|].
    simpl. rewrite Hem. by rewrite Hrec.
  - unfold created. rewrite Hi3. split_and!; [done..| |congruence| |].
    + rewrite (routes_perm _ _ _ Hf3), routes_app. subst y. simpl.
      by rewrite routes_without, app_nil_r, routes_all.
    + intros i Hne. subst y. simpl in Hne. split; [by apply replace_row_other|].
      rewrite (routes_perm _ _ _ Hf3), routes_app, (routes_other (i_ID i) (i_ID existing)) by done.
      by rewrite routes_without_other.
    + intros i Hi Heq. assert (i = existing) as ->; [|done].
      by apply (NoDup_fmap_inj_on i_ID (idents w)); [apply Hwf|..].
Qed.

Lemma insert_inv scope address forwardTo id c now w w' record :
  wf w → id ≠ ""%string → canonical address →
  good_routes (String_ address) (String_ <$> forwardTo) →
  good_credential (c_username c) (c_password c) (c_salt c) (c_digest c) (c_cipher c) →
  (let record := MkIdentity id (normalizeOwnerEmail (OwnerEmail scope)) (String_ address) (c_username c)
                   (c_salt c) (c_digest c) (c_cipher c) IdentityStatusActive None now now in
   created ← map_err (Wrapf "smtp identity create: %w" []) (on_identities (Create record));
   createForwardRecipients (i_ID created) forwardTo now;;
   mret created) w = (w', Ok record) →
  wf w' ∧ created scope address forwardTo w w' record (c_password c).
Proof.
  intros Hwf Hid Hcan Hgood Hcred. cbv zeta. intros (w1 & y & Hc & H)%eff_bind_Ok.
  apply map_err_inv in Hc as ([y'|] & Hc & Hy); [|done]. injection Hy as <-.
  apply zoom_inv in Hc as (v & Hc & ->). apply Create_law in Hc as ((-> & Hnew) & Hr).
  apply eff_bind_Ok in H as (w3 & [] & Hf & [= <- <-]).
  apply createForwardRecipients_inv in Hf as (Hi3 & Hd3 & records & Hf3 & Hrec & Hall).
  set (y := MkIdentity _ _ _ _ _ _ _ _ _ _ _) in *. unfold fwds, idents in Hf3, Hi3. simpl in Hf3, Hi3.
  fold (fwds w) (fwds w3) (idents w3) in *. rewrite Hr in Hi3.
  assert (wf_tables (y :: idents w) (fwds w3)) as Hwf'.
  { eapply (wf_insert _ _ y address); [exact Hwf|done|done|done|exact Hnew|exact Hf3|done|]. simpl. by rewrite Hrec. }
  assert (idents w3 ≡ₚ y :: idents w) as Hperm by (rewrite Hi3; apply insert_by_perm).
  split; [by eapply wf_perm; [symmetry; exact Hperm|reflexivity|]|].
  unfold created. rewrite Hperm. rewrite Forall_forall in Hnew.
  split_and!; [by left|done..| |done| |].
  - rewrite (routes_perm _ _ _ Hf3), routes_app, routes_all by done.
    assert (routes (i_ID y) (fwds w) = []) as ->; [|by rewrite app_nil_r].
    apply filter_none, Forall_forall. intros f Hin. apply bool_decide_false. intros E1.
    destruct Hwf as [_ _ _ _ Hfk]. rewrite Forall_forall in Hfk. specialize (Hfk f Hin). rewrite E1 in Hfk.
    apply list_elem_of_fmap in Hfk as (z & Hz & Hzin). by destruct (Hnew z Hzin).
  - intros i Hne. rewrite Hperm, elem_of_cons. split; [naive_solver|].
    by rewrite (routes_perm _ _ _ Hf3), routes_app, (routes_other (i_ID i) (i_ID y)).
  - intros i Hi Heq. by destruct (Hnew i Hi).
Qed.

Lemma store_identity_inv scope address forwardTo existing c now w w' r :
  wf w → canonical address → (∀ i, existing = Some i → i ∈ idents w ∧ i_EmailAddress i = String_ address ∧
    i_Status i ≠ IdentityStatusActive) →
  good_routes (String_ address) (String_ <$> forwardTo) →
  good_credential (c_username c) (c_password c) (c_salt c) (c_digest c) (c_cipher c) →
  store_identity Commit scope address forwardTo existing c now w = (w', r) →
  match r with
  | Ok record => wf w' ∧ created scope address forwardTo w w' record (c_password c)
  | Err _ => view w' = view w
  end.
Proof.
  intros Hwf Hcan Hex Hgood Hcred H. destruct existing as [i|]; simpl in H.
  - destruct (Hex i eq_refl) as (Hin & Hem & Hdead). apply transaction_inv in H. destruct r; [|done].
    by eapply reactivate_inv.
  - apply eff_bind_inv in H as [(e & H & ->)|(w1 & id & H1 & H)]; [by apply on_env_inv in H as [? _]|].
    apply on_env_inv in H1 as [V (v & Hid)].
    pose proof (uuid_nonempty (w_env w)) as Hne. destruct (uuid_NewString (w_env w)). simpl in Hne.
    injection Hid as _ <-. apply transaction_inv in H. destruct r as [record|]; [|by rewrite H].
    injection V as Vi Vf Vd. apply insert_inv in H as [? Hc]; try done.
    + split; [done|]. unfold created in *. by rewrite <- Vi, <- Vd, <- Vf.
    + unfold wf. by rewrite Vi, Vf.
Qed.

Lemma CreateForScope_inv scope address forwardTo w w' r :
  wf w → canonical address → CreateForScope key Commit scope address forwardTo w = (w', r) →
  match r with
  | Ok (public, password) => wf w' ∧ ∃ record records,
      created scope address forwardTo w w' record password ∧
      public = publicIdentity record records ∧ (f_EmailAddress <$> records) ≡ₚ (String_ <$> forwardTo) ∧
      ∃ d, d ∈ doms w ∧ domain_allows scope (ToLower (TrimSpace (Domain address))) d = true
  | Err _ => view w' = view w
  end.
Proof.
  intros Hwf Hcan H. unfold CreateForScope in H. pose proof (NewAddress_nonempty _ _ Hcan) as Hne.
  apply eff_bind_inv in H as [(e & H & ->)|(w1 & [] & H1 & H)].
  { by apply requireSenderDomain_inv in H as [-> _]. }
  apply requireSenderDomain_inv in H1 as [V1 (d & Hd & Hallow)%(λ f, f eq_refl)].
  apply eff_bind_inv in H as [(e & [= <- _] & ->)|(w2 & [] & [= <- Hv1] & H)]; [done|].
  apply eff_bind_inv in H as [(e & [= <- _] & ->)|(w3 & [] & [= <- Hv2] & H)]; [done|].
  pose proof (validated_routes _ _ Hv1 Hv2) as Hgood.
  apply eff_bind_inv in H as [(e & H & ->)|(w4 & existing & H1 & H)].
  { by apply find_existing_inv in H as [-> _]. }
  apply find_existing_inv in H1 as [V4 Hex]; [|done]. rewrite V1 in V4.
  apply eff_bind_inv in H as [(e & H & ->)|(w5 & c & H1 & H)]; [by apply on_env_inv in H as [-> _]|].
  apply on_env_inv in H1 as [V5 (v & Hcred%newCredential_inv)]. rewrite V4 in V5.
  apply eff_bind_inv in H as [(e & H & ->)|(w6 & now & H1 & H)]; [by apply clock_inv in H as [-> _]|].
  apply clock_inv in H1 as [V6 _]. rewrite V5 in V6. injection V6 as Vi Vf Vd. injection V1 as Ui Uf Ud.
  assert (wf w6) as Hwf6 by (unfold wf; by rewrite Vi, Vf).
  assert (∀ i, existing = Some i → i ∈ idents w6 ∧ i_EmailAddress i = String_ address ∧
    i_Status i ≠ IdentityStatusActive) as Hex6.
  { intros i ->. rewrite Vi, <- Ui. by apply Hex. }
  apply eff_bind_inv in H as [(e & H & ->)|(w7 & record & H1 & H)].
  { apply store_identity_inv in H; [|done..]. rewrite H. unfold view. by rewrite Vi, Vf, Vd. }
  apply store_identity_inv in H1 as [Hwf7 Hcr]; [|done..].
  apply eff_bind_inv in H as [(e & H & ->)|(w8 & records & H1 & [= <- <-])];
    [by apply forwardRecipientRecords_inv in H as (_ & ? & ? & _)|].
  apply forwardRecipientRecords_inv in H1 as ([= W1 W2 W3] & recs & [= <-] & Hrec & _).
  split; [unfold wf; by rewrite W1, W2|]. exists record, records.
  unfold created in *. rewrite W1, W2, W3, <- Vi, <- Vd, <- Vf. rewrite <- Vd in Hd. eauto 10.
Qed.

(** ** The other changes *)
Lemma identity_Update_inv p g w w' r :
  on_identities (Update p g) w = (w', r) →
  match r with
  | Ok n => view w' = ((λ i, if p i then g i else i) <$> idents w, fwds w, doms w) ∧
            (n = 0 → ∀ i, i ∈ idents w → p i = false)
  | Err _ => view w' = view w
  end.
Proof.
  intros (v & H & ->)%zoom_inv. apply Update_law in H. unfold view, idents, fwds, doms in *. simpl.
  destruct r as [n|]; [|by rewrite H]. destruct H as [-> ->]. split; [done|]. intros Hn i Hi.
  destruct (p i) eqn:Ep; [|done]. exfalso.
  assert (i ∈ List.filter p (rows (w_identities w))) as Hin by by apply list_elem_of_filter_bool.
  destruct (List.filter p (rows (w_identities w))); [by apply elem_of_nil in Hin|]. simpl in Hn. lia.
Qed.

(** Saving a changed copy of a row that is there. *)
Lemma save_row_inv (context : string) x x' w w' r :
  wf w → x ∈ idents w → i_ID x' = i_ID x → i_EmailAddress x' = i_EmailAddress x →
  map_err (Wrapf context []) (on_identities (Save x')) w = (w', r) →
  match r with
  | Ok y => (∃ t, y = i_touch x' t) ∧ wf w' ∧ view w' = (replace_row x y <$> idents w, fwds w, doms w) ∧
      Forall (λ z, i_ID z ≠ i_ID x → i_Username z ≠ i_Username x') (idents w)
  | Err _ => view w' = view w
  end.
Proof.
  intros Hwf Hx Hid Hem H. apply map_err_inv in H as (y & H & ->).
  apply identity_Save_inv in H; [|rewrite Hid; by apply list_elem_of_fmap_2].
  destruct y as [y|]; [|done]. destruct H as ((t & ->) & Hv & Hu).
  assert (Forall (λ z, i_ID z ≠ i_ID x → i_Username z ≠ i_Username x') (idents w)) as Hu'.
  { eapply Forall_impl; [exact Hu|]. intros z Hz Hne. apply Hz. by rewrite Hid. }
  rewrite Hid in Hv. split_and!; [eauto| |exact Hv|done].
  injection Hv as Hi Hf Hd. unfold wf. rewrite Hi, Hf. by apply wf_replace.
Qed.

Lemma RotateForScope_inv scope identityID w w' r :
  wf w → RotateForScope key scope identityID w = (w', r) →
  match r with
  | Ok (public, password) => wf w' ∧ ∃ x y, x ∈ idents w ∧ owner_scope scope (i_OwnerEmail x) = true ∧
      i_Status x = IdentityStatusActive ∧ (TrimSpace identityID ≠ ""%string → i_ID x = TrimSpace identityID) ∧
      view w' = (replace_row x y <$> idents w, fwds w, doms w) ∧ public = publicIdentity y [] ∧
      i_ID y = i_ID x ∧ i_OwnerEmail y = i_OwnerEmail x ∧ i_EmailAddress y = i_EmailAddress x ∧
      i_Status y = IdentityStatusActive ∧
      good_credential (i_Username y) password (i_PasswordSalt y) (i_PasswordDigest y) (i_PasswordCipher y)
  | Err _ => view w' = view w
  end.
Proof.
  intros Hwf H. unfold RotateForScope in H.
  apply eff_bind_inv in H as [(e & H & ->)|(w1 & x & H1 & H)]; [by apply requireIdentity_inv in H as [-> _]|].
  apply requireIdentity_inv in H1 as [V1 (Hx & Hact & Hown & Hid)%(λ f, f x eq_refl)].
  apply eff_bind_inv in H as [(e & H & ->)|(w2 & c & H1 & H)]; [by apply on_env_inv in H as [-> _]|].
  apply on_env_inv in H1 as [V2 (v & Hcred%newCredential_inv)]. rewrite V1 in V2.
  apply eff_bind_inv in H as [(e & H & ->)|(w3 & now & H1 & H)]; [by apply clock_inv in H as [-> _]|].
  apply clock_inv in H1 as [V3 _]. rewrite V2 in V3. pose proof V3 as [= Vi Vf Vd].
  assert (wf w3) as Hwf3 by (unfold wf; by rewrite Vi, Vf). rewrite <- Vi in Hx.
  apply eff_bind_inv in H as [(e & H & ->)|(w4 & y & H1 & [= <- <-])].
  { by eapply (save_row_inv _ x) in H as ->. }
  eapply (save_row_inv _ x) in H1 as ((t & ->) & Hwf4 & V4 & _); [|done..].
  split; [done|]. rewrite Vi in Hx. rewrite Vi, Vf, Vd in V4. eexists x, _. by split_and!.
Qed.

Lemma DeleteForScope_inv scope identityID w w' r :
  wf w → DeleteForScope scope identityID w = (w', r) →
  match r with
  | Ok _ => wf w' ∧ ∃ x t, x ∈ idents w ∧ owner_scope scope (i_OwnerEmail x) = true ∧
      i_Status x = IdentityStatusActive ∧ (TrimSpace identityID ≠ ""%string → i_ID x = TrimSpace identityID) ∧
      view w' = (replace_row x (i_with_status x IdentityStatusDeleted t) <$> idents w, fwds w, doms w)
  | Err _ => view w' = view w
  end.
Proof.
  intros Hwf H. unfold DeleteForScope in H.
  apply eff_bind_inv in H as [(e & H & ->)|(w1 & x & H1 & H)]; [by apply requireIdentity_inv in H as [-> _]|].
  apply requireIdentity_inv in H1 as [V1 (Hx & Hact & Hown & Hid)%(λ f, f x eq_refl)].
  apply eff_bind_inv in H as [(e & H & ->)|(w3 & now & H1 & H)]; [by apply clock_inv in H as [-> _]|].
  apply clock_inv in H1 as [V3 _]. rewrite V1 in V3. pose proof V3 as [= Vi Vf Vd].
  assert (wf w3) as Hwf3 by (unfold wf; by rewrite Vi, Vf). rewrite <- Vi in Hx.
  apply eff_bind_inv in H as [(e & H & ->)|(w4 & y & H1 & [= <- <-])].
  { by eapply (save_row_inv _ x) in H as ->. }
  eapply (save_row_inv _ x) in H1 as ((t & ->) & Hwf4 & V4 & _); [|done..].
  split; [done|]. rewrite Vi in Hx. rewrite Vi, Vf, Vd in V4. exists x, t. by split_and!.
Qed.

(** The transaction of [UpdateForwardingForScope]. *)
Lemma reroute_inv x forwardTo now w w' :
  good_routes (i_EmailAddress x) (String_ <$> forwardTo) → wf w → x ∈ idents w →
  (deleteForwardRecipients "smtp identity forwarding update: reset: %w" (i_ID (i_touch x now));;
   createForwardRecipients (i_ID (i_touch x now)) forwardTo now;;
   map_err (Wrapf "smtp identity forwarding update: timestamp: %w" [])
     (on_identities (Update (λ i, whereField (i_ID i) (i_ID (i_touch x now))) (λ i, i_touch i now)));;
   mret ()) w = (w', Ok tt) →
  wf w' ∧ (idents w', doms w') = (replace_row x (i_touch x now) <$> idents w, doms w) ∧
  ∃ F, fwds w' ≡ₚ F ++ without (i_ID x) (fwds w) ∧ Forall (λ f, f_IdentityID f = i_ID x) F ∧
    (f_EmailAddress <$> F) ≡ₚ (String_ <$> forwardTo).
Proof.
  intros Hgood Hwf Hx (w5 & [] & Hdel & H)%eff_bind_Ok.
  destruct (proj1 (Forall_forall _ _) (wf_rows _ _ Hwf) x Hx) as (Hne & _).
  apply deleteForwardRecipients_inv in Hdel as [= Di Df Dd]; [|done].
  apply eff_bind_Ok in H as (w6 & [] & Hc & H).
  apply createForwardRecipients_inv in Hc as (Ci & Cd & F & Cf & HF & Hall).
  apply eff_bind_Ok in H as (w7 & n & Hup & [= <-]).
  apply map_err_inv in Hup as ([m|] & Hup & Hm); [|done].
  apply identity_Update_inv in Hup as [[= Ui Uf Ud] _]. simpl in *.
  assert (idents w7 = replace_row x (i_touch x now) <$> idents w) as Hi7.
  { rewrite Ui, Ci, Di. apply list_fmap_ext. intros k z Hz%list_elem_of_lookup_2. unfold replace_row, whereField.
    rewrite (bool_decide_false _ Hne). simpl. destruct (decide (i_ID z = i_ID x)) as [E1|E1].
    - rewrite !bool_decide_true by done. f_equal. by apply (NoDup_fmap_inj_on i_ID (idents w)); [apply Hwf|..].
    - by rewrite !bool_decide_false by congruence. }
  rewrite Df, <- Uf in Cf. split_and!.
  - unfold wf. rewrite Hi7. eapply (wf_reroute _ (fwds w) (i_touch x now)); [|..|exact Cf|done|].
    + apply wf_replace; [done..|]. apply Forall_forall. simpl. intros z Hz Hne' Hu. apply Hne'. f_equal.
      by apply (NoDup_fmap_inj_on i_Username (idents w)); [apply Hwf|..].
    + apply list_elem_of_fmap. exists x. split; [|done]. unfold replace_row. by rewrite bool_decide_true.
    + simpl. by rewrite HF.
  - congruence.
  - eauto.
Qed.

Lemma UpdateForwardingForScope_inv scope identityID forwardTo w w' r :
  wf w → UpdateForwardingForScope Commit scope identityID forwardTo w = (w', r) →
  match r with
  | Ok public => wf w' ∧ ∃ x t F, x ∈ idents w ∧ owner_scope scope (i_OwnerEmail x) = true ∧
      i_Status x = IdentityStatusActive ∧ (TrimSpace identityID ≠ ""%string → i_ID x = TrimSpace identityID) ∧
      view w' = (replace_row x (i_touch x t) <$> idents w, fwds w', doms w) ∧
      fwds w' ≡ₚ F ++ without (i_ID x) (fwds w) ∧ Forall (λ f, f_IdentityID f = i_ID x) F ∧
      (f_EmailAddress <$> F) ≡ₚ (String_ <$> forwardTo) ∧ p_ForwardTo public ≡ₚ (String_ <$> forwardTo) ∧
      p_ID public = i_ID x
  | Err _ => view w' = view w
  end.
Proof.
  intros Hwf H. unfold UpdateForwardingForScope in H.
  apply eff_bind_inv in H as [(e & [= <- _] & ->)|(w0 & [] & [= <- Hv1] & H)]; [done|].
  apply eff_bind_inv in H as [(e & H & ->)|(w1 & x & H1 & H)]; [by apply requireIdentity_inv in H as [-> _]|].
  apply requireIdentity_inv in H1 as [V1 (Hx & Hact & Hown & Hid)%(λ f, f x eq_refl)].
  destruct (proj1 (Forall_forall _ _) (wf_rows _ _ Hwf) x Hx) as (Hne & (a & Hcan & Ha) & _).
  apply eff_bind_inv in H as [(e & H & ->)|(w2 & a' & H1 & H)].
  { apply map_err_inv in H as (? & [= <- _] & _). done. }
  apply map_err_inv in H1 as (y & [= <- Hy] & Hy'). rewrite <- Ha, Hcan in Hy. subst y. injection Hy' as ->.
  apply eff_bind_inv in H as [(e & [= <- _] & ->)|(w2 & [] & [= <- Hv2] & H)]; [done|].
  pose proof (validated_routes _ _ Hv1 Hv2) as Hgood. rewrite Ha in Hgood.
  apply eff_bind_inv in H as [(e & H & ->)|(w3 & now & H1 & H)]; [by apply clock_inv in H as [-> _]|].
  apply clock_inv in H1 as [V3 _]. rewrite V1 in V3. pose proof V3 as [= Vi Vf Vd].
  apply eff_bind_inv in H as [(e & H & ->)|(w4 & [] & H1 & H)]; [by apply transaction_inv in H as ->|].
  apply transaction_inv, (reroute_inv x forwardTo now) in H1; [|done|by unfold wf; rewrite Vi, Vf|by rewrite Vi].
  destruct H1 as (Hwf4 & V4 & F & Hf4 & Hall & HF). injection V4 as I4 D4.
  apply eff_bind_inv in H as [(e & H & ->)|(w8 & records & H1 & [= <- <-])];
    [by apply forwardRecipientRecords_inv in H as (_ & ? & ? & _)|].
  apply forwardRecipientRecords_inv in H1 as ([= W1 W2 W3] & recs & [= <-] & Hrec & _).
  split; [unfold wf; by rewrite W1, W2|]. exists x, now, F. unfold view. rewrite W1, W2, W3, I4, D4, Vi, Vd.
  rewrite Vf in Hf4. split_and!; try done. simpl. unfold publicForwardRecipients, sort_strings.
  by rewrite merge_sort_Permutation.
Qed.

(** ** Authentication *)
Definition mark_used (record : Identity) (now : Time) (i : Identity) : Identity :=
  if bool_decide (i_ID i = i_ID record) && bool_decide (i_Status i = IdentityStatusActive)
     && bool_decide (i_Username i = i_Username record)
  then i_with_used i (Some now) now else i.

Lemma markUsed_inv record now w w' r :
  markAuthenticatedIdentityUsed record now w = (w', r) →
  match r with
  | Ok _ => view w' = (mark_used record now <$> idents w, fwds w, doms w)
  | Err _ => view w' = view w
  end.
Proof.
  unfold markAuthenticatedIdentityUsed. intros H.
  apply eff_bind_inv in H as [(e & H & ->)|(w1 & n & H & [= <- <-])];
    apply map_err_inv in H as (m & H & Hm); apply identity_Update_inv in H; destruct m as [m|]; try done.
  injection Hm as <-. destruct H as [Hv H0]. unfold guard_err. destruct (Z.eqb_spec n 0) as [->|Hne]; [|done].
  rewrite Hv. unfold view. do 2 f_equal. rewrite <- (list_fmap_id (idents w)) at 2. apply list_fmap_ext.
  intros k i Hi%list_elem_of_lookup_2. by rewrite (H0 eq_refl i Hi).
Qed.

Lemma Authenticate_inv username password w w' r :
  Authenticate key username password w = (w', r) →
  match r with
  | Ok identity => ∃ record now, record ∈ idents w ∧ i_Status record = IdentityStatusActive ∧
      i_Username record = TrimSpace username ∧
      digest key (i_PasswordSalt record) password = i_PasswordDigest record ∧
      NewAddress (i_EmailAddress record) = Ok (ai_EmailAddress identity) ∧
      ai_ID identity = i_ID record ∧ ai_Username identity = i_Username record ∧
      (∃ d, d ∈ doms w ∧ domain_allows (MkScope (i_OwnerEmail record) true)
              (ToLower (TrimSpace (Domain (ai_EmailAddress identity)))) d = true) ∧
      view w' = (mark_used record now <$> idents w, fwds w, doms w)
  | Err _ => view w' = view w
  end.
Proof.
  unfold Authenticate. destruct (bool_decide _ || bool_decide _) eqn:Eb; [by intros [= <- <-]|].
  apply orb_false_iff in Eb as [Eu _]. to_prop.
  intros H. apply eff_bind_inv in H as [(e & H & ->)|(w1 & record & Hs & H)].
  { by apply map_err_inv in H as (? & [-> _]%identity_First_inv & _). }
  apply map_err_inv in Hs as ([y|] & Hs & Hy); [|done]. injection Hy as <-.
  apply identity_First_inv in Hs as [V1 [Hin Hp]]. to_prop.
  destruct (negb _) eqn:Ed in H; [by injection H as <- <-|]. to_prop.
  apply eff_bind_inv in H as [(e & H & ->)|(w2 & address & Hs & H)].
  { by apply map_err_inv in H as (? & [= <- _] & _). }
  apply map_err_inv in Hs as ([a|] & [= <- Ha] & Hy); [|done]. injection Hy as <-.
  apply eff_bind_inv in H as [(e & H & ->)|(w3 & [] & Hs & H)].
  { by apply map_err_inv in H as (? & [-> _]%requireSenderDomain_inv & _). }
  apply map_err_inv in Hs as ([[]|] & Hs & Hy); [|done].
  apply requireSenderDomain_inv in Hs as [V3 (d & Hd & Hallow)%(λ f, f eq_refl)]. rewrite V1 in V3.
  apply eff_bind_inv in H as [(e & H & ->)|(w4 & now & Hs & H)]; [by apply clock_inv in H as [-> _]|].
  apply clock_inv in Hs as [V4 _]. rewrite V3 in V4. injection V1 as _ _ V1d. rewrite V1d in Hd.
  apply eff_bind_inv in H as [(e & H & ->)|(w5 & [] & Hs & [= <- <-])];
    [by apply markUsed_inv in H as ->|]. apply markUsed_inv in Hs. injection V4 as Vi Vf Vd.
  exists record, now. rewrite Hs, Vi, Vf, Vd. simpl. split_and!; try done; [by apply whereField_eq..|eauto].
Qed.

Lemma wf_mark_used I F record now : wf_tables I F → wf_tables (mark_used record now <$> I) F.
Proof.
  intros Hwf.
  assert (∀ i, i_ID (mark_used record now i) = i_ID i ∧ i_EmailAddress (mark_used record now i) = i_EmailAddress i ∧
    i_Username (mark_used record now i) = i_Username i) as Hm by (intros i; unfold mark_used; by case_match).
  apply wf_map; [|clear -Hm Hwf|done].
  - intros i _. by destruct (Hm i) as (-> & -> & _).
  - rewrite <- list_fmap_compose. replace (i_Username ∘ mark_used record now <$> I) with (i_Username <$> I);
      [apply Hwf|]. apply list_fmap_ext. intros k i _. symmetry. apply Hm.
Qed.

(** ** Lookups that succeed *)
Context `{RI : !Reliable SI Identity} `{RF : !Reliable SF ForwardRecipient} `{RD : !Reliable SD SenderDomain}.

Lemma identity_First_run p w x :
  x ∈ idents w → p x = true → (∀ i, i ∈ idents w → p i = true → i = x) →
  ∃ w', on_identities (First p) w = (w', Ok x) ∧ view w' = view w.
Proof.
  intros Hx Hp Huniq. destruct (find_exists p _ x Hx Hp) as (y & Hf & Hy & Hpy).
  rewrite (Huniq y Hy Hpy) in Hf. pose proof (First_reliable p (w_identities w) x Hf) as Hok.
  destruct (on_identities (First p) w) as [w' r] eqn:H. pose proof (identity_First_inv _ _ _ _ H) as [Hv _].
  apply zoom_inv in H as (v & H & _). rewrite H in Hok. simpl in Hok. subst r. eauto.
Qed.

Lemma requireSenderDomain_run scope domain w d :
  d ∈ doms w → domain_allows scope (ToLower (TrimSpace domain)) d = true →
  ∃ w', requireSenderDomainForScope scope domain w = (w', Ok tt) ∧ view w' = view w.
Proof.
  intros Hd Hp. destruct (find_exists _ _ d Hd Hp) as (y & Hf & _).
  pose proof (First_reliable _ (w_domains w) y Hf) as Hok.
  destruct (on_domains (First (domain_allows scope (ToLower (TrimSpace domain)))) w) as [w' r] eqn:H.
  pose proof (domain_First_inv _ _ _ _ H) as [Hv _]. pose proof H as (v & Hz & _)%zoom_inv.
  rewrite Hz in Hok. simpl in Hok. subst r. exists w'. split; [|done].
  unfold requireSenderDomainForScope. cbv zeta. erewrite eff_bind_run; [done|]. apply map_err_run. exact H.
Qed.

Lemma clock_run w : ∃ w' t, clock w = (w', Ok t) ∧ view w' = view w.
Proof.
  destruct (clock w) as [w' r] eqn:H. pose proof (clock_inv _ _ _ H) as [Hv [t ->]]. eauto.
Qed.

Lemma markUsed_run record now w :
  record ∈ idents w → i_Status record = IdentityStatusActive →
  ∃ w', markAuthenticatedIdentityUsed record now w = (w', Ok tt).
Proof.
  intros Hin Hact. unfold markAuthenticatedIdentityUsed.
  set (p := λ i, bool_decide (i_ID i = i_ID record) && bool_decide (i_Status i = IdentityStatusActive)
                 && bool_decide (i_Username i = i_Username record)).
  set (g := λ i, i_with_used i (Some now) now).
  destruct (Update_reliable p g (w_identities w)) as [n Hn].
  destruct (on_identities (Update p g) w) as [w' r] eqn:H. pose proof H as (v & Hz & _)%zoom_inv.
  rewrite Hz in Hn. simpl in Hn. subst r. apply identity_Update_inv in H as Hup. destruct Hup as [_ H0].
  exists w'. rewrite (eff_bind_run _ _ _ w' n) by by apply map_err_run.
  unfold lift, guard_err. destruct (Z.eqb_spec n 0) as [Hzero|]; [|done].
  specialize (H0 Hzero record Hin). subst p. simpl in H0. by rewrite !bool_decide_true in H0.
Qed.

(** The stored credential of an active identity with an allowed domain works. *)
Lemma Authenticate_run record address d password w :
  wf w → record ∈ idents w → i_Status record = IdentityStatusActive →
  good_credential (i_Username record) password (i_PasswordSalt record) (i_PasswordDigest record)
    (i_PasswordCipher record) →
  NewAddress (i_EmailAddress record) = Ok address → d ∈ doms w →
  domain_allows (MkScope (i_OwnerEmail record) true) (ToLower (TrimSpace (Domain address))) d = true →
  ∃ w', Authenticate key (i_Username record) password w =
    (w', Ok (MkAuthenticated (i_ID record) address (i_Username record))).
Proof.
  intros Hwf Hin Hact (Htrim & Hne & Hpw & Hdig & _) Haddr Hd Hallow. unfold Authenticate. cbv zeta.
  rewrite Htrim, !bool_decide_false by done. simpl.
  destruct (identity_First_run (λ i, whereField (i_Username i) (i_Username record)
    && whereField (i_Status i) IdentityStatusActive) w record) as (w1 & H1 & V1); [done|..].
  { by rewrite Hact, !whereField_refl. }
  { intros i Hi Hp. to_prop. apply (NoDup_fmap_inj_on i_Username (idents w)); [apply Hwf|done..|].
    by apply whereField_eq. }
  rewrite (eff_bind_run _ _ _ w1 record) by by apply map_err_run.
  rewrite bool_decide_true by done. simpl.
  rewrite (eff_bind_run _ _ _ w1 address) by (unfold map_err, lift; by rewrite Haddr).
  injection V1 as Vi Vf Vd.
  destruct (requireSenderDomain_run (MkScope (i_OwnerEmail record) true) (Domain address) w1 d)
    as (w2 & H2 & V2); [by rewrite Vd|done|]. injection V2 as Wi Wf Wd.
  rewrite (eff_bind_run _ _ _ w2 tt) by by apply map_err_run.
  destruct (clock_run w2) as (w3 & now & H3 & [= Xi Xf Xd]). rewrite (eff_bind_run _ _ _ w3 now) by done.
  destruct (markUsed_run record now w3) as (w4 & H4); [by rewrite Xi, Wi, Vi|done|].
  rewrite (eff_bind_run _ _ _ w4 tt) by done. by eexists.
Qed.

(** ** Forwarding lookup *)
Lemma stored_recipients_run l :
  Forall (λ f, ∃ a, canonical a ∧ String_ a = f_EmailAddress f) l →
  ∃ recipients, stored_recipients l = Ok recipients ∧ String_ <$> recipients = f_EmailAddress <$> l.
Proof.
  induction 1 as [|f l (a & Hc & Ha) _ (rs & IH & Hrs)]; [by exists []|]. simpl.
  rewrite <- Ha, Hc, IH. eexists. split; [done|]. csimpl. rewrite Hrs. congruence.
Qed.

Lemma forwards_find_run id w :
  ∃ w' l, on_forwards (FindOrdered (λ f, bool_decide (f_IdentityID f = id)) email_le None) w = (w', Ok l) ∧
    view w' = view w ∧ l ≡ₚ routes id (fwds w) ∧ Sorted (holds email_le) l.
Proof.
  destruct (FindOrdered_reliable (λ f, bool_decide (f_IdentityID f = id)) email_le None (w_forwards w)) as [l Hl].
  destruct (on_forwards _ w) as [w' r] eqn:H. pose proof H as (v & Hz & ->)%zoom_inv.
  rewrite Hz in Hl. simpl in Hl. subst r. apply FindOrdered_law in Hz as (Hr & l0 & Hp & Hs & ->).
  eexists _, _. split; [done|]. split; [unfold view, fwds; simpl; by rewrite Hr|]. split; [exact Hp|].
  apply StronglySorted_Sorted, Hs; unfold email_le.
  - intros x y z H1%Is_true_true H2%Is_true_true. apply Is_true_true.
    exact (transitivity (R := String.le) H1 H2).
  - intros x y. rewrite <- !Is_true_true. apply (total String.le).
Qed.

(** The route of an active identity with an allowed domain. *)
Lemma ResolveForwarding_run record address d w :
  wf w → record ∈ idents w → i_Status record = IdentityStatusActive →
  i_EmailAddress record = String_ address → String_ address ≠ ""%string → d ∈ doms w →
  domain_allows (MkScope (i_OwnerEmail record) true) (ToLower (TrimSpace (Domain address))) d = true →
  Forall (λ f, ∃ a, canonical a ∧ String_ a = f_EmailAddress f) (routes (i_ID record) (fwds w)) →
  ∃ w' recipients, ResolveForwarding address w = (w', Ok (Some (address, recipients))) ∧ view w' = view w ∧
    (String_ <$> recipients) ≡ₚ (f_EmailAddress <$> routes (i_ID record) (fwds w)) ∧
    Sorted String.le (String_ <$> recipients).
Proof.
  intros Hwf Hin Hact Hem Hne Hd Hallow Hcan. unfold ResolveForwarding.
  destruct (identity_First_run (λ i, whereField (i_EmailAddress i) (String_ address)
    && whereField (i_Status i) IdentityStatusActive) w record) as (w1 & H1 & V1); [done|..].
  { by rewrite Hact, Hem, !whereField_refl. }
  { intros i Hi Hp. to_prop. apply (NoDup_fmap_inj_on i_EmailAddress (idents w)); [apply Hwf|done..|].
    rewrite Hem. by apply whereField_eq. }
  destruct (forwards_find_run (i_ID record) w1) as (w2 & l & H2 & V2 & Hl & Hsort). rewrite V1 in V2.
  injection V1 as Vi1 Vf1 Vd1. rewrite Vf1 in Hl. pose proof V2 as [= Vi2 Vf2 Vd2].
  rewrite (eff_bind_run _ _ _ w2 (Ok (record, l))).
  2:{ unfold try_eff. rewrite (eff_bind_run _ _ _ w1 record) by done.
      by rewrite (eff_bind_run _ _ _ w2 l) by done. }
  assert (l ≠ []) as Hl0.
  { intros ->. destruct (proj1 (Forall_forall _ _) (wf_rows _ _ Hwf) record Hin) as (_ & _ & Hg & _).
    apply Permutation_nil_l in Hl. by rewrite <- Hl in Hg. }
  destruct (requireSenderDomain_run (MkScope (i_OwnerEmail record) true) (Domain address) w2 d)
    as (w3 & H3 & V3); [by rewrite Vd2|done|]. rewrite V2 in V3.
  destruct (stored_recipients_run l) as (rs & H4 & Hrs); [by rewrite Hl|].
  exists w3, rs. split_and!; [|done|by rewrite Hrs; apply fmap_Permutation|].
  - destruct l as [|f l]; [done|]. rewrite (eff_bind_run _ _ _ w3 (Ok tt)).
    2:{ unfold try_eff, requireSenderDomainForIdentity. by rewrite H3. }
    by rewrite (eff_bind_run _ _ _ w3 rs) by (unfold lift; by rewrite H4).
  - rewrite Hrs. clear -Hsort. induction Hsort as [|f l _ IH Hf]; csimpl; constructor; [done|].
    destruct Hf; csimpl; constructor. by apply Is_true_true.
Qed.
End operations.

(** * Guarantees *)
Section guarantees.
Context `{U : Unicode} `{M : NetMail} `{K : Crypto}.
Context {SI SF SD E : Type}.
Context `{TI : Table SI Identity} `{TF : Table SF ForwardRecipient} `{TD : Table SD SenderDomain}.
Context `{LI : !TableLaws SI Identity} `{LF : !TableLaws SF ForwardRecipient} `{LD : !TableLaws SD SenderDomain}.
Context `{Env : Environment E} `{EL : !EnvironmentLaws E}.
Context (key : string) (Commit : SI → SF → SD → result unit).
Implicit Types w : world SI SF SD E.

(** Calls of the repository that change it. *)
Inductive repository_call :=
| CallCreate (scope : AccessScope) (address : Address) (forwardTo : list Address)
| CallUpdateForwarding (scope : AccessScope) (identityID : string) (forwardTo : list Address)
| CallRotate (scope : AccessScope) (identityID : string)
| CallDelete (scope : AccessScope) (identityID : string)
| CallAuthenticate (username password : string).

Definition run_call (c : repository_call) w : world SI SF SD E :=
  match c with
  | CallCreate scope address forwardTo => (CreateForScope key Commit scope address forwardTo w).1
  | CallUpdateForwarding scope id forwardTo => (UpdateForwardingForScope Commit scope id forwardTo w).1
  | CallRotate scope id => (RotateForScope key scope id w).1
  | CallDelete scope id => (DeleteForScope scope id w).1
  | CallAuthenticate username password => (Authenticate key username password w).1
  end.
(** Addresses come from [NewAddress]. *)
Definition valid_call (c : repository_call) : Prop :=
  match c with CallCreate _ address _ => canonical address | _ => True end.

Lemma wf_view w w' : view w' = view w → wf w → wf w'.
Proof. intros [= Hi Hf _]. unfold wf. by rewrite Hi, Hf. Qed.

Lemma run_call_wf c w : valid_call c → wf w → wf (run_call c w).
Proof.
  intros Hc Hwf. destruct c as [scope a l|scope id l|scope id|scope id|u p]; simpl.
  - destruct (CreateForScope _ _ _ _ _ w) as [w' r] eqn:H. apply CreateForScope_inv in H; [|done..].
    destruct r as [[]|]; [by destruct H|by eapply wf_view].
  - destruct (UpdateForwardingForScope _ _ _ _ w) as [w' r] eqn:H. apply UpdateForwardingForScope_inv in H; [|done].
    destruct r as [|]; [by destruct H|by eapply wf_view].
  - destruct (RotateForScope _ _ _ w) as [w' r] eqn:H. apply RotateForScope_inv in H; [|done].
    destruct r as [[]|]; [by destruct H|by eapply wf_view].
  - destruct (DeleteForScope _ _ w) as [w' r] eqn:H. apply DeleteForScope_inv in H; [|done].
    destruct r as [|]; [by destruct H|by eapply wf_view].
  - destruct (Authenticate _ _ _ w) as [w' r] eqn:H. apply Authenticate_inv in H.
    destruct r as [ai|]; [|by eapply wf_view].
    destruct H as (record & now & _ & _ & _ & _ & _ & _ & _ & _ & [= Hi Hf _]).
    unfold wf. simpl. rewrite Hi, Hf. by apply wf_mark_used.
Qed.

(** C27: the identity tables stay well-formed.  After any sequence of creations,
    forwarding updates, rotations, deletions and logins, successful or not, with
    addresses from [NewAddress]: identity keys, sender addresses and user names
    are unique; every forwarding row belongs to a stored identity; and every
    identity has at least one forwarding recipient, none of them twice and never
    its own address. *)
Theorem identities_invariant (calls : list repository_call) w :
  Forall valid_call calls → wf w →
  let w' := foldl (λ w c, run_call c w) w calls in
  NoDup (i_ID <$> idents w') ∧ NoDup (i_EmailAddress <$> idents w') ∧ NoDup (i_Username <$> idents w') ∧
  (∀ f, f ∈ fwds w' → ∃ i, i ∈ idents w' ∧ i_ID i = f_IdentityID f) ∧
  ∀ i, i ∈ idents w' →
    let recipients := f_EmailAddress <$> routes (i_ID i) (fwds w') in
    recipients ≠ [] ∧ NoDup recipients ∧ i_EmailAddress i ∉ recipients.
Proof.
  intros Hc Hwf. cbv zeta.
  assert (wf (foldl (λ w c, run_call c w) w calls)) as [H1 H2 H3 H4 H5].
  { revert w Hwf. induction Hc as [|c calls Hc _ IH]; intros w Hwf; [done|]. simpl. by apply IH, run_call_wf. }
  rewrite Forall_forall in H4; rewrite Forall_forall in H5. split_and!; [done..| |].
  - intros f Hf. destruct (proj1 (list_elem_of_fmap _ _ _) (H5 f Hf)) as (i & -> & Hi). eauto.
  - intros i Hi. destruct (H4 i Hi) as (_ & _ & Hne & Hnd & Hself & _). done.
Qed.

(** C9: a login succeeds only for a live credential of a verified domain.  When
    [Authenticate] accepts, there is a stored identity that is active, whose user
    name is the one given (trimmed) and whose salted digest is that of exactly the
    password given; its address is the one returned; and the address's domain is
    registered as verified for the identity's owner, or is a shared domain without
    an owner (verified or from before verification existed).  Its last use is
    recorded on that identity alone.  A refused login changes no table. *)
Theorem authenticate_sound username password w w' r :
  Authenticate key username password w = (w', r) →
  match r with
  | Ok identity => ∃ record d now, record ∈ idents w ∧ i_Status record = IdentityStatusActive ∧
      i_Username record = TrimSpace username ∧
      HMAC_SHA256 key (i_PasswordSalt record ++ implode ["000"%char] ++ password) = i_PasswordDigest record ∧
      identity = MkAuthenticated (i_ID record) (ai_EmailAddress identity) (i_Username record) ∧
      NewAddress (i_EmailAddress record) = Ok (ai_EmailAddress identity) ∧
      d ∈ doms w ∧ d_Domain d = ToLower (TrimSpace (Domain (ai_EmailAddress identity))) ∧
      ((d_OwnerEmail d = normalizeOwnerEmail (i_OwnerEmail record) ∧ d_Status d = SenderDomainStatusVerified) ∨
       (d_OwnerEmail d = ""%string ∧ (d_Status d = SenderDomainStatusVerified ∨ d_Status d = ""%string))) ∧
      idents w' = mark_used record now <$> idents w ∧ fwds w' = fwds w ∧ doms w' = doms w
  | Err _ => idents w' = idents w ∧ fwds w' = fwds w ∧ doms w' = doms w
  end.
Proof.
  intros H. apply Authenticate_inv in H. destruct r as [[id a u]|e]; [|by injection H as -> -> ->].
  destruct H as (record & now & Hin & Hact & Hu & Hdig & Ha & Hid & Hun & (d & Hd & Hallow) & [= Hi Hf Hdm]).
  simpl in *. subst id u. exists record, d, now. unfold domain_allows in Hallow. simpl in Hallow.
  apply andb_true_iff in Hallow as [Hdom Hown]. to_prop. split_and!; try done.
  apply orb_true_iff in Hown as [Hown|Hown]; apply andb_true_iff in Hown as [Ho Hs]; to_prop; [by left|right].
  split; [done|]. apply orb_true_iff in Hs as [?|?]; to_prop; auto.
Qed.

(** What an owner allows its identities. *)
Lemma domain_allows_owner scope domain d :
  normalizeOwnerEmail (normalizeOwnerEmail (OwnerEmail scope)) = normalizeOwnerEmail (OwnerEmail scope) →
  domain_allows scope domain d = true →
  domain_allows (MkScope (normalizeOwnerEmail (OwnerEmail scope)) true) domain d = true.
Proof.
  intros Hn. unfold domain_allows. simpl. rewrite Hn. intros [-> H]%andb_true_iff. simpl.
  destruct (Admin scope); [done|]. by rewrite H.
Qed.

Section reliable.
Context `{RI : !Reliable SI Identity} `{RF : !Reliable SF ForwardRecipient} `{RD : !Reliable SD SenderDomain}.

(** C25: a created identity works.  After [CreateForScope] succeeded, on any world
    with the same tables: the user name and password it returned authenticate as
    that address, mail to the address is forwarded to exactly the recipients asked
    for, in the order of their addresses, and the public record lists them; the
    stored cipher text decrypts to that password.  (The database answers, and the
    addresses and the owner's e-mail are in normal form.) *)
Theorem created_identity_works scope address forwardTo w w1 w2 public password :
  wf w → canonical address → Forall canonical forwardTo →
  normalizeOwnerEmail (normalizeOwnerEmail (OwnerEmail scope)) = normalizeOwnerEmail (OwnerEmail scope) →
  CreateForScope key Commit scope address forwardTo w = (w1, Ok (public, password)) →
  idents w2 = idents w1 → fwds w2 = fwds w1 → doms w2 = doms w1 →
  (∃ w3, Authenticate key (p_Username public) password w2 =
     (w3, Ok (MkAuthenticated (p_ID public) address (p_Username public)))) ∧
  (∃ w3 recipients, ResolveForwarding address w2 = (w3, Ok (Some (address, recipients))) ∧
     (String_ <$> recipients) ≡ₚ (String_ <$> forwardTo) ∧ Sorted String.le (String_ <$> recipients)) ∧
  p_EmailAddress public = String_ address ∧ p_ForwardTo public ≡ₚ (String_ <$> forwardTo) ∧
  ∃ record, record ∈ idents w1 ∧ i_ID record = p_ID public ∧ decryptPassword key (i_PasswordCipher record) = Ok password.
Proof.
  intros Hwf Hcan Hfc Hown H Hi Hf Hd. apply CreateForScope_inv in H; [|done..].
  destruct H as (Hwf1 & record & records & Hcr & -> & Hrec & d & Hdin & Hallow).
  destruct Hcr as (Hin & Hact & Hem & Ho & Hcred & Hroutes & Hdoms & _).
  apply domain_allows_owner in Hallow; [|done]. rewrite <- Ho in Hallow. rewrite <- Hdoms, <- Hd in Hdin.
  assert (wf w2) as Hwf2 by (unfold wf; by rewrite Hi, Hf).
  split_and!.
  - apply (Authenticate_run key record address d password w2); try done; [by rewrite Hi|by rewrite Hem].
  - destruct (ResolveForwarding_run record address d w2) as (w3 & rs & Hr & _ & Hp & Hs); try done.
    + by rewrite Hi.
    + by apply (NewAddress_nonempty _ _ Hcan).
    + rewrite Hf. apply Forall_forall. intros f Hfin.
      assert (f_EmailAddress f ∈ String_ <$> forwardTo) as (a & -> & Ha)%list_elem_of_fmap
        by (rewrite <- Hroutes; by apply list_elem_of_fmap_2).
      rewrite Forall_forall in Hfc. eauto.
    + rewrite Hf, Hroutes in Hp. eauto 10.
  - done.
  - simpl. unfold publicForwardRecipients, sort_strings. by rewrite merge_sort_Permutation.
  - exists record. split_and!; [done..|]. apply Hcred.
Qed.
End reliable.

(** ** Revocation and isolation *)
Lemma ResolveForwarding_inv address w w' route :
  String_ address ≠ ""%string → ResolveForwarding address w = (w', Ok (Some route)) →
  ∃ record, record ∈ idents w ∧ i_Status record = IdentityStatusActive ∧ i_EmailAddress record = String_ address.
Proof.
  intros Hne H. unfold ResolveForwarding in H. apply eff_bind_Ok in H as (w1 & x & Hf & H).
  apply try_eff_inv in Hf as (y & [= ->] & Hf). destruct y as [[record l]|e].
  2:{ by destruct (errors_Is e _). }
  apply eff_bind_Ok in Hf as (w2 & record' & Hf & Hr). apply eff_bind_Ok in Hr as (w3 & l' & _ & [= _ <- <-]).
  apply identity_First_inv in Hf as [_ [Hin Hp]]. to_prop. exists record'. split_and!; [done|by apply whereField_eq..].
Qed.

(** The rows after one was replaced: no active row has its old user name. *)
Lemma replaced_username I F x y :
  wf_tables I F → x ∈ I → (i_Status y ≠ IdentityStatusActive ∨ i_Username y ≠ i_Username x) →
  ∀ i, i ∈ replace_row x y <$> I → i_Status i = IdentityStatusActive → i_Username i ≠ i_Username x.
Proof.
  intros Hwf Hx Hy i (z & -> & Hz)%list_elem_of_fmap. unfold replace_row.
  case_bool_decide as E1; [naive_solver|]. intros _ Hu. apply E1. f_equal. symmetry.
  by apply (NoDup_fmap_inj_on i_Username I); [apply Hwf|..].
Qed.

(** C26: revoked credentials stop working.  After a successful [DeleteForScope]
    every login with the deleted identity's user name is refused, whatever the
    password, and mail to its address is no longer forwarded; after a successful
    [RotateForScope] that drew another user name, every login with the old user
    name is refused.  The other identities, and all recipients and domains, are
    as before. *)
Theorem revocation scope identityID (delete : bool) w w1 w2 :
  wf w →
  (if delete then ∃ u, DeleteForScope scope identityID w = (w1, Ok u)
   else ∃ public password, RotateForScope key scope identityID w = (w1, Ok (public, password)) ∧
     ∀ i, i ∈ idents w → i_Username i ≠ p_Username public) →
  idents w2 = idents w1 →
  ∃ x, x ∈ idents w ∧ i_Status x = IdentityStatusActive ∧
    (TrimSpace identityID ≠ ""%string → i_ID x = TrimSpace identityID) ∧
    (∀ username password w3 r, TrimSpace username = i_Username x →
       Authenticate key username password w2 = (w3, r) → ∃ e, r = Err e) ∧
    (delete = true → ∀ address w3 r, String_ address = i_EmailAddress x →
       ResolveForwarding address w2 = (w3, r) → r = Ok None ∨ ∃ e, r = Err e) ∧
    (∀ i, i_ID i ≠ i_ID x → i ∈ idents w ↔ i ∈ idents w1) ∧ fwds w1 = fwds w ∧ doms w1 = doms w.
Proof.
  intros Hwf H Hi2.
  assert (∃ x y, x ∈ idents w ∧ i_Status x = IdentityStatusActive ∧ i_ID y = i_ID x ∧
    (TrimSpace identityID ≠ ""%string → i_ID x = TrimSpace identityID) ∧
    (i_Status y ≠ IdentityStatusActive ∨ i_Username y ≠ i_Username x) ∧
    (delete = true → i_Status y ≠ IdentityStatusActive) ∧ i_EmailAddress y = i_EmailAddress x ∧
    view w1 = (replace_row x y <$> idents w, fwds w, doms w)) as (x & y & Hx & Hact & Hid & Hnid & Hy & Hdel & Hem & Hv).
  { destruct delete.
    - destruct H as [u H]. apply DeleteForScope_inv in H as (_ & x & t & Hx & _ & Hact & Hid & Hv); [|done].
      exists x, (i_with_status x IdentityStatusDeleted t). split_and!; try done. by left.
    - destruct H as (public & password & H & Hnew).
      apply RotateForScope_inv in H as (_ & x & y & Hx & _ & Hact & Hid & Hv & -> & Hy & _ & Hem & _); [|done].
      exists x, y. split_and!; try done. right. intros E1. by apply (Hnew x Hx). }
  injection Hv as Hi Hf Hd. exists x. split_and!; try done.
  - intros username password w3 [ai|e] Hname Ha; [exfalso|eauto]. apply Authenticate_inv in Ha.
    destruct Ha as (record & now & Hin & Hra & Hu & _). rewrite Hi2, Hi in Hin.
    by apply (replaced_username (idents w) (fwds w) x y Hwf Hx Hy record Hin Hra); rewrite Hu.
  - intros Hd' address w3 [[route|]|e] Ha Hr; [exfalso|by left|by right; eauto].
    destruct (proj1 (Forall_forall _ _) (wf_rows _ _ Hwf) x Hx) as (_ & (a & Hcan & Haddr) & _).
    apply ResolveForwarding_inv in Hr as (record & Hin & Hra & Hre).
    2:{ rewrite Ha, <- Haddr. apply (NewAddress_nonempty _ _ Hcan). }
    rewrite Hi2, Hi in Hin. apply list_elem_of_fmap in Hin as (z & -> & Hz). unfold replace_row in *.
    case_bool_decide as E1; [by apply Hdel|]. apply E1. f_equal.
    apply (NoDup_fmap_inj_on i_EmailAddress (idents w)); [apply Hwf|done..|congruence].
  - intros i Hne. rewrite Hi. by apply replace_row_other.
Qed.

(** What a call leaves alone. *)
Definition leaves_alone (owner : string) w w' : Prop :=
  (∀ i, i ∈ idents w → i_Status i = IdentityStatusActive → i_OwnerEmail i ≠ owner →
     i ∈ idents w' ∧ routes (i_ID i) (fwds w') ≡ₚ routes (i_ID i) (fwds w)) ∧ doms w' = doms w.

Lemma leaves_alone_view owner w w' : view w' = view w → leaves_alone owner w w'.
Proof. intros [= Hi Hf Hd]. split; [|done]. intros i Hin _ _. by rewrite Hi, Hf. Qed.

Lemma leaves_alone_replace owner w w' x y :
  wf w → x ∈ idents w → i_OwnerEmail x = owner → i_ID y = i_ID x →
  idents w' = replace_row x y <$> idents w → doms w' = doms w →
  (∀ id, id ≠ i_ID x → routes id (fwds w') ≡ₚ routes id (fwds w)) → leaves_alone owner w w'.
Proof.
  intros Hwf Hx Hown Hy Hi Hd Hf. split; [|done]. intros i Hin _ Hne.
  assert (i_ID i ≠ i_ID x) as Hid.
  { intros E1. apply Hne. rewrite <- Hown. f_equal. by apply (NoDup_fmap_inj_on i_ID (idents w)); [apply Hwf|..]. }
  rewrite Hi. split; [by apply replace_row_other|by apply Hf].
Qed.

Lemma call_isolated scope call w :
  wf w → valid_call call → Admin scope = false →
  match call with
  | CallCreate s _ _ | CallUpdateForwarding s _ _ | CallRotate s _ | CallDelete s _ => s = scope
  | CallAuthenticate _ _ => False
  end →
  leaves_alone (normalizeOwnerEmail (OwnerEmail scope)) w (run_call call w).
Proof.
  intros Hwf Hvalid Hadm Hcall.
  assert (∀ o, owner_scope scope o = true → o = normalizeOwnerEmail (OwnerEmail scope)) as Hos.
  { unfold owner_scope. rewrite Hadm. simpl. intros o Ho. by to_prop. }
  destruct call as [s a l|s id l|s id|s id|]; simpl; [subst s..|done].
  - destruct (CreateForScope _ _ _ _ _ w) as [w' [[public pw]|]] eqn:H; apply CreateForScope_inv in H;
      try done; [|by apply leaves_alone_view].
    destruct H as (_ & record & records & (_ & _ & _ & _ & _ & _ & Hd & Hother & Hdead) & _).
    split; [|done]. intros i Hin Hact _. destruct (decide (i_ID i = i_ID record)) as [E1|E1].
    + by destruct (Hdead i Hin E1).
    + destruct (Hother i E1) as [Hiff Hr]. split; [by apply Hiff|done].
  - destruct (UpdateForwardingForScope _ _ _ _ w) as [w' [public|]] eqn:H; apply UpdateForwardingForScope_inv in H;
      try done; [|by apply leaves_alone_view].
    destruct H as (_ & x & t & F & Hx & Ho & _ & _ & [= Hi Hd] & Hf & Hall & _).
    eapply (leaves_alone_replace _ _ _ x (i_touch x t)); eauto.
    intros id' Hne. simpl. by rewrite (routes_perm _ _ _ Hf), routes_app, (routes_other id' (i_ID x)),
      routes_without_other.
  - destruct (RotateForScope _ _ _ w) as [w' [[public pw]|]] eqn:H; apply RotateForScope_inv in H;
      try done; [|by apply leaves_alone_view].
    destruct H as (_ & x & y & Hx & Ho & _ & _ & [= Hi Hf Hd] & _ & Hy & _).
    eapply (leaves_alone_replace _ _ _ x y); eauto. intros id' _. simpl. by rewrite Hf.
  - destruct (DeleteForScope _ _ w) as [w' [u|]] eqn:H; apply DeleteForScope_inv in H;
      try done; [|by apply leaves_alone_view].
    destruct H as (_ & x & t & Hx & Ho & _ & _ & [= Hi Hf Hd]).
    eapply (leaves_alone_replace _ _ _ x (i_with_status x IdentityStatusDeleted t)); eauto.
    intros id' _. simpl. by rewrite Hf.
Qed.

(** Owners cannot touch each other's identities.  Under a scope without admin
    rights, whatever the call (creating, updating forwarding, rotating, deleting)
    and whatever identity id it names, every active identity of another owner is
    afterwards exactly as it was, with the same forwarding recipients, and the
    sender domains are unchanged; and [CredentialsForScope] only ever shows the
    password of an identity of the caller. *)
Theorem owners_isolated scope (call : repository_call) w :
  wf w → valid_call call → Admin scope = false →
  match call with
  | CallCreate s _ _ | CallUpdateForwarding s _ _ | CallRotate s _ | CallDelete s _ => s = scope
  | CallAuthenticate _ _ => False
  end →
  (∀ i, i ∈ idents w → i_Status i = IdentityStatusActive →
     i_OwnerEmail i ≠ normalizeOwnerEmail (OwnerEmail scope) →
     i ∈ idents (run_call call w) ∧ routes (i_ID i) (fwds (run_call call w)) ≡ₚ routes (i_ID i) (fwds w)) ∧
  doms (run_call call w) = doms w ∧
  ∀ identityID w' public password, CredentialsForScope key scope identityID w = (w', Ok (public, password)) →
    view w' = view w ∧ ∃ x, x ∈ idents w ∧ i_OwnerEmail x = normalizeOwnerEmail (OwnerEmail scope) ∧
      p_ID public = i_ID x ∧ decryptPassword key (i_PasswordCipher x) = Ok password.
Proof.
  intros Hwf Hvalid Hadm Hcall. destruct (call_isolated scope call w) as [H1 H2]; [done..|].
  split_and!; [done..|]. intros identityID w' public password H. unfold CredentialsForScope in H.
  apply eff_bind_Ok in H as (w1 & x & Hx & H). apply requireIdentity_inv in Hx as [V1 (Hin & _ & Ho & _)%(λ f, f x eq_refl)].
  apply eff_bind_Ok in H as (w2 & pw & Hpw & [= <- <- <-]). apply map_err_inv in Hpw as ([p|] & [= <- Hp] & Hy); [|done].
  injection Hy as <-. split; [done|]. exists x. unfold owner_scope in Ho. rewrite Hadm in Ho. simpl in Ho. by to_prop.
Qed.

(** The credentials and rotation responses omit the forwarding recipients: the
    public record says "forward_to": [], although the identity has recipients. *)
Theorem responses_omit_recipients scope identityID w w' public password :
  wf w →
  RotateForScope key scope identityID w = (w', Ok (public, password)) ∨
  CredentialsForScope key scope identityID w = (w', Ok (public, password)) →
  p_ForwardTo public = [] ∧
  ∃ record, record ∈ idents w ∧ i_ID record = p_ID public ∧ routes (i_ID record) (fwds w) ≠ [].
Proof.
  intros Hwf H.
  assert (∃ x y, x ∈ idents w ∧ i_ID x = i_ID y ∧ public = publicIdentity y []) as (x & y & Hx & Hid & ->).
  { destruct H as [H|H].
    - apply RotateForScope_inv in H as (_ & x & y & Hx & _ & _ & _ & _ & -> & Hy & _); [|done]. by exists x, y.
    - unfold CredentialsForScope in H. apply eff_bind_Ok in H as (w1 & x & Hx & H).
      apply requireIdentity_inv in Hx as [_ (Hin & _)%(λ f, f x eq_refl)].
      apply eff_bind_Ok in H as (w2 & pw & _ & [= _ <- _]). by exists x, x. }
  split; [done|]. exists x. split_and!; [done..|].
  destruct (proj1 (Forall_forall _ _) (wf_rows _ _ Hwf) x Hx) as (_ & _ & Hne & _). by intros E1; rewrite E1 in Hne.
Qed.
End guarantees.

(** * Witnesses *)
Definition demo_identities : Table (list Identity) Identity := list_table
  (λ l a, unique_or l (λ r, bool_decide (i_ID r = i_ID a) || bool_decide (i_EmailAddress r = i_EmailAddress a)
                            || bool_decide (i_Username r = i_Username a)) a)
  (λ l a, unique_or l (λ r, negb (bool_decide (i_ID r = i_ID a)) &&
     (bool_decide (i_EmailAddress r = i_EmailAddress a) || bool_decide (i_Username r = i_Username a))) a).
Lemma demo_identities_laws : TableLaws (list Identity) Identity (T := demo_identities).
Proof.
  apply list_table_laws.
  - intros s x y [-> H]%unique_or_Ok. split; [done|]. eapply Forall_impl; [exact H|]. intros r Hr.
    cbv beta in Hr. to_prop. by split_and!.
  - intros s x y [-> H]%unique_or_Ok. split; [exists (i_UpdatedAt x); by destruct x|].
    eapply Forall_impl; [exact H|]. intros r Hr Hne. cbv beta in Hr. rewrite (bool_decide_false _ Hne) in Hr.
    simpl in Hr. by to_prop.
Qed.

Definition demo_forwards : Table (list ForwardRecipient) ForwardRecipient := list_table
  (λ l a, unique_or l (λ r, bool_decide (f_ID r = f_ID a)
     || bool_decide ((f_IdentityID r, f_EmailAddress r) = (f_IdentityID a, f_EmailAddress a))) a)
  (λ l a, Ok a).
Lemma demo_forwards_laws : TableLaws (list ForwardRecipient) ForwardRecipient (T := demo_forwards).
Proof.
  apply list_table_laws.
  - intros s x y [-> H]%unique_or_Ok. split; [done|]. eapply Forall_impl; [exact H|]. intros r Hr. cbv beta in Hr. to_prop. by split_and!.
  - intros s x y [= <-]. exists (f_UpdatedAt x). by destruct x.
Qed.

Definition demo_domains : Table (list SenderDomain) SenderDomain := list_table
  (λ l a, unique_or l (λ r, (d_ID r =? 1 + foldr Z.max 0 (d_ID <$> l)) || bool_decide (d_Domain r = d_Domain a))
     (d_set_ID a (1 + foldr Z.max 0 (d_ID <$> l))))
  (λ l a, unique_or l (λ r, negb (d_ID r =? d_ID a) && bool_decide (d_Domain r = d_Domain a)) a).
Lemma demo_domains_laws : TableLaws (list SenderDomain) SenderDomain (T := demo_domains).
Proof.
  apply list_table_laws.
  - intros s x y [-> H]%unique_or_Ok. eexists. split; [done|].
    split; [|eapply Forall_impl; [exact H|]; intros r Hr; cbv beta in Hr; to_prop; by split_and!].
    clear. assert (0 ≤ foldr Z.max 0 (d_ID <$> s)); [|lia]. induction s; csimpl; lia.
  - intros s x y [-> H]%unique_or_Ok. split; [exists (d_UpdatedAt x); by destruct x|].
    eapply Forall_impl; [exact H|]. intros r Hr Hne. cbv beta in Hr.
    rewrite (proj2 (Z.eqb_neq _ _) Hne) in Hr. simpl in Hr. by to_prop.
Qed.

Definition demo_key : string := "0123456789abcdef0123456789abcdef".
Definition demo_world : world (list Identity) (list ForwardRecipient) (list SenderDomain) Z :=
  MkWorld [] [] [MkDomain 1 "o@x.y" "x.y" SenderDomainStatusVerified "t" None 0 0] 0.
Definition demo_scope : AccessScope := MkScope "O@x.y" false.
Definition demo_commit : list Identity → list ForwardRecipient → list SenderDomain → result unit := λ _ _ _, Ok tt.
Definition me : Address := MkAddress "me@x.y" "x.y".
Definition friend : Address := MkAddress "b@z.w" "z.w".
Definition other : Address := MkAddress "a@z.w" "z.w".

#[local] Existing Instance ascii_unicode.
#[local] Existing Instance simple_mail.
#[local] Existing Instance plain_crypto.
#[local] Existing Instance counter_env.
#[local] Existing Instance counter_env_laws.
#[local] Existing Instance demo_identities.
#[local] Existing Instance demo_identities_laws.
#[local] Existing Instance demo_forwards.
#[local] Existing Instance demo_forwards_laws.
#[local] Existing Instance demo_domains.
#[local] Existing Instance demo_domains_laws.

Lemma demo_wf : wf demo_world.
Proof. by split; constructor. Qed.

Definition demo_call : repository_call := CallCreate demo_scope me [friend; other].
(** The world after one identity was created. *)
Definition demo_created : world (list Identity) (list ForwardRecipient) (list SenderDomain) Z :=
  run_call demo_key demo_commit demo_call demo_world.
Lemma demo_created_wf : wf demo_created.
Proof. apply run_call_wf; [vm_compute; reflexivity|apply demo_wf]. Qed.

#[local] Existing Instance list_table_reliable.
Lemma demo_normal_owner : normalizeOwnerEmail (normalizeOwnerEmail (OwnerEmail demo_scope)) =
  normalizeOwnerEmail (OwnerEmail demo_scope).
Proof. vm_compute. reflexivity. Qed.

(** Create, log in, rotate, delete. *)
Definition demo_calls : list repository_call :=
  [demo_call; CallAuthenticate "smtp_YWFhYWFhYWFhYWFh" "pgsmtp_YmJiYmJiYmJiYmJiYmJiYmJiYmJiYmJi";
   CallRotate demo_scope "id4"; CallDelete demo_scope "id4"].
Lemma identities_invariant_witness :
  let w := foldl (λ w c, run_call demo_key demo_commit c w) demo_world demo_calls in
  NoDup (i_Username <$> idents w) ∧ i_Status <$> idents w = [IdentityStatusDeleted].
Proof.
  split; [|vm_compute; reflexivity].
  apply (identities_invariant demo_key demo_commit demo_calls demo_world); [|apply demo_wf].
  repeat constructor.
Defined.

Definition demo_password : string := "pgsmtp_YmJiYmJiYmJiYmJiYmJiYmJiYmJiYmJi".
Lemma demo_created_run :
  CreateForScope demo_key demo_commit demo_scope me [friend; other] demo_world
  = (demo_created, Ok (MkPublic "id4" "me@x.y" "smtp_YWFhYWFhYWFhYWFh" ["a@z.w"; "b@z.w"] IdentityStatusActive
                         None 1000 1000, demo_password)).
Proof. vm_compute. reflexivity. Qed.

Definition demo_logged_in := (Authenticate demo_key " smtp_YWFhYWFhYWFhYWFh" demo_password demo_created).1.
Lemma authenticate_sound_witness :
  Authenticate demo_key " smtp_YWFhYWFhYWFhYWFh" demo_password demo_created =
    (demo_logged_in, Ok (MkAuthenticated "id4" me "smtp_YWFhYWFhYWFhYWFh")) ∧
  ∃ record, record ∈ idents demo_created ∧ i_Status record = IdentityStatusActive.
Proof.
  assert (Authenticate demo_key " smtp_YWFhYWFhYWFhYWFh" demo_password demo_created =
    (demo_logged_in, Ok (MkAuthenticated "id4" me "smtp_YWFhYWFhYWFhYWFh"))) as H by (vm_compute; reflexivity).
  split; [exact H|].
  destruct (authenticate_sound demo_key _ _ _ _ _ H) as (record & d & now & Hin & Hact & _).
  exists record. split; [exact Hin|exact Hact].
Defined.

Lemma created_identity_works_witness :
  (∃ w3, Authenticate demo_key "smtp_YWFhYWFhYWFhYWFh" demo_password demo_created =
     (w3, Ok (MkAuthenticated "id4" me "smtp_YWFhYWFhYWFhYWFh"))).
Proof.
  destruct (created_identity_works demo_key demo_commit demo_scope me [friend; other] demo_world demo_created
    demo_created _ _ demo_wf ltac:(vm_compute; reflexivity) ltac:(repeat constructor)
    demo_normal_owner demo_created_run eq_refl eq_refl eq_refl) as (Ha & _).
  exact Ha.
Defined.

Definition demo_deleted := (DeleteForScope demo_scope "id4" demo_created).1.
Lemma revocation_witness :
  DeleteForScope demo_scope "id4" demo_created = (demo_deleted, Ok tt) ∧
  ∀ password w3 r, Authenticate demo_key "smtp_YWFhYWFhYWFhYWFh" password demo_deleted = (w3, r) → ∃ e, r = Err e.
Proof.
  assert (DeleteForScope demo_scope "id4" demo_created = (demo_deleted, Ok tt)) as H by (vm_compute; reflexivity).
  split; [exact H|].
  destruct (revocation demo_key demo_scope "id4" true demo_created demo_deleted demo_deleted demo_created_wf
    (ex_intro _ tt H) eq_refl) as (x & Hx & _ & Hid & Hno & _).
  intros password w3 r. apply Hno.
  assert (∀ i, i ∈ idents demo_created → i_Username i = "smtp_YWFhYWFhYWFhYWFh"%string) as Hu.
  { apply Forall_forall. vm_compute. repeat constructor. }
  rewrite (Hu x Hx). vm_compute. reflexivity.
Defined.

Definition intruder : AccessScope := MkScope "evil@z.w" false.
Lemma owners_isolated_witness :
  ∃ i, i ∈ idents demo_created ∧ i ∈ idents (run_call demo_key demo_commit (CallDelete intruder "id4") demo_created).
Proof.
  assert (∃ i, i ∈ idents demo_created ∧ i_Status i = IdentityStatusActive ∧ i_OwnerEmail i = "o@x.y"%string)
    as (i & Hi & Hact & Ho).
  { eexists. split; [vm_compute; left|]. split; reflexivity. }
  exists i. split; [exact Hi|].
  destruct (owners_isolated demo_key demo_commit intruder (CallDelete intruder "id4") demo_created
    demo_created_wf I eq_refl eq_refl) as [H _].
  apply H; [exact Hi|exact Hact|]. rewrite Ho. vm_compute. discriminate.
Defined.

Definition demo_shown := (CredentialsForScope demo_key demo_scope "id4" demo_created).1.
Lemma responses_omit_recipients_witness :
  CredentialsForScope demo_key demo_scope "id4" demo_created =
    (demo_shown, Ok (MkPublic "id4" "me@x.y" "smtp_YWFhYWFhYWFhYWFh" [] IdentityStatusActive None 1000 1000,
       demo_password)) ∧
  ∃ record, record ∈ idents demo_created ∧ routes (i_ID record) (fwds demo_created) ≠ [].
Proof.
  assert (CredentialsForScope demo_key demo_scope "id4" demo_created =
    (demo_shown, Ok (MkPublic "id4" "me@x.y" "smtp_YWFhYWFhYWFhYWFh" [] IdentityStatusActive None 1000 1000,
       demo_password))) as H by (vm_compute; reflexivity).
  split; [exact H|].
  destruct (responses_omit_recipients demo_key demo_scope "id4" demo_created demo_shown _ _ demo_created_wf
    (or_intror H)) as (_ & record & Hin & _ & Hne).
  exists record. split; [exact Hin|exact Hne].
Defined.
