(* ===== verification/SenderDomains.v ===== *)
(** Sender domains and the identity service
    (src/internal/smtpidentity/domain_repository.go, dns_verification.go and
    service.go): registration of a domain, the DNS records its owner must publish,
    the three DNS checks that verify it, and the service's workflows over the
    repository of Identity. *)
From S2P Require Import Prelude GoStrings Address Base64 Crypto Gorm Identity IdentityProofs.
Open Scope Z_scope.

Definition ErrSenderDomainExists : error := New "smtp_identity.sender_domain.exists".
Definition ErrSenderDomainNotFound : error := New "smtp_identity.sender_domain.not_found".

Record PublicSettings := MkSettings { s_Host : string; s_Port : Z; s_SecurityMode : string }.
Record Credentials := MkCredentials {
  cr_Identity : PublicIdentity;
  cr_SMTPSettings : PublicSettings;
  cr_Username : string;
  cr_Password : string;
}.
Record DNSRecord := MkDNSRecord { r_Type : string; r_Host : string; r_Value : string; r_Purpose : string }.
Record DNSCheck := MkDNSCheck {
  k_Type : string;
  k_Host : string;
  k_Expected : string;
  k_Passed : bool;
  k_Message : string;
}.
Record PublicSenderDomain := MkPublicDomain {
  pd_ID : Z;
  pd_Domain : string;
  pd_Status : string;
  pd_DNSRecords : list DNSRecord;
  pd_DNSChecks : list DNSCheck;
  pd_LastCheckedAt : option Time;
  pd_CreatedAt : Time;
  pd_UpdatedAt : Time;
}.

(** * What DNS must say *)
Definition dnsRecordTypeTXT : string := "TXT".
Definition challengeHost (domain : string) : string := "_pinguin-challenge." ++ domain.
Definition dmarcHost (domain : string) : string := "_dmarc." ++ domain.
Definition challengeValue (token : string) : string := "pinguin-domain-verification=" ++ TrimSpace token.
Definition spfMechanism (settings : PublicSettings) : string := "a:" ++ TrimSpace (s_Host settings).
Definition spfStarterValue (settings : PublicSettings) : string := "v=spf1 " ++ spfMechanism settings ++ " ~all".

Definition senderDomainDNSRecords (settings : PublicSettings) (domain : SenderDomain) : list DNSRecord :=
  [MkDNSRecord dnsRecordTypeTXT (challengeHost (d_Domain domain)) (challengeValue (d_VerificationToken domain))
     "Verify domain ownership";
   MkDNSRecord dnsRecordTypeTXT (d_Domain domain) (spfStarterValue settings) "Authorize Pinguin SMTP relay";
   MkDNSRecord dnsRecordTypeTXT (dmarcHost (d_Domain domain)) "v=DMARC1; p=none" "Publish a DMARC policy"].

Definition publicSenderDomain (settings : PublicSettings) (domain : SenderDomain) (checks : list DNSCheck)
    : PublicSenderDomain :=
  MkPublicDomain (d_ID domain) (d_Domain domain) (d_Status domain) (senderDomainDNSRecords settings domain)
    checks (d_LastCheckedAt domain) (d_CreatedAt domain) (d_UpdatedAt domain).

Definition allDNSChecksPassed (checks : list DNSCheck) : bool := forallb k_Passed checks.

Section matchers.
Context `{U : Unicode}.

Definition exactTXTMatch (values : list string) (expected : string) : bool :=
  existsb (λ value, bool_decide (TrimSpace value = expected)) values.

Definition spfTXTMatch (values : list string) (expectedMechanism : string) : bool :=
  existsb (λ value,
    match Fields (ToLower (TrimSpace value)) with
    | [] => false
    | version :: fields =>
        bool_decide (version = "v=spf1"%string)
        && existsb (λ field, bool_decide (TrimSpace field = ToLower expectedMechanism)) fields
    end) values.

Definition dmarcTXTMatch (values : list string) (_ : string) : bool :=
  existsb (λ value, let normalizedValue := ToLower (TrimSpace value) in
                    HasPrefix normalizedValue "v=dmarc1" && Contains normalizedValue "p=") values.
End matchers.

(** * Repository and service *)
Section domains.
Context `{U : Unicode} `{M : NetMail} `{K : Crypto}.
Context {SI SF SD E : Type}.
Context `{TI : Table SI Identity} `{TF : Table SF ForwardRecipient} `{TD : Table SD SenderDomain}.
Context `{Env : Environment E}.
Context (key : string) (Commit : SI → SF → SD → result unit).
#[local] Abbreviation W := (world SI SF SD E).

Definition d_with_token (d : SenderDomain) (token : string) (now : Time) : SenderDomain :=
  MkDomain (d_ID d) (d_OwnerEmail d) (d_Domain d) (d_Status d) token (d_LastCheckedAt d) (d_CreatedAt d) now.
Definition d_with_status (d : SenderDomain) (status : string) (checkedAt : Time) : SenderDomain :=
  MkDomain (d_ID d) (d_OwnerEmail d) (d_Domain d) status (d_VerificationToken d) (Some checkedAt)
    (d_CreatedAt d) checkedAt.

Definition ensureSenderDomainToken (record : SenderDomain) : eff W SenderDomain :=
  if bool_decide (TrimSpace (d_VerificationToken record) ≠ ""%string) then mret record else
  token ← on_env (randomToken 24);
  now ← clock;
  map_err (Wrapf "smtp identity sender domain token: %w" []) (on_domains (Save (d_with_token record token now))).

Definition ListSenderDomainsForScope (scope : AccessScope) : eff W (list SenderDomain) :=
  map_err (Wrapf "smtp identity sender domains list: %w" [])
    (on_domains (FindOrdered (λ d, owner_scope scope (d_OwnerEmail d))
       (λ a b, String.leb (d_Domain a) (d_Domain b)) None)).

Definition CreateSenderDomainForScope (scope : AccessScope) (domain : string) : eff W SenderDomain :=
  normalizedDomain ← lift (NormalizeSenderDomain domain);
  lift (guard_err (bool_decide (normalizedDomain = ""%string)) ErrInvalidSenderDomain);;
  let ownerEmail := normalizeOwnerEmail (OwnerEmail scope) in
  found ← try_eff (on_domains (First (λ d, bool_decide (d_Domain d = normalizedDomain))));
  match found with
  | Ok existing =>
      if bool_decide (d_OwnerEmail existing = ownerEmail) || Admin scope
      then ensureSenderDomainToken existing
      else lift (Err (Wrapf "%w: %s" [FStr normalizedDomain] ErrSenderDomainExists))
  | Err e =>
      if negb (errors_Is e ErrRecordNotFound)
      then lift (Err (Wrapf "smtp identity sender domain lookup: %w" [] e)) else
      token ← on_env (randomToken 24);
      now ← clock;
      map_err (Wrapf "smtp identity sender domain create: %w" [])
        (on_domains (Create (MkDomain 0 ownerEmail normalizedDomain SenderDomainStatusPending token None now now)))
  end.

Definition RequireSenderDomainForScope (scope : AccessScope) (domainID : Z) : eff W SenderDomain :=
  record ← map_err (λ e, if errors_Is e ErrRecordNotFound then ErrSenderDomainNotFound
                         else Wrapf "smtp identity sender domain lookup: %w" [] e)
    (on_domains (First (λ d, (d_ID d =? domainID) && owner_scope scope (d_OwnerEmail d))));
  ensureSenderDomainToken record.

Definition UpdateSenderDomainStatusForScope (scope : AccessScope) (domainID : Z) (status : string)
    (checkedAt : Time) : eff W SenderDomain :=
  record ← RequireSenderDomainForScope scope domainID;
  map_err (Wrapf "smtp identity sender domain status: %w" [])
    (on_domains (Save (d_with_status record status checkedAt))).

(** ** DNS *)
Definition checkTXT (host expected : string) (matcher : list string → string → bool)
    (successMessage failureMessage : string) : E → E * DNSCheck := λ e,
  let '(e, r) := LookupTXT host e in
  match r with
  | Err _ => (e, MkDNSCheck dnsRecordTypeTXT host expected false failureMessage)
  | Ok values =>
      if matcher values expected then (e, MkDNSCheck dnsRecordTypeTXT host expected true successMessage)
      else (e, MkDNSCheck dnsRecordTypeTXT host expected false failureMessage)
  end.

Definition checkSenderDomainDNS (settings : PublicSettings) (domain : SenderDomain) : eff W (list DNSCheck) :=
  on_env (λ e,
    let '(e, c1) := checkTXT (challengeHost (d_Domain domain)) (challengeValue (d_VerificationToken domain))
      exactTXTMatch "ownership TXT matched" "ownership TXT is missing" e in
    let '(e, c2) := checkTXT (d_Domain domain) (spfMechanism settings) spfTXTMatch
      "SPF authorizes Pinguin relay" "SPF is missing the Pinguin relay mechanism" e in
    let '(e, c3) := checkTXT (dmarcHost (d_Domain domain)) "v=DMARC1" dmarcTXTMatch
      "DMARC policy found" "DMARC policy is missing" e in
    (e, Ok [c1; c2; c3])).

(** ** The service *)
Context (settings : PublicSettings).

Definition ListSenderDomains (scope : AccessScope) : eff W (list PublicSenderDomain) :=
  domains ← ListSenderDomainsForScope scope;
  mret ((λ d, publicSenderDomain settings d []) <$> domains).
Definition CreateSenderDomain (scope : AccessScope) (domain : string) : eff W PublicSenderDomain :=
  record ← CreateSenderDomainForScope scope domain;
  mret (publicSenderDomain settings record []).

Definition CheckSenderDomainDNS (scope : AccessScope) (domainID : Z) : eff W PublicSenderDomain :=
  record ← RequireSenderDomainForScope scope domainID;
  checks ← checkSenderDomainDNS settings record;
  let nextStatus := if allDNSChecksPassed checks then SenderDomainStatusVerified else SenderDomainStatusPending in
  now ← clock;
  updated ← UpdateSenderDomainStatusForScope scope domainID nextStatus now;
  mret (publicSenderDomain settings updated checks).

Definition credentials (identity : PublicIdentity) (password : string) : Credentials :=
  MkCredentials identity settings (p_Username identity) password.
Definition Service_CreateForScope (scope : AccessScope) (address : Address) (forwardTo : list Address)
    : eff W Credentials :=
  r ← CreateForScope key Commit scope address forwardTo;
  mret (credentials r.1 r.2).
Definition Service_CredentialsForScope (scope : AccessScope) (identityID : string) : eff W Credentials :=
  r ← CredentialsForScope key scope (TrimSpace identityID);
  mret (credentials r.1 r.2).
Definition Service_RotateForScope (scope : AccessScope) (identityID : string) : eff W Credentials :=
  r ← RotateForScope key scope (TrimSpace identityID);
  mret (credentials r.1 r.2).
Definition Service_UpdateForwardingForScope (scope : AccessScope) (identityID : string)
    (forwardTo : list Address) : eff W PublicIdentity :=
  UpdateForwardingForScope Commit scope (TrimSpace identityID) forwardTo.
Definition Service_DeleteForScope (scope : AccessScope) (identityID : string) : eff W unit :=
  DeleteForScope scope (TrimSpace identityID).
Definition Service_ListForScope (scope : AccessScope) : eff W (list PublicIdentity) := ListForScope scope.

(** The operations without a scope. *)
Definition Service_List : eff W (list PublicIdentity) := Repository_List.
Definition Service_Create (address : Address) (forwardTo : list Address) : eff W Credentials :=
  r ← Repository_Create key Commit address forwardTo;
  mret (credentials r.1 r.2).
Definition Service_Credentials (identityID : string) : eff W Credentials :=
  r ← Repository_Credentials key (TrimSpace identityID);
  mret (credentials r.1 r.2).
Definition Service_Rotate (identityID : string) : eff W Credentials :=
  r ← Repository_Rotate key (TrimSpace identityID);
  mret (credentials r.1 r.2).
Definition Service_UpdateForwarding (identityID : string) (forwardTo : list Address) : eff W PublicIdentity :=
  Repository_UpdateForwarding Commit (TrimSpace identityID) forwardTo.
Definition Service_Delete (identityID : string) : eff W unit := Repository_Delete (TrimSpace identityID).
End domains.

(** * The advertised records satisfy the checks *)
Definition plain (s : string) : Prop := Forall (λ c, plain_ascii c = true) (explode s).

Lemma lower_plain c : plain_ascii c = true → plain_ascii (lower_ascii c) = true.
Proof. destruct c as [[] [] [] [] [] [] [] []]; vm_compute; congruence. Qed.

Lemma lower_plain_all l :
  Forall (λ c, plain_ascii c = true) l → Forall (λ c, plain_ascii c = true) (lower_ascii <$> l).
Proof. induction 1; csimpl; constructor; [by apply lower_plain|done]. Qed.

Lemma plain_ascii_only l : Forall (λ c, plain_ascii c = true) l → ascii_only_b l = true.
Proof.
  induction 1 as [|c l Hc _ IH]; [done|]. unfold ascii_only_b in *. simpl. rewrite IH.
  unfold plain_ascii in Hc. to_prop. by rewrite (proj2 (Z.ltb_lt _ _)).
Qed.

Lemma ascii_only_app l k : ascii_only_b (l ++ k) = ascii_only_b l && ascii_only_b k.
Proof. apply forallb_app. Qed.

(** A word, and the space behind it. *)
Lemma fields_b_word cur w rest :
  Forall (λ c, plain_ascii c = true) w → (cur ≠ [] ∨ w ≠ []) →
  fields_b cur (w ++ " "%char :: rest) = (reverse cur ++ w) :: fields_b [] rest.
Proof.
  intros Hw. revert cur. induction Hw as [|c w Hc Hw IH]; intros cur Hne; cbn [app].
  - cbn [fields_b]. replace (ws1 " "%char) with true by reflexivity.
    destruct cur; [tauto|]. cbn [flush]. by rewrite app_nil_r.
  - assert (fields_b cur (c :: w ++ " "%char :: rest) = fields_b (c :: cur) (w ++ " "%char :: rest)) as ->.
    { cbn [fields_b]. assert (ws1 c = false) as -> by (unfold plain_ascii in Hc; by to_prop).
      destruct (w ++ " "%char :: rest) as [|d l2] eqn:E; [by destruct w|].
      rewrite ws2_plain by done. destruct l2; [done|]. by rewrite ws3_plain. }
    rewrite IH by auto. by rewrite reverse_cons, <- app_assoc.
Qed.

Lemma fields_b_last cur w :
  Forall (λ c, plain_ascii c = true) w → (cur ≠ [] ∨ w ≠ []) → fields_b cur w = [reverse cur ++ w].
Proof.
  intros Hw. revert cur. induction Hw as [|c w Hc Hw IH]; intros cur Hne.
  - destruct cur; [tauto|]. cbn [fields_b flush]. by rewrite app_nil_r.
  - assert (fields_b cur (c :: w) = fields_b (c :: cur) w) as ->.
    { cbn [fields_b]. assert (ws1 c = false) as -> by (unfold plain_ascii in Hc; by to_prop).
      destruct w as [|d l2]; [done|]. rewrite ws2_plain by done. destruct l2; [done|]. by rewrite ws3_plain. }
    rewrite IH by auto. by rewrite reverse_cons, <- app_assoc.
Qed.

Lemma spf_text_trim h : TrimSpace_b (explode "v=spf1 a:" ++ h ++ explode " ~all") = explode "v=spf1 a:" ++ h ++ explode " ~all".
Proof.
  unfold TrimSpace_b, trim_right_b.
  assert (trim_left_b (explode "v=spf1 a:" ++ h ++ explode " ~all") = explode "v=spf1 a:" ++ h ++ explode " ~all")
    as -> by reflexivity.
  rewrite app_assoc, reverse_app. set (k := reverse (explode "v=spf1 a:" ++ h)).
  transitivity (reverse (reverse (explode " ~all") ++ k)); [done|].
  subst k. by rewrite reverse_app, !reverse_involutive.
Qed.

Section advertised.
Context `{U : Unicode}.

Lemma advertised_spf settings :
  plain (TrimSpace (s_Host settings)) →
  spfTXTMatch [spfStarterValue settings] (spfMechanism settings) = true.
Proof.
  intros Hh. unfold spfTXTMatch, existsb. set (h := explode (TrimSpace (s_Host settings))) in *.
  assert (explode (spfStarterValue settings) = explode "v=spf1 a:" ++ h ++ explode " ~all") as Hv.
  { unfold spfStarterValue, spfMechanism. autorewrite with gostr. done. }
  assert (Fields (ToLower (TrimSpace (spfStarterValue settings))) =
    ["v=spf1"; implode (explode "a:" ++ (lower_ascii <$> h)); "~all"]%string) as ->.
  { unfold TrimSpace. rewrite Hv, spf_text_trim. unfold ToLower, Fields. rewrite explode_implode.
    assert (ascii_only_b (explode "v=spf1 a:" ++ h ++ explode " ~all") = true) as ->.
    { by rewrite !ascii_only_app, (plain_ascii_only h Hh). }
    rewrite explode_implode, !fmap_app.
    assert ((lower_ascii <$> explode "v=spf1 a:") ++ (lower_ascii <$> h) ++ (lower_ascii <$> explode " ~all") =
      explode "v=spf1" ++ " "%char :: (explode "a:" ++ (lower_ascii <$> h)) ++ " "%char :: explode "~all")
      as -> by reflexivity.
    rewrite fields_b_word by (try (by repeat constructor); by right).
    rewrite fields_b_word, fields_b_last; [done| | | |]; try (by repeat constructor); try (by right).
    repeat constructor. by apply lower_plain_all. }
  rewrite bool_decide_true by done. rewrite bool_decide_true; [done|].
  assert (ToLower (spfMechanism settings) = implode (explode "a:" ++ (lower_ascii <$> h))) as ->.
  { unfold ToLower, spfMechanism. rewrite explode_app. fold h.
    assert (ascii_only_b (explode "a:" ++ h) = true) as ->.
    { by rewrite ascii_only_app, (plain_ascii_only h Hh). }
    by rewrite fmap_app. }
  apply TrimSpace_plain. autorewrite with gostr. repeat constructor. by apply lower_plain_all.
Qed.

Lemma advertised_challenge token :
  plain token → exactTXTMatch [challengeValue token] (challengeValue token) = true.
Proof.
  intros Ht. unfold exactTXTMatch, challengeValue. cbn [existsb]. rewrite (TrimSpace_plain token) by done.
  rewrite (TrimSpace_plain_app "pinguin-domain-verification=" token); [|by repeat constructor|done].
  by rewrite bool_decide_true.
Qed.
End advertised.

(** * What the operations do to the domains *)
Definition standing (d : SenderDomain) : Z * string * string * string :=
  (d_ID d, d_OwnerEmail d, d_Domain d, d_Status d).

Lemma standing_ids (l k : list SenderDomain) : standing <$> l = standing <$> k → d_ID <$> l = d_ID <$> k.
Proof.
  intros H. apply (f_equal (fmap (λ x : Z * string * string * string, x.1.1.1))) in H.
  by rewrite <- !list_fmap_compose in H.
Qed.

Section domain_lemmas.
Context `{U : Unicode} `{M : NetMail} `{K : Crypto}.
Context {SI SF SD E : Type}.
Context `{TI : Table SI Identity} `{TF : Table SF ForwardRecipient} `{TD : Table SD SenderDomain}.
Context `{LI : !TableLaws SI Identity} `{LF : !TableLaws SF ForwardRecipient} `{LD : !TableLaws SD SenderDomain}.
Context `{Env : Environment E}.
Implicit Types w : world SI SF SD E.

(** Everything but the domains is as it was, and they keep their standing. *)
Definition same_standing w w' : Prop :=
  idents w' = idents w ∧ fwds w' = fwds w ∧ standing <$> doms w' = standing <$> doms w.

Lemma same_standing_view w w' : view w' = view w → same_standing w w'.
Proof. intros [= Hi Hf Hd]. unfold same_standing. by rewrite Hi, Hf, Hd. Qed.
Lemma same_standing_trans w1 w2 w3 : same_standing w1 w2 → same_standing w2 w3 → same_standing w1 w3.
Proof. intros (?&?&?) (?&?&?). unfold same_standing. split_and!; congruence. Qed.

Lemma domain_Save_inv context x w w' r :
  d_ID x ∈ (d_ID <$> doms w) → map_err (Wrapf context []) (on_domains (Save x)) w = (w', r) →
  match r with
  | Ok y => (∃ t, y = d_touch x t) ∧
      view w' = (idents w, fwds w, (λ z, if d_ID x =? d_ID z then y else z) <$> doms w)
  | Err _ => view w' = view w
  end.
Proof.
  intros Hin H. apply map_err_inv in H as (y & (v & H & ->)%zoom_inv & ->). apply Save_law in H.
  - unfold view, idents, fwds, doms in *. simpl. destruct y as [y|]; [|by rewrite H].
    destruct H as ((Ht & _) & ->). done.
  - apply list_elem_of_fmap in Hin as (z & Hz & Hzin). apply existsb_exists. exists z.
    split; [by apply list_elem_of_In|]. by apply Z.eqb_eq.
Qed.

(** The one row with a key changes, in [g]'s way. *)
Lemma standing_replace (l : list SenderDomain) x y :
  NoDup (d_ID <$> l) → x ∈ l → standing y = standing x →
  standing <$> ((λ z, if d_ID x =? d_ID z then y else z) <$> l) = standing <$> l.
Proof.
  intros Hnd Hx Hy. rewrite <- list_fmap_compose. apply list_fmap_ext. intros k z Hz%list_elem_of_lookup_2.
  simpl. destruct (Z.eqb_spec (d_ID x) (d_ID z)) as [E1|]; [|done]. rewrite Hy. f_equal.
  by apply (NoDup_fmap_inj_on d_ID l).
Qed.

Lemma ensureSenderDomainToken_inv d w w' r :
  NoDup (d_ID <$> doms w) → d ∈ doms w → ensureSenderDomainToken d w = (w', r) →
  same_standing w w' ∧ ∀ d', r = Ok d' → d' ∈ doms w' ∧ standing d' = standing d ∧
    (TrimSpace (d_VerificationToken d) ≠ ""%string → d_VerificationToken d' = d_VerificationToken d).
Proof.
  intros Hnd Hd H. unfold ensureSenderDomainToken in H. case_bool_decide as Ht.
  { injection H as <- <-. split; [by apply same_standing_view|]. by intros d' [= <-]. }
  apply eff_bind_inv in H as [(e & H & ->)|(w1 & token & H1 & H)].
  { apply on_env_inv in H as [H _]. split; [by apply same_standing_view|done]. }
  apply on_env_inv in H1 as [V1 _].
  apply eff_bind_inv in H as [(e & H & ->)|(w2 & now & H1 & H)].
  { apply clock_inv in H as [H _]. split; [apply same_standing_view; congruence|done]. }
  apply clock_inv in H1 as [V2 _]. rewrite V1 in V2. pose proof V2 as [= Vi Vf Vd].
  apply domain_Save_inv in H; [|simpl; rewrite Vd; by apply list_elem_of_fmap_2].
  destruct r as [y|]; [|split; [apply same_standing_view; congruence|done]].
  destruct H as ((t & ->) & [= Hi Hf Hdm]). simpl in Hdm. rewrite Vd in Hdm. split.
  - unfold same_standing. rewrite Hi, Hf, Hdm, Vi, Vf. split_and!; [done..|]. by apply standing_replace.
  - intros d' [= <-]. split_and!; [|done|tauto]. rewrite Hdm. apply list_elem_of_fmap. exists d.
    by rewrite Z.eqb_refl.
Qed.

Lemma RequireSenderDomainForScope_inv scope domainID w w' r :
  NoDup (d_ID <$> doms w) → RequireSenderDomainForScope scope domainID w = (w', r) →
  same_standing w w' ∧ ∀ d', r = Ok d' → ∃ d, d ∈ doms w ∧ d_ID d = domainID ∧
    owner_scope scope (d_OwnerEmail d) = true ∧ d' ∈ doms w' ∧ standing d' = standing d ∧
    (TrimSpace (d_VerificationToken d) ≠ ""%string → d_VerificationToken d' = d_VerificationToken d).
Proof.
  intros Hnd H. unfold RequireSenderDomainForScope in H.
  apply eff_bind_inv in H as [(e & H & ->)|(w1 & d & H1 & H)].
  { apply map_err_inv in H as (x & [H _]%domain_First_inv & _). split; [by apply same_standing_view|done]. }
  apply map_err_inv in H1 as ([y|] & H1 & Hy); [|done]. injection Hy as <-.
  apply domain_First_inv in H1 as [V1 [Hin Hp]]. apply andb_true_iff in Hp as [Hid Hown]. apply Z.eqb_eq in Hid.
  pose proof V1 as [= Vi Vf Vd]. apply ensureSenderDomainToken_inv in H as [Hs Hd']; [|by rewrite Vd..].
  split; [eapply same_standing_trans; [by apply same_standing_view|done]|].
  intros d' Hr. destruct (Hd' d' Hr) as (? & ? & ?). exists d. by split_and!.
Qed.

(** The rows after a status was stored. *)
Lemma UpdateSenderDomainStatus_inv scope domainID status checkedAt w w' r :
  NoDup (d_ID <$> doms w) → UpdateSenderDomainStatusForScope scope domainID status checkedAt w = (w', r) →
  idents w' = idents w ∧ fwds w' = fwds w ∧
  match r with
  | Err _ => standing <$> doms w' = standing <$> doms w
  | Ok d' => (∃ d, d ∈ doms w ∧ d_ID d = domainID ∧ standing d' = ((standing d).1, status)) ∧
      standing <$> doms w' = (λ z, if d_ID z =? domainID then ((standing z).1, status) else standing z) <$> doms w
  end.
Proof.
  intros Hnd H. unfold UpdateSenderDomainStatusForScope in H.
  apply eff_bind_inv in H as [(e & H & ->)|(w1 & d1 & H1 & H)].
  { by apply RequireSenderDomainForScope_inv in H as [(? & ? & ?) _]. }
  apply RequireSenderDomainForScope_inv in H1 as [(Hi & Hf & Hst) Hreq]; [|done].
  destruct (Hreq d1 eq_refl) as (d & Hd & Hid & _ & Hd1 & Hs1 & _).
  apply domain_Save_inv in H; [|simpl; by apply list_elem_of_fmap_2].
  destruct r as [d'|]; [|injection H as -> -> ->; by split_and!].
  destruct H as ((t & ->) & [= Hi' Hf' Hd']). simpl in Hd'. rewrite Hi', Hf', Hi, Hf. split_and!; [done..| |].
  - exists d. split_and!; [done..|]. unfold standing in *. simpl. congruence.
  - assert (d_ID d1 = domainID) as E1 by (unfold standing in Hs1; congruence).
    transitivity ((λ s : Z * string * string * string, if s.1.1.1 =? domainID then (s.1, status) else s)
                    <$> (standing <$> doms w1)).
    + rewrite Hd', <- !list_fmap_compose. apply list_fmap_ext. intros k z Hz%list_elem_of_lookup_2. simpl.
      rewrite E1, (Z.eqb_sym domainID). destruct (Z.eqb_spec (d_ID z) domainID) as [E2|]; [|done].
      assert (z = d1) as ->; [|done]. apply (NoDup_fmap_inj_on d_ID (doms w1)); [|done..|congruence].
      by rewrite (standing_ids _ _ Hst).
    + by rewrite Hst, <- list_fmap_compose.
Qed.

(** ** The checks *)
Lemma checkTXT_spec host expected matcher ok bad (e e' : E) c :
  checkTXT host expected matcher ok bad e = (e', c) →
  k_Host c = host ∧ (k_Passed c = true ↔ ∃ e1 values, LookupTXT host e = (e1, Ok values) ∧ matcher values expected = true).
Proof.
  unfold checkTXT. destruct (LookupTXT host e) as [e1 [values|err]] eqn:El.
  - destruct (matcher values expected) eqn:Em; intros [= <- <-]; (split; [done|]); simpl; naive_solver.
  - intros [= <- <-]. split; [done|]. simpl. naive_solver.
Qed.

(** What three passed checks mean. *)
Definition dns_confirms (settings : PublicSettings) (domain token : string) : Prop :=
  (∃ (e e' : E) values v, LookupTXT (challengeHost domain) e = (e', Ok values) ∧ v ∈ values ∧
     TrimSpace v = challengeValue token) ∧
  (∃ (e e' : E) values, LookupTXT domain e = (e', Ok values) ∧ spfTXTMatch values (spfMechanism settings) = true) ∧
  (∃ (e e' : E) values, LookupTXT (dmarcHost domain) e = (e', Ok values) ∧ dmarcTXTMatch values "v=DMARC1" = true).

Lemma checkSenderDomainDNS_inv settings domain w w' r :
  checkSenderDomainDNS settings domain w = (w', r) → view w' = view w ∧
  ∃ checks, r = Ok checks ∧ (allDNSChecksPassed checks = true →
    dns_confirms settings (d_Domain domain) (d_VerificationToken domain)).
Proof.
  unfold checkSenderDomainDNS. intros [Hv (e & H)]%on_env_inv. split; [done|].
  destruct (checkTXT (challengeHost _) _ _ _ _ _) as [e1 c1] eqn:E1.
  destruct (checkTXT (d_Domain domain) _ _ _ _ _) as [e2 c2] eqn:E2.
  destruct (checkTXT (dmarcHost _) _ _ _ _ _) as [e3 c3] eqn:E3. injection H as _ <-.
  eexists. split; [done|]. unfold allDNSChecksPassed. simpl. intros Hall.
  apply checkTXT_spec in E1 as [_ E1], E2 as [_ E2], E3 as [_ E3].
  destruct (k_Passed c1); [|done]. destruct (k_Passed c2); [|done]. destruct (k_Passed c3); [|done].
  destruct (proj1 E1 eq_refl) as (e1' & v1 & L1 & M1). destruct (proj1 E2 eq_refl) as (e2' & v2 & L2 & M2).
  destruct (proj1 E3 eq_refl) as (e3' & v3 & L3 & M3).
  split_and!; [|by eauto 10..]. unfold exactTXTMatch in M1. apply existsb_exists in M1 as (v & Hv1 & Hm). to_prop.
  exists (w_env w), e1', v1, v. split_and!; [done|by apply list_elem_of_In|done].
Qed.
End domain_lemmas.

(** * Guarantees *)
Section domain_guarantees.
Context `{U : Unicode} `{M : NetMail} `{K : Crypto}.
Context {SI SF SD E : Type}.
Context `{TI : Table SI Identity} `{TF : Table SF ForwardRecipient} `{TD : Table SD SenderDomain}.
Context `{LI : !TableLaws SI Identity} `{LF : !TableLaws SF ForwardRecipient} `{LD : !TableLaws SD SenderDomain}.
Context `{Env : Environment E}.
Implicit Types w : world SI SF SD E.

Lemma CheckSenderDomainDNS_inv settings scope domainID w w' r :
  NoDup (d_ID <$> doms w) →
  CheckSenderDomainDNS settings scope domainID w = (w', r) →
  idents w' = idents w ∧ fwds w' = fwds w ∧
  match r with
  | Err _ => standing <$> doms w' = standing <$> doms w
  | Ok public => pd_ID public = domainID ∧ ∃ d token, d ∈ doms w ∧ d_ID d = domainID ∧ owner_scope scope (d_OwnerEmail d) = true ∧
      (TrimSpace (d_VerificationToken d) ≠ ""%string → token = d_VerificationToken d) ∧
      pd_Status public = (if allDNSChecksPassed (pd_DNSChecks public)
                          then SenderDomainStatusVerified else SenderDomainStatusPending) ∧
      (pd_Status public = SenderDomainStatusVerified → dns_confirms (E := E) settings (d_Domain d) token) ∧
      standing <$> doms w' =
        (λ z, if d_ID z =? domainID then ((standing z).1, pd_Status public) else standing z) <$> doms w
  end.
Proof.
  intros Hnd H. unfold CheckSenderDomainDNS in H.
  apply eff_bind_inv in H as [(e & H & ->)|(w1 & d1 & H1 & H)].
  { by apply RequireSenderDomainForScope_inv in H as [(? & ? & ?) _]. }
  apply RequireSenderDomainForScope_inv in H1 as [(Hi & Hf & Hst) Hreq]; [|done].
  destruct (Hreq d1 eq_refl) as (d & Hd & Hid & Hown & Hd1 & Hs1 & Htok).
  assert (d_Domain d1 = d_Domain d) as Hdom by (unfold standing in Hs1; congruence).
  apply eff_bind_inv in H as [(e & H & ->)|(w2 & checks & H2 & H)].
  { apply checkSenderDomainDNS_inv in H as (_ & ? & ? & _). done. }
  apply checkSenderDomainDNS_inv in H2 as (V2 & checks' & [= <-] & Hchk). rewrite Hdom in Hchk.
  apply eff_bind_inv in H as [(e & H & ->)|(w3 & now & H3 & H)]; [by apply clock_inv in H as (_ & ? & ?)|].
  apply clock_inv in H3 as [V3 _]. rewrite V2 in V3. injection V3 as Vi Vf Vd.
  assert (NoDup (d_ID <$> doms w3)) as Hnd3 by by rewrite Vd, (standing_ids _ _ Hst).
  apply eff_bind_inv in H as [(e & H & ->)|(w4 & d4 & H4 & [= <- <-])].
  { apply UpdateSenderDomainStatus_inv in H as (-> & -> & Hs); [|done]. split_and!; congruence. }
  apply UpdateSenderDomainStatus_inv in H4 as (-> & -> & (d3 & _ & Hid3 & Hs4) & Hrows); [|done].
  split_and!; [congruence..| |]; [simpl; unfold standing in Hs4; simpl in Hs4; congruence|].
  exists d, (d_VerificationToken d1). simpl.
  assert (d_Status d4 = if allDNSChecksPassed checks then SenderDomainStatusVerified else SenderDomainStatusPending)
    as Hst4 by (unfold standing in Hs4; simpl in Hs4; congruence).
  split_and!; [done..| |].
  - rewrite Hst4. destruct (allDNSChecksPassed checks); [by intros _; apply Hchk|done].
  - rewrite Hrows, <- Hst4, Vd.
    transitivity ((λ s : Z * string * string * string, if s.1.1.1 =? domainID then (s.1, d_Status d4) else s)
                    <$> (standing <$> doms w1)).
    + by rewrite <- list_fmap_compose.
    + by rewrite Hst, <- list_fmap_compose.
Qed.


Lemma checkTXT_pass host expected matcher ok bad value (e e' : E) :
  LookupTXT host e = (e', Ok [value]) → matcher [value] expected = true →
  checkTXT host expected matcher ok bad e = (e', MkDNSCheck dnsRecordTypeTXT host expected true ok).
Proof. unfold checkTXT. by intros -> ->. Qed.

(** C32: publishing what Pinguin asks for verifies the domain.  If DNS answers the
    three TXT lookups with exactly the values [senderDomainDNSRecords] tells the
    owner to publish, all three checks pass (host name and token are plain ASCII
    without spaces, as configured and generated). *)
Theorem published_records_verify settings (d : SenderDomain) w :
  plain (TrimSpace (s_Host settings)) → plain (d_VerificationToken d) →
  (∀ r (e : E), r ∈ senderDomainDNSRecords settings d → ∃ e', LookupTXT (r_Host r) e = (e', Ok [r_Value r])) →
  ∃ w' checks, checkSenderDomainDNS settings d w = (w', Ok checks) ∧ length checks = 3%nat ∧
    allDNSChecksPassed checks = true.
Proof.
  intros Hh Ht Hdns. unfold checkSenderDomainDNS, on_env, zoom.
  destruct (Hdns (MkDNSRecord dnsRecordTypeTXT (challengeHost (d_Domain d)) (challengeValue (d_VerificationToken d))
    "Verify domain ownership") (w_env w)) as [e1 L1]; [unfold senderDomainDNSRecords; set_solver|].
  destruct (Hdns (MkDNSRecord dnsRecordTypeTXT (d_Domain d) (spfStarterValue settings)
    "Authorize Pinguin SMTP relay") e1) as [e2 L2]; [unfold senderDomainDNSRecords; set_solver|].
  destruct (Hdns (MkDNSRecord dnsRecordTypeTXT (dmarcHost (d_Domain d)) "v=DMARC1; p=none"
    "Publish a DMARC policy") e2) as [e3 L3]; [unfold senderDomainDNSRecords; set_solver|].
  rewrite (checkTXT_pass _ _ _ _ _ _ _ _ L1) by by apply advertised_challenge.
  rewrite (checkTXT_pass _ _ _ _ _ _ _ _ L2) by by apply advertised_spf.
  rewrite (checkTXT_pass _ _ _ _ _ _ _ _ L3) by (vm_compute; reflexivity).
  by eexists _, _.
Qed.

(** Registering a domain takes nothing from anybody.  When
    [CreateSenderDomainForScope] answers with a domain, its name is the normal form
    of the one asked for; either it was registered already, by the caller unless
    the caller is an admin, and every domain keeps its owner and status, or it is
    a new row, pending, owned by the caller, with a name nobody had.  On an error no
    domain changes its status, owner or name; identities and recipients never
    change. *)
Theorem domain_registration scope domain w w' r :
  NoDup (d_ID <$> doms w) → CreateSenderDomainForScope scope domain w = (w', r) →
  idents w' = idents w ∧ fwds w' = fwds w ∧
  match r with
  | Err _ => standing <$> doms w' = standing <$> doms w
  | Ok d => d ∈ doms w' ∧ NormalizeSenderDomain domain = Ok (d_Domain d) ∧ d_Domain d ≠ ""%string ∧
      ((standing <$> doms w' = standing <$> doms w ∧ standing d ∈ (standing <$> doms w) ∧
        (Admin scope = false → d_OwnerEmail d = normalizeOwnerEmail (OwnerEmail scope))) ∨
       (doms w' = doms w ++ [d] ∧ d_Status d = SenderDomainStatusPending ∧
        d_OwnerEmail d = normalizeOwnerEmail (OwnerEmail scope) ∧ ∀ z, z ∈ doms w → d_Domain z ≠ d_Domain d))
  end.
Proof.
  intros Hnd H. unfold CreateSenderDomainForScope in H.
  apply eff_bind_inv in H as [(e & [= <- _] & ->)|(w1 & nd & [= <- Hn] & H)]; [done|].
  apply eff_bind_inv in H as [(e & [= <- _] & ->)|(w1 & [] & [= <- Hne%guard_err_Ok] & H)]; [done|]. to_prop.
  apply eff_bind_inv in H as [(e & H & ->)|(w2 & found & H1 & H)].
  { apply try_eff_inv in H as (? & ? & _). done. }
  apply try_eff_inv in H1 as (y & [= ->] & H1). apply domain_First_inv in H1 as [V2 H1].
  pose proof V2 as [= Vi Vf Vd]. destruct y as [d0|e].
  - destruct H1 as [Hin Hdom]. to_prop. destruct (_ || Admin scope) eqn:Eo.
    + apply ensureSenderDomainToken_inv in H as [(Hi & Hf & Hs) Hd]; [|by rewrite Vd..].
      rewrite Hi, Hf, Hs, Vi, Vf, Vd. split_and!; [done..|]. destruct r as [d|]; [|done].
      destruct (Hd d eq_refl) as (Hdin & Hst & _).
      assert (d_Domain d = d_Domain d0 ∧ d_OwnerEmail d = d_OwnerEmail d0) as [E1 E2]
        by (unfold standing in Hst; split; congruence).
      split_and!; [done|by rewrite Hn, E1, Hdom|by rewrite E1, Hdom|left]. split_and!; [done| |].
      * rewrite Hst. by apply list_elem_of_fmap_2.
      * intros Ha. rewrite Ha, orb_false_r in Eo. to_prop. congruence.
    + injection H as <- <-. split_and!; congruence.
  - destruct (errors_Is e ErrRecordNotFound) eqn:Ee; simpl in H; [|injection H as <- <-; split_and!; congruence].
    apply eff_bind_inv in H as [(e' & H & ->)|(w3 & token & H3 & H)].
    { apply on_env_inv in H as [[= -> -> ->] _]. split_and!; congruence. }
    apply on_env_inv in H3 as [V3 _]. rewrite V2 in V3.
    apply eff_bind_inv in H as [(e' & H & ->)|(w4 & now & H4 & H)].
    { apply clock_inv in H as [[= -> -> ->] _]. injection V3 as -> -> ->. done. }
    apply clock_inv in H4 as [V4 _]. rewrite V3 in V4. injection V4 as Wi Wf Wd.
    apply map_err_inv in H as (x & (v & H & ->)%zoom_inv & ->). apply Create_law in H.
    unfold idents, fwds, doms in *. simpl. destruct x as [d|]; [|split_and!; congruence].
    destruct H as ((id & -> & _ & Hnew) & Hr). rewrite Hr, Wd. split_and!; try done; [set_solver|].
    right. split_and!; try done. intros z Hz. rewrite Forall_forall in Hnew. rewrite <- Wd in Hz. by apply Hnew.
Qed.
End domain_guarantees.

(** * Witnesses *)
Definition demo_settings : PublicSettings := MkSettings " smtp.Pinguin.io" 587 "starttls".
Definition pending_domain : SenderDomain := MkDomain 1 "o@x.y" "x.y" SenderDomainStatusPending "tok" None 0 0.

(** DNS as the owner of x.y published it. *)
Definition published_dns : Environment Z :=
  {| clockFunc := λ e, (e, 1000);
     io_ReadFull := λ n e, (e + 1, Ok (implode (replicate n "a"%char)));
     uuid_NewString := λ e, (e + 1, ("id" ++ pretty e)%string);
     LookupTXT := λ host e,
       (e, match List.find (λ r, bool_decide (r_Host r = host)) (senderDomainDNSRecords demo_settings pending_domain) with
           | Some r => Ok [r_Value r]
           | None => Err (DNSFailure true "no such host")
           end) |}.

#[local] Existing Instance ascii_unicode.
#[local] Existing Instance simple_mail.
#[local] Existing Instance published_dns.
#[local] Existing Instance demo_identities.
#[local] Existing Instance demo_identities_laws.
#[local] Existing Instance demo_forwards.
#[local] Existing Instance demo_forwards_laws.
#[local] Existing Instance demo_domains.
#[local] Existing Instance demo_domains_laws.

Definition pending_world : world (list Identity) (list ForwardRecipient) (list SenderDomain) Z :=
  MkWorld [] [] [pending_domain] 0.
Definition verified_world := (CheckSenderDomainDNS demo_settings demo_scope 1 pending_world).1.


Lemma published_records_verify_witness :
  ∃ w' checks, checkSenderDomainDNS demo_settings pending_domain pending_world = (w', Ok checks) ∧
    length checks = 3%nat ∧ allDNSChecksPassed checks = true.
Proof.
  apply (published_records_verify demo_settings pending_domain pending_world).
  - vm_compute. repeat constructor.
  - vm_compute. repeat constructor.
  - intros r e Hr. exists e. repeat (apply elem_of_cons in Hr as [->|Hr]; [reflexivity|]). by apply elem_of_nil in Hr.
Defined.

Lemma domain_registration_witness :
  ∃ w' d, CreateSenderDomainForScope demo_scope " Mail.Example.com. " pending_world = (w', Ok d) ∧
    NormalizeSenderDomain " Mail.Example.com. " = Ok (d_Domain d).
Proof.
  assert (∃ d, CreateSenderDomainForScope demo_scope " Mail.Example.com. " pending_world =
    ((CreateSenderDomainForScope demo_scope " Mail.Example.com. " pending_world).1, Ok d)) as (d & H).
  { eexists. vm_compute. reflexivity. }
  eexists _, d. split; [exact H|].
  destruct (domain_registration demo_scope " Mail.Example.com. " pending_world _ _
    ltac:(apply (bool_decide_unpack _); vm_compute; exact I) H) as (_ & _ & _ & Hn & _).
  exact Hn.
Defined.
