(* ===== verification/HttpApi.v ===== *)
(** The HTTP API (src/internal/httpapi/server.go): construction of the server, the
    middleware every request goes through, the notification handlers, and what decides
    which tenants a session may see.

    gin routes a request to an [endpoint]; handlers answer with a status code and a body,
    so a handler is a function from the state to the state after it and the answer.  The
    session validator, the CORS middleware, JSON decoding and time parsing are
    parameters.  The SMTP identity endpoints are in [HttpIdentity]. *)
From S2P Require Import Prelude GoStrings Strconv Crypto Gorm Model Tenant TenantProofs Service Directory Grpc.
Open Scope Z_scope.

(** * Requests and answers *)
Record Claims := MkClaims { UserEmail : string; UserRoles : list string }.

Record http_request := MkHttpRequest {
  hq_Host : string;
  hq_ForwardedProto : string;
  hq_TLS : bool;
  hq_Query : list (string * string);
  hq_Body : string;
  hq_Session : string;
}.
(** [contextGin.QueryArray] and [contextGin.Query]. *)
Definition QueryArray (req : http_request) (key : string) : list string :=
  snd <$> List.filter (λ kv, bool_decide (kv.1 = key)) (hq_Query req).
Definition Query (req : http_request) (key : string) : string := default ""%string (head (QueryArray req key)).

Record runtimeConfigTenant := MkRuntimeTenant { rt_ID : string; rt_DisplayName : string }.
Record runtimeConfigPayload := MkRuntimePayload {
  rp_APIBaseURL : string;
  rp_Tenant : runtimeConfigTenant;
  rp_EventLogURL : string;
  rp_SMTPRelayURL : string;
}.
(** An error body shows the text of an error. *)
Inductive http_body (Extra : Type) :=
| NoBody
| ErrorBody (err : error)
| HealthBody
| TenantsBody (tenants : list runtimeConfigTenant)
| PageBody (notifications : list NotificationResponse) (nextCursor : string)
| NotificationBody (response : NotificationResponse)
| RuntimeBody (payload : runtimeConfigPayload)
| ExtraBody (extra : Extra).
Arguments NoBody {Extra}.
Arguments ErrorBody {Extra} err.
Arguments HealthBody {Extra}.
Arguments TenantsBody {Extra} tenants.
Arguments PageBody {Extra} notifications nextCursor.
Arguments NotificationBody {Extra} response.
Arguments RuntimeBody {Extra} payload.
Arguments ExtraBody {Extra} extra.
Record http_response (Extra : Type) := MkHttpResponse { hp_Code : Z; hp_Body : http_body Extra }.
Arguments MkHttpResponse {Extra} hp_Code hp_Body.
Arguments hp_Code {Extra} _.
Arguments hp_Body {Extra} _.

Definition StatusOK : Z := 200.
Definition StatusCreated : Z := 201.
Definition StatusNoContent : Z := 204.
Definition StatusBadRequest : Z := 400.
Definition StatusUnauthorized : Z := 401.
Definition StatusForbidden : Z := 403.
Definition StatusNotFound : Z := 404.
Definition StatusConflict : Z := 409.
Definition StatusUnprocessableEntity : Z := 422.
Definition StatusInternalServerError : Z := 500.

(** Handlers. *)
Definition http (X St : Type) : Type := St → St * http_response X.
Definition respond {X St} (code : Z) (body : http_body X) : http X St := λ st, (st, MkHttpResponse code body).
Definition fail {X St} (code : Z) (msg : string) : http X St := respond code (ErrorBody (Text msg [])).
(** A call whose error is answered. *)
Definition call {X St A} (m : eff St A) (on_error : error → http X St) (k : A → http X St) : http X St := λ st,
  let '(st, r) := m st in match r with Ok a => k a st | Err e => on_error e st end.
Lemma call_inv {X St A} (m : eff St A) on_error (k : A → http X St) st st' p :
  call m on_error k st = (st', p) →
  ∃ st1 r, m st = (st1, r) ∧ match r with Ok a => k a st1 | Err e => on_error e st1 end = (st', p).
Proof. unfold call. destruct (m st) as [st1 [a|e]]; eauto. Qed.

(** * Endpoints: the routes [NewServer] registers, with the path gin matched *)
Inductive identity_endpoint :=
| EPListSenderDomains
| EPCreateSenderDomain
| EPCheckSenderDomainDNS (id : string)
| EPListIdentities
| EPCreateIdentity
| EPUpdateForwarding (id : string)
| EPGetCredentials (id : string)
| EPRotateIdentity (id : string)
| EPDeleteIdentity (id : string).
Inductive endpoint :=
| EPRuntimeConfig
| EPHealthz
| EPListTenants
| EPListNotifications
| EPReschedule (id : string)
| EPCancel (id : string)
| EPIdentity (e : identity_endpoint)
| EPNoRoute (path : string).
Definition identity_path (e : identity_endpoint) : string :=
  match e with
  | EPListSenderDomains | EPCreateSenderDomain => "/api/smtp-domains"
  | EPCheckSenderDomainDNS id => "/api/smtp-domains/" ++ id ++ "/check-dns"
  | EPListIdentities | EPCreateIdentity => "/api/smtp-identities"
  | EPUpdateForwarding id => "/api/smtp-identities/" ++ id ++ "/forwarding"
  | EPGetCredentials id => "/api/smtp-identities/" ++ id ++ "/credentials"
  | EPRotateIdentity id => "/api/smtp-identities/" ++ id ++ "/rotate"
  | EPDeleteIdentity id => "/api/smtp-identities/" ++ id
  end.
Definition endpoint_path (e : endpoint) : string :=
  match e with
  | EPRuntimeConfig => "/runtime-config"
  | EPHealthz => "/healthz"
  | EPListTenants => "/api/tenants"
  | EPListNotifications => "/api/notifications"
  | EPReschedule id => "/api/notifications/" ++ id ++ "/schedule"
  | EPCancel id => "/api/notifications/" ++ id ++ "/cancel"
  | EPIdentity e => identity_path e
  | EPNoRoute path => path
  end.

Definition isTenantAgnosticPath (path : string) : bool :=
  bool_decide (path = "/healthz"%string)
  || bool_decide (path = "/api/tenants"%string)
  || bool_decide (path = "/api/notifications"%string)
  || HasPrefix path "/api/notifications/"
  || bool_decide (path = "/api/smtp-domains"%string)
  || HasPrefix path "/api/smtp-domains/"
  || bool_decide (path = "/api/smtp-identities"%string)
  || HasPrefix path "/api/smtp-identities/".

(** * Construction *)
Record cors_Config := MkCors {
  AllowAllOrigins : bool;
  AllowOrigins : list string;
  AllowHeaders : list string;
  AllowMethods : list string;
  AllowCredentials : bool;
}.
Definition cors_headers : list string := ["Content-Type"; "X-Requested-With"; "X-Client-Data"; "X-Client"].
Definition cors_methods : list string := ["GET"; "POST"; "PATCH"; "DELETE"; "OPTIONS"].
Definition buildCORS (allowedOrigins : list string) : cors_Config :=
  if (length allowedOrigins =? 0)%nat then MkCors true [] cors_headers cors_methods false
  else MkCors false allowedOrigins cors_headers cors_methods true.

Definition normalizeTrustedProxies (trustedProxies : list string) : list string :=
  List.filter (λ p, negb (bool_decide (p = ""%string))) (TrimSpace <$> trustedProxies).
Definition pickDuration (candidate fallback : Z) : Z := if candidate <=? 0 then fallback else candidate.
Definition defaultTimeout : Z := 5 * Second.

(** The dependencies are there or not ([nil]). *)
Record Config := MkConfig {
  ListenAddr : string;
  AllowedOrigins : list string;
  TrustedProxies : list string;
  SessionValidator : bool;
  NotificationService : bool;
  SMTPIdentityService : bool;
  TenantRepository : bool;
  Logger : bool;
  ReadHeaderTimeout : Z;
  ShutdownGraceTimeout : Z;
}.
Record Server := MkServer {
  srv_config : Config;
  srv_cors : cors_Config;
  srv_ReadHeaderTimeout : Z;
}.
Definition required (b : bool) (msg : string) : result unit := guard_err (negb b) (Text msg []).
(** [SetTrustedProxies] is gin's. *)
Definition NewServer (SetTrustedProxies : list string → result unit) (cfg : Config) : result Server :=
  required (negb (bool_decide (TrimSpace (ListenAddr cfg) = ""%string))) "httpapi: listen address is required";;
  required (SessionValidator cfg) "httpapi: session validator is required";;
  required (NotificationService cfg) "httpapi: notification service is required";;
  required (TenantRepository cfg) "httpapi: tenant repository is required";;
  required (Logger cfg) "httpapi: logger is required";;
  match SetTrustedProxies (normalizeTrustedProxies (TrustedProxies cfg)) with
  | Err e => Err (Wrapf "httpapi: trusted proxies: %w" [] e)
  | Ok _ => Ok (MkServer cfg (buildCORS (AllowedOrigins cfg)) (pickDuration (ReadHeaderTimeout cfg) defaultTimeout))
  end.

(** * Sessions *)
Definition errTenantIDRequired : error := New "tenant_id is required".
Definition errTenantAccessDenied : error := New "tenant access denied".
Definition internalError {X St} : http X St := fail StatusInternalServerError "internal server error".

Definition sessionHasAdminRole (claims : Claims) : bool :=
  existsb (λ role, EqualFold_ascii (TrimSpace role) "admin") (UserRoles claims).

Section sessions.
Context `{U : Unicode}.
Definition sessionEmailDomain (claims : Claims) : string * bool :=
  let normalizedEmail := ToLower (TrimSpace (UserEmail claims)) in
  let '(_, domain, found) := Cut normalizedEmail "@" in
  let normalizedDomain := TrimSpace domain in
  (normalizedDomain, found && negb (bool_decide (normalizedDomain = ""%string))).

Context {S : Type} `{D : TenantDirectory S}.
Definition sessionHasAdminAccess (claims : Claims) : eff (service * S) bool :=
  if sessionHasAdminRole claims then mret true else on_world (repo_IsActiveTenantAdmin (UserEmail claims)).

Definition accessibleTenants (claims : Claims) : eff (service * S) (list Tenant) :=
  admin ← sessionHasAdminAccess claims;
  if admin : bool then on_world repo_ListActiveTenants else
  let '(emailDomain, ok) := sessionEmailDomain claims in
  if negb ok then lift (Err errTenantAccessDenied) else on_world (repo_ListActiveTenantsByDomain emailDomain).

Definition authorizeNotificationTenant (claims : Claims) (tenantID : string) : eff (service * S) unit :=
  admin ← sessionHasAdminAccess claims;
  if admin : bool then mret () else
  let '(emailDomain, ok) := sessionEmailDomain claims in
  if negb ok then lift (Err errTenantAccessDenied) else
  tenants ← on_world (repo_ListActiveTenantsByDomain emailDomain);
  if existsb (λ t, bool_decide (t_ID t = tenantID)) tenants then mret () else lift (Err errTenantAccessDenied).

Definition resolveNotificationContext (claims : Claims) (req : http_request) : eff (service * S) context :=
  let tenantID := TrimSpace (Query req "tenant_id") in
  if decide (tenantID = ""%string) then lift (Err errTenantIDRequired) else
  authorizeNotificationTenant claims tenantID;;
  targetCfg ← on_world (repo_ResolveByID tenantID);
  mret (WithRuntime None targetCfg).
End sessions.

(** * Answers to errors *)
Section errors.
Context {X St : Type}.
Definition writeTenantListError (err : error) : http X St :=
  if errors_Is err errTenantAccessDenied then respond StatusForbidden (ErrorBody err) else internalError.
Definition writeTenantResolutionError (err : error) : http X St :=
  if errors_Is err errTenantIDRequired then respond StatusBadRequest (ErrorBody err)
  else if errors_Is err errTenantAccessDenied then respond StatusForbidden (ErrorBody err)
  else if errors_Is err ErrInvalidTenantID || errors_Is err ErrRecordNotFound then fail StatusNotFound "tenant not found"
  else internalError.

Context `{XT : ErrorTexts}.
Definition isMissingNotificationID (err : error) : bool := Contains (Error err) "missing notification_id".
Definition writeError (err : error) : http X St :=
  if isMissingNotificationID err then fail StatusBadRequest "notification_id is required"
  else if errors_Is err ErrNotificationNotEditable then fail StatusConflict "notification can only be edited while queued"
  else if errors_Is err ErrNotificationNotFound || errors_Is err ErrRecordNotFound then fail StatusNotFound "notification not found"
  else internalError.

Definition writeNotificationListRequestError (err : error) : http X St :=
  if errors_Is err ErrInvalidNotificationSearch then fail StatusBadRequest "q must be 200 characters or fewer"
  else if errors_Is err ErrInvalidNotificationCursor then fail StatusBadRequest "cursor is invalid"
  else if errors_Is err ErrInvalidNotificationLimit then fail StatusBadRequest "limit must be between 1 and 100"
  else fail StatusBadRequest "invalid notification list request".
End errors.

(** * List requests *)
Section list_requests.
Context `{U : Unicode} `{C : CursorCodec}.

(** The loop of [parseStatusFilters]. *)
Fixpoint parse_statuses (unique : gset string) (values : list string) : list string :=
  match values with
  | [] => []
  | raw :: values =>
      let trimmed := TrimSpace raw in
      if decide (trimmed = ""%string) then parse_statuses unique values else
      let status := ToLower trimmed in
      if decide (status ∈ unique) then parse_statuses unique values
      else status :: parse_statuses ({[status]} ∪ unique) values
  end.
Definition parseStatusFilters (values : list string) : list string := parse_statuses ∅ values.

Definition parseNotificationListLimit (rawValue : string) : result Z :=
  let normalized := TrimSpace rawValue in
  if decide (normalized = ""%string) then Ok (page_limit DefaultNotificationListPageRequest) else
  match Atoi normalized with
  | Err _ => Err (Wrapf "%w: parse" [] ErrInvalidNotificationLimit)
  | Ok parsed => Ok parsed
  end.

Definition parseNotificationListRequest (req : http_request)
    : result (NotificationListFilters * NotificationListPageRequest) :=
  searchQuery ← NewNotificationSearchQuery (Query req "q");
  cursor ← ParseNotificationListCursor (Query req "cursor");
  limit ← parseNotificationListLimit (Query req "limit");
  pageRequest ← NewNotificationListPageRequest limit cursor;
  Ok (MkFilters (parseStatusFilters (QueryArray req "status")) searchQuery, pageRequest).
End list_requests.

(** * Runtime configuration *)
Definition buildAPIBaseURL (req : http_request) : string :=
  let scheme := if decide (hq_ForwardedProto req ≠ ""%string) then hq_ForwardedProto req
                else if hq_TLS req then "https"%string else "http"%string in
  let host := if decide (TrimSpace (hq_Host req) = ""%string) then "localhost"%string else hq_Host req in
  (scheme ++ "://" ++ host ++ "/api")%string.
Definition serveRuntimeConfig {X St} (ctx : context) (req : http_request) : http X St :=
  match RuntimeFromContext ctx with
  | None => respond StatusInternalServerError NoBody
  | Some runtimeCfg =>
      respond StatusOK (RuntimeBody (MkRuntimePayload (buildAPIBaseURL req)
        (MkRuntimeTenant (t_ID (rc_Tenant runtimeCfg)) (t_DisplayName (rc_Tenant runtimeCfg)))
        "/event-log.html" "/smtp-relay.html"))
  end.

(** * Handlers and middleware *)

(** gin's JSON binding of the one payload here, the session validator and the CORS
    middleware, which answers itself only to preflights (204) and to foreign origins
    (403). *)
Class WebFramework (X : Type) := {
  bind_scheduled_time : string → result string;
  ValidateRequest : http_request → result Claims;
  cors_New : cors_Config → http_request → option (http_response X);
  cors_answers cfg req p : cors_New cfg req = Some p → hp_Code p = StatusNoContent ∨ hp_Code p = StatusForbidden;
}.

Section handlers.
Context `{U : Unicode} `{C : CursorCodec} `{Q : Sql} `{TX : TimeText} `{XT : ErrorTexts}.
Context {X S I : Type} `{T : Table S Notification} `{O : Outside S} `{D : TenantDirectory S} `{WF : WebFramework X}.

Definition listTenants (claims : Claims) : http X (service * S) :=
  call (accessibleTenants claims) writeTenantListError (λ tenants,
  respond StatusOK (TenantsBody ((λ t, MkRuntimeTenant (t_ID t) (t_DisplayName t)) <$> tenants))).

Definition listNotifications (claims : Claims) (req : http_request) : http X (service * S) :=
  call (resolveNotificationContext claims req) writeTenantResolutionError (λ requestContext,
  call (lift (parseNotificationListRequest req)) writeNotificationListRequestError (λ parsed,
  call (Service_ListNotificationsPage requestContext parsed.1 parsed.2) writeError (λ page,
  respond StatusOK (PageBody page.1 page.2)))).

Definition rescheduleNotification (claims : Claims) (req : http_request) (rawID : string) : http X (service * S) :=
  let notificationID := TrimSpace rawID in
  if decide (notificationID = ""%string) then fail StatusBadRequest "notification_id is required" else
  call (lift (bind_scheduled_time (hq_Body req))) (λ _, fail StatusBadRequest "invalid payload") (λ ScheduledTime,
  if decide (TrimSpace ScheduledTime = ""%string) then fail StatusBadRequest "scheduled_time is required" else
  call (lift (Parse_RFC3339 ScheduledTime)) (λ _, fail StatusBadRequest "scheduled_time must be RFC3339") (λ normalizedTime,
  call (on_world TimeNow) (λ _, internalError) (λ now,
  if normalizedTime <? now then fail StatusBadRequest "scheduled_time must be in the future" else
  call (resolveNotificationContext claims req) writeTenantResolutionError (λ requestContext,
  call (RescheduleNotification requestContext notificationID normalizedTime) writeError (λ response,
  respond StatusOK (NotificationBody response)))))).

Definition cancelNotification (claims : Claims) (req : http_request) (rawID : string) : http X (service * S) :=
  let notificationID := TrimSpace rawID in
  if decide (notificationID = ""%string) then fail StatusBadRequest "notification_id is required" else
  call (resolveNotificationContext claims req) writeTenantResolutionError (λ requestContext,
  call (CancelNotification requestContext notificationID) writeError (λ response,
  respond StatusOK (NotificationBody response))).

(** Calls on the service and its world, in a state that also has what the identity
    handlers ([identity]) work on. *)
Definition on_api {A} (m : service * S → (service * S) * A) : service * S * I → service * S * I * A := λ st,
  let '(s, r) := m st.1 in ((s, st.2), r).
Context (identity : identity_endpoint → Claims → http_request → http X (service * S * I)).

(** [Next] is the rest of the chain. *)
Definition tenantMiddleware (path : string) (req : http_request) (Next : context → http X (service * S * I))
    : http X (service * S * I) :=
  if isTenantAgnosticPath path then Next None else
  call (on_api (on_world (repo_ResolveByHost (hq_Host req)))) (λ _, fail StatusNotFound "tenant_not_found") (λ runtimeCfg,
  Next (WithRuntime None runtimeCfg)).
Definition sessionMiddleware (req : http_request) (Next : Claims → http X (service * S * I)) : http X (service * S * I) :=
  match ValidateRequest req with
  | Err _ => respond StatusUnauthorized NoBody
  | Ok claims => Next claims
  end.
Definition corsMiddleware (cfg : cors_Config) (req : http_request) (Next : http X (service * S * I))
    : http X (service * S * I) :=
  match cors_New cfg req with
  | Some aborted => λ st, (st, aborted)
  | None => Next
  end.

(** The routes of [NewServer]. *)
Definition route_request (srv : Server) (e : endpoint) (req : http_request) (ctx : context) : http X (service * S * I) :=
  match e with
  | EPRuntimeConfig => serveRuntimeConfig ctx req
  | EPHealthz => respond StatusOK HealthBody
  | EPListTenants => sessionMiddleware req (λ claims, on_api (listTenants claims))
  | EPListNotifications => sessionMiddleware req (λ claims, on_api (listNotifications claims req))
  | EPReschedule id => sessionMiddleware req (λ claims, on_api (rescheduleNotification claims req id))
  | EPCancel id => sessionMiddleware req (λ claims, on_api (cancelNotification claims req id))
  | EPIdentity e =>
      if SMTPIdentityService (srv_config srv) then sessionMiddleware req (λ claims, identity e claims req)
      else respond StatusNotFound NoBody
  | EPNoRoute _ => respond StatusNotFound NoBody
  end.
(** The engine: tenant, CORS, then the route. *)
Definition engine (srv : Server) (e : endpoint) (req : http_request) : http X (service * S * I) :=
  tenantMiddleware (endpoint_path e) req (λ ctx, corsMiddleware (srv_cors srv) req (route_request srv e req ctx)).
End handlers.

(** * Who may see which tenant *)
Section access.
Context `{U : Unicode} {S : Type} `{T : Table S Notification} `{O : Outside S} `{D : TenantDirectory S}.
Context `{DL : !TenantDirectoryLaws S}.

Lemma quiet_refl (s : S) : dir_ok s → quiet s s.
Proof. by intros; split_and!. Qed.
Lemma quiet_trans (s1 s2 s3 : S) : quiet s1 s2 → quiet s2 s3 → quiet s1 s3.
Proof.
  intros (? & E1 & E2 & E3 & E4) (? & F1 & F2 & F3 & F4). unfold quiet. rewrite F1, F2, F3, F4. by split_and!.
Qed.

Definition session_admin (s : S) (claims : Claims) : Prop :=
  sessionHasAdminRole claims = true ∨ is_admin_of (dir_tenants s) (dir_admins s) (UserEmail claims).
Definition domain_tenant (s : S) (claims : Claims) (t : Tenant) : Prop :=
  ∃ domain, sessionEmailDomain claims = (domain, true) ∧ in_domain (dir_tenants s) (dir_domains s) domain t.
Definition may_access (s : S) (claims : Claims) (id : string) : Prop :=
  session_admin s claims ∨ ∃ t, domain_tenant s claims t ∧ t_ID t = id.

Lemma sessionHasAdminAccess_inv claims (st st' : service * S) r :
  dir_ok st.2 → sessionHasAdminAccess claims st = (st', r) →
  quiet st.2 st'.2 ∧ ∀ b, r = Ok b → b = true ↔ session_admin st.2 claims.
Proof.
  intros Hok. unfold sessionHasAdminAccess, session_admin. destruct (sessionHasAdminRole claims).
  - intros [= <- <-]. split; [by apply quiet_refl|]. intros b [= <-]. naive_solver.
  - intros [_ H]%on_world_inv. apply repo_IsActiveTenantAdmin_law in H as [Hq Hb]; [|done].
    split; [done|]. intros b Hr. rewrite (Hb b Hr). naive_solver.
Qed.

Lemma session_admin_quiet (s s' : S) claims : quiet s s' → session_admin s' claims ↔ session_admin s claims.
Proof. intros (_ & E1 & _ & E3 & _). unfold session_admin. by rewrite E1, E3. Qed.
Lemma domain_tenant_quiet (s s' : S) claims t : quiet s s' → domain_tenant s' claims t ↔ domain_tenant s claims t.
Proof. intros (_ & E1 & E2 & _). unfold domain_tenant. by rewrite E1, E2. Qed.

Lemma accessibleTenants_inv claims (st st' : service * S) r :
  dir_ok st.2 → accessibleTenants claims st = (st', r) →
  quiet st.2 st'.2 ∧ ∀ l, r = Ok l → ∀ t, t ∈ l ↔
    (session_admin st.2 claims ∧ t ∈ dir_tenants st.2 ∧ t_Status t = TenantStatusActive) ∨
    (¬ session_admin st.2 claims ∧ domain_tenant st.2 claims t).
Proof.
  intros Hok. unfold accessibleTenants. intros [(e & H & ->)|(st1 & b & H1 & H)]%eff_bind_inv.
  { by apply sessionHasAdminAccess_inv in H as [? _]. }
  apply sessionHasAdminAccess_inv in H1 as [Hq Hb]; [|done]. specialize (Hb b eq_refl).
  pose proof Hq as (Hok1 & E1 & E2 & _). destruct b.
  - apply on_world_inv in H as [_ H]. apply repo_ListActiveTenants_law in H as [Hq2 Hl]; [|done].
    split; [by eapply quiet_trans|]. intros l Hr t. rewrite (Hl l Hr), E1. naive_solver.
  - destruct (sessionEmailDomain claims) as [domain [|]] eqn:Ed; cbn [negb] in H.
    + apply on_world_inv in H as [_ H]. apply repo_ListActiveTenantsByDomain_law in H as [Hq2 Hl]; [|done].
      split; [by eapply quiet_trans|]. intros l Hr t. rewrite (Hl l Hr), E1, E2. unfold domain_tenant.
      rewrite Ed. naive_solver.
    + by injection H as <- <-.
Qed.

Lemma authorize_inv claims id (st st' : service * S) r :
  dir_ok st.2 → authorizeNotificationTenant claims id st = (st', r) →
  quiet st.2 st'.2 ∧ (r = Ok () → may_access st.2 claims id).
Proof.
  intros Hok. unfold authorizeNotificationTenant. intros [(e & H & ->)|(st1 & b & H1 & H)]%eff_bind_inv.
  { by apply sessionHasAdminAccess_inv in H as [? _]. }
  apply sessionHasAdminAccess_inv in H1 as [Hq Hb]; [|done]. specialize (Hb b eq_refl).
  pose proof Hq as (Hok1 & E1 & E2 & _). destruct b.
  { injection H as <- <-. split; [done|]. intros _. left. by apply Hb. }
  destruct (sessionEmailDomain claims) as [domain [|]] eqn:Ed; cbn [negb] in H; [|by injection H as <- <-].
  apply eff_bind_inv in H as [(e & [_ H]%on_world_inv & ->)|(st2 & l & [_ H1]%on_world_inv & H)].
  { apply repo_ListActiveTenantsByDomain_law in H as [Hq2 _]; [|done]. split; [by eapply quiet_trans|done]. }
  apply repo_ListActiveTenantsByDomain_law in H1 as [Hq2 Hl]; [|done]. specialize (Hl l eq_refl).
  destruct (existsb _ l) eqn:Ex; injection H as <- <-; (split; [by eapply quiet_trans|]); [|done]. intros _.
  apply existsb_exists in Ex as (t & Ht%list_elem_of_In & Hid). to_prop.
  right. exists t. split; [|done]. exists domain. split; [done|]. apply Hl in Ht. by rewrite E1, E2 in Ht.
Qed.

Lemma resolve_inv claims req (st st' : service * S) r :
  dir_ok st.2 → resolveNotificationContext claims req st = (st', r) →
  quiet st.2 st'.2 ∧ ∀ ctx, r = Ok ctx → let id := TrimSpace (Query req "tenant_id") in
    id ≠ ""%string ∧ may_access st.2 claims id ∧
    ∃ cfg, ctx = Some cfg ∧ rc_TenantID cfg = id ∧ rc_Tenant cfg ∈ dir_tenants st.2.
Proof.
  intros Hok. unfold resolveNotificationContext. case_decide as Hne.
  { intros [= <- <-]. split; [by apply quiet_refl|done]. }
  intros [(e & H & ->)|(st1 & [] & H1 & H)]%eff_bind_inv; [by apply authorize_inv in H as [? _]|].
  apply authorize_inv in H1 as [Hq Ha]; [|done]. pose proof Hq as (Hok1 & E1 & _).
  apply eff_bind_inv in H as [(e & [_ H]%on_world_inv & ->)|(st2 & cfg & [_ H1]%on_world_inv & H)].
  { apply repo_ResolveByID_law in H as [Hq2 _]; [|done]. split; [by eapply quiet_trans|done]. }
  apply repo_ResolveByID_law in H1 as [Hq2 Hc]; [|done]. injection H as <- <-.
  split; [by eapply quiet_trans|]. intros ctx [= <-]. destruct (Hc cfg eq_refl) as (_ & Hid & Hin).
  rewrite TrimSpace_idem in Hid. rewrite E1 in Hin. split_and!; [done|by apply Ha|]. by exists cfg.
Qed.
End access.

(** * What a request for notifications does *)
Definition shown {X} (p : http_response X) : list NotificationResponse :=
  match hp_Body p with
  | PageBody notifications _ => notifications
  | NotificationBody response => [response]
  | _ => []
  end.
Definition notification_endpoint (e : endpoint) : bool :=
  match e with EPListNotifications | EPReschedule _ | EPCancel _ => true | _ => false end.
Definition protected_endpoint (e : endpoint) : bool :=
  match e with EPRuntimeConfig | EPHealthz | EPNoRoute _ => false | _ => true end.

Lemma protected_agnostic e : protected_endpoint e = true → isTenantAgnosticPath (endpoint_path e) = true.
Proof. destruct e as [| | | |id|id|e|]; try done. by destruct e. Qed.

Section requests.
Context `{U : Unicode} `{C : CursorCodec} `{Q : Sql} `{TX : TimeText} `{XT : ErrorTexts}.
Context {X S I : Type} `{T : Table S Notification} `{O : Outside S} `{D : TenantDirectory S} `{WF : WebFramework X}.
Context (identity : identity_endpoint → Claims → http_request → http X (service * S * I)).
Context `{L : !TableLaws S Notification} `{OL : !OutsideLaws S} `{DL : !TenantDirectoryLaws S}.

(** Answers that are not a success and change nothing. *)
Class Refusal (h : http X (service * S)) : Prop := refusal st st' p : h st = (st', p) → st' = st ∧ hp_Code p ≠ StatusOK.
#[local] Instance refusal_respond code body : TCEq (code =? StatusOK) false → Refusal (respond code body).
Proof. intros Hc%TCEq_eq. intros st st' p [= <- <-]. split; [done|]. simpl. by to_prop. Qed.
#[local] Instance refusal_if (b : bool) h1 h2 : Refusal h1 → Refusal h2 → Refusal (if b then h1 else h2).
Proof. by destruct b. Qed.
#[local] Instance refusal_writeError e : Refusal (writeError e).
Proof. unfold writeError, fail, internalError. apply _. Qed.
#[local] Instance refusal_resolution e : Refusal (writeTenantResolutionError e).
Proof. unfold writeTenantResolutionError, fail, internalError. apply _. Qed.
#[local] Instance refusal_list e : Refusal (writeNotificationListRequestError e).
Proof. unfold writeNotificationListRequestError, fail. apply _. Qed.

(** The outcome of a notification handler for a session. *)
Definition handled (claims : Claims) (req : http_request) (st st' : service * S) (p : http_response X) : Prop :=
  let id := TrimSpace (Query req "tenant_id") in
  confined id (rows st.2) (rows st'.2) ∧
  (hp_Code p ≠ StatusOK → rows st'.2 = rows st.2) ∧
  (hp_Code p = StatusOK → id ≠ ""%string ∧ may_access st.2 claims id ∧ (∃ t, t ∈ dir_tenants st.2 ∧ t_ID t = id) ∧
     Forall (λ r, r_TenantID r = id) (shown p)).

(** A handler whose first step only looks. *)
Lemma handled_quiet claims req st st1 st' p : quiet st.2 st1.2 → handled claims req st1 st' p → handled claims req st st' p.
Proof.
  intros Hq. pose proof Hq as (_ & E1 & _ & _ & E4). unfold handled, may_access. rewrite E4, E1.
  setoid_rewrite (session_admin_quiet _ _ _ Hq). setoid_rewrite (domain_tenant_quiet _ _ _ _ Hq). done.
Qed.

Lemma handled_refused claims req st h st' p : Refusal h → h st = (st', p) → handled claims req st st' p.
Proof. intros Hh [-> Hc]%Hh. by split_and!. Qed.

(** What comes after the tenant is resolved. *)
Definition confined_http (cfg : RuntimeConfig) (h : http X (service * S)) : Prop :=
  ∀ st st' p, NoDup (n_ID <$> rows st.2) → h st = (st', p) →
    confined (rc_TenantID cfg) (rows st.2) (rows st'.2) ∧
    (hp_Code p ≠ StatusOK → rows st'.2 = rows st.2) ∧
    (hp_Code p = StatusOK → Forall (λ r, r_TenantID r = rc_TenantID cfg) (shown p)).

Lemma confined_answer cfg {A} (tenant_of : A → list string) (op : eff (service * S) A) (answer : A → http_body X) :
  confined_to cfg tenant_of op →
  (∀ a, r_TenantID <$> shown (MkHttpResponse StatusOK (answer a)) = tenant_of a) →
  confined_http cfg (call op writeError (λ a, respond StatusOK (answer a))).
Proof.
  intros Hop Hans st st' p Hnd (st1 & r & Hrun & H)%call_inv.
  destruct (Hop st st1 r Hnd Hrun) as (Hc & He & Ha). destruct r as [a|e].
  - injection H as <- <-. split_and!; [done|done|]. intros _. specialize (Ha a eq_refl).
    by rewrite <- Hans, Forall_fmap in Ha.
  - apply refusal in H as [-> Hcode]. split_and!; [done|by intros _; apply (He e)|done].
Qed.

(** A handler that resolves the tenant and then stays with it. *)
Lemma handled_resolved claims req (k : context → http X (service * S)) st st' p :
  dir_ok st.2 → NoDup (n_ID <$> rows st.2) →
  (∀ cfg, rc_TenantID cfg ≠ ""%string → confined_http cfg (k (Some cfg))) →
  call (resolveNotificationContext claims req) writeTenantResolutionError k st = (st', p) →
  handled claims req st st' p.
Proof.
  intros Hok Hnd Hk (st1 & r & Hres & H)%call_inv.
  apply resolve_inv in Hres as [(_ & _ & _ & _ & Hr) Hctx]; [|done]. destruct r as [ctx|e].
  2: { apply refusal in H as [-> Hc]. split_and!; [|done|done]. by rewrite Hr. }
  destruct (Hctx ctx eq_refl) as (Hne & Hacc & cfg & -> & Hid & Hin).
  rewrite <- Hr in Hnd. unfold handled. cbv zeta. rewrite <- Hid in *.
  destruct (Hk cfg Hne st1 st' p Hnd H) as (Hc & He & Ha). rewrite Hr in *. split_and!; [done|done|].
  intros Hcode. split_and!; [done|done|by exists (rc_Tenant cfg)|by apply Ha].
Qed.

Lemma listNotifications_handled claims req st st' p :
  dir_ok st.2 → NoDup (n_ID <$> rows st.2) → listNotifications claims req st = (st', p) → handled claims req st st' p.
Proof.
  intros Hok Hnd. apply handled_resolved; [done..|]. intros cfg Hcfg st0 st1 p0 Hnd0 (st2 & r & [= <- <-] & H)%call_inv.
  destruct (parseNotificationListRequest req) as [parsed|e].
  - revert H. eapply (confined_answer cfg (λ page, r_TenantID <$> page.1) _ (λ page, PageBody page.1 page.2)); [|done|done].
    intros s s' r' _ [Hr Hp]%Page_inv; [|done]. rewrite Hr. split_and!; [done..|]. intros a Ha.
    destruct (Hp a Ha) as [Hall _]. by apply Forall_fmap.
  - apply refusal in H as [-> Hc]. by split_and!.
Qed.

Lemma edit_handled claims req notificationID scheduledFor (cancel : bool) st st' p :
  dir_ok st.2 → NoDup (n_ID <$> rows st.2) → notificationID ≠ ""%string →
  call (resolveNotificationContext claims req) writeTenantResolutionError (λ ctx,
    call (if cancel then CancelNotification ctx notificationID else RescheduleNotification ctx notificationID scheduledFor)
      writeError (λ response, respond StatusOK (NotificationBody response))) st = (st', p) →
  handled claims req st st' p.
Proof.
  intros Hok Hnd Hid. apply handled_resolved; [done..|]. intros cfg Hcfg.
  apply (confined_answer cfg response_tenant); [|done]. by apply edits_confined_to.
Qed.

Lemma cancel_handled claims req id st st' p :
  dir_ok st.2 → NoDup (n_ID <$> rows st.2) → cancelNotification claims req id st = (st', p) → handled claims req st st' p.
Proof.
  intros Hok Hnd. unfold cancelNotification. case_decide as Hne; [apply handled_refused; unfold fail; apply _|].
  by apply (edit_handled claims req (TrimSpace id) 0 true).
Qed.

Lemma reschedule_handled claims req id st st' p :
  dir_ok st.2 → NoDup (n_ID <$> rows st.2) → rescheduleNotification claims req id st = (st', p) → handled claims req st st' p.
Proof.
  intros Hok Hnd. unfold rescheduleNotification. case_decide as Hne; [apply handled_refused; unfold fail; apply _|].
  intros (st1 & r & [= <- <-] & H)%call_inv. destruct (bind_scheduled_time (hq_Body req)) as [text|e].
  2: { eapply handled_refused; [|exact H]. unfold fail. apply _. }
  case_decide; [eapply handled_refused; [|exact H]; unfold fail; apply _|].
  apply call_inv in H as (st1 & r & [= <- <-] & H). destruct (Parse_RFC3339 text) as [at_|e].
  2: { eapply handled_refused; [|exact H]. unfold fail. apply _. }
  apply call_inv in H as (st1 & r & [_ Hnow]%on_world_inv & H).
  pose proof (TimeNow_quiet st.2 Hok) as Hq. destruct (TimeNow_ok st.2) as [now Ht]. rewrite Hnow in Hq, Ht.
  simpl in Hq, Ht. subst r. apply (handled_quiet _ _ _ st1); [done|]. destruct Hq as (Hok1 & _ & _ & _ & Hr).
  destruct (at_ <? now); [eapply handled_refused; [|exact H]; unfold fail; apply _|]. rewrite <- Hr in Hnd.
  by apply (edit_handled claims req (TrimSpace id) at_ false) in H.
Qed.

Lemma on_api_inv {A} (m : service * S → (service * S) * A) (st st' : service * S * I) a :
  on_api m st = (st', a) → m st.1 = (st'.1, a) ∧ st'.2 = st.2.
Proof. unfold on_api. destruct (m st.1). by intros [= <- <-]. Qed.

(** Behind the middleware of a protected endpoint. *)
Lemma engine_protected srv e req st :
  protected_endpoint e = true →
  engine identity srv e req st = corsMiddleware (srv_cors srv) req (route_request identity srv e req None) st.
Proof. intros He. unfold engine, tenantMiddleware. by rewrite protected_agnostic. Qed.

(** C39: no endpoint of the API works without a session.  For every route under /api that
    the server registers, a request the session validator refuses is answered 401 (or by
    the CORS middleware before that) and changes nothing at all, not even a cache; of the
    other routes only /runtime-config looks at the tenants. *)
Theorem http_requires_session srv e req err (st st' : service * S * I) p :
  protected_endpoint e = true → SMTPIdentityService (srv_config srv) = true → ValidateRequest req = Err err →
  engine identity srv e req st = (st', p) →
  st' = st ∧ (hp_Code p = StatusUnauthorized ∨ cors_New (srv_cors srv) req = Some p).
Proof.
  intros He Hs Herr. rewrite engine_protected by done. unfold corsMiddleware.
  destruct (cors_New (srv_cors srv) req) as [q|]; [intros [= <- <-]; auto|].
  destruct e as [| | | |id|id|e|]; cbn [route_request]; try done; rewrite ?Hs; unfold sessionMiddleware; rewrite Herr;
    intros [= <- <-]; auto.
Qed.

(** A notification request is refused before the handler, or handled for a session. *)
Lemma engine_notification srv e req (st st' : service * S * I) p :
  dir_ok st.1.2 → NoDup (n_ID <$> rows st.1.2) → notification_endpoint e = true →
  engine identity srv e req st = (st', p) →
  (hp_Code p ≠ StatusOK ∧ st' = st) ∨
  ∃ claims, ValidateRequest req = Ok claims ∧ st'.2 = st.2 ∧ handled claims req st.1 st'.1 p.
Proof.
  intros Hok Hnd He. rewrite engine_protected by by destruct e. unfold corsMiddleware.
  destruct (cors_New (srv_cors srv) req) as [q|] eqn:Eq.
  { intros [= <- <-]. left. split; [|done]. by destruct (cors_answers _ _ _ Eq) as [H|H]; rewrite H. }
  destruct e as [| | | |id|id|e|]; try done; cbn [route_request]; unfold sessionMiddleware;
    (destruct (ValidateRequest req) as [claims|err]; [|intros [= <- <-]; by left]);
    intros [H Hi]%on_api_inv; right; exists claims; split_and!; try done.
  - by apply listNotifications_handled.
  - by apply (reschedule_handled _ _ id).
  - by apply (cancel_handled _ _ id).
Qed.

(** C4: a session sees and changes only tenants it may.  Whatever a request to list,
    reschedule or cancel does, the rows of every tenant other than the one its tenant_id
    names are the same, that tenant's own keep their place and content, and an answer other than
    200 changed no row.  An answer 200 means
    that the session is valid, that it is an administrator's (by role, or as an
    administrator of an active tenant) or its e-mail domain belongs to that tenant and the
    tenant is active, that the tenant exists, and that every notification shown is that
    tenant's. *)
Theorem http_tenant_access srv e req (st st' : service * S * I) p :
  dir_ok st.1.2 → NoDup (n_ID <$> rows st.1.2) → notification_endpoint e = true →
  engine identity srv e req st = (st', p) →
  let id := TrimSpace (Query req "tenant_id") in
  confined id (rows st.1.2) (rows st'.1.2) ∧ st'.2 = st.2 ∧
  (hp_Code p ≠ StatusOK → rows st'.1.2 = rows st.1.2) ∧
  (hp_Code p = StatusOK → ∃ claims, ValidateRequest req = Ok claims ∧ id ≠ ""%string ∧ may_access st.1.2 claims id ∧
     (∃ t, t ∈ dir_tenants st.1.2 ∧ t_ID t = id) ∧ Forall (λ r, r_TenantID r = id) (shown p)).
Proof.
  intros Hok Hnd He H. cbv zeta.
  destruct (engine_notification _ _ _ _ _ _ Hok Hnd He H) as [[Hc ->]|(claims & Hv & Hi & H1 & H2 & H3)]; [by split_and!|].
  split_and!; [done..|]. intros Hc. exists claims. by split; [|apply H3].
Qed.

(** The tenants a session is shown: all active ones for an administrator, else those of
    the session's e-mail domain. *)
Theorem http_tenants_listed claims (st st' : service * S) p :
  dir_ok st.2 → listTenants claims st = (st', p) →
  rows st'.2 = rows st.2 ∧ ∀ tenants, p = MkHttpResponse (Extra := X) StatusOK (TenantsBody tenants) →
    ∀ x, x ∈ tenants ↔ ∃ t, x = MkRuntimeTenant (t_ID t) (t_DisplayName t) ∧ t_Status t = TenantStatusActive ∧
      ((session_admin st.2 claims ∧ t ∈ dir_tenants st.2) ∨ (¬ session_admin st.2 claims ∧ domain_tenant st.2 claims t)).
Proof.
  intros Hok (st1 & r & H & Hp)%call_inv. apply accessibleTenants_inv in H as [(_ & _ & _ & _ & Hr) Hl]; [|done].
  destruct r as [l|e].
  - injection Hp as <- <-. split; [done|]. intros tenants [= <-] x. rewrite list_elem_of_fmap.
    setoid_rewrite (Hl l eq_refl). unfold domain_tenant, in_domain. naive_solver.
  - unfold writeTenantListError, internalError, fail in Hp. destruct (errors_Is e _); injection Hp as <- <-; by split.
Qed.

(** A page is bounded by what was asked, and by 100.  An answer 200 to a list request
    means that its limit is absent, which counts as 50, or a decimal number between 1 and
    100, that its search text has at most 200 characters, and that it shows at most that
    many notifications. *)
Theorem http_list_bounded srv req (st st' : service * S * I) p :
  dir_ok st.1.2 → engine identity srv EPListNotifications req st = (st', p) → hp_Code p = StatusOK →
  ∃ limit, (if decide (TrimSpace (Query req "limit") = ""%string) then limit = 50
            else Atoi (TrimSpace (Query req "limit")) = Ok limit) ∧
    1 ≤ limit ≤ 100 ∧ Z.of_nat (length (shown p)) ≤ limit ∧ (RuneCount (TrimSpace (Query req "q")) ≤ 200)%nat.
Proof.
  intros Hok. rewrite engine_protected by done. unfold corsMiddleware.
  destruct (cors_New (srv_cors srv) req) as [q|] eqn:Eq.
  { intros [= <- <-] Hc. by destruct (cors_answers _ _ _ Eq) as [H|H]; rewrite H in Hc. }
  cbn [route_request]. unfold sessionMiddleware. destruct (ValidateRequest req) as [claims|err]; [|by intros [= <- <-]].
  intros [H _]%on_api_inv Hcode. apply call_inv in H as (st1 & r & Hres & H).
  apply resolve_inv in Hres as [_ Hctx]; [|done]. destruct r as [ctx|e]; [|by apply refusal in H as [_ ?]].
  destruct (Hctx ctx eq_refl) as (Hne & _ & cfg & -> & Hid & _). rewrite <- Hid in Hne.
  apply call_inv in H as (st2 & r & [= <- <-] & H).
  destruct (parseNotificationListRequest req) as [parsed|e] eqn:Ep; [|by apply refusal in H as [_ ?]].
  apply call_inv in H as (st2 & r & Hpage & H). destruct r as [page|e]; [|by apply refusal in H as [_ ?]].
  injection H as _ <-. apply Page_inv in Hpage as [_ Hpage]; [|done]. destruct (Hpage page eq_refl) as [_ Hlen].
  unfold parseNotificationListRequest in Ep. apply bind_Ok in Ep as (search & Hsearch & Ep).
  apply bind_Ok in Ep as (cursor & _ & Ep). apply bind_Ok in Ep as (limit & Hlimit & Ep).
  apply bind_Ok in Ep as (pr & Hpr & [= <-]). unfold NewNotificationListPageRequest in Hpr.
  destruct ((limit <? 1) || (100 <? limit)) eqn:Eb; [done|]. injection Hpr as <-. to_prop. simpl in Hlen.
  exists limit. split_and!; [|lia|lia|by apply Hlen; lia|].
  - unfold parseNotificationListLimit in Hlimit. case_decide; [by injection Hlimit as <-|].
    destruct (Atoi _); [by injection Hlimit as <-|done].
  - unfold NewNotificationSearchQuery, maxNotificationSearchLength in Hsearch.
    destruct (200 <? _)%nat eqn:E2; [done|]. by apply Nat.ltb_ge in E2.
Qed.

(** The text of the service's not-found error holds the phrase [isMissingNotificationID]
    looks for exactly when the notification id does. *)
Lemma not_found_text id :
  isMissingNotificationID (Wrapf "%w: %s" [FStr id] ErrNotificationNotFound) = Contains id "missing notification_id".
Proof.
  unfold isMissingNotificationID.
  assert (Error (Wrapf "%w: %s" [FStr id] ErrNotificationNotFound) = ("notification not found: " ++ id)%string) as ->.
  { rewrite <- (implode_explode (_ ++ id)), explode_app. cbn. by rewrite app_nil_r. }
  unfold Contains. rewrite explode_app.
  set (sub := explode "missing notification_id"). set (l := explode id). cbn. unfold sub. cbn.
  by destruct (find_b _ l) as [[]|].
Qed.

(** C40: what a cancel request answers.  For a session whose tenant was resolved, on a
    database that answers: a notification id the tenant does not have gives 404, unless
    the id itself contains the words "missing notification_id", which gives 400; a
    notification that is not queued gives 409; in both cases no row changed.  For a queued
    one the answer is 200 and shows it cancelled, or the database refused the write and
    no row changed. *)
Theorem http_cancel_status `{R : !Reliable S Notification} claims req rawID cfg (st st1 st' : service * S)
    (p : http_response X) :
  resolveNotificationContext claims req st = (st1, Ok (Some cfg)) → rc_TenantID cfg ≠ ""%string →
  TrimSpace rawID ≠ ""%string → cancelNotification claims req rawID st = (st', p) →
  match List.find (λ n, whereField (n_TenantID n) (rc_TenantID cfg) && whereField (n_NotificationID n) (TrimSpace rawID))
          (rows st1.2) with
  | None => rows st'.2 = rows st1.2 ∧
      hp_Code p = if Contains (TrimSpace rawID) "missing notification_id" then StatusBadRequest else StatusNotFound
  | Some n =>
      if decide (n_Status n = StatusQueued)
      then (hp_Code p = StatusOK ∧ ∃ response, hp_Body p = NotificationBody response ∧ r_Status response = StatusCancelled ∧
              r_NotificationID response = TrimSpace rawID ∧ r_TenantID response = rc_TenantID cfg) ∨
           (hp_Code p ≠ StatusOK ∧ rows st'.2 = rows st1.2)
      else hp_Code p = StatusConflict ∧ rows st'.2 = rows st1.2
  end.
Proof.
  intros Hres Hcfg Hid H. unfold cancelNotification in H. rewrite decide_False in H by done.
  apply call_inv in H as (st1' & r & Hres' & H). rewrite Hres in Hres'. injection Hres' as <- <-.
  apply call_inv in H as (st2 & r & Hrun & H). pose proof Hrun as Hspec.
  apply (edits_inv cfg (TrimSpace rawID) 0 true) in Hspec; [|done..].
  unfold CancelNotification in Hrun. cbn [requireTenant] in Hrun. rewrite lift_bind in Hrun.
  destruct (MustGet_run (rc_TenantID cfg) (TrimSpace rawID) st1) as (s & Hget).
  apply eff_bind_inv in Hrun as [(e & Hg & ->)|(st3 & n & Hg & Hrun)]; rewrite Hget in Hg; clear Hget;
    destruct (List.find _ (rows st1.2)) as [x|]; try done.
  - injection Hg as <- <-. unfold writeError in H. rewrite not_found_text in H.
    destruct (Contains _ _); injection H as <- <-; by split.
  - injection Hg as <- ->. case_bool_decide as Hb.
    + injection Hrun as <- <-. injection H as <- <-. by rewrite decide_False.
    + destruct (decide (n_Status n = StatusQueued)); [|by destruct Hb]. destruct r as [response|err].
      * injection H as <- <-. left. split; [done|]. destruct Hspec as (n' & t & (_ & Ht & Hn & _) & ->).
        eexists. split_and!; [done|reflexivity|done|done].
      * right. apply refusal in H as [-> Hc]. by split.
Qed.
End requests.

(** * Witnesses *)
Import MemoryProcess.

(** Sessions are e-mail addresses; there is no foreign origin. *)
Definition plain_web (X : Type) : WebFramework X.
Proof.
  refine {| bind_scheduled_time := Ok;
            ValidateRequest := λ req, if decide (hq_Session req = ""%string) then Err (Text "no session" [])
                                      else Ok (MkClaims (hq_Session req) []);
            cors_New := λ _ _, None |}; done.
Defined.
Definition plain_texts : ErrorTexts := {| Quote := λ s, s; foreign_text := λ _, ""%string |}.
#[local] Existing Instances plain_texts codec_text.
Definition web_config : Config := MkConfig ":8080" [] [" 10.0.0.1 "; ""]%string true true true true true 0 0.
Definition web_server : Server := MkServer web_config (buildCORS []) defaultTimeout.
Example web_server_built : NewServer (λ _, Ok ()) web_config = Ok web_server.
Proof. reflexivity. Qed.
Definition web_request (session tenant limit : string) : http_request :=
  MkHttpRequest "acme.org:443" "" false [("tenant_id", tenant); ("limit", limit)]%string "" session.
Definition no_identity : identity_endpoint → Claims → http_request → http unit (service * memory_process * unit) :=
  λ _ _ _, respond StatusNotFound NoBody.
Definition web_state : service * memory_process * unit := (grpc_service, running, ()).
#[local] Instance unit_web : WebFramework unit := plain_web unit.

Lemma running_keys : NoDup (n_ID <$> rows web_state.1.2).
Proof. apply (bool_decide_unpack _). vm_compute. exact I. Qed.

Lemma http_requires_session_witness :
  ∃ p, engine no_identity web_server (EPCancel "n1") (web_request "" "acme" "") web_state = (web_state, p) ∧
    hp_Code p = StatusUnauthorized.
Proof.
  destruct (engine no_identity web_server (EPCancel "n1") (web_request "" "acme" "") web_state) as [st' p] eqn:E.
  destruct (http_requires_session (WF := unit_web) no_identity web_server (EPCancel "n1") (web_request "" "acme" "")
    (Text "no session" []) web_state st' p eq_refl eq_refl ltac:(vm_compute; reflexivity) E) as [-> [Hc|Hc]]; [|discriminate].
  exists p. by split.
Defined.

(** Someone of acme.org cancels a queued notification of acme. *)
Lemma http_tenant_access_witness :
  ∃ st' p, engine no_identity web_server (EPCancel "n1") (web_request "User@ACME.org" " acme" "") web_state = (st', p) ∧
    hp_Code p = StatusOK ∧ confined "acme" (rows running) (rows st'.1.2).
Proof.
  destruct (engine no_identity web_server (EPCancel "n1") (web_request "User@ACME.org" " acme" "") web_state)
    as [st' p] eqn:E.
  destruct (http_tenant_access (WF := unit_web) no_identity web_server (EPCancel "n1") (web_request "User@ACME.org" " acme" "")
    web_state st' p running_ok running_keys eq_refl E) as (Hc & _).
  exists st', p. split; [reflexivity|]. split; [|exact Hc]. vm_compute in E. injection E as _ <-. reflexivity.
Defined.

Lemma http_list_bounded_witness :
  ∃ st' p, engine no_identity web_server EPListNotifications (web_request "user@acme.org" "acme" "1") web_state = (st', p) ∧
    hp_Code p = StatusOK ∧ Z.of_nat (length (shown p)) ≤ 1.
Proof.
  destruct (engine no_identity web_server EPListNotifications (web_request "user@acme.org" "acme" "1") web_state)
    as [st' p] eqn:E.
  assert (hp_Code p = StatusOK) as Hc by (vm_compute in E; injection E as _ <-; reflexivity).
  destruct (http_list_bounded (WF := unit_web) no_identity web_server (web_request "user@acme.org" "acme" "1") web_state st' p
    running_ok E Hc) as (limit & Hl & _ & Hlen & _).
  exists st', p. split; [reflexivity|]. split; [exact Hc|]. vm_compute in Hl. injection Hl as <-. exact Hlen.
Defined.

(** acme has no notification n2 (it is beta's): 404. *)
Lemma http_cancel_status_witness :
  hp_Code (cancelNotification (X := unit) (MkClaims "user@acme.org" []) (web_request "" "acme" "") "n2"
    (grpc_service, running)).2 = StatusNotFound.
Proof.
  destruct (resolveNotificationContext (MkClaims "user@acme.org" []) (web_request "" "acme" "") (grpc_service, running))
    as [st1 [[cfg|]|e]] eqn:E; try (vm_compute in E; discriminate).
  destruct (cancelNotification (X := unit) (MkClaims "user@acme.org" []) (web_request "" "acme" "") "n2"
    (grpc_service, running)) as [st' p] eqn:Ec.
  pose proof (http_cancel_status (X := unit) (MkClaims "user@acme.org" []) (web_request "" "acme" "") "n2" cfg
    (grpc_service, running) st1 st' p E ltac:(vm_compute in E; injection E as _ <-; discriminate)
    ltac:(discriminate) Ec) as H.
  vm_compute in E. injection E as <- <-. destruct H as [_ H]. exact H.
Defined.
