(* ===== verification/HttpIdentity.v ===== *)
(** The SMTP identity endpoints of the HTTP API
    (src/internal/httpapi/smtp_identity_handler.go): the access scope of a session, the
    nine handlers over the identity service, and the answers to its errors. *)
From S2P Require Import Prelude GoStrings Strconv Address Crypto Gorm Model Tenant TenantProofs Service Directory Grpc.
From S2P Require Import Identity IdentityProofs SenderDomains HttpApi.
Open Scope Z_scope.

(** * Payloads *)
Inductive identity_body :=
| IdentitiesBody (identities : list PublicIdentity)
| IdentityBody (identity : PublicIdentity)
| CredentialsBody (c : Credentials)
| DomainsBody (domains : list PublicSenderDomain)
| DomainBody (domain : PublicSenderDomain).

(** gin's JSON binding of the three payloads. *)
Class IdentityPayloads := {
  bind_identity : string → result (string * list string);
  bind_forwarding : string → result (list string);
  bind_domain : string → result string;
}.

Definition parseSenderDomainID (rawID : string) : result Z :=
  let trimmedID := TrimSpace rawID in
  if decide (trimmedID = ""%string) then Err (Text "sender domain id is required" []) else
  match ParseUint64 trimmedID with
  | Err _ => Err (Text "sender domain id is required" [])
  | Ok parsedID => if parsedID =? 0 then Err (Text "sender domain id is required" []) else Ok parsedID
  end.

(** The loop of [parseForwardRecipients]. *)
Fixpoint parse_recipients `{U : Unicode} `{M : NetMail} (values : list string) : result (list Address) :=
  match values with
  | [] => Ok []
  | value :: values =>
      match NewAddress value with
      | Err _ => Err (Text "forward_to contains an invalid address" [])
      | Ok recipient => recipients ← parse_recipients values; Ok (recipient :: recipients)
      end
  end.
Definition parseForwardRecipients `{U : Unicode} `{M : NetMail} (values : list string) : result (list Address) :=
  match values with [] => Err ErrForwardRecipientsRequired | _ => parse_recipients values end.

Section identity_handlers.
Context `{U : Unicode} `{M : NetMail} `{K : Crypto} `{IP : IdentityPayloads}.
Context {S : Type} `{D : TenantDirectory S}.
Context {SI SF SD E : Type}.
Context `{TI : Table SI Identity} `{TF : Table SF ForwardRecipient} `{TD : Table SD SenderDomain}.
Context `{Env : Environment E}.
Context (key : string) (Commit : SI → SF → SD → result unit) (settings : PublicSettings).
#[local] Abbreviation W := (world SI SF SD E).
#[local] Abbreviation St := (service * S * W)%type.
#[local] Abbreviation handler := (http identity_body St).

Definition on_identity {A} (m : eff W A) : eff St A := zoom snd (λ w st, (st.1, w)) m.

(** [requireAccessScope]: the session's address, and whether it is an administrator's; a
    failed lookup counts as not.  [k] is what the handler does with the scope, and
    [repository] says that the handler has one. *)
Definition requireAccessScope (repository : bool) (claims : Claims) (k : AccessScope → handler) : handler :=
  match NewAddress (UserEmail claims) with
  | Err _ => fail StatusForbidden "authenticated email is required"
  | Ok ownerEmail =>
      let admin := sessionHasAdminRole claims in
      if negb admin && repository then
        call (try_eff (on_api (on_world (repo_IsActiveTenantAdmin (UserEmail claims))))) (λ _, internalError) (λ lookup,
        let admin := match lookup with Ok configuredAdmin => configuredAdmin | Err _ => admin end in
        k (MkScope (String_ ownerEmail) admin))
      else k (MkScope (String_ ownerEmail) admin)
  end.

Definition writeError (err : error) : handler :=
  if errors_Is err ErrInvalidAddress then fail StatusBadRequest "email_address is invalid"
  else if errors_Is err ErrInvalidSenderDomain then fail StatusBadRequest "sender domain is invalid"
  else if errors_Is err ErrSenderDomainNotAllowed then fail StatusUnprocessableEntity "sender domain is not verified"
  else if errors_Is err ErrSenderDomainExists then fail StatusConflict "sender domain is already registered"
  else if errors_Is err ErrSenderDomainNotFound then fail StatusNotFound "sender domain not found"
  else if errors_Is err ErrIdentityExists then fail StatusConflict "smtp identity already exists"
  else if errors_Is err ErrIdentityNotFound || errors_Is err ErrRecordNotFound then fail StatusNotFound "smtp identity not found"
  else if errors_Is err ErrForwardRecipientsRequired then fail StatusBadRequest "forward_to is required"
  else if errors_Is err ErrForwardRecipientDuplicate then fail StatusBadRequest "forward_to contains duplicate addresses"
  else if errors_Is err ErrForwardRecipientSelf then fail StatusBadRequest "forward_to cannot include the shared sender address"
  else internalError.

(** The end of a handler: call the service, answer. *)
Definition run {A} (m : eff W A) (code : Z) (answer : A → http_body identity_body) : handler :=
  call (on_identity m) writeError (λ a, respond code (answer a)).

Definition listIdentities (scope : AccessScope) : handler :=
  run (Service_ListForScope scope) StatusOK (λ l, ExtraBody (IdentitiesBody l)).

Definition createIdentity (scope : AccessScope) (req : http_request) : handler :=
  call (lift (bind_identity (hq_Body req))) (λ _, fail StatusBadRequest "invalid payload") (λ payload,
  call (lift (NewAddress payload.1)) (λ _, fail StatusBadRequest "email_address is invalid") (λ address,
  call (lift (parseForwardRecipients payload.2)) (λ err, respond StatusBadRequest (ErrorBody err)) (λ forwardTo,
  run (Service_CreateForScope key Commit settings scope address forwardTo) StatusCreated
    (λ c, ExtraBody (CredentialsBody c))))).

Definition identityIDRequired (rawID : string) (k : string → handler) : handler :=
  let identityID := TrimSpace rawID in
  if decide (identityID = ""%string) then fail StatusBadRequest "identity_id is required" else k identityID.

Definition updateForwarding (scope : AccessScope) (req : http_request) (rawID : string) : handler :=
  identityIDRequired rawID (λ identityID,
  call (lift (bind_forwarding (hq_Body req))) (λ _, fail StatusBadRequest "invalid payload") (λ ForwardTo,
  call (lift (parseForwardRecipients ForwardTo)) (λ err, respond StatusBadRequest (ErrorBody err)) (λ forwardTo,
  run (Service_UpdateForwardingForScope Commit scope identityID forwardTo) StatusOK (λ i, ExtraBody (IdentityBody i))))).

Definition getCredentials (scope : AccessScope) (rawID : string) : handler :=
  identityIDRequired rawID (λ identityID,
  run (Service_CredentialsForScope key settings scope identityID) StatusOK (λ c, ExtraBody (CredentialsBody c))).

Definition rotateIdentity (scope : AccessScope) (rawID : string) : handler :=
  identityIDRequired rawID (λ identityID,
  run (Service_RotateForScope key settings scope identityID) StatusOK (λ c, ExtraBody (CredentialsBody c))).

Definition deleteIdentity (scope : AccessScope) (rawID : string) : handler :=
  identityIDRequired rawID (λ identityID,
  run (Service_DeleteForScope scope identityID) StatusNoContent (λ _, NoBody)).

Definition listSenderDomains (scope : AccessScope) : handler :=
  run (ListSenderDomains settings scope) StatusOK (λ l, ExtraBody (DomainsBody l)).

Definition createSenderDomain (scope : AccessScope) (req : http_request) : handler :=
  call (lift (bind_domain (hq_Body req))) (λ _, fail StatusBadRequest "invalid payload") (λ Domain,
  run (CreateSenderDomain settings scope Domain) StatusCreated (λ d, ExtraBody (DomainBody d))).

Definition checkSenderDomainDNS (scope : AccessScope) (rawID : string) : handler :=
  call (lift (parseSenderDomainID rawID)) (λ _, fail StatusBadRequest "sender domain id is required") (λ domainID,
  run (CheckSenderDomainDNS settings scope domainID) StatusOK (λ d, ExtraBody (DomainBody d))).

(** The handler of each endpoint, as [NewServer] registers them. *)
Definition identityHandler (repository : bool) (e : identity_endpoint) (claims : Claims) (req : http_request) : handler :=
  requireAccessScope repository claims (λ scope,
  match e with
  | EPListSenderDomains => listSenderDomains scope
  | EPCreateSenderDomain => createSenderDomain scope req
  | EPCheckSenderDomainDNS id => checkSenderDomainDNS scope id
  | EPListIdentities => listIdentities scope
  | EPCreateIdentity => createIdentity scope req
  | EPUpdateForwarding id => updateForwarding scope req id
  | EPGetCredentials id => getCredentials scope id
  | EPRotateIdentity id => rotateIdentity scope id
  | EPDeleteIdentity id => deleteIdentity scope id
  end).
End identity_handlers.

(** * Ids of sender domains *)

(** The id of a sender domain is read back as it was shown, and only positive 64-bit
    numbers are accepted. *)
Lemma parseSenderDomainID_bounds rawID n : parseSenderDomainID rawID = Ok n → 1 ≤ n < 2 ^ 64.
Proof.
  unfold parseSenderDomainID. case_decide; [done|]. destruct (ParseUint64 _) as [m|] eqn:E; [|done].
  destruct (Z.eqb_spec m 0); [done|]. intros [= <-]. apply ParseUint64_bounds in E. lia.
Qed.

(** * Owners *)
Section isolation.
Context `{U : Unicode} `{M : NetMail} `{K : Crypto} `{IP : IdentityPayloads}.
Context {S : Type} `{T : Table S Notification} `{O : Outside S} `{D : TenantDirectory S} `{DL : !TenantDirectoryLaws S}.
Context {SI SF SD E : Type}.
Context `{TI : Table SI Identity} `{TF : Table SF ForwardRecipient} `{TD : Table SD SenderDomain}.
Context `{LI : !TableLaws SI Identity} `{LF : !TableLaws SF ForwardRecipient} `{LD : !TableLaws SD SenderDomain}.
Context `{Env : Environment E} `{EL : !EnvironmentLaws E}.
Context (key : string) (Commit : SI → SF → SD → result unit) (settings : PublicSettings).
#[local] Abbreviation W := (world SI SF SD E).
#[local] Abbreviation St := (service * S * W)%type.
#[local] Abbreviation handler := (http identity_body St).
Implicit Types w : W.

(** What is left alone when [me] acts: active identities of others with their recipients,
    and the standing of their domains. *)
Definition spares (me : string) w w' : Prop :=
  (∀ i, i ∈ idents w → i_Status i = IdentityStatusActive → i_OwnerEmail i ≠ me →
     i ∈ idents w' ∧ routes (i_ID i) (fwds w') ≡ₚ routes (i_ID i) (fwds w)) ∧
  (∀ d, d ∈ doms w → d_OwnerEmail d ≠ me → standing d ∈ (standing <$> doms w')).
(** What is shown is an identity or a domain of [me]. *)
Definition my_identity (me : string) w (p : PublicIdentity) : Prop :=
  ∃ x, x ∈ idents w ∧ i_OwnerEmail x = me ∧ i_ID x = p_ID p.
Definition my_domain (me : string) w (p : PublicSenderDomain) : Prop :=
  ∃ x, x ∈ doms w ∧ d_OwnerEmail x = me ∧ d_ID x = pd_ID p.
Definition shows_mine (me : string) w (b : http_body identity_body) : Prop :=
  match b with
  | ExtraBody (IdentitiesBody l) => Forall (my_identity me w) l
  | ExtraBody (IdentityBody p) => my_identity me w p
  | ExtraBody (CredentialsBody c) => my_identity me w (cr_Identity c)
  | ExtraBody (DomainsBody l) => Forall (my_domain me w) l
  | ExtraBody (DomainBody p) => my_domain me w p
  | _ => True
  end.

Definition wf_domains w : Prop := wf w ∧ NoDup (d_ID <$> doms w).
Definition isolated (me : string) (h : handler) : Prop :=
  ∀ st st' p, wf_domains st.2 → h st = (st', p) → st'.1 = st.1 ∧ spares me st.2 st'.2 ∧ shows_mine me st'.2 (hp_Body p).

Lemma spares_view me w w' : view w' = view w → spares me w w'.
Proof.
  intros [= Hi Hf Hd]. split; [intros i; by rewrite Hi, Hf|]. intros d Hin _. rewrite Hd. by apply list_elem_of_fmap_2.
Qed.
Lemma spares_leaves me w w' : leaves_alone me w w' → spares me w w'.
Proof. intros [H1 H2]. split; [done|]. intros d Hd _. rewrite H2. by apply list_elem_of_fmap_2. Qed.

Lemma isolated_respond me code b : match b with ExtraBody _ => False | _ => True end → isolated me (respond code b).
Proof. intros Hb st st' p _ [= <- <-]. split_and!; [done|by apply spares_view|]. by destruct b. Qed.
Lemma isolated_if me (b : bool) h1 h2 : isolated me h1 → isolated me h2 → isolated me (if b then h1 else h2).
Proof. by destruct b. Qed.
Lemma isolated_error me err : isolated me (writeError err).
Proof. unfold writeError. repeat apply isolated_if; by apply isolated_respond. Qed.
Lemma isolated_lift me {A} (r : result A) on_error (k : A → handler) :
  (∀ e, isolated me (on_error e)) → (∀ a, r = Ok a → isolated me (k a)) → isolated me (call (lift r) on_error k).
Proof.
  intros He Hk st st' p Hw (st1 & x & [= <- <-] & H)%call_inv. destruct r as [a|e]; [by apply (Hk a)|by apply (He e)].
Qed.
Lemma isolated_id me rawID (k : string → handler) :
  (∀ id, isolated me (k id)) → isolated me (identityIDRequired rawID k).
Proof. intros Hk. unfold identityIDRequired. case_decide; [by apply isolated_respond|apply Hk]. Qed.

Lemma isolated_run me {A} (m : eff W A) code (answer : A → http_body identity_body) :
  (∀ w w' r, wf_domains w → m w = (w', r) → spares me w w' ∧ ∀ a, r = Ok a → shows_mine me w' (answer a)) →
  isolated me (run m code answer).
Proof.
  intros Hm st st' p Hw (st1 & r & (w & H1 & ->)%zoom_inv & H)%call_inv. destruct (Hm _ _ _ Hw H1) as [Hs Ha].
  destruct r as [a|e].
  - injection H as <- <-. split_and!; [done|done|]. by apply Ha.
  - assert (st' = (st.1, w)) as ->.
    { unfold writeError, fail, internalError, respond in H. by repeat (case_match; [by injection H as <- _|]); injection H as <- _. }
    split_and!; [done|done|]. unfold writeError, fail, internalError, respond in H.
    by repeat (case_match; [by injection H as <-|]); injection H as <-.
Qed.

Context (scope : AccessScope) (Hadmin : Admin scope = false).
#[local] Abbreviation me := (normalizeOwnerEmail (OwnerEmail scope)).

Lemma owner_is_me o : owner_scope scope o = true → o = me.
Proof. unfold owner_scope. rewrite Hadmin. simpl. intros H. by to_prop. Qed.

Lemma list_isolated : isolated me (listIdentities scope).
Proof.
  apply isolated_run. intros w w' r Hw H. unfold Service_ListForScope, ListForScope in H.
  apply map_err_inv in H as (x & H & ->).
  apply eff_bind_inv in H as [(e & (v & [Hv _]%FindOrdered_law & ->)%zoom_inv & ->)|(w1 & l & (v & [Hv Hl]%FindOrdered_law & ->)%zoom_inv & H)].
  { split; [apply spares_view; unfold view, idents; simpl; by rewrite Hv|done]. }
  apply eff_bind_inv in H as [(e & H & ->)|(w2 & f & H & [= <- <-])].
  { split; [|done]. apply spares_view. destruct l; [done|]. apply zoom_inv in H as (u & [Hu _]%FindOrdered_law & ->).
    unfold view, idents, fwds. simpl in *. by rewrite Hv, Hu. }
  assert (view w2 = view w) as V2.
  { destruct l; [injection H as <- _; unfold view, idents; simpl; by rewrite Hv|].
    apply zoom_inv in H as (u & [Hu _]%FindOrdered_law & ->). unfold view, idents, fwds. simpl in *. by rewrite Hv, Hu. }
  split; [by apply spares_view|]. intros a [= <-]. cbn. apply Forall_fmap, Forall_forall. intros i Hi.
  destruct Hl as (l0 & Hp & _ & ->). cbn [limit_to] in Hi. rewrite Hp, list_elem_of_filter_bool in Hi.
  destruct Hi as [Hi Ho]. to_prop. exists i. injection V2 as Vi _ _. rewrite Vi. split_and!; [done|by apply owner_is_me|done].
Qed.

Lemma spares_call call w :
  wf w → valid_call call →
  match call with
  | CallCreate s _ _ | CallUpdateForwarding s _ _ | CallRotate s _ | CallDelete s _ => s = scope
  | CallAuthenticate _ _ => False
  end → spares me w (run_call key Commit call w).
Proof. intros. by apply spares_leaves, call_isolated. Qed.

Lemma create_isolated req :
  (∀ raw l a, bind_identity (hq_Body req) = Ok (raw, l) → NewAddress raw = Ok a → canonical a) →
  isolated me (createIdentity key Commit settings scope req).
Proof.
  intros Hcan. apply isolated_lift; [by intros; apply isolated_respond|]. intros [raw l] Hb.
  apply isolated_lift; [by intros; apply isolated_respond|]. intros a Ha.
  apply isolated_lift; [by intros; apply isolated_respond|]. intros forwardTo _.
  specialize (Hcan raw l a Hb Ha). apply isolated_run. intros w w' r [Hw _] H. unfold Service_CreateForScope in H.
  pose proof (spares_call (CallCreate scope a forwardTo) w Hw Hcan eq_refl) as Hs. simpl in Hs.
  apply eff_bind_inv in H as [(e & H & ->)|(w1 & [public pw] & H & [= <- <-])]; rewrite H in Hs; [by split|].
  split; [done|]. intros c [= <-]. apply CreateForScope_inv in H; [|done..].
  destruct H as (_ & record & records & (Hin & _ & _ & Ho & _) & -> & _). by exists record.
Qed.

Lemma update_isolated req rawID : isolated me (updateForwarding Commit scope req rawID).
Proof.
  apply isolated_id. intros id. apply isolated_lift; [by intros; apply isolated_respond|]. intros values _.
  apply isolated_lift; [by intros; apply isolated_respond|]. intros forwardTo _.
  apply isolated_run. intros w w' r [Hw _] H. unfold Service_UpdateForwardingForScope in H.
  pose proof (spares_call (CallUpdateForwarding scope (TrimSpace id) forwardTo) w Hw I eq_refl) as Hs. simpl in Hs.
  rewrite H in Hs. split; [done|]. intros a ->. apply UpdateForwardingForScope_inv in H; [|done].
  destruct H as (_ & x & t & F & Hx & Ho & _ & _ & [= Hi _] & _ & _ & _ & _ & Hid).
  exists (i_touch x t). rewrite Hi. split_and!; [|by apply owner_is_me|done].
  apply list_elem_of_fmap. exists x. unfold replace_row. by rewrite bool_decide_true.
Qed.

Lemma credentials_isolated rawID : isolated me (getCredentials key settings scope rawID).
Proof.
  apply isolated_id. intros id. apply isolated_run. intros w w' r _ H. unfold Service_CredentialsForScope, CredentialsForScope in H.
  assert (∀ w w' r, requireIdentityForScope scope (TrimSpace id) w = (w', r) → view w' = view w) as Hv.
  { by intros ? ? ? [? _]%requireIdentity_inv. }
  apply eff_bind_inv in H as [(e & H & ->)|(w1 & x & H & [= <- <-])].
  - split; [|done]. apply spares_view. apply eff_bind_inv in H as [(e' & H & _)|(w1 & i & H & H2)]; [by apply Hv in H|].
    apply Hv in H. rewrite <- H. apply eff_bind_inv in H2 as [(e' & H2 & _)|(w2 & pw & H2 & [=])].
    apply map_err_inv in H2 as (? & [= <- _] & _). done.
  - apply eff_bind_Ok in H as (w2 & i & H & H2). pose proof (Hv _ _ _ H) as V.
    apply requireIdentity_inv in H as [_ (Hin & _ & Ho & _)%(λ f, f i eq_refl)].
    apply eff_bind_Ok in H2 as (w3 & pw & H2 & [= <- <-]). apply map_err_inv in H2 as (? & [= <- _] & _).
    split; [by apply spares_view|]. intros c [= <-]. exists i. injection V as Vi _ _. rewrite Vi.
    split_and!; [done|by apply owner_is_me|done].
Qed.

Lemma rotate_isolated rawID : isolated me (rotateIdentity key settings scope rawID).
Proof.
  apply isolated_id. intros id. apply isolated_run. intros w w' r [Hw _] H. unfold Service_RotateForScope in H.
  pose proof (spares_call (CallRotate scope (TrimSpace id)) w Hw I eq_refl) as Hs. simpl in Hs.
  apply eff_bind_inv in H as [(e & H & ->)|(w1 & [public pw] & H & [= <- <-])]; rewrite H in Hs; [by split|].
  split; [done|]. intros c [= <-]. apply RotateForScope_inv in H; [|done].
  destruct H as (_ & x & y & Hx & Ho & _ & _ & [= Hi _ _] & -> & Hid & Hown & _).
  exists y. rewrite Hi. split_and!; [|rewrite Hown; by apply owner_is_me|done].
  apply list_elem_of_fmap. exists x. unfold replace_row. by rewrite bool_decide_true.
Qed.

Lemma delete_isolated rawID : isolated me (deleteIdentity scope rawID).
Proof.
  apply isolated_id. intros id. apply isolated_run. intros w w' r [Hw _] H. unfold Service_DeleteForScope in H.
  pose proof (spares_call (CallDelete scope (TrimSpace id)) w Hw I eq_refl) as Hs. simpl in Hs. rewrite H in Hs. by split.
Qed.

(** Domains: who keeps their standing. *)
Lemma spares_standing w w' :
  idents w' = idents w → fwds w' = fwds w →
  (∀ d, d ∈ doms w → d_OwnerEmail d ≠ me → standing d ∈ (standing <$> doms w')) → spares me w w'.
Proof. intros Hi Hf Hd. split; [|done]. intros i. by rewrite Hi, Hf. Qed.
Lemma standing_mine (l : list SenderDomain) s :
  s ∈ (standing <$> l) → ∃ x, x ∈ l ∧ standing x = s.
Proof. intros (x & -> & Hx)%list_elem_of_fmap. eauto. Qed.

Lemma domains_isolated : isolated me (listSenderDomains settings scope).
Proof.
  apply isolated_run. intros w w' r _ H. unfold ListSenderDomains, ListSenderDomainsForScope in H.
  apply eff_bind_inv in H as [(e & H & ->)|(w1 & l & H & [= <- <-])];
    apply map_err_inv in H as (x & (v & [Hv Hl]%FindOrdered_law & ->)%zoom_inv & Hx).
  - split; [|done]. apply spares_view. unfold view, doms. simpl. by rewrite Hv.
  - destruct x as [l'|]; [|done]. injection Hx as ->. destruct Hl as (l0 & Hp & _ & ->). cbn [limit_to].
    split; [apply spares_view; unfold view, doms; simpl; by rewrite Hv|]. intros a [= <-]. cbn.
    apply Forall_fmap, Forall_forall. intros d Hd. rewrite Hp, list_elem_of_filter_bool in Hd. destruct Hd as [Hd Ho].
    exists d. unfold doms. simpl. rewrite Hv. split_and!; [done|by apply owner_is_me|done].
Qed.

Lemma createDomain_isolated req : isolated me (createSenderDomain settings scope req).
Proof.
  apply isolated_lift; [by intros; apply isolated_respond|]. intros domain _. apply isolated_run.
  intros w w' r [_ Hnd] H. unfold CreateSenderDomain in H.
  apply eff_bind_inv in H as [(e & H & ->)|(w1 & d & H & [= <- <-])];
    apply domain_registration in H as (Hi & Hf & H); try done.
  - split; [|done]. apply spares_standing; [done..|]. intros d Hd _. rewrite H. by apply list_elem_of_fmap_2.
  - destruct H as (Hd & _ & _ & [(Hst & Hin & Ho)|(Hdm & _ & Ho & _)]).
    + split; [apply spares_standing; [done..|]; intros x Hx _; rewrite Hst; by apply list_elem_of_fmap_2|].
      intros a [= <-]. exists d. split_and!; [done|by apply Ho|done].
    + split; [|intros a [= <-]; by exists d]. apply spares_standing; [done..|]. intros x Hx _. rewrite Hdm.
      apply list_elem_of_fmap_2, elem_of_app. by left.
Qed.

Lemma checkDomain_isolated rawID : isolated me (HttpIdentity.checkSenderDomainDNS settings scope rawID).
Proof.
  apply isolated_lift; [by intros; apply isolated_respond|]. intros domainID _. apply isolated_run.
  intros w w' r [_ Hnd] H. apply CheckSenderDomainDNS_inv in H as (Hi & Hf & H); [|done]. destruct r as [public|e].
  - destruct H as (Hid & d & token & Hd & Hdid & Ho%owner_is_me & _ & _ & _ & Hst). split.
    + apply spares_standing; [done..|]. intros x Hx Hne. rewrite Hst. apply list_elem_of_fmap. exists x. split; [|done].
      destruct (Z.eqb_spec (d_ID x) domainID) as [He|]; [|done]. destruct Hne. rewrite <- Ho. f_equal.
      apply (NoDup_fmap_inj_on d_ID (doms w)); [done..|congruence].
    + intros a [= <-]. assert (((standing d).1, pd_Status public) ∈ (standing <$> doms w')) as Hin.
      { rewrite Hst. apply list_elem_of_fmap. exists d. by rewrite (proj2 (Z.eqb_eq _ _) Hdid). }
      apply standing_mine in Hin as (x & Hx & Hs). exists x. unfold standing in Hs. simpl in Hs.
      split_and!; [done|congruence|congruence].
  - split; [|done]. apply spares_standing; [done..|]. intros x Hx _. rewrite H. by apply list_elem_of_fmap_2.
Qed.
End isolation.

Section guarantee.
Context `{U : Unicode} `{M : NetMail} `{K : Crypto} `{IP : IdentityPayloads}.
Context `{C : CursorCodec} `{Q : Sql} `{TX : TimeText} `{XT : ErrorTexts} `{WF : WebFramework identity_body}.
Context {S : Type} `{T : Table S Notification} `{O : Outside S} `{D : TenantDirectory S} `{DL : !TenantDirectoryLaws S}.
Context {SI SF SD E : Type}.
Context `{TI : Table SI Identity} `{TF : Table SF ForwardRecipient} `{TD : Table SD SenderDomain}.
Context `{LI : !TableLaws SI Identity} `{LF : !TableLaws SF ForwardRecipient} `{LD : !TableLaws SD SenderDomain}.
Context `{Env : Environment E} `{EL : !EnvironmentLaws E}.
Context (key : string) (Commit : SI → SF → SD → result unit) (settings : PublicSettings).

(** The scope of a session that is not an administrator's. *)
Lemma requireAccessScope_inv repository claims owner (k : AccessScope → http identity_body (service * S * world SI SF SD E))
    st st' p :
  dir_ok st.1.2 → ¬ session_admin st.1.2 claims → NewAddress (UserEmail claims) = Ok owner →
  requireAccessScope repository claims k st = (st', p) →
  ∃ st1, st1.2 = st.2 ∧ rows st1.1.2 = rows st.1.2 ∧ k (MkScope (String_ owner) false) st1 = (st', p).
Proof.
  intros Hok Hno Ho. unfold requireAccessScope. rewrite Ho.
  assert (sessionHasAdminRole claims = false) as -> by (apply not_true_is_false; intros ?; apply Hno; by left).
  destruct repository; cbn [negb andb]; [|by exists st].
  intros (st1 & r & (x & -> & Hx)%try_eff_inv & H)%call_inv. apply on_api_inv in Hx as [Hx Hi].
  apply on_world_inv in Hx as [_ Hx]. apply repo_IsActiveTenantAdmin_law in Hx as [(_ & _ & _ & _ & Hr) Hb]; [|done].
  exists st1. split_and!; [done..|]. destruct x as [b|e]; [|done]. destruct b; [|done].
  destruct Hno. right. by apply (Hb true).
Qed.

End guarantee.

(** * Witnesses *)
Import MemoryProcess.
#[local] Existing Instances simple_mail demo_identities demo_identities_laws demo_forwards demo_forwards_laws.
#[local] Existing Instances demo_domains demo_domains_laws plain_texts codec_text.
#[local] Instance identity_web : WebFramework identity_body := plain_web identity_body.
#[local] Instance plain_payloads : IdentityPayloads :=
  {| bind_identity := λ body, Ok (body, ["b@z.w"%string]); bind_forwarding := λ body, Ok [body]; bind_domain := Ok |}.

(** Someone else tries to delete the identity of o@x.y. *)
Definition intruder_request : http_request := MkHttpRequest "acme.org" "" false [] "me@x.y" "evil@z.w".
Definition identity_state : service * memory_process * world (list Identity) (list ForwardRecipient) (list SenderDomain) Z :=
  (grpc_service, running, demo_created).

