(* ===== verification/System.v ===== *)
(** The running server: gRPC calls, HTTP requests and the retry worker on one process.

    [Grpc], [HttpApi], [HttpIdentity] and [Retry] each look at one way to change the state;
    here they are the steps of one system ([sys_step]), in any order.  The tenants stay as
    they are while the server runs (only a bootstrap, before it serves, writes them), so the
    directory of the start is the one every later call is judged by.  What the steps need of
    the directory besides [TenantDirectoryLaws] is the class [DirectoryFrame], which the
    process of [Directory] discharges. *)
From S2P Require Import Prelude GoStrings Strconv Address Crypto Gorm Model Tenant TenantProofs Config Service Retry Directory Delivery Grpc.
From S2P Require Import Identity IdentityProofs SenderDomains HttpApi HttpIdentity.
Open Scope Z_scope.

(** * Invariants of effects *)

(** [m] keeps [P], whatever it returns.  The instances follow the combinators handlers are
    written with, so that a handler's instance is found from those of the calls it makes. *)
Class Preserves {W B} (P : W → Prop) (m : W → W * B) : Prop :=
  preserves w w' b : P w → m w = (w', b) → P w'.

Section preserves.
Context {W : Type} (P : W → Prop).

#[export] Instance preserves_lift {A} (r : result A) : Preserves P (lift r).
Proof. by intros w w' b Hw [= <- _]. Qed.
#[export] Instance preserves_ret {A} (a : A) : Preserves P (mret a : eff W A).
Proof. by intros w w' b Hw [= <- _]. Qed.
Lemma preserves_bind_ok {A B} (m : eff W A) (f : A → eff W B) :
  Preserves P m → (∀ w w' a, P w → m w = (w', Ok a) → Preserves P (f a)) → Preserves P (m ≫= f).
Proof.
  intros Hm Hf w w' b Hw [(e & H & ->)|(w1 & a & H & H')]%eff_bind_inv; [by eapply Hm|].
  eapply (Hf w w1 a); [done..|by eapply Hm|exact H'].
Qed.
#[export] Instance preserves_bind {A B} (m : eff W A) (f : A → eff W B) :
  Preserves P m → (∀ a, Preserves P (f a)) → Preserves P (m ≫= f).
Proof. intros Hm Hf. apply preserves_bind_ok; [done|]. intros ? ? a _ _. apply Hf. Qed.
#[export] Instance preserves_map_err {A} f (m : eff W A) : Preserves P m → Preserves P (map_err f m).
Proof. intros Hm w w' b Hw (x & H & _)%map_err_inv. by eapply Hm. Qed.
#[export] Instance preserves_try {A} (m : eff W A) : Preserves P m → Preserves P (try_eff m).
Proof. intros Hm w w' b Hw (x & _ & H)%try_eff_inv. by eapply Hm. Qed.
#[export] Instance preserves_respond {X} code (body : http_body X) : Preserves P (respond code body).
Proof. by intros w w' b Hw [= <- _]. Qed.
#[export] Instance preserves_fail {X} code msg : Preserves P (fail (X := X) code msg).
Proof. apply preserves_respond. Qed.
Lemma preserves_call_ok {X A} (m : eff W A) (on_error : error → http X W) k :
  Preserves P m → (∀ e, Preserves P (on_error e)) → (∀ w w' a, P w → m w = (w', Ok a) → Preserves P (k a)) →
  Preserves P (call m on_error k).
Proof.
  intros Hm He Hk w w' p Hw (w1 & r & H1 & H)%call_inv. pose proof (Hm _ _ _ Hw H1).
  destruct r as [a|e]; [by eapply (Hk w w1)|by eapply He].
Qed.
#[export] Instance preserves_call {X A} (m : eff W A) (on_error : error → http X W) k :
  Preserves P m → (∀ e, Preserves P (on_error e)) → (∀ a, Preserves P (k a)) → Preserves P (call m on_error k).
Proof. intros Hm He Hk. by apply preserves_call_ok. Qed.
#[export] Instance preserves_if {B} (b : bool) (m m' : W → W * B) :
  Preserves P m → Preserves P m' → Preserves P (if b then m else m').
Proof. by destruct b. Qed.
#[export] Instance preserves_decide {B} (Q : Prop) `{Hd : Decision Q} (m m' : W → W * B) :
  Preserves P m → Preserves P m' → Preserves P (if decide Q then m else m').
Proof. by case_decide. Qed.
End preserves.

(** Calls on the world behind the service, and on the service behind the API. *)
#[export] Instance preserves_on_world {S A} (P : S → Prop) (Q : service → Prop) (m : eff S A) :
  Preserves P m → Preserves (λ st, Q st.1 ∧ P st.2) (on_world m).
Proof. intros Hm st st' b [Hq Hp] [H1 H2]%on_world_inv. rewrite H1. split; [done|by eapply Hm]. Qed.
#[export] Instance preserves_on_api {S I B} (P : service * S → Prop) (m : service * S → (service * S) * B) :
  Preserves P m → Preserves (λ st : service * S * I, P st.1) (on_api m).
Proof. intros Hm st st' b Hp [H _]%on_api_inv. by eapply Hm. Qed.

#[export] Hint Extern 1 (Preserves _ internalError) => apply preserves_respond : typeclass_instances.
(** Handlers: unfold, and take what is matched on apart. *)
Ltac keep_all := repeat first
  [apply _ | progress intros | progress cbv zeta | apply preserves_bind | apply preserves_call | apply preserves_if
  | apply preserves_decide | case_match].

(** * The directory while the server runs *)

(** The calls a handler makes on the world, but for the lookup of a tenant by its id. *)
Inductive world_call {S} `{T : Table S Notification} `{O : Outside S} `{D : TenantDirectory S} : ∀ {A}, eff S A → Prop :=
| call_First p : world_call (First p)
| call_Find p : world_call (Find p)
| call_FindOrdered p le n : world_call (FindOrdered p le n)
| call_Create x : world_call (Create x)
| call_Save x : world_call (Save x)
| call_TimeNow : world_call TimeNow
| call_SendEmail sender to_ subject message l : world_call (SendEmail sender to_ subject message l)
| call_SendSms sender to_ message : world_call (SendSms sender to_ message)
| call_ResolveByHost host : world_call (repo_ResolveByHost host)
| call_ListActive : world_call repo_ListActiveTenants
| call_ListByDomain domain : world_call (repo_ListActiveTenantsByDomain domain)
| call_IsAdmin email : world_call (repo_IsActiveTenantAdmin email).

Definition same_directory {S} `{D : TenantDirectory S} (runtime : S → string → option RuntimeConfig) (s s' : S) : Prop :=
  dir_ok s' ∧ dir_tenants s' = dir_tenants s ∧ dir_domains s' = dir_domains s ∧ dir_admins s' = dir_admins s ∧
  ∀ id, runtime s' id = runtime s id.

(** The runtime configuration of each tenant, which the two lookups by id give, is part of
    the directory; nothing a handler calls changes it. *)
Class DirectoryFrame (S : Type) `{T : Table S Notification} `{O : Outside S} `{D : TenantDirectory S} := {
  dir_runtime : S → string → option RuntimeConfig;
  world_call_frame {A} (m : eff S A) s s' r :
    world_call m → dir_ok s → m s = (s', r) → same_directory dir_runtime s s';
  ResolveByID_frame id s s' r : dir_ok s → ResolveByID id s = (s', r) ∨ repo_ResolveByID id s = (s', r) →
    same_directory dir_runtime s s' ∧
    ∀ cfg, r = Ok cfg → dir_runtime s (TrimSpace id) = Some cfg ∧ rc_TenantID cfg = TrimSpace id;
}.

Section directory.
Context `{U : Unicode} `{C : CursorCodec} `{Q : Sql} `{TX : TimeText} `{XT : ErrorTexts} `{TS : Timestamps}.
Context {X S I : Type} `{T : Table S Notification} `{O : Outside S} `{D : TenantDirectory S} `{WF : WebFramework X}.
Context `{F : !DirectoryFrame S}.
(** The directory at the start. *)
Context (s0 : S).

Definition as_started (s : S) : Prop := same_directory dir_runtime s0 s.
(** Senders in the service are those of the tenants in the directory. *)
Definition senders_known (svc : service) : Prop :=
  hasTenantRepo svc = true ∧ defaultEmailSender svc = false ∧ defaultSmsSender svc = false ∧
  (∀ id x, emailSenders svc !! id = Some x → ∃ cfg, dir_runtime s0 id = Some cfg ∧ x = SMTPEmailSender (rc_Email cfg)) ∧
  (∀ id x, smsSenders svc !! id = Some x →
     ∃ cfg c, dir_runtime s0 id = Some cfg ∧ rc_SMS cfg = Some c ∧ x = TwilioSmsSender c).
Definition good (st : service * S) : Prop := senders_known st.1 ∧ as_started st.2.
(** A configuration the directory gives. *)
Class known (cfg : RuntimeConfig) : Prop := is_known : dir_runtime s0 (rc_TenantID cfg) = Some cfg.

Lemma as_started_trans s s' : as_started s → same_directory dir_runtime s s' → as_started s'.
Proof.
  intros (? & E1 & E2 & E3 & E4) (? & F1 & F2 & F3 & F4). unfold as_started, same_directory.
  rewrite F1, F2, F3. split_and!; try done. intros id. by rewrite F4.
Qed.
Lemma preserves_world_call {A} (m : eff S A) : world_call m → Preserves as_started m.
Proof.
  intros Hm s s' r Hs H. eapply as_started_trans; [exact Hs|]. eapply world_call_frame; [done| |exact H]. by destruct Hs.
Qed.
Lemma resolved_known id s s' r :
  as_started s → ResolveByID id s = (s', r) ∨ repo_ResolveByID id s = (s', r) →
  as_started s' ∧ ∀ cfg, r = Ok cfg → known cfg ∧ rc_TenantID cfg = TrimSpace id.
Proof.
  intros Hs H. pose proof Hs as (Hok & _ & _ & _ & Hrun). apply ResolveByID_frame in H as [Hd Hr]; [|done].
  split; [by eapply as_started_trans|]. intros cfg Hc. destruct (Hr cfg Hc) as [H1 H2]. split; [|done].
  unfold known. by rewrite H2, <- Hrun.
Qed.
#[local] Hint Extern 0 (Preserves as_started _) => apply preserves_world_call; constructor : typeclass_instances.
#[local] Instance preserves_ResolveByID id : Preserves as_started (ResolveByID id).
Proof. intros s s' r Hs H. by eapply resolved_known; [|left]. Qed.
#[local] Instance preserves_repo_ResolveByID id : Preserves as_started (repo_ResolveByID id).
Proof. intros s s' r Hs H. by eapply resolved_known; [|right]. Qed.
#[local] Hint Extern 0 (Preserves good (on_world _)) =>
  apply (preserves_on_world as_started senders_known) : typeclass_instances.

(** ** The service *)
#[local] Instance preserves_MustGet tenantID id : Preserves as_started (MustGetNotificationByID tenantID id).
Proof.
  intros s s' r Hs. unfold MustGetNotificationByID, GetNotificationByID.
  destruct (First _ s) as [s1 x] eqn:E. intros [= <- _]. by eapply preserves_world_call; [constructor|exact Hs|exact E].
Qed.
#[local] Instance preserves_edit cfg id scheduledFor (cancel : bool) :
  Preserves good (if cancel then CancelNotification cfg id else RescheduleNotification cfg id scheduledFor).
Proof. destruct cancel; unfold CancelNotification, RescheduleNotification, SaveNotification; keep_all. Qed.
#[local] Instance preserves_Get ctx id : Preserves good (GetNotificationStatus ctx id).
Proof. unfold GetNotificationStatus. keep_all. Qed.
#[local] Instance preserves_List ctx filters : Preserves good (Service_ListNotifications ctx filters).
Proof. unfold Service_ListNotifications, ListNotifications. keep_all. Qed.
#[local] Instance preserves_Page ctx filters page : Preserves good (Service_ListNotificationsPage ctx filters page).
Proof. unfold Service_ListNotificationsPage, ListNotificationsPage. keep_all. Qed.

(** A sender is made from the configuration it is asked for. *)
Lemma preserves_emailSender cfg : known cfg → Preserves good (on_service (λ svc, emailSenderForTenant svc cfg)).
Proof.
  intros Hk [svc s] st' r [(Hr & He & Hs & Hes & Hss) Hd]. simpl in *. unfold on_service, emailSenderForTenant. cbn [fst snd].
  rewrite He. intros H. repeat case_match; simplify_eq; (split; [|done]); split_and!; try done.
  simpl. intros id x [[<- <-]|[_ ?]]%lookup_insert_Some; [|by apply Hes]. by exists cfg.
Qed.
Lemma preserves_smsSender cfg : known cfg → Preserves good (on_service (λ svc, smsSenderForTenant svc cfg)).
Proof.
  intros Hk [svc s] st' r [(Hr & He & Hs & Hes & Hss) Hd]. simpl in *. unfold on_service, smsSenderForTenant. cbn [fst snd].
  rewrite Hs. intros H. repeat case_match; simplify_eq; (split; [|done]); split_and!; try done.
  simpl. intros id x [[<- <-]|[_ ?]]%lookup_insert_Some; [|by apply Hss]. eexists cfg, _. by split_and!.
Qed.
#[local] Existing Instances preserves_emailSender preserves_smsSender.
#[local] Instance preserves_attempt {A} (m : eff S A) : Preserves as_started m → Preserves good (Service.attempt m).
Proof.
  intros Hm st st' r [Hs Hd] (H1 & H2 & _)%attempt_inv. rewrite <- H1 in Hs. split; [done|]. rewrite H2.
  destruct (m st.2) as [s1 x] eqn:E. by eapply Hm.
Qed.
#[local] Instance preserves_Send cfg request : known cfg → Preserves good (SendNotification (Some cfg) request).
Proof.
  intros Hk. unfold SendNotification, dispatch_now, CreateNotification. cbn [requireTenant].
  apply preserves_bind_ok; [apply _|]. intros _ _ c _ [= _ <-]. keep_all.
Qed.

(** ** gRPC *)
Lemma preserves_notificationServiceServer cfg req : known cfg → Preserves good (notificationServiceServer (Some cfg) req).
Proof.
  intros Hk. destruct req; unfold notificationServiceServer, server_SendNotification, server_GetNotificationStatus,
    server_ListNotifications, server_RescheduleNotification, server_CancelNotification; keep_all.
Qed.
Lemma preserves_serveGRPC token ctx req : Preserves good (serveGRPC true token ctx req).
Proof.
  unfold serveGRPC, buildAuthInterceptor. destruct (gc_metadata ctx) as [md|]; [|apply _].
  destruct (md_Get md _); [apply _|]. do 2 (apply preserves_if; [apply _|]).
  unfold buildTenantInterceptor. cbn [negb]. cbv iota zeta. apply preserves_decide; [apply _|].
  apply preserves_bind_ok; [apply _|]. intros st st' cfg [_ Hd] [_ H]%map_err_Ok%on_world_inv.
  apply preserves_notificationServiceServer. by eapply resolved_known; [exact Hd|right; exact H|].
Qed.

(** ** HTTP *)
#[local] Instance preserves_adminAccess claims : Preserves good (sessionHasAdminAccess claims).
Proof. unfold sessionHasAdminAccess. keep_all. Qed.
#[local] Instance preserves_accessible claims : Preserves good (accessibleTenants claims).
Proof. unfold accessibleTenants. keep_all. Qed.
#[local] Instance preserves_resolveContext claims req : Preserves good (resolveNotificationContext claims req).
Proof. unfold resolveNotificationContext, authorizeNotificationTenant. keep_all. Qed.
#[local] Instance preserves_listTenants claims : Preserves good (listTenants (X := X) claims).
Proof. unfold listTenants, writeTenantListError, internalError. keep_all. Qed.
#[local] Instance preserves_resolutionError {P : service * S → Prop} e : Preserves P (writeTenantResolutionError (X := X) e).
Proof. unfold writeTenantResolutionError, internalError. keep_all. Qed.
#[local] Instance preserves_writeError {P : service * S → Prop} e : Preserves P (HttpApi.writeError (X := X) e).
Proof. unfold HttpApi.writeError, internalError. keep_all. Qed.
#[local] Instance preserves_listNotifications claims req : Preserves good (listNotifications (X := X) claims req).
Proof. unfold listNotifications, writeNotificationListRequestError. keep_all. Qed.
#[local] Instance preserves_reschedule claims req id : Preserves good (rescheduleNotification (X := X) claims req id).
Proof. unfold rescheduleNotification, internalError. keep_all. Qed.
#[local] Instance preserves_cancel claims req id : Preserves good (cancelNotification (X := X) claims req id).
Proof. unfold cancelNotification. keep_all. Qed.

(** ** The worker *)
Lemma preserves_PendingJobs repo maxRetries now : Preserves good (on_world (PendingJobs repo maxRetries now)).
Proof.
  apply (preserves_on_world as_started senders_known). unfold PendingJobs, pendingJobsAll. destruct repo; [|apply _].
  intros s s' r Hs H. unfold pendingJobsForActiveTenants in H. revert s s' r Hs H.
  assert (∀ f, Preserves as_started (notifications ← Find f; mret (jobsFromNotifications notifications))) as Hf by (intros; apply _).
  intros s s' r Hs H. by eapply Hf.
Qed.
Lemma preserves_Apply job update : Preserves good (on_world (ApplyAttemptResult job update)).
Proof. apply (preserves_on_world as_started senders_known). unfold ApplyAttemptResult, SaveNotification. apply _. Qed.

Lemma runtimeForTenantID_known ctx id (st st' : service * S) r :
  good st → runtimeForTenantID ctx id st = (st', r) → good st' ∧ ∀ cfg, r = Ok cfg → known cfg.
Proof.
  intros Hg. pose proof Hg as ((Hrepo & _) & Hd). unfold runtimeForTenantID.
  case_decide; [by intros [= <- <-]|]. rewrite Hrepo. intros Hr. split.
  - by eapply (_ : Preserves good (on_world (ResolveByID id))).
  - apply on_world_inv in Hr as [_ Hr]. intros cfg ->. by eapply resolved_known; [exact Hd|left; exact Hr|].
Qed.
Lemma preserves_Attempt ctx job : Preserves good (Attempt ctx job).
Proof.
  intros st st' r Hg. unfold Attempt. destruct (recordFromJob job) as [record|e]; [|by intros [= <- _]].
  destruct (runtimeForTenantID _ _ st) as [st1 cfg] eqn:E1. apply runtimeForTenantID_known in E1 as [Hg1 Hk]; [|done].
  destruct cfg as [cfg|e]; [|by intros [= <- _]]. specialize (Hk cfg eq_refl).
  case_decide; [|case_decide; [|by intros [= <- _]]].
  - destruct (on_service _ st1) as [st2 sender] eqn:E2. pose proof (preserves_emailSender cfg Hk _ _ _ Hg1 E2) as Hg2.
    destruct sender as [sender|e]; [|by intros [= <- _]]. destruct (on_world _ st2) as [st3 x] eqn:E3. intros [= <- _].
    refine (preserves_on_world as_started senders_known _ (preserves_world_call _ _) _ _ _ Hg2 E3). constructor.
  - destruct (on_service _ st1) as [st2 sender] eqn:E2. pose proof (preserves_smsSender cfg Hk _ _ _ Hg1 E2) as Hg2.
    destruct sender as [sender|e]; [|by intros [= <- _]]. destruct (on_world _ st2) as [st3 x] eqn:E3. intros [= <- _].
    refine (preserves_on_world as_started senders_known _ (preserves_world_call _ _) _ _ _ Hg2 E3). constructor.
Qed.

(** Requests that look at the directory only also leave the notifications alone. *)
Context `{L : !TableLaws S Notification} `{OL : !OutsideLaws S} `{DL : !TenantDirectoryLaws S}.
Section quiet_requests.
Context (l : list Notification).
Definition still_world (s : S) : Prop := as_started s ∧ rows s = l.
Definition still (st : service * S) : Prop := senders_known st.1 ∧ still_world st.2.

#[local] Instance still_ByHost host : Preserves still_world (repo_ResolveByHost host).
Proof.
  intros s s' r [Hs Hl] H. split; [by eapply preserves_world_call; [constructor|..]|].
  apply repo_ResolveByHost_law in H as [(_ & _ & _ & _ & ->) _]; [done|by destruct Hs].
Qed.
#[local] Instance still_Active : Preserves still_world repo_ListActiveTenants.
Proof.
  intros s s' r [Hs Hl] H. split; [by eapply preserves_world_call; [constructor|..]|].
  apply repo_ListActiveTenants_law in H as [(_ & _ & _ & _ & ->) _]; [done|by destruct Hs].
Qed.
#[local] Instance still_ByDomain domain : Preserves still_world (repo_ListActiveTenantsByDomain domain).
Proof.
  intros s s' r [Hs Hl] H. split; [by eapply preserves_world_call; [constructor|..]|].
  apply repo_ListActiveTenantsByDomain_law in H as [(_ & _ & _ & _ & ->) _]; [done|by destruct Hs].
Qed.
#[local] Instance still_IsAdmin email : Preserves still_world (repo_IsActiveTenantAdmin email).
Proof.
  intros s s' r [Hs Hl] H. split; [by eapply preserves_world_call; [constructor|..]|].
  apply repo_IsActiveTenantAdmin_law in H as [(_ & _ & _ & _ & ->) _]; [done|by destruct Hs].
Qed.
#[local] Hint Extern 0 (Preserves still (on_world _)) =>
  apply (preserves_on_world still_world senders_known) : typeclass_instances.
#[local] Hint Extern 0 (Preserves (λ st, still st.1) (on_api _)) => apply (preserves_on_api still) : typeclass_instances.
#[local] Instance still_listTenants claims : Preserves still (listTenants (X := X) claims).
Proof. unfold listTenants, accessibleTenants, sessionHasAdminAccess, writeTenantListError, internalError. keep_all. Qed.

Lemma engine_still (identity : identity_endpoint → Claims → http_request → http X (service * S * I)) srv e req :
  (∀ e claims req, Preserves (λ st, still st.1) (identity e claims req)) → notification_endpoint e = false →
  Preserves (λ st, still st.1) (engine identity srv e req).
Proof.
  intros Hi He. unfold engine, tenantMiddleware, corsMiddleware.
  destruct e; try done; cbn [route_request]; unfold sessionMiddleware, serveRuntimeConfig; keep_all.
  all: by intros ? ? ? ? [= <- _].
Qed.
End quiet_requests.

Lemma engine_good (identity : identity_endpoint → Claims → http_request → http X (service * S * I)) srv e req :
  notification_endpoint e = true → Preserves (λ st, good st.1) (engine identity srv e req).
Proof.
  intros He st st' p Hg. rewrite engine_protected by by destruct e. unfold corsMiddleware.
  destruct (cors_New _ req); [by intros [= <- _]|]. unfold route_request, sessionMiddleware.
  destruct e as [| | | |id|id|e|]; try done; (destruct (ValidateRequest req); [|by intros [= <- _]]);
    intros [H _]%on_api_inv; revert H; apply (_ : Preserves good _); done.
Qed.
End directory.

(** The identity handlers work on the identity tables; of the rest they ask only whether the
    session is an administrator's. *)
Section identity_still.
Context `{U : Unicode} `{M : NetMail} `{K : Crypto} `{IP : IdentityPayloads}.
Context {S : Type} `{T : Table S Notification} `{O : Outside S} `{D : TenantDirectory S}.
Context `{F : !DirectoryFrame S} `{DL : !TenantDirectoryLaws S}.
Context {SI SF SD E : Type}.
Context `{TI : Table SI Identity} `{TF : Table SF ForwardRecipient} `{TD : Table SD SenderDomain}.
Context `{Env : Environment E}.
Context (key : string) (Commit : SI → SF → SD → result unit) (settings : PublicSettings).
Context (s0 : S) (l : list Notification).
#[local] Abbreviation St := (service * S * world SI SF SD E)%type.
#[local] Abbreviation P := (λ st : St, still s0 l st.1).

#[local] Instance still_run {A} (m : eff (world SI SF SD E) A) code answer : Preserves P (run (S := S) m code answer).
Proof.
  unfold run, HttpIdentity.writeError, internalError. apply preserves_call; [|keep_all|keep_all].
  intros st st' r Hp (w & _ & ->)%zoom_inv. done.
Qed.
Lemma identity_still repository e claims req :
  Preserves P (identityHandler (S := S) key Commit settings repository e claims req).
Proof.
  unfold identityHandler, requireAccessScope.
  assert (∀ scope, Preserves P match e with
    | EPListSenderDomains => listSenderDomains (S := S) settings scope
    | EPCreateSenderDomain => createSenderDomain settings scope req
    | EPCheckSenderDomainDNS id => checkSenderDomainDNS settings scope id
    | EPListIdentities => listIdentities scope
    | EPCreateIdentity => createIdentity key Commit settings scope req
    | EPUpdateForwarding id => updateForwarding Commit scope req id
    | EPGetCredentials id => getCredentials key settings scope id
    | EPRotateIdentity id => rotateIdentity key settings scope id
    | EPDeleteIdentity id => deleteIdentity scope id
    end) as Hall.
  { intros scope. destruct e; unfold listSenderDomains, createSenderDomain, checkSenderDomainDNS, listIdentities, createIdentity,
      updateForwarding, getCredentials, rotateIdentity, deleteIdentity, identityIDRequired; keep_all. }
  destruct (NewAddress _); [|apply _]. cbv zeta. apply preserves_if; [|apply Hall].
  apply preserves_call; [|unfold internalError; apply _|intros; apply Hall].
  apply preserves_try, (preserves_on_api (still s0 l)), (preserves_on_world (still_world s0 l) (senders_known s0)), still_IsAdmin, DL.
Qed.
End identity_still.

(** * The process has such a directory *)
Section frame.
Context `{U : Unicode} `{K : Crypto} {SN ST SD SA SE SS E P : Type}.
Context `{TN : Table SN Notification}.
Context `{TT : Table ST Tenant} `{TD : Table SD TenantDomain} `{TA : Table SA TenantAdmin}.
Context `{TE : Table SE EmailProfile} `{TS : Table SS SMSProfile}.
Context `{JD : Joins ST Tenant SD TenantDomain} `{JA : Joins ST Tenant SA TenantAdmin}.
Context `{Env : Environment E} `{PR : Providers P}.
Context `{LT : !TableLaws ST Tenant} `{LD : !TableLaws SD TenantDomain} `{LA : !TableLaws SA TenantAdmin}.
Context `{LE : !TableLaws SE EmailProfile} `{LS : !TableLaws SS SMSProfile}.
Context `{JDL : !JoinLaws ST Tenant SD TenantDomain} `{JAL : !JoinLaws ST Tenant SA TenantAdmin}.
Context (key : string) (repo : nat).
#[local] Abbreviation W := (process SN (tenant_db ST SD SA SE SS) E P).
#[local] Instance frame_table : Table W Notification := process_table.
#[local] Instance frame_outside : Outside W := process_outside key repo.
#[local] Instance frame_directory : TenantDirectory W := process_directory key repo.
Definition process_runtime (w : W) (id : string) : option RuntimeConfig := runtime_of key (tw_db (p_tenants w)) id.

Lemma same_directory_tables (w : W) x t y :
  coherent key t → same_tables (p_tenants w) t → same_directory process_runtime w (MkProcess x t y).
Proof.
  intros Ht Hs. pose proof Hs as (H1 & H2 & H3 & _)%tables_eq. unfold same_directory, process_runtime. simpl.
  split_and!; try done. intros id. by apply runtime_of_ext.
Qed.

Definition process_frame : DirectoryFrame W.
Proof.
  refine {| dir_runtime := process_runtime |}.
  - intros A m w w' r Hm Hok H.
    assert (∃ x t y, w' = MkProcess x t y ∧ coherent key t ∧ same_tables (p_tenants w) t) as (x & t & y & -> & Ht & Hs).
    { destruct Hm; simpl in H; unfold in_providers, in_tenants in H; apply zoom_inv in H as (v & H & ->); eexists _, _, _;
        (split; [reflexivity|]); try done.
      - by apply ResolveByHost_inv in H as (? & ? & _).
      - apply zoom_inv in H as (d & [Hd _]%ListActiveTenants_inv & ->). split; [by apply coherent_db|done].
      - apply zoom_inv in H as (d & [Hd _]%ListActiveTenantsByDomain_inv & ->). split; [by apply coherent_db|done].
      - apply zoom_inv in H as (d & [Hd _]%IsActiveTenantAdmin_inv & ->). split; [by apply coherent_db|done]. }
    by apply same_directory_tables.
  - intros id w w' r Hok H. assert (in_tenants (Tenant.ResolveByID key repo id) w = (w', r)) as Hin by by destruct H.
    unfold in_tenants in Hin. apply zoom_inv in Hin as (t & Ht & ->).
    apply ResolveByID_inv in Ht as (Hc & Hs & Hr); [|done]. split; [by apply same_directory_tables|].
    intros cfg Hcfg. destruct (Hr cfg Hcfg) as [Hne Hrun]. split; [done|]. by destruct (runtime_of_tenant _ _ _ _ Hrun Hne).
Defined.
End frame.

(** * The running server *)
Definition tenant_rows (t : string) (l : list Notification) : list Notification :=
  List.filter (λ n, bool_decide (n_TenantID n = t)) l.
Lemma confined_elsewhere id t l l' : confined id l l' → t ≠ id → tenant_rows t l' = tenant_rows t l.
Proof.
  intros [Heq _] Hne.
  assert (∀ x, tenant_rows t x = tenant_rows t (List.filter (λ n, negb (bool_decide (n_TenantID n = id))) x)) as Hx.
  { unfold tenant_rows. induction x as [|n x IH]; [done|]. simpl. destruct (decide (n_TenantID n = id)) as [Hid|Hid].
    - rewrite (bool_decide_false (n_TenantID n = t)) by congruence. rewrite bool_decide_true by done. simpl. exact IH.
    - rewrite (bool_decide_false (n_TenantID n = id)) by done. simpl. destruct (bool_decide (n_TenantID n = t)); simpl; congruence. }
  by rewrite (Hx l'), Heq, <- Hx.
Qed.

(** A job of the worker is for a stored notification, with its content. *)
Definition job_known (l : list Notification) (job : Job) : Prop :=
  ∃ m n, job_Payload job = NotificationPayload m ∧ n ∈ l ∧ same_content n m.
Lemma job_known_kept l l' job : kept l l' → job_known l job → job_known l' job.
Proof.
  intros Hk (m & n & Hp & Hn & Hs). destruct (kept_elem _ _ _ Hk Hn) as (n' & Hn' & Hs'). exists m, n'.
  split_and!; [done..|]. by transitivity n; [symmetry|].
Qed.

Section system.
Context `{U : Unicode} `{C : CursorCodec} `{Q : Sql} `{TX : TimeText} `{XT : ErrorTexts} `{TS : Timestamps}.
Context `{M : NetMail} `{K : Crypto} `{IP : IdentityPayloads} `{WF : WebFramework identity_body}.
Context {S : Type} `{T : Table S Notification} `{O : Outside S} `{D : TenantDirectory S}.
Context {SI SF SD E : Type}.
Context `{TI : Table SI Identity} `{TF : Table SF ForwardRecipient} `{TD : Table SD SenderDomain} `{Env : Environment E}.
Context (key : string) (Commit : SI → SF → SD → result unit) (settings : PublicSettings).
Context (srv : HttpApi.Server) (requiredToken : string).

Record system := MkSystem {
  y_state : service * S * world SI SF SD E;
  y_jobs : list Job;                        (** polled by the worker and not yet attempted *)
}.
Definition y_rows (y : system) : list Notification := rows (y_state y).1.2.

(** What happened: a gRPC call with its result, an HTTP request with its answer, an attempt
    of the worker, or anything that does not touch notifications and tenants (the worker polls
    or skips a job, a mail session changes the identity tables). *)
Inductive activity :=
| Rpc (ctx : grpc_context) (req : grpc_request) (r : result grpc_response)
| Web (e : endpoint) (req : http_request) (p : http_response identity_body)
| Attempted (record : Notification)
| Elsewhere.

Inductive sys_step : system → activity → system → Prop :=
| step_rpc st st' i jobs ctx req r :
    serveGRPC true requiredToken ctx req st = (st', r) →
    sys_step (MkSystem (st, i) jobs) (Rpc ctx req r) (MkSystem (st', i) jobs)
| step_web st st' jobs e req p :
    engine (identityHandler key Commit settings (TenantRepository (srv_config srv))) srv e req st = (st', p) →
    sys_step (MkSystem st jobs) (Web e req p) (MkSystem st' jobs)
| step_poll st st' i now jobs :
    on_world (PendingJobs (hasTenantRepo st.1) (maxRetries st.1) now) st = (st', Ok jobs) →
    sys_step (MkSystem (st, i) []) Elsewhere (MkSystem (st', i) jobs)
| step_skip st job jobs : sys_step (MkSystem st (job :: jobs)) Elsewhere (MkSystem st jobs)
| step_attempt st st1 st2 i job jobs record ctx d err update r :
    recordFromJob job = Ok record →
    Attempt ctx job st = (st1, (d, err)) →
    on_world (ApplyAttemptResult job update) st1 = (st2, r) →
    sys_step (MkSystem (st, i) (job :: jobs)) (Attempted record) (MkSystem (st2, i) jobs)
| step_mail st i i' jobs : sys_step (MkSystem (st, i) jobs) Elsewhere (MkSystem (st, i') jobs).

Inductive sys_run : system → list activity → system → Prop :=
| run_start y : sys_run y [] y
| run_step y a y1 l y2 : sys_step y a y1 → sys_run y1 l y2 → sys_run y (a :: l) y2.

(** Who may be behind a change of a tenant's notifications, by the directory [s0]. *)
Definition responsible (s0 : S) (t : string) (a : activity) : Prop :=
  match a with
  | Rpc ctx req r => presents_token ctx requiredToken ∧ requested_tenant ctx req = t ∧
      (∃ x, x ∈ dir_tenants s0 ∧ t_ID x = t) ∧ ∃ reply, r = Ok reply
  | Web e req p => notification_endpoint e = true ∧ hp_Code p = StatusOK ∧ TrimSpace (Query req "tenant_id") = t ∧
      ∃ claims, ValidateRequest req = Ok claims ∧ may_access s0 claims t
  | Attempted record => n_TenantID record = t
  | Elsewhere => False
  end.
End system.
Arguments MkSystem {S SI SF SD E} _ _.
Arguments y_state {S SI SF SD E} _.
Arguments y_jobs {S SI SF SD E} _.

Section accounting.
Context `{U : Unicode} `{C : CursorCodec} `{Q : Sql} `{TX : TimeText} `{XT : ErrorTexts} `{TS : Timestamps}.
Context `{M : NetMail} `{K : Crypto} `{IP : IdentityPayloads} `{WF : WebFramework identity_body}.
Context {S : Type} `{T : Table S Notification} `{O : Outside S} `{D : TenantDirectory S}.
Context `{L : !TableLaws S Notification} `{OL : !OutsideLaws S} `{DL : !TenantDirectoryLaws S} `{F : !DirectoryFrame S}.
Context {SI SF SD E : Type}.
Context `{TI : Table SI Identity} `{TF : Table SF ForwardRecipient} `{TD : Table SD SenderDomain} `{Env : Environment E}.
Context (key : string) (Commit : SI → SF → SD → result unit) (settings : PublicSettings).
Context (srv : HttpApi.Server) (requiredToken : string) (s0 : S).
#[local] Abbreviation sys := (system (S := S) (SI := SI) (SF := SF) (SD := SD) (E := E)).
#[local] Abbreviation step := (sys_step key Commit settings srv requiredToken).
#[local] Abbreviation accounted := (responsible requiredToken s0).

Record sys_inv (y : sys) : Prop := {
  yi_good : good s0 (y_state y).1;
  yi_ids : NoDup (n_ID <$> y_rows y);
  yi_jobs : Forall (job_known (y_rows y)) (y_jobs y);
}.
(** What one step may do to the notifications. *)
Definition accounts_for (l l' : list Notification) (a : activity) : Prop :=
  kept l l' ∧ ∀ t, tenant_rows t l' = tenant_rows t l ∨ accounted t a.

Lemma accounts_same l l' a : l' = l → accounts_for l l' a.
Proof. intros ->. split; [done|by left]. Qed.
Lemma accounts_confined id l l' a :
  confined id l l' → accounted id a → accounts_for l l' a.
Proof.
  intros Hc Ha. split; [by destruct Hc|]. intros t. destruct (decide (t = id)) as [->|Hne]; [by right|].
  left. by eapply confined_elsewhere.
Qed.

Lemma rpc_accounts ctx req (st st' : service * S) r :
  good s0 st → NoDup (n_ID <$> rows st.2) → serveGRPC true requiredToken ctx req st = (st', r) →
  accounts_for (rows st.2) (rows st'.2) (Rpc ctx req r).
Proof.
  intros [_ (Hok & Ht & _)] Hnd H. pose proof H as [Hc Hr]%serveGRPC_confined; [|done..].
  destruct r as [reply|e]; [|by apply accounts_same]. eapply accounts_confined; [exact Hc|].
  destruct Hr as (Htok & Hx & _). rewrite Ht in Hx. split_and!; [done..|]. by exists reply.
Qed.

Lemma may_access_started s claims t : as_started s0 s → may_access s claims t → may_access s0 claims t.
Proof. intros (_ & E1 & E2 & E3 & _). unfold may_access, session_admin, domain_tenant. by rewrite E1, E2, E3. Qed.

Lemma web_accounts e req (st st' : service * S * world SI SF SD E) p :
  good s0 st.1 → NoDup (n_ID <$> rows st.1.2) →
  engine (identityHandler key Commit settings (TenantRepository (srv_config srv))) srv e req st = (st', p) →
  good s0 st'.1 ∧ accounts_for (rows st.1.2) (rows st'.1.2) (Web e req p).
Proof.
  intros Hg Hnd H. pose proof Hg as [Hsend Hs]. destruct (notification_endpoint e) eqn:He.
  - split; [by eapply engine_good|]. pose proof Hs as (Hok & _).
    apply engine_notification in H as [[_ ->]|(claims & Hv & _ & Hc & Hno & Hyes)]; [by apply accounts_same| |done..].
    destruct (decide (hp_Code p = StatusOK)) as [H200|Hn]; [|apply accounts_same; by apply Hno].
    eapply accounts_confined; [exact Hc|]. destruct (Hyes H200) as (_ & Hacc & _).
    split_and!; [done..|]. exists claims. split; [done|by eapply may_access_started].
  - assert (still s0 (rows st.1.2) st'.1) as (Hsend' & Hs' & Hr).
    { eapply (engine_still s0 (rows st.1.2)); [by intros; apply identity_still|done| |exact H]. by split_and!. }
    split; [by split|by apply accounts_same].
Qed.

Lemma attempt_accounts ctx job record update (st st1 st2 : service * S) d err r :
  good s0 st → NoDup (n_ID <$> rows st.2) → job_known (rows st.2) job → recordFromJob job = Ok record →
  Attempt ctx job st = (st1, (d, err)) → on_world (ApplyAttemptResult job update) st1 = (st2, r) →
  good s0 st2 ∧ accounts_for (rows st.2) (rows st2.2) (Attempted record).
Proof.
  intros Hg Hnd (m & n & Hp & Hn & Hs) Hrec Ha Hw. unfold recordFromJob in Hrec. rewrite Hp in Hrec. injection Hrec as <-.
  pose proof Hs as (Hid & Hten & _).
  split; [by eapply preserves_Apply; [eapply preserves_Attempt|]|].
  apply Attempt_inv in Ha as [Hr _].
  apply (Apply_inv _ _ m) in Hw; [|done|rewrite Hr, Hid; by apply list_elem_of_fmap_2].
  destruct r as [u|e]; [|apply accounts_same; by rewrite Hw].
  destruct Hw as (n' & Hn' & _ & _ & Hrows). rewrite Hrows, Hr, Hid. eapply accounts_confined.
  - apply (confined_replaced _ n n'); [done..|by transitivity m].
  - done.
Qed.

Lemma step_accounts (y y' : sys) a : sys_inv y → step y a y' → sys_inv y' ∧ accounts_for (y_rows y) (y_rows y') a.
Proof.
  intros [Hg Hnd Hjobs] Hs.
  (* the jobs stay known when the rows are kept *)
  assert (∀ y1 : sys, good s0 (y_state y1).1 → y_jobs y1 ⊆ y_jobs y → accounts_for (y_rows y) (y_rows y1) a →
    sys_inv y1 ∧ accounts_for (y_rows y) (y_rows y1) a) as Hend.
  { intros y1 Hg1 Hj Ha. split; [|done]. pose proof Ha as [Hk _]. constructor; [done|by apply Hk|].
    rewrite Forall_forall in *. intros job Hin. eapply job_known_kept; [exact Hk|]. by apply Hjobs, Hj. }
  destruct Hs as [st st' i jobs ctx req r H|st st' jobs e req p H|st st' i now jobs H|st job jobs
    |st st1 st2 i job jobs record ctx d err update r Hrec Ha Hw|st i i' jobs]; unfold y_rows in *; simpl in *.
  - apply Hend; [by eapply preserves_serveGRPC|done|by apply rpc_accounts].
  - apply web_accounts in H as [Hg' Ha]; [|done..]. by apply Hend.
  - pose proof (preserves_PendingJobs _ _ _ _ _ _ _ Hg H) as Hg'. apply on_world_inv in H as [_ H].
    apply PendingJobs_inv in H as (Hr & l & -> & Hl). simpl. split; [|by apply accounts_same].
    constructor; unfold y_rows; simpl; [done|by rewrite Hr|]. unfold jobsFromNotifications. apply Forall_fmap, Forall_forall.
    intros m Hm. rewrite Hl, list_elem_of_filter_bool in Hm. exists m, m. split_and!; [done| |done]. rewrite Hr. by destruct Hm.
  - apply Hend; [done|set_solver|by apply accounts_same].
  - apply Forall_cons in Hjobs as [Hjob Hjobs].
    destruct (attempt_accounts _ _ _ _ _ _ _ _ _ _ Hg Hnd Hjob Hrec Ha Hw) as [Hg' Hacc].
    apply Hend; [done|set_solver|done].
  - apply Hend; [done..|by apply accounts_same].
Qed.

Lemma run_accounts (y y' : sys) l :
  sys_inv y → sys_run key Commit settings srv requiredToken y l y' →
  sys_inv y' ∧ kept (y_rows y) (y_rows y') ∧
  ∀ t, tenant_rows t (y_rows y') = tenant_rows t (y_rows y) ∨ Exists (accounted t) l.
Proof.
  intros Hi Hr. induction Hr as [y|y a y1 l y2 Hs _ IH]; [by split_and!; [|reflexivity|left]|].
  apply step_accounts in Hs as [Hi1 [Hk Ha]]; [|done]. destruct (IH Hi1) as (Hi2 & Hk2 & Hl).
  split_and!; [done|by transitivity (y_rows y1)|]. intros t. rewrite Exists_cons.
  destruct (Ha t) as [<-|]; [|by right; left]. destruct (Hl t) as [->|]; [by left|by right; right].
Qed.
End accounting.

(** C1: every change is accounted for, in any run of the whole server.  Let gRPC calls with any
    metadata and content, HTTP requests to any endpoint with any session, and the retry worker
    act on the process in any order, mail sessions changing the identity tables in between.
    Then no notification is ever lost, moved or given another recipient, content, tenant or id;
    the notifications of a tenant are as they were at the start unless the run has a gRPC call
    that presented the server's token and named that existing tenant, an HTTP request answered
    200 for a valid session that may access that tenant, or an attempt of the worker at one of
    its notifications; tenants, their domains, administrators and configurations are those of the
    start; and every sender the service keeps for a tenant is made from that tenant's own
    configuration. *)
Theorem every_change_accounted `{U : Unicode} `{C : CursorCodec} `{Q : Sql} `{TX : TimeText} `{XT : ErrorTexts}
    `{TS : Timestamps} `{M : NetMail} `{K : Crypto} `{IP : IdentityPayloads} `{WF : WebFramework identity_body}
    {S : Type} `{T : Table S Notification} `{O : Outside S} `{D : TenantDirectory S}
    `{L : !TableLaws S Notification} `{OL : !OutsideLaws S} `{DL : !TenantDirectoryLaws S} `{F : !DirectoryFrame S}
    {SI SF SD E : Type} `{TI : Table SI Identity} `{TF : Table SF ForwardRecipient} `{TD : Table SD SenderDomain}
    `{Env : Environment E} key (Commit : SI → SF → SD → result unit) settings srv requiredToken twilioConfigured maxRetries
    (s0 : S) (i0 : world SI SF SD E) l y :
  dir_ok s0 → NoDup (n_ID <$> rows s0) →
  sys_run key Commit settings srv requiredToken
    (MkSystem (NewNotificationServiceWithSenders false false true twilioConfigured maxRetries, s0, i0) []) l y →
  kept (rows s0) (y_rows y) ∧
  (∀ t, tenant_rows t (y_rows y) = tenant_rows t (rows s0) ∨ Exists (responsible requiredToken s0 t) l) ∧
  same_directory dir_runtime s0 (y_state y).1.2 ∧
  ∀ cfg, dir_runtime s0 (rc_TenantID cfg) = Some cfg → own_senders (y_state y).1.1 cfg.
Proof.
  intros Hok Hnd Hr. apply (run_accounts key Commit settings srv requiredToken s0) in Hr as ([[Hs Hd] _ _] & Hk & Ha).
  - split_and!; [done..|]. intros cfg Hcfg. destruct Hs as (_ & He & Hsm & Hes & Hss). split_and!; [done..| |].
    + intros x (c & Hc & ->)%Hes. rewrite Hcfg in Hc. by injection Hc as <-.
    + intros x (c & creds & Hc & Hsms & ->)%Hss. rewrite Hcfg in Hc. injection Hc as <-. by exists creds.
  - constructor; [|done|done]. split; [|by split_and!]. by split_and!; try intros ? ? ?%lookup_empty_Some.
Qed.

(** * Witness *)
Import MemoryProcess.
#[local] Existing Instances simple_mail demo_identities demo_identities_laws demo_forwards demo_forwards_laws.
#[local] Existing Instances demo_domains demo_domains_laws plain_texts plain_timestamps codec_text plain_payloads identity_web.
#[local] Instance memory_frame : DirectoryFrame memory_process := process_frame (PR := memory_providers) (TN := demo_table) (K := plain_crypto) (U := ascii_unicode) memory_key 0.

(** The worker polls acme's queued notification, its owner cancels it over gRPC, someone asks
    for the identities over HTTP, and the worker attempts what it had polled. *)
Definition first_system : system := MkSystem identity_state [].
Definition queued_n1 : Notification := demo_note 1 10 "acme" StatusQueued.
Definition identities_request : http_request := MkHttpRequest "acme.org" "" false [] "" "me@x.y".
Definition busy_server : list activity :=
  [Elsewhere; Rpc grpc_ctx cancel_call (serveGRPC true "s3cret" grpc_ctx cancel_call (grpc_service, running)).2;
   Web (EPIdentity EPListIdentities) identities_request
     (engine (identityHandler demo_key demo_commit demo_settings true) web_server (EPIdentity EPListIdentities)
        identities_request identity_state).2;
   Attempted queued_n1].
Lemma busy_run :
  ∃ y, sys_run demo_key demo_commit demo_settings web_server "s3cret" first_system busy_server y ∧
    n_Status <$> y_rows y = [StatusSent; StatusQueued; StatusSent].
Proof.
  eexists. split.
  - eapply run_step. { eapply (step_poll _ _ _ _ _ _ _ _ 100). vm_compute. reflexivity. }
    eapply run_step. { eapply step_rpc. vm_compute. reflexivity. }
    eapply run_step. { eapply step_web. vm_compute. reflexivity. }
    eapply run_step. { eapply (step_attempt _ _ _ _ _ _ _ _ _ _ _ _ None _ _ (MkUpdate StatusSent "" 1 100)); vm_compute; reflexivity. }
    apply run_start.
  - vm_compute. reflexivity.
Qed.

(** Acme's notifications change, those of beta do not. *)
Lemma every_change_accounted_witness :
  ∃ y, sys_run demo_key demo_commit demo_settings web_server "s3cret" first_system busy_server y ∧
    kept (rows running) (y_rows y) ∧ tenant_rows "beta" (y_rows y) = tenant_rows "beta" (rows running).
Proof.
  destruct busy_run as (y & Hrun & _). exists y. split; [exact Hrun|].
  destruct (every_change_accounted demo_key demo_commit demo_settings web_server "s3cret" false 3 running demo_created
    busy_server y running_ok ltac:(apply (bool_decide_unpack _); vm_compute; exact I) Hrun) as (Hk & Ht & _).
  split; [exact Hk|]. destruct (Ht "beta"%string) as [H|H]; [exact H|exfalso].
  unfold busy_server in H. rewrite !Exists_cons, Exists_nil in H.
  destruct H as [[]|[(_ & H & _)|[(H & _)|[H|[]]]]]; vm_compute in H; discriminate H.
Defined.
