(* ===== verification/Wiring.v ===== *)
(** The server put together (src/cmd/server/main.go): the identity repository is
    the submission server's authenticator and, through
    [smtpIdentityForwardingResolver], the forwarding server's route resolver, and
    the outbound sender is behind the relay and the forwarder.

    The end-to-end theorems speak of the identity tables alone: who can send
    through this server, and where mail sent to it goes.  Other sessions, the HTTP API
    and the rest of the process run at the same time: [submission_among] and
    [forwarding_among] let them do anything to the world before every call of a session,
    and keep the tables as they were when the session asked. *)
From S2P Require Import Prelude GoStrings Throttle Address Base64 Crypto Smtp Submission Forwarding ForwardRelay Gorm Identity IdentityProofs.
Open Scope Z_scope.

Section wiring.
Context `{U : Unicode} `{M : NetMail} `{K : Crypto}.
Context {SI SF SD E R : Type}.
Context `{TI : Table SI Identity} `{TF : Table SF ForwardRecipient} `{TD : Table SD SenderDomain}.
Context `{LI : !TableLaws SI Identity} `{LF : !TableLaws SF ForwardRecipient} `{LD : !TableLaws SD SenderDomain}.
Context `{Env : Environment E}.
(** The repository's key, and the outbound side: a relay for submitted messages
    and a sender of raw mail for forwarded ones, over a state [R]. *)
Context (key : string).
Context (relay : R → RawMessage → R * result unit).
Context (SendRawEmail : R → string → list string → list ascii → R * result unit).
#[local] Abbreviation W := (world SI SF SD E).

(** * The adapters *)

(** [Authenticator: smtpIdentityRepo] of the submission server. *)
Definition submission_env : Submission.Env (W * R) :=
  {| Submission.Now := λ w, let '(e, t) := clockFunc (w_env w.1) in
       (t, (MkWorld (w_identities w.1) (w_forwards w.1) (w_domains w.1) e, w.2));
     Submission.Authenticate := λ w username password,
       let '(w1, r) := Identity.Authenticate key username password w.1 in ((w1, w.2), r);
     Submission.Relay := λ w message, let '(s, r) := relay w.2 message in ((w.1, s), r) |}.

(** [smtpIdentityForwardingResolver.Resolve]. *)
Definition smtpIdentityForwardingResolver_Resolve (address : Address) : eff W (option Route) :=
  found ← ResolveForwarding address;
  match found with
  | None => mret None
  | Some (routeAddress, recipients) => route ← lift (NewRoute routeAddress recipients); mret (Some route)
  end.

Definition forwarding_env : FwdEnv (W * R) :=
  {| ResolveRoute := λ w address,
       let '(w1, r) := smtpIdentityForwardingResolver_Resolve address w.1 in ((w1, w.2), r);
     Forward := λ w route message,
       let '(s, r) := RelayForwarder_Forward SendRawEmail w.2 route message in ((w.1, s), r) |}.

(** * A session among others

    [others] is whatever happened since the session's last call: any change of the tables,
    the clock and the outbound side, of which [R] may hold the schedule.  The list keeps the
    tables each login, or each look-up of a route, was answered from. *)
Definition submission_among (others : W * R → W * R) : Submission.Env (W * R * list W) :=
  {| Submission.Now := λ w, let '(t, x) := Submission.Now (Env := submission_env) (others w.1) in (t, (x, w.2));
     Submission.Authenticate := λ w username password,
       let w1 := others w.1 in
       let '(x, r) := Submission.Authenticate (Env := submission_env) w1 username password in ((x, w.2 ++ [w1.1]), r);
     Submission.Relay := λ w message,
       let '(x, r) := Submission.Relay (Env := submission_env) (others w.1) message in ((x, w.2), r) |}.
Definition forwarding_among (others : W * R → W * R) : FwdEnv (W * R * list W) :=
  {| ResolveRoute := λ w address,
       let w1 := others w.1 in
       let '(x, r) := ResolveRoute (FwdEnv := forwarding_env) w1 address in ((x, w.2 ++ [w1.1]), r);
     Forward := λ w route message,
       let '(x, r) := Forward (FwdEnv := forwarding_env) (others w.1) route message in ((x, w.2), r) |}.

(** * Invariants of the outside world carry over to sessions *)
Section forwarding_session.
Context {W0 : Type} `{F : FwdEnv W0} (cfg : Forwarding.Config) (P : W0 → Prop).
Hypothesis P_resolve : ∀ w a, P w → P (ResolveRoute w a).1.
Hypothesis P_forward : ∀ w route m, P w → P (Forward w route m).1.

Lemma forwardRoutes_preserves l m w w' r : P w → forwardRoutes w l m = (w', r) → P w'.
Proof.
  revert w. induction l as [|route l IH]; intros w Hw; simpl; [by intros [= <- _]|].
  pose proof (P_forward w route m Hw) as H1. destruct (Forward w route m) as [w1 [[]|e]]; [by apply IH|].
  by intros [= <- _].
Qed.

Lemma forwarding_command_preserves w c s line w' c' s' b :
  P w → Forwarding.handle_command cfg w c s line = (w', c', s', b) → P w'.
Proof.
  intros Hw. unfold Forwarding.handle_command, Forwarding.handleRecipient, Forwarding.handleData.
  intros H. repeat (case_match; simplify_eq/=); try done;
    try (by eapply forwardRoutes_preserves);
    match goal with H : ResolveRoute ?w ?a = _ |- _ => pose proof (P_resolve w a) as Hp; rewrite H in Hp; auto end.
Qed.
End forwarding_session.

Section submission_session.
Context {W0 : Type} `{F : Submission.Env W0} (cfg : Submission.Config) (P : W0 → Prop).
Hypothesis P_now : ∀ w, P w → P (Submission.Now w).2.
Hypothesis P_auth : ∀ w u p, P w → P (Submission.Authenticate w u p).1.
Hypothesis P_relay : ∀ w m, P w → P (Submission.Relay w m).1.

Lemma completeAuth_preserves srv host credentials srv' r :
  P (outside srv) → completeAuthAttempt srv host credentials = (srv', r) → P (outside srv').
Proof.
  intros Hw. unfold completeAuthAttempt. destruct credentials as [[u p]|e].
  all: pose proof (P_now _ Hw) as H1; destruct (Submission.Now (outside srv)) as [now w1]; simpl in H1.
  all: destruct (reserveAuthAttempt _ _ _ _) as [t [k|]]; try by intros [= <- _].
  pose proof (P_auth w1 u p H1) as H2. destruct (Submission.Authenticate w1 u p) as [w2 [i|e]]; by intros [= <- _].
Qed.

Lemma relayAccepted_preserves srv m srv' r :
  P (outside srv) → relayAcceptedMessage srv m = (srv', r) → P (outside srv').
Proof.
  intros Hw. unfold relayAcceptedMessage. pose proof (P_now _ Hw) as H1.
  destruct (Submission.Now (outside srv)) as [now w1]. simpl in H1.
  destruct (reserveAcceptedMessage _ _ _) as [t [k|]]; [|by intros [= <- _]].
  pose proof (P_relay w1 m H1) as H2. destruct (Submission.Relay w1 m) as [w2 [i|e]]; by intros [= <- _].
Qed.

Lemma submission_command_preserves srv c s host line srv' c' s' b :
  P (outside srv) → Submission.handle_command cfg srv c s host line = (srv', c', s', b) → P (outside srv').
Proof.
  intros Hw. unfold Submission.handle_command, handleAuth, Submission.handleData. intros H.
  repeat (case_match; simplify_eq/=); try done;
    eauto using completeAuth_preserves, relayAccepted_preserves.
Qed.

Lemma submission_loop_preserves fuel srv c s host srv' c' s' :
  P (outside srv) → Submission.session_loop cfg fuel srv c s host = Some (srv', c', s') → P (outside srv').
Proof.
  revert srv c s. induction fuel as [|fuel IH]; intros srv c s Hw; simpl; [done|].
  destruct (setSMTPReadDeadline c _) as [c1 []]; simpl; [|by intros [= <- _ _]].
  destruct (ReadString c1) as [c2 [line|]]; [|by intros [= <- _ _]].
  destruct (Submission.handle_command _ _ _ _ _ _) as [[[srv1 c3] s1] b] eqn:Eh.
  apply submission_command_preserves in Eh; [|done]. destruct b; [by apply IH|by intros [= <- _ _]].
Qed.

Lemma submission_connection_preserves srv c tls host srv' c' s' :
  P (outside srv) → Submission.handleConnection cfg srv c tls host = Some (srv', c', s') → P (outside srv').
Proof.
  intros Hw. unfold Submission.handleConnection.
  destruct (writeSMTPLine c _) as [c1 []]; cbn [negb]; [by apply submission_loop_preserves|by intros [= <- _ _]].
Qed.
End submission_session.

(** * Outbound: who can send *)

(** An identity of these tables that may send as [ai] with this password. *)
Definition may_send (w0 : W) (username password : string) (ai : AuthenticatedIdentity) : Prop :=
  ∃ record d, record ∈ idents w0 ∧ i_Status record = IdentityStatusActive ∧
    i_Username record = TrimSpace username ∧ i_ID record = ai_ID ai ∧
    digest key (i_PasswordSalt record) password = i_PasswordDigest record ∧
    NewAddress (i_EmailAddress record) = Ok (ai_EmailAddress ai) ∧ d ∈ doms w0 ∧
    domain_allows (MkScope (i_OwnerEmail record) true) (ToLower (TrimSpace (Domain (ai_EmailAddress ai)))) d = true.

(** Every login in a session's log was right by the tables it was answered from. *)
Definition logged_logins (wl : W * R * list W * list Submission.event) : Prop :=
  ∀ username password ai, EvAuthenticate username password (Ok ai) ∈ wl.2 →
    ∃ w, w ∈ wl.1.2 ∧ may_send w username password ai.

Lemma login_sound w username password w' ai :
  Identity.Authenticate key username password w = (w', Ok ai) → may_send w username password ai.
Proof.
  intros H. apply Authenticate_inv in H.
  destruct H as (record & now & Hin & Hact & Hu & Hdig & Ha & Hid & _ & (d & Hdin & Hallow) & _).
  by exists record, d.
Qed.

Lemma session_logins others cfg srv c tls host srv' c' s' :
  logged_logins (outside srv) →
  Submission.handleConnection (E := Submission.logged_env (submission_among others)) cfg srv c tls host = Some (srv', c', s') →
  logged_logins (outside srv').
Proof.
  apply (submission_connection_preserves (F := Submission.logged_env (submission_among others)) cfg logged_logins).
  - intros [[w tr] l] Hl. simpl in *. by destruct (clockFunc (w_env (others w).1)).
  - intros [[w tr] l] u p Hl. simpl in *.
    destruct (Identity.Authenticate key u p (others w).1) as [w1 r] eqn:Ea.
    simpl. intros u' p' ai [Hin|Hin]%elem_of_app; simpl in *.
    + destruct (Hl u' p' ai Hin) as (w0 & Hw0 & Hm). exists w0. split; [by apply elem_of_app; left|done].
    + apply list_elem_of_singleton in Hin. injection Hin as -> -> <-. exists (others w).1.
      split; [apply elem_of_app; right; by apply list_elem_of_singleton|by eapply login_sound].
  - intros [[w tr] l] m Hl. simpl in *. destruct (relay (others w).2 m) as [s1 r].
    simpl. intros u' p' ai [Hin|Hin%list_elem_of_singleton]%elem_of_app; [by apply Hl|done].
Qed.

(** * Inbound: where mail goes *)

Lemma stored_recipients_inv l rs :
  stored_recipients l = Ok rs → Forall2 (λ f a, NewAddress (f_EmailAddress f) = Ok a) l rs.
Proof.
  revert rs. induction l as [|f l IH]; intros rs; simpl; [by intros [= <-]|].
  destruct (NewAddress (f_EmailAddress f)) as [a|] eqn:Ea; [|done].
  intros (rest & Hrest & [= <-])%bind_Ok. constructor; [done|by apply IH].
Qed.

(** The route the tables configure for an address. *)
Definition configured (w : W) (address : Address) (recipients : list Address) : Prop :=
  ∃ record l d, record ∈ idents w ∧ i_Status record = IdentityStatusActive ∧
    i_EmailAddress record = String_ address ∧ l ≡ₚ IdentityProofs.routes (i_ID record) (fwds w) ∧ l ≠ [] ∧
    Forall2 (λ f a, NewAddress (f_EmailAddress f) = Ok a) l recipients ∧ d ∈ doms w ∧
    domain_allows (MkScope (i_OwnerEmail record) true) (ToLower (TrimSpace (Domain address))) d = true.

Lemma ResolveForwarding_configured address w w' r :
  ResolveForwarding address w = (w', r) → view w' = view w ∧
  ∀ a recipients, r = Ok (Some (a, recipients)) → a = address ∧
    (String_ address ≠ ""%string → configured w address recipients).
Proof.
  intros H. unfold ResolveForwarding in H.
  apply eff_bind_inv in H as [(e & H & ->)|(w1 & x & Hf & H)]; [by apply try_eff_inv in H as (? & ? & _)|].
  apply try_eff_inv in Hf as (y & [= ->] & Hf).
  assert (view w1 = view w ∧ ∀ record l, y = Ok (record, l) → record ∈ idents w ∧
    i_Status record = IdentityStatusActive ∧ (String_ address ≠ ""%string → i_EmailAddress record = String_ address) ∧
    l ≡ₚ IdentityProofs.routes (i_ID record) (fwds w)) as [V1 Hy].
  { apply eff_bind_inv in Hf as [(e & Hf & ->)|(w2 & record & Hf & Hl)].
    { by apply identity_First_inv in Hf as [Hv _]. }
    apply identity_First_inv in Hf as [V2 [Hin Hp]]. injection V2 as Vi Vf Vd. to_prop.
    apply eff_bind_inv in Hl as [(e & (v & Hl & ->)%zoom_inv & ->)|(w3 & l & (v & Hl & ->)%zoom_inv & [= <- <-])];
      apply FindOrdered_law in Hl as [Hr Hl].
    - unfold view, idents, fwds, doms in *. simpl. by rewrite Hr, Vi, Vf, Vd.
    - split; [unfold view, idents, fwds, doms in *; simpl; by rewrite Hr, Vi, Vf, Vd|].
      intros record' l' [= <- <-]. destruct Hl as (l0 & Hp0 & _ & ->).
      split_and!; [done|by apply whereField_eq|intros Hne; by apply whereField_eq|]. cbn [limit_to]. rewrite Hp0. unfold IdentityProofs.routes, fwds in *.
      by rewrite Vf. }
  destruct y as [[record l]|e].
  2:{ destruct (errors_Is e _); injection H as <- <-; (split; [done|]); intros ?? [=]. }
  destruct (Hy record l eq_refl) as (Hin & Hact & Hem & Hl). destruct l as [|f l].
  { injection H as <- <-. split; [done|]. intros ?? [=]. }
  apply eff_bind_inv in H as [(e & H & ->)|(w2 & allowed & Ha & H)]; [by apply try_eff_inv in H as (? & ? & _)|].
  apply try_eff_inv in Ha as (z & [= ->] & Ha). apply requireSenderDomain_inv in Ha as [V2 Hd].
  rewrite V1 in V2. destruct z as [[]|e].
  2:{ destruct (errors_Is e _); injection H as <- <-; (split; [done|]); intros ?? [=]. }
  destruct (Hd eq_refl) as (d & Hdin & Hallow). injection V1 as _ _ Vd. rewrite Vd in Hdin.
  apply eff_bind_inv in H as [(e & [= <- _] & ->)|(w3 & rs & [= <- Hrs] & [= <- <-])]; (split; [done|]); intros a recipients [= <- <-].
  split; [done|]. intros Hne. exists record, (f :: l), d. split_and!; try done; [by apply Hem|by apply stored_recipients_inv].
Qed.

Lemma NewRoute_inv address recipients route :
  NewRoute address recipients = Ok route → route = MkRoute address recipients ∧ String_ address ≠ ""%string.
Proof.
  unfold NewRoute. intros H. apply bind_Ok in H as ([] & Hg%guard_err_Ok & H). to_prop.
  apply bind_Ok in H as (rs & Hrs & H). apply bind_Ok in H as ([] & _ & [= <-]). split; [|done]. f_equal.
  clear -Hrs. revert Hrs. generalize (∅ : gset string). revert rs.
  induction recipients as [|a l IH]; intros rs seen; simpl; [by intros [= <-]|].
  intros H. apply bind_Ok in H as (? & _ & H). apply bind_Ok in H as (? & _ & H).
  apply bind_Ok in H as (rest & Hr & [= <-]). f_equal. by eapply IH.
Qed.

(** Every route in a session's log is configured in the tables it was looked up in. *)
Definition logged_routes (wl : W * R * list W * list Forwarding.event) : Prop :=
  ∀ a route, EvResolve a (Ok (Some route)) ∈ wl.2 →
    route_address route = a ∧ ∃ w, w ∈ wl.1.2 ∧ configured w a (route_forwardTo route).

Lemma resolver_spec address w w' r :
  smtpIdentityForwardingResolver_Resolve address w = (w', r) → view w' = view w ∧
  ∀ route, r = Ok (Some route) → route_address route = address ∧ configured w address (route_forwardTo route).
Proof.
  intros H. unfold smtpIdentityForwardingResolver_Resolve in H.
  apply eff_bind_inv in H as [(e & H & ->)|(w1 & found & H1 & H)].
  { apply ResolveForwarding_configured in H as [Hv _]. split; [done|]. intros ? [=]. }
  apply ResolveForwarding_configured in H1 as [Hv Hf].
  destruct found as [[a rs]|]; [|injection H as <- <-; split; [done|]; intros ? [=]].
  apply eff_bind_inv in H as [(e & [= <- _] & ->)|(w2 & route & [= <- Hroute] & [= <- <-])].
  { split; [done|]. intros ? [=]. }
  split; [done|]. intros route' [= <-]. apply NewRoute_inv in Hroute as [-> Hne].
  destruct (Hf a rs eq_refl) as [-> Hc]. simpl. split; [done|by apply Hc].
Qed.

Lemma session_routes others cfg s wl :
  session_reach (forwarding_among others) cfg s wl → logged_routes wl.
Proof.
  induction 1 as [w|s w c line w' c' s' b _ IH Hcmd].
  { intros a route Hin. by apply elem_of_nil in Hin. }
  eapply (forwarding_command_preserves (F := Forwarding.logged_env (forwarding_among others)) cfg logged_routes); [..|exact IH|exact Hcmd].
  - intros [[w0 tr] l] a Hl. simpl in *.
    destruct (smtpIdentityForwardingResolver_Resolve a (others w0).1) as [w1 r] eqn:Er. simpl.
    apply resolver_spec in Er as [_ Hr]. intros a' route [Hin|Hin]%elem_of_app; simpl in *.
    + destruct (Hl a' route Hin) as (? & w2 & Hw2 & Hc). split; [done|]. exists w2. split; [by apply elem_of_app; left|done].
    + apply list_elem_of_singleton in Hin. injection Hin as -> <-. destruct (Hr route eq_refl) as [? Hc].
      split; [done|]. exists (others w0).1. split; [apply elem_of_app; right; by apply list_elem_of_singleton|done].
  - intros [[w0 tr] l] route m Hl. simpl in *.
    destruct (RelayForwarder_Forward SendRawEmail (others w0).2 route m) as [s1 r]. simpl.
    intros a' route' [Hin|Hin%list_elem_of_singleton]%elem_of_app; [by apply Hl|done].
Qed.
End wiring.

(** C2: only owners of live credentials send.  In a server wired as main.go does, whatever
    other sessions and the rest of the process do to the tables in the meantime, every message
    a session hands to the outbound relay was submitted by a peer that logged in, in that
    session, with the user name and password of an identity that, in the tables its login was
    answered from, is active and has a sender domain that is verified for its owner (or shared);
    the message carries that identity's id and stored address as envelope sender, its From
    header names that address, and it has 1 to [MaxRecipients] recipients and at most
    [MaxMessageBytes] of data. *)
Theorem outbound_end_to_end `{U : Unicode} `{M : NetMail} `{K : Crypto} {SI SF SD E R}
    `{TI : Table SI Identity} `{TF : Table SF ForwardRecipient} `{TD : Table SD SenderDomain}
    `{LI : !TableLaws SI Identity} `{LF : !TableLaws SF ForwardRecipient} `{LD : !TableLaws SD SenderDomain}
    `{Env : Environment E} key (relay : R → RawMessage → R * result unit)
    (others : world SI SF SD E * R → world SI SF SD E * R) cfg0 cfg t w0 c tls host srv' c' s' message r :
  Submission.NewServer cfg0 = Ok (cfg, t) →
  Submission.handleConnection (E := Submission.logged_env (submission_among key relay others)) cfg
    (MkServer t (w0, [], [])) c tls host = Some (srv', c', s') →
  EvRelay message r ∈ (outside srv').2 →
  ∃ w username password ai, w ∈ (outside srv').1.2 ∧ may_send key w username password ai ∧
    EvAuthenticate username password (Ok ai) ∈ (outside srv').2 ∧
    IdentityID message = ai_ID ai ∧ From message = ai_EmailAddress ai ∧
    1 ≤ Z.of_nat (length (Recipients message)) ≤ Submission.MaxRecipients cfg ∧
    Z.of_nat (length (Data message)) ≤ Submission.MaxMessageBytes cfg ∧
    ∃ header, parseMessageFrom (Data message) = Ok header ∧ Equals header (From message) = true.
Proof.
  intros Hn H Hin.
  assert (logged_logins key (outside srv')) as Hlog.
  { apply (session_logins key relay others cfg (MkServer t (w0, [], [])) c tls host srv' c' s'); [|exact H].
    by intros ??? ?%elem_of_nil. }
  destruct (Submission.NewServer_limits _ _ _ Hn) as (Hr & Hb & _).
  assert (Submission.log_ok cfg (outside srv').2) as Hok by (eapply submission_log_ok; [| |exact H]; lia).
  apply list_elem_of_split in Hin as (l1 & l2 & Hsplit).
  destruct (Hok _ _ _ _ Hsplit) as (u & p & ai & Hauth & Hallowed).
  assert (EvAuthenticate u p (Ok ai) ∈ (outside srv').2) as Hev by (rewrite Hsplit; set_solver).
  destruct (Hlog u p ai Hev) as (w & Hw & Hm). exists w, u, p, ai.
  destruct Hallowed as (? & ? & ? & _ & ? & ?). split_and!; try done; lia.
Qed.


(** * Witnesses *)
#[local] Existing Instance ascii_unicode.
#[local] Existing Instance simple_mail.
#[local] Existing Instance plain_crypto.
#[local] Existing Instance counter_env.
#[local] Existing Instance demo_identities.
#[local] Existing Instance demo_identities_laws.
#[local] Existing Instance demo_forwards.
#[local] Existing Instance demo_forwards_laws.
#[local] Existing Instance demo_domains.
#[local] Existing Instance demo_domains_laws.

(** The outside keeps the messages it got. *)
Definition outbox : Type := list RawMessage.
Definition outbox_relay (s : outbox) (m : RawMessage) : outbox * result unit := (s ++ [m], Ok tt).

Definition wired_script : list ascii :=
  concat (demo_line <$> ["EHLO me";
    "AUTH PLAIN " ++ EncodeToString StdEncoding
      (implode (["000"%char] ++ explode "smtp_YWFhYWFhYWFhYWFh" ++ ["000"%char] ++ explode demo_password));
    "MAIL FROM:<me@x.y>"; "RCPT TO:<x@y.org>"; "DATA"; "From: me@x.y"; ""; "hello"; "."; "QUIT"]%string).
Local Notation demo_tables := (world (list Identity) (list ForwardRecipient) (list SenderDomain) Z).
(** While the session runs, the owner deletes the identity as soon as it has been used. *)
Definition deleted_once_used (w : demo_tables * outbox) :=
  if existsb (λ record, bool_decide (i_LastUsedAt record ≠ None)) (w_identities w.1)
  then ((DeleteForScope demo_scope "id4" w.1).1, w.2) else w.
Definition wired_start : Submission.server (demo_tables * outbox * list demo_tables * list Submission.event) :=
  MkServer (newSMTPThrottle (Submission.Limits Submission.demo_cfg)) (demo_created, [], [], []).
Definition wired_run :=
  Submission.handleConnection
    (E := Submission.logged_env (submission_among demo_key outbox_relay deleted_once_used)) Submission.demo_cfg
    wired_start (Conn wired_script [] 20 20 None) true "10.0.0.1".
Definition wired_result :=
  default (wired_start, Conn [] [] 0 0 None, Submission.MkSession true None None []) wired_run.
Lemma wired_run_result : wired_run = Some (wired_result.1.1, wired_result.1.2, wired_result.2).
Proof. vm_compute. reflexivity. Qed.

(** The identity created before logs in and sends; at the end of the session it is gone, but
    the tables its login was answered from have it. *)
Lemma outbound_end_to_end_witness :
  ∃ message r, EvRelay message r ∈ (outside wired_result.1.1).2 ∧ IdentityID message = "id4"%string ∧
    i_Status <$> w_identities (outside wired_result.1.1).1.1.1 = [IdentityStatusDeleted] ∧
    ∃ w username password ai, w ∈ (outside wired_result.1.1).1.2 ∧ may_send demo_key w username password ai ∧
      From message = ai_EmailAddress ai.
Proof.
  assert (∃ message r, EvRelay message r ∈ (outside wired_result.1.1).2 ∧ IdentityID message = "id4"%string)
    as (message & r & Hin & Hid).
  { eexists _, _. split; [vm_compute; right; left|reflexivity]. }
  exists message, r. split; [exact Hin|]. split; [exact Hid|]. split; [vm_compute; reflexivity|].
  destruct (outbound_end_to_end demo_key outbox_relay deleted_once_used Submission.demo_cfg0 Submission.demo_cfg
    (newSMTPThrottle (Submission.Limits Submission.demo_cfg)) (demo_created, [])
    (Conn wired_script [] 20 20 None) true "10.0.0.1" _ _ _ message r ltac:(vm_compute; reflexivity)
    wired_run_result Hin) as (w & u & p & ai & Hw & Hm & _ & _ & Hf & _).
  exists w, u, p, ai. split; [exact Hw|]. split; [exact Hm|exact Hf].
Defined.

Definition outbox_send (s : nat) (_ : string) (_ : list string) (_ : list ascii) : nat * result unit := (S s, Ok tt).
Definition wired_conn : conn :=
  Conn (explode "Subject: hi" ++ [CR; LF; CR; LF] ++ explode "text" ++ [CR; LF; "."%char; CR; LF]) [] 20 20 None.
(** The owner deletes the identity in the middle of the session too: before every call but the
    first ([R] counts the calls that got this far). *)
Definition deleted_after_lookup (w : demo_tables * nat) :=
  match w.2 with
  | O => (w.1, 1%nat)
  | S n => ((DeleteForScope demo_scope "id4" w.1).1, S (S n))
  end.
(** The state after a list of commands to the forwarding server. *)
Definition wired_session (lines : list string) :=
  foldl (λ sw line,
    let '(w, _, s, _) := Forwarding.handle_command
      (E := Forwarding.logged_env (forwarding_among outbox_send deleted_after_lookup))
      Forwarding.demo_cfg sw.2 wired_conn sw.1 line in (s, w))
    (newSessionState, (demo_created, 0%nat, [], [])) lines.
Lemma wired_session_reach lines :
  session_reach (forwarding_among outbox_send deleted_after_lookup) Forwarding.demo_cfg
    (wired_session lines).1 (wired_session lines).2.
Proof.
  induction lines as [|line lines IH] using rev_ind; [apply reach_init|].
  unfold wired_session in *. rewrite foldl_app. cbn [foldl].
  destruct (foldl _ _ lines) as [s w]. simpl in IH |- *.
  destruct (Forwarding.handle_command _ w wired_conn s line) as [[[w' c'] s'] b] eqn:Eh.
  by eapply reach_step.
Qed.

Definition wired_lines : list string := ["MAIL FROM:<>"; "RCPT TO:<Me@x.y>"; "DATA"]%string.
