(* ===== verification/Database.v ===== *)
(** Opening the database (src/internal/db/db.go): the directory, the address given to SQLite,
    and the migration.  The file system, gorm and SQLite are the class [Sqlite]; the query
    logger, which only writes log lines, is left out. *)
From S2P Require Import Prelude GoStrings.
Open Scope Z_scope.

(** * [filepath.Dir] *)

(** One element of a path in [filepath.Clean]: the elements kept so far are in reverse. *)
Definition clean_step (rooted : bool) (kept : list string) (element : string) : list string :=
  if decide (element = ""%string ∨ element = "."%string) then kept else
  if decide (element = ".."%string) then
    match kept with
    | [] => if rooted then [] else [element]
    | last :: before => if decide (last = ".."%string) then element :: kept else before
    end
  else element :: kept.
Definition clean_elements (rooted : bool) (elements : list string) : list string :=
  reverse (foldl (clean_step rooted) [] elements).

Fixpoint join_with (sep : string) (l : list string) : string :=
  match l with
  | [] => ""
  | [x] => x
  | x :: l => x ++ sep ++ join_with sep l
  end.
Definition Clean (path : string) : string :=
  let rooted := HasPrefix path "/" in
  let cleaned := join_with "/" (clean_elements rooted (Split path "/")) in
  if rooted then "/" ++ cleaned else if decide (cleaned = ""%string) then "." else cleaned.

(** The text up to and with the last slash. *)
Fixpoint through_last (c : ascii) (l : list ascii) : list ascii :=
  match l with
  | [] => []
  | d :: l => match through_last c l with
              | [] => if decide (d = c) then [d] else []
              | rest => d :: rest
              end
  end.
Definition Dir (path : string) : string := Clean (implode (through_last "/" (explode path))).

(** * The address *)
Definition sqliteBusyTimeoutMilliseconds : Z := 10000.
Definition sqliteJournalMode : string := "WAL".
Definition sqlitePragmaQueryKey : string := "_pragma".
Definition sqliteDSN (dbPath : string) : string :=
  let separator := if Contains dbPath "?" then "&"%string else "?"%string in
  dbPath ++ separator ++ sqlitePragmaQueryKey ++ "=busy_timeout(" ++ pretty sqliteBusyTimeoutMilliseconds ++ ")&"
    ++ sqlitePragmaQueryKey ++ "=journal_mode(" ++ sqliteJournalMode ++ ")".

(** * [InitDB] *)
Class Sqlite (W : Type) := {
  os_MkdirAll : string → eff W unit;
  gorm_Open : string → eff W unit;
  AutoMigrate : list string → eff W unit;
}.
Definition migrated_tables : list string :=
  ["Notification"; "NotificationAttachment"; "Tenant"; "TenantDomain"; "TenantAdmin"; "EmailProfile"; "SMSProfile";
   "SenderDomain"; "Identity"; "ForwardRecipient"]%string.

Definition InitDB {W} `{Q : Sqlite W} (dbPath : string) : eff W unit :=
  let directory := Dir dbPath in
  (if negb (bool_decide (directory = "."%string)) && negb (bool_decide (directory = ""%string))
   then map_err (Wrapf "create database directory failed: %w" []) (os_MkdirAll directory) else mret ());;
  map_err (Wrapf "open sqlite failed: %w" []) (gorm_Open (sqliteDSN dbPath));;
  map_err (Wrapf "migration failed: %w" []) (AutoMigrate migrated_tables).

(** * Lemmas *)
Lemma InitDB_run {W} `{Q : Sqlite W} dbPath (w w1 w2 w3 : W) :
  (if decide (Dir dbPath = "."%string ∨ Dir dbPath = ""%string) then w1 = w else os_MkdirAll (Dir dbPath) w = (w1, Ok ())) →
  gorm_Open (sqliteDSN dbPath) w1 = (w2, Ok ()) → AutoMigrate migrated_tables w2 = (w3, Ok ()) →
  InitDB dbPath w = (w3, Ok ()).
Proof.
  intros H1 H2 H3. unfold InitDB. rewrite (eff_bind_run _ _ w w1 ()).
  - rewrite (eff_bind_run _ _ w1 w2 ()); by apply map_err_run.
  - do 2 case_bool_decide; case_decide; simpl; try tauto; try (by rewrite H1); by apply map_err_run.
Qed.

Lemma find_b_app c l k x y : find_b [c] l = Some (x, y) → find_b [c] (l ++ k) = Some (x, y ++ k).
Proof.
  revert x y. induction l as [|d l IH]; intros x y; simpl; [done|].
  case_decide; [by intros [= <- <-]|]. destruct (find_b [c] l) as [[a b]|]; [|done].
  intros [= <- <-]. simpl. by rewrite (IH a b eq_refl).
Qed.

(** What SQLite is asked to open is the file that was configured, with the parameters it came
    with: up to the first question mark the address is the path's, and the two settings are
    appended to what follows it. *)
Theorem sqliteDSN_file dbPath :
  let settings := "_pragma=busy_timeout(10000)&_pragma=journal_mode(WAL)"%string in
  let '(file, query, has) := Cut dbPath "?" in
  Cut (sqliteDSN dbPath) "?" = (file, if has : bool then query ++ "&" ++ settings else settings, true)%string.
Proof.
  unfold sqliteDSN. set (tail := (sqlitePragmaQueryKey ++ _)%string).
  assert (tail = "_pragma=busy_timeout(10000)&_pragma=journal_mode(WAL)"%string) as -> by (vm_compute; reflexivity).
  unfold Cut, Contains. cbn [explode]. destruct (find_b ["?"%char] (explode dbPath)) as [[x y]|] eqn:E.
  - rewrite explode_app, (find_b_app _ _ _ _ _ E), implode_app. by rewrite implode_explode.
  - assert ("?"%char ∉ explode dbPath) as Hn.
    { intros Hin. apply (contains_char "?"%char dbPath) in Hin. unfold Contains in Hin. cbn [explode] in Hin. by rewrite E in Hin. }
    rewrite explode_app.
    assert (∀ x, explode ("?" ++ x) = "?"%char :: explode x) as -> by done.
    rewrite find_b_char by done. by rewrite !implode_explode.
Qed.

Example dirs :
  Dir "pinguin.db" = "."%string ∧ Dir "/var/lib/../db//p.db" = "/var/db"%string ∧ Dir "../a/./p.db" = "../a"%string
  ∧ Dir "/p.db" = "/"%string ∧ Dir "a/../../p.db" = ".."%string ∧ Dir "" = "."%string.
Proof. vm_compute. done. Qed.
