(* ===== verification/Startup.v ===== *)
(** The start of the server (src/cmd/server/main.go): [runServer] over its
    dependencies, those of production, and the settings it publishes to mail clients.

    The state is the tenant store and the list of components that were started, in
    order.  What the start calls outside the program is the class [Machine].  What
    happens to the components afterwards is in [Lifetime]. *)
From S2P Require Import Prelude GoStrings Strconv Throttle Address Submission Forwarding DirectRelay Crypto Gorm Model.
From S2P Require Import Tenant TenantProofs Config Email Service Retry Directory Delivery Identity SenderDomains HttpApi Database.
Open Scope Z_scope.

(** * [net.SplitHostPort] *)
Definition addr_error (why addr : string) : error := Text "address %s: %s" [FStr addr; FStr why].
(** The text before and after the last occurrence of a byte. *)
Fixpoint cut_last (c : ascii) (l : list ascii) : option (list ascii * list ascii) :=
  match l with
  | [] => None
  | d :: l =>
      match cut_last c l with
      | Some (before, after) => Some (d :: before, after)
      | None => if decide (d = c) then Some ([], l) else None
      end
  end.
Definition SplitHostPort (hostport : string) : result (string * string) :=
  let l := explode hostport in
  match cut_last ":" l with
  | None => Err (addr_error "missing port in address" hostport)
  | Some (before, port) =>
      match l with
      | "["%char :: t =>
          match find_b ["]"%char] t with
          | None => Err (addr_error "missing ']' in address" hostport)
          | Some (host, rest) =>
              if decide (rest = []) then Err (addr_error "missing port in address" hostport) else
              if decide (length before = (length host + 2)%nat) then
                guard_err (bool_decide ("["%char ∈ t)) (addr_error "unexpected '[' in address" hostport);;
                guard_err (bool_decide ("]"%char ∈ rest)) (addr_error "unexpected ']' in address" hostport);;
                Ok (implode host, implode port)
              else if decide (head rest = Some ":"%char)
                   then Err (addr_error "too many colons in address" hostport)
                   else Err (addr_error "missing port in address" hostport)
          end
      | _ =>
          guard_err (bool_decide (":"%char ∈ before)) (addr_error "too many colons in address" hostport);;
          guard_err (bool_decide ("["%char ∈ l)) (addr_error "unexpected '[' in address" hostport);;
          guard_err (bool_decide ("]"%char ∈ l)) (addr_error "unexpected ']' in address" hostport);;
          Ok (implode before, implode port)
      end
  end.

(** * The published settings *)
Definition smtpPortFromAddr (address : string) (fallback : Z) : Z :=
  let trimmedAddress := TrimSpace address in
  if bool_decide (trimmedAddress = ""%string) then fallback else
  let portValue := match SplitHostPort trimmedAddress with
                   | Ok (_, port) => port | Err _ => TrimPrefix trimmedAddress ":" end in
  match Atoi portValue with
  | Err _ => fallback
  | Ok port => if port <=? 0 then fallback else port
  end.

Section settings.
Context `{U : Unicode}.
Definition smtpPublicSettings (cfg : SMTPSubmissionConfig) : PublicSettings :=
  let only_tls := bool_decide (TrimSpace (sb_ListenAddr cfg) = ""%string)
                  && negb (bool_decide (TrimSpace (sb_TLSListenAddr cfg) = ""%string)) in
  let port := if only_tls then smtpPortFromAddr (sb_TLSListenAddr cfg) 465
              else smtpPortFromAddr (sb_ListenAddr cfg) 587 in
  let securityMode := if only_tls then "ssl"%string else "starttls"%string in
  let port := if 0 <? sb_PublicPort cfg then sb_PublicPort cfg else port in
  let securityMode := if bool_decide (TrimSpace (sb_PublicSecurityMode cfg) = ""%string) then securityMode
                      else ToLower (TrimSpace (sb_PublicSecurityMode cfg)) in
  MkSettings (sb_Hostname cfg) port securityMode.
End settings.

(** * [flag.FlagSet.Parse] of a set without flags *)
Definition ErrHelp : error := New "flag: help requested".
Definition Parse (args : list string) : result unit :=
  match args with
  | [] => Ok ()
  | s :: _ =>
      match explode s with
      | m :: c :: t =>
          if decide (m ≠ "-"%char) then Ok () else
          if decide (c = "-"%char ∧ t = []) then Ok () else
          match (if decide (c = "-"%char) then t else c :: t) with
          | [] => Err (Text "bad flag syntax: %s" [FStr s])
          | d :: name =>
              if decide (d = "-"%char ∨ d = "="%char) then Err (Text "bad flag syntax: %s" [FStr s]) else
              let name := implode (d :: take_while (λ x, negb (bool_decide (x = "="%char))) name) in
              if decide (name = "help"%string ∨ name = "h"%string) then Err ErrHelp
              else Err (Text "flag provided but not defined: -%s" [FStr name])
          end
      | _ => Ok ()
      end
  end.
Lemma Parse_help args e : Parse args = Err e → errors_Is e ErrHelp = true → e = ErrHelp.
Proof.
  unfold Parse. destruct args as [|s args]; [done|]. destruct (explode s) as [|m [|c t]]; [done..|].
  case_decide; [done|]. case_decide; [done|]. destruct (if decide _ then _ else _) as [|d name]; [by intros [= <-]|].
  case_decide; [by intros [= <-]|]. cbv zeta. case_decide; by intros [= <-].
Qed.

(** * Components *)
Inductive smtp_relay := DirectMX (relay : DirectMXRelay) | UpstreamTo (sender : SMTPConfig).
Inductive component :=
| RetryWorker (svc : service) (worker : scheduler_config)
| SubmissionServer (cfg : Submission.Config) (relay : smtp_relay)
| ForwardingServer (cfg : Forwarding.Config) (sender : SMTPConfig)
| HttpServer (srv : HttpApi.Server) (signingKey cookieName : string) (settings : PublicSettings)
| GrpcServer (requiredToken : string).

(** [NewSMTPEmailSender] with a relay's profile. *)
Definition relay_sender (relay : SMTPRelayConfig) (cfg : Config.Config) : SMTPConfig :=
  MkSMTPConfig (rel_Host relay) (pretty (rel_Port relay)) (rel_Username relay) (rel_Password relay) "" (ConnectionTimeoutSec cfg).
Definition NewUpstreamRelay (cfg : Config.Config) : SMTPConfig := relay_sender (sb_Relay (SMTPSubmission cfg)) cfg.
Definition newSMTPRelay (cfg : Config.Config) : smtp_relay :=
  if bool_decide (sb_DeliveryMode (SMTPSubmission cfg) = "direct"%string)
  then DirectMX (NewDirectMXRelay (OperationTimeoutSec cfg) (sb_Hostname (SMTPSubmission cfg)))
  else UpstreamTo (NewUpstreamRelay cfg).
(** [NewRelayForwarder], whose two checks for [nil] cannot fail here. *)
Definition newSMTPForwarder (cfg : Config.Config) : result SMTPConfig := Ok (relay_sender (fw_Relay (SMTPForwarding cfg)) cfg).
(** The service and the worker it starts. *)
Definition retry_worker_of (svc : service) (cfg : Config.Config) : component :=
  RetryWorker svc (StartRetryWorker svc (RetryIntervalSec cfg)).
Definition retry_worker (cfg : Config.Config) : component := retry_worker_of (NewNotificationService cfg true) cfg.

(** The configuration structs [runServer] builds. *)
Definition submission_server_config (cfg : Config.Config) (tls : bool) : Submission.Config :=
  let sub := SMTPSubmission cfg in
  Submission.MkConfig (sb_Hostname sub) (sb_ListenAddr sub) (sb_TLSListenAddr sub) tls (sb_MaxMessageBytes sub)
    (sb_MaxRecipients sub) (seconds (OperationTimeoutSec cfg)) (ThrottleLimits 0 0 0 0 0 0) (sb_AllowInsecureAuth sub)
    true true true.
Definition forwarding_server_config (cfg : Config.Config) : Forwarding.Config :=
  let fw := SMTPForwarding cfg in
  Forwarding.MkConfig (fw_Hostname fw) (fw_ListenAddr fw) (fw_MaxMessageBytes fw) (fw_MaxRecipients fw)
    (seconds (OperationTimeoutSec cfg)) 0 0 true true true.
Definition http_server_config (cfg : Config.Config) : HttpApi.Config :=
  HttpApi.MkConfig (HTTPListenAddr cfg) (HTTPAllowedOrigins cfg) (HTTPTrustedProxies cfg) true true true true true 0 0.

(** What the start calls outside the program, besides the database: the certificate
    files, the session validator's constructor, gin's proxies, and the gRPC listener. *)
Class Machine (W : Type) := {
  LoadX509KeyPair : string → string → result unit;
  sessionvalidator_New : string → string → result unit;
  gin_SetTrustedProxies : list string → result unit;
  net_Listen : string → string → result unit;
  grpc_Serve : eff W unit;
}.

(** The functions [runServer] calls, which its caller may give or leave out ([F] is [option]);
    [withServerDependencyDefaults] fills in the rest.  The logger, the identity service (a pair
    of its arguments) and [exit] are left out. *)
Record serverDependencies (W : Type) (F : Type → Type) := MkDependencies {
  dep_loadConfig : F (result Config.Config);
  dep_initDB : F (string → eff W unit);
  dep_newSecretKeeper : F (string → result string);
  dep_bootstrapTenants : F (string → list BootstrapTenant → eff W unit);
  dep_bootstrapTenantsFromFile : F (string → string → eff W unit);
  dep_newTenantRepository : F (eff W nat);
  dep_newSMTPIdentityRepository : F (string → result string);
  dep_newNotificationService : F (Config.Config → service);
  dep_loadTLSConfig : F (string → string → result unit);
  dep_newSMTPRelay : F (Config.Config → smtp_relay);
  dep_newSMTPSubmissionServer : F (Submission.Config → result (Submission.Config * smtpThrottle));
  dep_newSMTPForwarder : F (Config.Config → result SMTPConfig);
  dep_newSMTPForwardingServer : F (Forwarding.Config → result (Forwarding.Config * sessionLimiter));
  dep_newSessionValidator : F (string → string → result unit);
  dep_newHTTPServer : F (HttpApi.Config → result HttpApi.Server);
  dep_listen : F (string → string → result unit);
  dep_serveGRPC : F (eff W unit);
}.
Arguments MkDependencies {W F} _ _ _ _ _ _ _ _ _ _ _ _ _ _ _ _ _.
Arguments dep_loadConfig {W F} _.
Arguments dep_initDB {W F} _.
Arguments dep_newSecretKeeper {W F} _.
Arguments dep_bootstrapTenants {W F} _.
Arguments dep_bootstrapTenantsFromFile {W F} _.
Arguments dep_newTenantRepository {W F} _.
Arguments dep_newSMTPIdentityRepository {W F} _.
Arguments dep_newNotificationService {W F} _.
Arguments dep_loadTLSConfig {W F} _.
Arguments dep_newSMTPRelay {W F} _.
Arguments dep_newSMTPSubmissionServer {W F} _.
Arguments dep_newSMTPForwarder {W F} _.
Arguments dep_newSMTPForwardingServer {W F} _.
Arguments dep_newSessionValidator {W F} _.
Arguments dep_newHTTPServer {W F} _.
Arguments dep_listen {W F} _.
Arguments dep_serveGRPC {W F} _.
#[local] Abbreviation filled W := (serverDependencies W (λ A, A)).

Definition on_store {W A} : eff W A → eff (W * list component) A := zoom fst (λ w s, (w, s.2)).
Definition start {W} (c : component) : eff (W * list component) unit := λ s, ((s.1, s.2 ++ [c]), Ok ()).

Section start.
Context `{U : Unicode} `{K : Crypto} `{O : Host} `{Y : Yaml}.
Context {ST SD SA SE SS E : Type}.
Context `{TT : Table ST Tenant} `{TD : Table SD TenantDomain} `{TA : Table SA TenantAdmin}.
Context `{TE : Table SE EmailProfile} `{TS : Table SS SMSProfile}.
Context `{XT : Upserts ST Tenant} `{XD : Upserts SD TenantDomain}.
Context `{JD : Joins ST Tenant SD TenantDomain} `{JA : Joins ST Tenant SA TenantAdmin}.
Context `{Env : Environment E}.
#[local] Abbreviation DB := (tenant_db ST SD SA SE SS).
#[local] Abbreviation W := (tenant_world DB E).
Context (Commit : DB → result unit).
Context `{Q : Sqlite W} `{Mc : Machine W}.
#[local] Abbreviation S := (W * list component)%type.

Definition LoadTLSConfig (certPath keyPath : string) : result unit :=
  match LoadX509KeyPair certPath keyPath with
  | Ok _ => Ok () | Err e => Err (Wrapf "smtp submission: load tls certificate: %w" [] e) end.

Definition productionServerDependencies : filled W := {|
  dep_loadConfig := LoadConfig;
  dep_initDB := InitDB;
  dep_newSecretKeeper := NewSecretKeeper;
  dep_bootstrapTenants key := Bootstrap key Commit;
  dep_bootstrapTenantsFromFile key path := BootstrapFromFile key Commit yaml_Unmarshal_bootstrap (os_ReadFile path);
  dep_newTenantRepository := NewRepository;
  dep_newSMTPIdentityRepository := NewIdentityRepository true;
  dep_newNotificationService cfg := NewNotificationService cfg true;
  dep_loadTLSConfig := LoadTLSConfig;
  dep_newSMTPRelay := newSMTPRelay;
  dep_newSMTPSubmissionServer := Submission.NewServer;
  dep_newSMTPForwarder := newSMTPForwarder;
  dep_newSMTPForwardingServer := Forwarding.NewServer;
  dep_newSessionValidator := sessionvalidator_New;
  dep_newHTTPServer := HttpApi.NewServer gin_SetTrustedProxies;
  dep_listen := net_Listen;
  dep_serveGRPC := grpc_Serve;
|}.

Definition withServerDependencyDefaults (dependencies : serverDependencies W option) : filled W :=
  let production := productionServerDependencies in {|
  dep_loadConfig := default (dep_loadConfig production) (dep_loadConfig dependencies);
  dep_initDB := default (dep_initDB production) (dep_initDB dependencies);
  dep_newSecretKeeper := default (dep_newSecretKeeper production) (dep_newSecretKeeper dependencies);
  dep_bootstrapTenants := default (dep_bootstrapTenants production) (dep_bootstrapTenants dependencies);
  dep_bootstrapTenantsFromFile :=
    default (dep_bootstrapTenantsFromFile production) (dep_bootstrapTenantsFromFile dependencies);
  dep_newTenantRepository := default (dep_newTenantRepository production) (dep_newTenantRepository dependencies);
  dep_newSMTPIdentityRepository :=
    default (dep_newSMTPIdentityRepository production) (dep_newSMTPIdentityRepository dependencies);
  dep_newNotificationService :=
    default (dep_newNotificationService production) (dep_newNotificationService dependencies);
  dep_loadTLSConfig := default (dep_loadTLSConfig production) (dep_loadTLSConfig dependencies);
  dep_newSMTPRelay := default (dep_newSMTPRelay production) (dep_newSMTPRelay dependencies);
  dep_newSMTPSubmissionServer :=
    default (dep_newSMTPSubmissionServer production) (dep_newSMTPSubmissionServer dependencies);
  dep_newSMTPForwarder := default (dep_newSMTPForwarder production) (dep_newSMTPForwarder dependencies);
  dep_newSMTPForwardingServer :=
    default (dep_newSMTPForwardingServer production) (dep_newSMTPForwardingServer dependencies);
  dep_newSessionValidator := default (dep_newSessionValidator production) (dep_newSessionValidator dependencies);
  dep_newHTTPServer := default (dep_newHTTPServer production) (dep_newHTTPServer dependencies);
  dep_listen := default (dep_listen production) (dep_listen dependencies);
  dep_serveGRPC := default (dep_serveGRPC production) (dep_serveGRPC dependencies);
|}.

(** The start of each optional component. *)
Definition start_submission (deps : filled W) (cfg : Config.Config) : eff S unit :=
  let sub := SMTPSubmission cfg in
  if negb (sb_Enabled sub) then mret () else
  let has_paths := negb (bool_decide (sb_TLSCertPath sub = ""%string)) && negb (bool_decide (sb_TLSKeyPath sub = ""%string)) in
  lift (if has_paths then dep_loadTLSConfig deps (sb_TLSCertPath sub) (sb_TLSKeyPath sub) else Ok ());;
  server ← lift (dep_newSMTPSubmissionServer deps (submission_server_config cfg has_paths));
  start (SubmissionServer server.1 (dep_newSMTPRelay deps cfg)).
Definition start_forwarding (deps : filled W) (cfg : Config.Config) : eff S unit :=
  if negb (fw_Enabled (SMTPForwarding cfg)) then mret () else
  forwarder ← lift (dep_newSMTPForwarder deps cfg);
  server ← lift (dep_newSMTPForwardingServer deps (forwarding_server_config cfg));
  start (ForwardingServer server.1 forwarder).
Definition start_http (deps : filled W) (cfg : Config.Config) (settings : PublicSettings) : eff S unit :=
  if negb (WebInterfaceEnabled cfg) then mret () else
  lift (dep_newSessionValidator deps (TAuthSigningKey cfg) (TAuthCookieName cfg));;
  server ← lift (dep_newHTTPServer deps (http_server_config cfg));
  start (HttpServer server (TAuthSigningKey cfg) (TAuthCookieName cfg) settings).

Definition bootstrap_tenants (deps : filled W) (key : string) (cfg : Config.Config) : eff W unit :=
  if bool_decide (0 < length (TenantBootstrap cfg))%nat then dep_bootstrapTenants deps key (TenantBootstrap cfg) else
  if negb (bool_decide (TenantConfigPath cfg = ""%string)) then dep_bootstrapTenantsFromFile deps key (TenantConfigPath cfg)
  else lift (Err (Text "no tenant config supplied" [])).

(** [runServer] after its flags: an error is logged and the exit code is 1. *)
Definition serve (deps : filled W) (cfg : Config.Config) : eff S unit :=
  on_store (dep_initDB deps (DatabasePath cfg));;
  keeper ← lift (dep_newSecretKeeper deps (MasterEncryptionKey cfg));
  on_store (bootstrap_tenants deps keeper cfg);;
  on_store (dep_newTenantRepository deps);;
  lift (dep_newSMTPIdentityRepository deps (MasterEncryptionKey cfg));;
  let settings := smtpPublicSettings (SMTPSubmission cfg) in
  start (retry_worker_of (dep_newNotificationService deps cfg) cfg);;
  start_submission deps cfg;;
  start_forwarding deps cfg;;
  start_http deps cfg settings;;
  lift (dep_listen deps "tcp" ":50051");;
  start (GrpcServer (GRPCAuthToken cfg));;
  on_store (dep_serveGRPC deps).

Definition runServer (args : list string) (dependencies : serverDependencies W option) : S → S * Z := λ s,
  let deps := withServerDependencyDefaults dependencies in
  match Parse args with
  | Err e => (s, if errors_Is e ErrHelp then 0 else 1)
  | Ok _ =>
      match dep_loadConfig deps with
      | Err _ => (s, 1)
      | Ok cfg => let '(s, r) := serve deps cfg s in (s, match r with Ok _ => 0 | Err _ => 1 end)
      end
  end.

(** What [main] gives: everything. *)
Definition complete (deps : filled W) : serverDependencies W option := {|
  dep_loadConfig := Some (dep_loadConfig deps); dep_initDB := Some (dep_initDB deps);
  dep_newSecretKeeper := Some (dep_newSecretKeeper deps); dep_bootstrapTenants := Some (dep_bootstrapTenants deps);
  dep_bootstrapTenantsFromFile := Some (dep_bootstrapTenantsFromFile deps);
  dep_newTenantRepository := Some (dep_newTenantRepository deps);
  dep_newSMTPIdentityRepository := Some (dep_newSMTPIdentityRepository deps);
  dep_newNotificationService := Some (dep_newNotificationService deps); dep_loadTLSConfig := Some (dep_loadTLSConfig deps);
  dep_newSMTPRelay := Some (dep_newSMTPRelay deps);
  dep_newSMTPSubmissionServer := Some (dep_newSMTPSubmissionServer deps);
  dep_newSMTPForwarder := Some (dep_newSMTPForwarder deps);
  dep_newSMTPForwardingServer := Some (dep_newSMTPForwardingServer deps);
  dep_newSessionValidator := Some (dep_newSessionValidator deps); dep_newHTTPServer := Some (dep_newHTTPServer deps);
  dep_listen := Some (dep_listen deps); dep_serveGRPC := Some (dep_serveGRPC deps);
|}.
Lemma complete_all deps : withServerDependencyDefaults (complete deps) = deps.
Proof. by destruct deps. Qed.
End start.

(** * Addresses *)
Lemma cut_last_app c l r : c ∉ r → cut_last c (l ++ c :: r) = Some (l, r).
Proof.
  intros Hr. assert (cut_last c r = None) as Hn.
  { induction r as [|d r IH]; [done|]. simpl. rewrite IH by set_solver. rewrite decide_False; [done|]. set_solver. }
  induction l as [|d l IH]; simpl; [by rewrite Hn, decide_True|]. by rewrite IH.
Qed.
(** Splitting an address that was joined gives its parts, for host names, IPv4 and
    IPv6 addresses. *)
Lemma SplitHostPort_JoinHostPort host port :
  "["%char ∉ explode host → "]"%char ∉ explode host →
  Forall (λ c, c ∉ [":"; "["; "]"]%char) (explode port) →
  SplitHostPort (JoinHostPort host port) = Ok (host, port).
Proof.
  intros Ho Hc Hp. assert (∀ c, c ∈ [":"; "["; "]"]%char → c ∉ explode port) as Hport.
  { intros c Hin Hcp. rewrite Forall_forall in Hp. by apply (Hp c Hcp). }
  assert (":"%char ∉ explode port) as Hp1 by (apply Hport; set_solver).
  assert ("["%char ∉ explode port) as Hp2 by (apply Hport; set_solver).
  assert ("]"%char ∉ explode port) as Hp3 by (apply Hport; set_solver).
  unfold JoinHostPort, SplitHostPort. destruct (Contains host ":") eqn:E.
  - rewrite !explode_app. change (explode "[") with ["["%char]. change (explode "]:") with ["]"; ":"]%char.
    replace (["["%char] ++ explode host ++ ["]"; ":"]%char ++ explode port)
      with (("["%char :: explode host ++ ["]"%char]) ++ ":"%char :: explode port) by (simpl; by rewrite <- app_assoc).
    rewrite cut_last_app by done. cbn [app]. rewrite <- app_assoc. cbn [app].
    rewrite find_b_char by done. rewrite decide_False by done.
    rewrite decide_True by (simpl; rewrite length_app; simpl; lia).
    rewrite !bool_decide_eq_false_2 by set_solver. simpl. by rewrite !implode_explode.
  - assert (":"%char ∉ explode host) as Hh by (rewrite <- contains_char; congruence).
    rewrite !explode_app. change (explode ":") with [":"%char]. cbn [app].
    rewrite cut_last_app by done. rewrite !bool_decide_eq_false_2 by set_solver.
    assert (∀ t, explode host ++ ":"%char :: explode port ≠ "["%char :: t) as Hn.
    { intros t Ht. destruct (explode host) as [|c l]; [done|]. simpl in Ht. injection Ht as -> _. set_solver. }
    cbn [guard_err mbind result_bind]. rewrite !implode_explode.
    destruct (explode host ++ ":"%char :: explode port) as [|c l]; [done|].
    assert (c ≠ "["%char) by (intros ->; by eapply Hn).
    destruct c as [[] [] [] [] [] [] [] []]; try done.
Qed.

Lemma smtpPortFromAddr_bounds address fallback : 0 < fallback < 2 ^ 63 → 0 < smtpPortFromAddr address fallback < 2 ^ 63.
Proof.
  intros Hf. unfold smtpPortFromAddr. case_bool_decide; [done|].
  destruct (Atoi _) as [port|e] eqn:E; [|done]. destruct (Z.leb_spec port 0); [done|].
  apply Atoi_bounds in E. lia.
Qed.

(** * Launching in order *)
Section launching.
Context {W : Type}.
#[local] Abbreviation S := (W * list component)%type.
(** [m] starts the components [part], in order; when it fails, a first part of them. *)
Class Launches {A} (m : eff S A) (part : list component) : Prop :=
  launches s s' r : m s = (s', r) →
    match r with Ok _ => s'.2 = s.2 ++ part | Err _ => ∃ k, k `prefix_of` part ∧ s'.2 = s.2 ++ k end.

#[export] Instance launches_lift {A} (r : result A) : Launches (lift r) [].
Proof. intros s s' r' [= <- <-]. destruct r; [by rewrite app_nil_r|]. exists []. by rewrite app_nil_r. Qed.
#[export] Instance launches_ret {A} (a : A) : Launches (mret a) [].
Proof. intros s s' r [= <- <-]. by rewrite app_nil_r. Qed.
#[export] Instance launches_store {A} (m : eff W A) : Launches (on_store m) [].
Proof.
  intros s s' r (w & _ & ->)%zoom_inv. destruct r; [by rewrite app_nil_r|]. exists []. by rewrite app_nil_r.
Qed.
#[export] Instance launches_start c : Launches (start c) [c].
Proof. by intros s s' r [= <- <-]. Qed.
Lemma launches_bind {A B} (m : eff S A) (f : A → eff S B) p q :
  Launches m p → (∀ s s' a, m s = (s', Ok a) → Launches (f a) q) → Launches (m ≫= f) (p ++ q).
Proof.
  intros Hm Hf s s' r [(e & H & ->)|(s1 & a & H & H')]%eff_bind_inv.
  - apply Hm in H as (k & Hk & ->). exists k. split; [by apply prefix_app_r|done].
  - pose proof (Hf _ _ _ H _ _ _ H') as H2. apply Hm in H. rewrite H, <- !app_assoc in H2. destruct r; [done|].
    destruct H2 as (k & Hk & H2). exists (p ++ k). split; [by apply prefix_app|]. by rewrite <- app_assoc in H2.
Qed.
Lemma launches_quiet {A B} (m : eff S A) (f : A → eff S B) q :
  Launches m [] → (∀ s s' a, m s = (s', Ok a) → Launches (f a) q) → Launches (m ≫= f) q.
Proof. apply launches_bind. Qed.
Lemma launches_then {A B} (m : eff S A) (m' : eff S B) p q : Launches m p → Launches m' q → Launches (m;; m') (p ++ q).
Proof. intros ? ?. by apply launches_bind. Qed.
End launching.

(** * What a start amounts to *)
Section effective.
Context `{U : Unicode}.
Definition has_certificate (cfg : Config.Config) : bool :=
  negb (bool_decide (sb_TLSCertPath (SMTPSubmission cfg) = ""%string))
  && negb (bool_decide (sb_TLSKeyPath (SMTPSubmission cfg) = ""%string)).
(** The configurations the servers run with, their own defaults filled in. *)
Definition effective_submission (cfg : Config.Config) : Submission.Config :=
  let sub := SMTPSubmission cfg in
  Submission.MkConfig (sb_Hostname sub) (sb_ListenAddr sub) (sb_TLSListenAddr sub) (has_certificate cfg)
    (sb_MaxMessageBytes sub) (sb_MaxRecipients sub) (positive_or (seconds (OperationTimeoutSec cfg)) (2 * Minute))
    (ThrottleLimits 200 20 5 (10 * Minute) 60 (60 * Minute)) (sb_AllowInsecureAuth sub) true true true.
Definition effective_forwarding (cfg : Config.Config) : Forwarding.Config :=
  let fw := SMTPForwarding cfg in
  Forwarding.MkConfig (fw_Hostname fw) (fw_ListenAddr fw) (fw_MaxMessageBytes fw) (fw_MaxRecipients fw)
    (positive_or (seconds (OperationTimeoutSec cfg)) (2 * Minute)) 200 20 true true true.
Definition effective_http (cfg : Config.Config) : HttpApi.Server :=
  HttpApi.MkServer (http_server_config cfg) (buildCORS (HTTPAllowedOrigins cfg)) HttpApi.defaultTimeout.

Definition submission_part (cfg : Config.Config) : list component :=
  if sb_Enabled (SMTPSubmission cfg) then [SubmissionServer (effective_submission cfg) (newSMTPRelay cfg)] else [].
Definition forwarding_part (cfg : Config.Config) : list component :=
  if fw_Enabled (SMTPForwarding cfg)
  then [ForwardingServer (effective_forwarding cfg) (relay_sender (fw_Relay (SMTPForwarding cfg)) cfg)] else [].
Definition http_part (cfg : Config.Config) : list component :=
  if WebInterfaceEnabled cfg
  then [HttpServer (effective_http cfg) (TAuthSigningKey cfg) (TAuthCookieName cfg) (smtpPublicSettings (SMTPSubmission cfg))]
  else [].
Definition configured_components (cfg : Config.Config) : list component :=
  [retry_worker cfg] ++ submission_part cfg ++ forwarding_part cfg ++ http_part cfg
  ++ [GrpcServer (GRPCAuthToken cfg)].

Lemma positive_or_pos x d : 0 < x → positive_or x d = x.
Proof. intros. unfold positive_or. destruct (Z.leb_spec x 0); [lia|done]. Qed.

(** The submission server is built from a valid configuration unless a listener for
    implicit TLS has no certificate. *)
Lemma submission_NewServer cfg :
  config_ok cfg → sb_Enabled (SMTPSubmission cfg) = true →
  (∀ server, Submission.NewServer (submission_server_config cfg (has_certificate cfg)) = Ok server →
     server.1 = effective_submission cfg) ∧
  ((∃ server, Submission.NewServer (submission_server_config cfg (has_certificate cfg)) = Ok server) ↔
   (given (sb_TLSListenAddr (SMTPSubmission cfg)) ∨
    (given (sb_ListenAddr (SMTPSubmission cfg)) ∧ sb_AllowInsecureAuth (SMTPSubmission cfg) = false) →
    has_certificate cfg = true)).
Proof.
  intros (_ & _ & _ & Hs & _) He. destruct (Hs He) as (Hh & _ & Hb & Hr & _). unfold given in Hh.
  unfold Submission.NewServer, submission_server_config. cbn -[TrimSpace has_certificate positive_or seconds]. rewrite (bool_decide_eq_false_2 (TrimSpace (sb_Hostname (SMTPSubmission cfg)) = _)) by done. cbn -[TrimSpace has_certificate positive_or seconds].
  rewrite !positive_or_pos by done. unfold given, effective_submission.
  destruct (has_certificate cfg); cbn -[TrimSpace positive_or seconds]; rewrite ?andb_false_r; cbn -[TrimSpace has_certificate positive_or seconds].
  { split; [by intros server [= <-]|]. split; [done|eauto]. }
  rewrite !andb_true_r.
  destruct (bool_decide (TrimSpace (sb_TLSListenAddr _) ≠ _)) eqn:Ht; to_prop; cbn [guard_err mbind result_bind].
  { split; [done|]. split; [by intros [? ?]|]. intros H. discriminate H. by left. }
  destruct (bool_decide (TrimSpace (sb_ListenAddr _) ≠ _)) eqn:Hl, (sb_AllowInsecureAuth (SMTPSubmission cfg)) eqn:Ha;
    to_prop; cbn [guard_err mbind result_bind andb negb];
    (split; [by intros server [= <-]|]; split; [intros [server Hok]|intros H; eauto]); try done.
  - by intros [?|[_ [=]]].
  - discriminate H. by right.
  - by intros [?|[? _]].
  - by intros [?|[? _]].
Qed.

Lemma forwarding_NewServer cfg :
  config_ok cfg → fw_Enabled (SMTPForwarding cfg) = true →
  ∃ server, Forwarding.NewServer (forwarding_server_config cfg) = Ok server ∧ server.1 = effective_forwarding cfg.
Proof.
  intros (_ & _ & _ & _ & Hf & _) He. destruct (Hf He) as (Hh & Hl & Hb & Hr & _). unfold given in Hh, Hl.
  unfold Forwarding.NewServer, forwarding_server_config. cbn -[TrimSpace has_certificate positive_or seconds]. rewrite (bool_decide_eq_false_2 (TrimSpace (fw_Hostname (SMTPForwarding cfg)) = _)),
    (bool_decide_eq_false_2 (TrimSpace (fw_ListenAddr (SMTPForwarding cfg)) = _)) by done. cbn -[TrimSpace has_certificate positive_or seconds].
  eexists. split; [reflexivity|]. cbn -[TrimSpace has_certificate positive_or seconds]. by rewrite !positive_or_pos by done.
Qed.
End effective.

Section startup.
Context `{U : Unicode} `{K : Crypto} `{O : Host} `{Y : Yaml}.
Context {ST SD SA SE SS E : Type}.
Context `{TT : Table ST Tenant} `{TD : Table SD TenantDomain} `{TA : Table SA TenantAdmin}.
Context `{TE : Table SE EmailProfile} `{TS : Table SS SMSProfile}.
Context `{XT : Upserts ST Tenant} `{XD : Upserts SD TenantDomain}.
Context `{JD : Joins ST Tenant SD TenantDomain} `{JA : Joins ST Tenant SA TenantAdmin}.
Context `{Env : Environment E}.
#[local] Abbreviation DB := (tenant_db ST SD SA SE SS).
#[local] Abbreviation W := (tenant_world DB E).
Context (Commit : DB → result unit).
Context `{Q : Sqlite W} `{Mc : Machine W}.

#[local] Abbreviation production := (productionServerDependencies Commit).
#[local] Ltac produce := cbn [productionServerDependencies dep_loadConfig dep_initDB dep_newSecretKeeper dep_bootstrapTenants
  dep_bootstrapTenantsFromFile dep_newTenantRepository dep_newSMTPIdentityRepository dep_newNotificationService
  dep_loadTLSConfig dep_newSMTPRelay dep_newSMTPSubmissionServer dep_newSMTPForwarder dep_newSMTPForwardingServer
  dep_newSessionValidator dep_newHTTPServer dep_listen dep_serveGRPC].

Lemma LoadConfig_ok cfg : LoadConfig = Ok cfg → config_ok cfg ∧ ∃ f, cfg = configuration_of f.
Proof. unfold LoadConfig. intros (? & ? & f & _ & _ & _ & -> & ?)%loadConfigFromPath_inv. eauto. Qed.

Lemma submission_launches cfg : config_ok cfg → Launches (W := W) (start_submission production cfg) (submission_part cfg).
Proof.
  intros Hok. unfold start_submission, submission_part; produce. destruct (sb_Enabled _) eqn:He; [simpl negb; cbv iota|apply _].
  fold (has_certificate cfg). apply launches_quiet; [apply _|]. intros _ _ _ _.
  apply launches_quiet; [apply _|]. intros s s' server [= _ Hs].
  destruct (submission_NewServer cfg Hok He) as [Heff _]. rewrite <- (Heff _ Hs). apply _.
Qed.
Lemma forwarding_launches cfg : config_ok cfg → Launches (W := W) (start_forwarding production cfg) (forwarding_part cfg).
Proof.
  intros Hok. unfold start_forwarding, forwarding_part; produce. destruct (fw_Enabled _) eqn:He; [simpl negb; cbv iota|apply _].
  apply launches_quiet; [apply _|]. intros _ _ sender [= _ <-].
  apply launches_quiet; [apply _|]. intros s s' server [= _ Hs].
  destruct (forwarding_NewServer cfg Hok He) as (server' & Hs' & <-).
  assert (server = server') as -> by congruence. apply _.
Qed.
Lemma http_launches cfg : Launches (W := W) (start_http production cfg (smtpPublicSettings (SMTPSubmission cfg))) (http_part cfg).
Proof.
  unfold start_http, http_part; produce. destruct (WebInterfaceEnabled cfg); [simpl negb; cbv iota|apply _].
  apply launches_quiet; [apply _|]. intros _ _ _ _.
  apply launches_quiet; [apply _|]. intros s s' server [= _ Hs].
  unfold HttpApi.NewServer in Hs. repeat (apply bind_Ok in Hs as (? & _ & Hs)).
  destruct (gin_SetTrustedProxies _); [|done]. injection Hs as <-. apply _.
Qed.

Lemma serve_launches cfg : config_ok cfg → Launches (serve production cfg) (configured_components cfg).
Proof.
  intros Hok. unfold serve, configured_components; produce.
  apply launches_quiet; [apply _|]. intros _ _ _ _. apply launches_quiet; [apply _|]. intros _ _ keeper _.
  do 3 (apply launches_quiet; [apply _|]; intros _ _ _ _).
  apply launches_then; [apply _|]. apply launches_then; [by apply submission_launches|].
  apply launches_then; [by apply forwarding_launches|]. apply launches_then; [apply http_launches|].
  apply launches_quiet; [apply _|]. intros _ _ _ _. rewrite <- (app_nil_r [GrpcServer _]). apply launches_then; apply _.
Qed.


(** Everything outside the program works: database, key, tenants, the certificate when
    one is named, sessions and proxies of the web interface, and the port. *)
Definition machine_ready (cfg : Config.Config) (w w2 : W) : Prop :=
  (∃ w1 key, InitDB (DatabasePath cfg) w = (w1, Ok ()) ∧ NewSecretKeeper (MasterEncryptionKey cfg) = Ok key ∧
     bootstrap_tenants production key cfg w1 = (w2, Ok ())) ∧
  (has_certificate cfg = true →
     LoadX509KeyPair (sb_TLSCertPath (SMTPSubmission cfg)) (sb_TLSKeyPath (SMTPSubmission cfg)) = Ok ()) ∧
  (WebInterfaceEnabled cfg = true →
     sessionvalidator_New (TAuthSigningKey cfg) (TAuthCookieName cfg) = Ok () ∧
     gin_SetTrustedProxies (normalizeTrustedProxies (HTTPTrustedProxies cfg)) = Ok ()) ∧
  net_Listen "tcp" ":50051" = Ok ().

Lemma on_store_run {A} (m : eff W A) w cs w1 a : m w = (w1, Ok a) → on_store m (w, cs) = ((w1, cs), Ok a).
Proof. unfold on_store, zoom. simpl. by intros ->. Qed.

Lemma master_key_agrees cfg key :
  (∃ f, cfg = configuration_of f) → NewSecretKeeper (MasterEncryptionKey cfg) = Ok key →
  NewIdentityRepository true (MasterEncryptionKey cfg) = Ok key.
Proof.
  intros [f ->]. unfold NewSecretKeeper, NewIdentityRepository, decodeMasterKey. cbn [configuration_of MasterEncryptionKey].
  rewrite TrimSpace_idem. destruct (hex_DecodeString _); [|done]. by case_decide.
Qed.

(** The submission server starts unless its TLS listener has no certificate. *)
Definition tls_listener_covered (cfg : Config.Config) : Prop :=
  sb_Enabled (SMTPSubmission cfg) = true → given (sb_TLSListenAddr (SMTPSubmission cfg)) → has_certificate cfg = true.
Lemma start_submission_run cfg w w2 (s : W * list component) :
  config_ok cfg → machine_ready cfg w w2 → tls_listener_covered cfg →
  start_submission production cfg s = ((s.1, s.2 ++ submission_part cfg), Ok ()).
Proof.
  intros Hok (_ & Htls & _) Hcov. destruct s as [ws cs]. unfold start_submission, submission_part; produce.
  destruct (sb_Enabled (SMTPSubmission cfg)) eqn:He; [|by rewrite app_nil_r]. cbn [negb].
  fold (has_certificate cfg).
  assert ((if has_certificate cfg then LoadTLSConfig (sb_TLSCertPath (SMTPSubmission cfg)) (sb_TLSKeyPath (SMTPSubmission cfg))
           else Ok ()) = Ok ()) as ->.
  { unfold LoadTLSConfig. destruct (has_certificate cfg); [|done]. by rewrite Htls. }
  rewrite lift_bind. destruct (submission_NewServer cfg Hok He) as [Heff Hiff].
  destruct (proj2 Hiff) as [server Hserver].
  - intros [Ht|[_ Ha]]; [by apply Hcov|]. destruct Hok as (_ & _ & _ & Hs & _).
    destruct (Hs He) as (_ & _ & _ & _ & _ & _ & _ & Hc). destruct (Hc Ha) as [Hc1 Hc2].
    unfold has_certificate. apply andb_true_iff. rewrite !negb_true_iff, !bool_decide_eq_false.
    split; intros E1; [rewrite E1 in Hc1; by apply Hc1|rewrite E1 in Hc2; by apply Hc2].
  - rewrite Hserver, lift_bind, (Heff _ Hserver). done.
Qed.
Lemma start_submission_fails cfg (s : W * list component) :
  config_ok cfg → ¬ tls_listener_covered cfg → ∃ e, start_submission production cfg s = (s, Err e).
Proof.
  intros Hok Hno. unfold tls_listener_covered in Hno. unfold start_submission; produce.
  destruct (sb_Enabled (SMTPSubmission cfg)) eqn:He; [|by destruct Hno]. cbn [negb]. fold (has_certificate cfg).
  destruct (submission_NewServer cfg Hok He) as [_ Hiff].
  destruct (has_certificate cfg) eqn:Hc; [by destruct Hno|]. rewrite lift_bind.
  destruct (Submission.NewServer _) as [server|e] eqn:Es; [|by exists e]. destruct Hno. intros _ Ht.
  apply (proj1 Hiff); [eauto|by left].
Qed.
Lemma start_forwarding_run cfg (s : W * list component) :
  config_ok cfg → start_forwarding production cfg s = ((s.1, s.2 ++ forwarding_part cfg), Ok ()).
Proof.
  intros Hok. destruct s as [ws cs]. unfold start_forwarding, forwarding_part; produce.
  destruct (fw_Enabled (SMTPForwarding cfg)) eqn:He; [|by rewrite app_nil_r]. cbn [negb].
  destruct (forwarding_NewServer cfg Hok He) as (server & Hs & <-). unfold newSMTPForwarder. rewrite lift_bind, Hs, lift_bind. done.
Qed.
Lemma start_http_run cfg w w2 (s : W * list component) :
  config_ok cfg → machine_ready cfg w w2 →
  start_http production cfg (smtpPublicSettings (SMTPSubmission cfg)) s = ((s.1, s.2 ++ http_part cfg), Ok ()).
Proof.
  intros (_ & _ & Hweb & _) (_ & _ & Hm & _). destruct s as [ws cs]. unfold start_http, http_part; produce.
  destruct (WebInterfaceEnabled cfg) eqn:He; [|by rewrite app_nil_r]. cbn [negb].
  destruct (Hm eq_refl) as [Hv Hp]. destruct (Hweb eq_refl) as [Hl _]. rewrite Hv, lift_bind.
  assert (HttpApi.NewServer gin_SetTrustedProxies (http_server_config cfg) = Ok (effective_http cfg)) as ->.
  { unfold HttpApi.NewServer, http_server_config, HttpApi.required.
    cbn [HttpApi.ListenAddr HttpApi.SessionValidator HttpApi.NotificationService HttpApi.TenantRepository HttpApi.Logger
      HttpApi.TrustedProxies HttpApi.AllowedOrigins HttpApi.ReadHeaderTimeout].
    rewrite bool_decide_eq_false_2 by done. cbn [negb guard_err mbind result_bind]. by rewrite Hp. }
  by rewrite lift_bind.
Qed.

End startup.

Section published.
Context `{U : Unicode} `{O : Host} `{Y : Yaml}.

Lemma smtpPortFromAddr_joined host n fallback :
  "["%char ∉ explode host → "]"%char ∉ explode host → 0 < n < 2 ^ 63 →
  TrimSpace (JoinHostPort host (pretty n)) = JoinHostPort host (pretty n) →
  smtpPortFromAddr (JoinHostPort host (pretty n)) fallback = n.
Proof.
  intros Ho Hc Hn Ht. unfold smtpPortFromAddr. rewrite Ht.
  assert (Forall (λ c, c ∉ [":"; "["; "]"]%char) (explode (pretty n))) as Hd.
  { destruct n as [|p|p]; [lia| |lia]. eapply Forall_impl; [apply pretty_digits|].
    intros c [d Hd] Hin. rewrite !elem_of_cons, elem_of_nil in Hin. destruct_or! Hin; subst; done. }
  rewrite bool_decide_eq_false_2.
  - rewrite SplitHostPort_JoinHostPort by done. rewrite Atoi_pretty by done. destruct (Z.leb_spec n 0); lia.
  - unfold JoinHostPort. case_match; [done|]. by destruct host.
Qed.

(** What mail clients are told.  For a loaded configuration with submission enabled, the
    published port is positive and the security mode is starttls or ssl; unless another port is
    configured, it is the port the server listens on (given as an address of a host name, IPv4 or
    IPv6 address and a port), and it is the implicit-TLS port, with mode ssl unless another is
    configured, when only that listener is on. *)
Theorem published_settings cfg host n :
  LoadConfig = Ok cfg → sb_Enabled (SMTPSubmission cfg) = true →
  let sub := SMTPSubmission cfg in
  let s := smtpPublicSettings sub in
  0 < s_Port s ∧ s_SecurityMode s ∈ ["starttls"; "ssl"]%string ∧ given (s_Host s) ∧
  ("["%char ∉ explode host → "]"%char ∉ explode host → 0 < n < 2 ^ 63 → sb_PublicPort sub = 0 →
   (sb_ListenAddr sub = JoinHostPort host (pretty n) → s_Port s = n) ∧
   (sb_ListenAddr sub = ""%string → sb_TLSListenAddr sub = JoinHostPort host (pretty n) →
    s_Port s = n ∧ (sb_PublicSecurityMode sub = ""%string → s_SecurityMode s = "ssl"%string))).
Proof.
  intros Hl He sub s.
  assert (config_ok cfg ∧ ∃ f, cfg = configuration_of f) as [Hok [f Hf]].
  { unfold LoadConfig in Hl. apply loadConfigFromPath_inv in Hl as (? & ? & f & _ & _ & _ & -> & ?). eauto. }
  destruct Hok as (_ & _ & _ & Hs & _). destruct (Hs He) as (Hh & _ & _ & _ & _ & Hp & Hm & _). fold sub in Hh, Hp, Hm.
  assert (TrimSpace (sb_ListenAddr sub) = sb_ListenAddr sub) as Ht1 by (unfold sub; subst cfg; apply TrimSpace_idem).
  assert (TrimSpace (sb_TLSListenAddr sub) = sb_TLSListenAddr sub) as Ht2 by (unfold sub; subst cfg; apply TrimSpace_idem).
  unfold s, smtpPublicSettings. rewrite Ht1, Ht2. cbn [s_Port s_SecurityMode s_Host]. split_and!.
  - destruct (Z.ltb_spec 0 (sb_PublicPort sub)); [done|].
    destruct (_ && _); [apply (smtpPortFromAddr_bounds _ 465)|apply (smtpPortFromAddr_bounds _ 587)]; lia.
  - rewrite !elem_of_cons, elem_of_nil in Hm. destruct_or! Hm; try done; rewrite Hm.
    + destruct (_ && _); simpl; set_solver.
    + vm_compute; set_solver.
    + vm_compute; set_solver.
  - done.
  - intros Ho Hc Hn Hport. rewrite Hport. simpl (0 <? 0). cbv iota. split.
    + intros Ea. assert (sb_ListenAddr sub ≠ ""%string).
      { rewrite Ea. unfold JoinHostPort. case_match; [done|]. by destruct host. }
      rewrite bool_decide_eq_false_2 by done. simpl. rewrite Ea in Ht1 |- *. by apply smtpPortFromAddr_joined.
    + intros Ea Eb. assert (sb_TLSListenAddr sub ≠ ""%string).
      { rewrite Eb. unfold JoinHostPort. case_match; [done|]. by destruct host. }
      rewrite bool_decide_eq_true_2 by done. rewrite (bool_decide_eq_false_2 (sb_TLSListenAddr sub = _)) by done. simpl.
      split; [rewrite Eb in Ht2 |- *; by apply smtpPortFromAddr_joined|]. intros ->. done.
Qed.
End published.

(** * Witnesses: a machine in memory *)
Import TenantTables.
#[local] Existing Instances ascii_unicode plain_crypto counter_env.
Definition server_host (contents : string) : Host := {|
  os_LookupEnv _ := None;
  os_ReadFile path := if decide (path = "/config/config.yml"%string) then Ok contents else Err (New "no such file");
  os_Stat path := bool_decide (path = "/config/config.yml"%string);
|}.
(** A format of two files: with and without a certificate for the TLS listener. *)
Definition server_document (text : string) : document :=
  let bare := bool_decide (text = "bare"%string) in
  MkDocument
    (MkServerSection "db" "s3cret" "INFO" 3 30 "000102030405060708090a0b0c0d0e0f101112131415161718191a1b1c1d1e1f" 5 30
      (MkTAuth "sign" ""))
    (MkWebSection None ":8080" [" https://x.y "]%string [])
    (MkSubmissionSection true "mail.x.y" (if bare then "" else ":587") ":465" (if bare then "" else "cert") "key" 0 "" "direct"
      1024 10 bare (MkRelaySection "" 0 "" ""))
    (MkForwardingSection true "mx.x.y" ":25" 1024 10 (MkRelaySection "smtp.z" 587 "u" "p"))
    (Some (MkNode SequenceNode "" [])).
Definition server_yaml : Yaml := {|
  yaml_Decode text := Ok (server_document text);
  yaml_Decode_list _ := Ok [acme];
  yaml_Decode_mapping _ := Err (New "not a mapping");
  yaml_Unmarshal_bootstrap _ := Ok [];
|}.
Definition memory_machine : Machine (tenant_world memory_db Z) := {|
  LoadX509KeyPair _ _ := Ok ();
  sessionvalidator_New _ _ := Ok ();
  gin_SetTrustedProxies _ := Ok ();
  net_Listen _ _ := Ok ();
  grpc_Serve := mret ();
|}.
Definition memory_sqlite : Sqlite (tenant_world memory_db Z) := {|
  os_MkdirAll _ := mret ();
  gorm_Open _ := mret ();
  AutoMigrate _ := mret ();
|}.
#[local] Existing Instances server_yaml memory_sqlite memory_machine.
Definition run_demo (contents : string) := 
  runServer (O := server_host contents) memory_commit []
    (complete (productionServerDependencies (O := server_host contents) memory_commit)) (empty_world, []).



Lemma published_settings_witness :
  ∃ cfg, LoadConfig (O := server_host "full") = Ok cfg ∧ s_Port (smtpPublicSettings (SMTPSubmission cfg)) = 587.
Proof.
  destruct (LoadConfig (O := server_host "full")) as [cfg|e] eqn:El; [|vm_compute in El; discriminate].
  exists cfg. split; [reflexivity|].
  destruct (published_settings (O := server_host "full") cfg "" 587 El) as (_ & _ & _ & H).
  - vm_compute in El. injection El as <-. reflexivity.
  - vm_compute in El. injection El as <-.
    destruct H as [H _]; [apply (bool_decide_unpack _); vm_compute; exact I| |lia|reflexivity|apply H; reflexivity].
    apply (bool_decide_unpack _); vm_compute; exact I.
Defined.
