(* ===== verification/Listener.v ===== *)
(** The listeners of the two SMTP servers ([Start] and [Serve] of
    src/internal/smtpsubmission/server.go and src/internal/smtpforwarding/server.go).

    Each accepted connection runs in a goroutine of its own, so what happens to a server
    is a sequence of events: a connection is accepted or accepting fails, a session calls
    the shared throttle, a session ends.  [serve_step] is one of them, in any order; what a
    session does in between is [handleConnection], which always ends
    ([Submission.session_terminates]).  The throttle and the limiter are seen through the
    class [Gate], so both servers share the theorem. *)
From S2P Require Import Prelude GoStrings Throttle Smtp Submission Forwarding Startup.
Open Scope Z_scope.

(** * Who connects *)

(** [RemoteAddr()]: a TCP address has an IP; every address has a text. *)
Inductive remote_addr := TCPAddr (ip text : string) | OtherAddr (text : string).
Definition addr_text (a : remote_addr) : string := match a with TCPAddr _ text | OtherAddr text => text end.

Definition submission_remoteHost (a : remote_addr) : string :=
  match a with
  | TCPAddr ip _ => ip
  | OtherAddr text => match SplitHostPort text with Ok (host, _) => host | Err _ => TrimSpace text end
  end.
Definition forwarding_remoteHost (a : remote_addr) : string :=
  match SplitHostPort (addr_text a) with Ok (host, _) => host | Err _ => addr_text a end.

(** [rejectSMTPConnection] *)
Definition rejectSMTPConnection (c : conn) (line : string) : conn := reply c line.

(** * Slots *)
Class Gate (G : Type) := {
  g_acquire : G → string → result (string * G);
  g_release : G → string → G;
  g_call : G → G → Prop;                    (** another call of a session *)
  g_total : G → Z;
  g_hosts : G → gmap string Z;
  g_max : G → Z;
  g_per_host : G → Z;
}.

(** The name a host is counted under. *)
Definition host_key (remoteHost : string) : string := normalizeThrottleKeyPart remoteHost "unknown".

Class GateLaws (G : Type) `{X : Gate G} : Prop := {
  acquire_law g host :
    let k := host_key host in
    if (g_total g <? g_max g) && (count_at (g_hosts g) k <? g_per_host g)
    then ∃ g', g_acquire g host = Ok (k, g') ∧ g_total g' = g_total g + 1 ∧
           g_hosts g' = <[k := count_at (g_hosts g) k + 1]> (g_hosts g) ∧
           g_max g' = g_max g ∧ g_per_host g' = g_per_host g
    else ∃ e, g_acquire g host = Err e;
  release_law g k :
    let n := count_at (g_hosts g) k in
    let g' := g_release g k in
    (0 < g_total g → g_total g' = g_total g - 1) ∧
    g_hosts g' = (if n <=? 1 then delete k (g_hosts g) else <[k := n - 1]> (g_hosts g)) ∧
    g_max g' = g_max g ∧ g_per_host g' = g_per_host g;
  call_law g g' : g_call g g' →
    g_total g' = g_total g ∧ g_hosts g' = g_hosts g ∧ g_max g' = g_max g ∧ g_per_host g' = g_per_host g;
}.

(** The calls a submission session makes between its first and its last line. *)
Inductive session_call `{U : Unicode} : smtpThrottle → smtpThrottle → Prop :=
| call_reserve_auth t host user now : session_call t (reserveAuthAttempt t host user now).1
| call_clear_auth t key : session_call t (clearAuthFailures t key)
| call_reserve_message t id now : session_call t (reserveAcceptedMessage t id now).1
| call_cancel_message t key at_ : session_call t (cancelMessageReservation t key at_).

#[export] Instance throttle_gate `{U : Unicode} : Gate smtpThrottle :=
  {| g_acquire := acquireSession; g_release := releaseSession; g_call := session_call;
     g_total := Throttle.activeSessions; g_hosts := Throttle.activeSessionsByHost;
     g_max := Throttle.maxConcurrentSessions; g_per_host := Throttle.maxSessionsPerRemoteHost |}.
#[export] Instance limiter_gate : Gate sessionLimiter :=
  {| g_acquire := acquire; g_release := release; g_call := λ _ _, False;
     g_total := activeSessions; g_hosts := activeSessionsByHost;
     g_max := maxConcurrentSessions; g_per_host := maxSessionsPerRemoteHost |}.

#[export] Instance throttle_gate_laws `{U : Unicode} : GateLaws smtpThrottle.
Proof.
  constructor; simpl.
  - intros t host. unfold acquireSession, host_key. rewrite !Z.ltb_antisym.
    destruct (_ <=? Throttle.activeSessions t); simpl; [eauto|]. destruct (_ <=? count_at _ _); simpl; [eauto|].
    eexists. by split_and!.
  - intros t k. unfold releaseSession. destruct (_ <=? 1); simpl; split_and!; try done;
      intros H; by rewrite (proj2 (Z.ltb_lt _ _) H).
  - intros t t' []; unfold reserveAuthAttempt, reserveAcceptedMessage, cancelMessageReservation; by repeat case_match.
Qed.
#[export] Instance limiter_gate_laws : GateLaws sessionLimiter.
Proof.
  constructor; simpl; [..|done].
  - intros l host. unfold acquire, host_key, normalizeThrottleKeyPart, count_at. rewrite !Z.ltb_antisym.
    destruct (_ <=? activeSessions l); simpl; [eauto|]. destruct (_ <=? default _ _); simpl; [eauto|].
    eexists. by split_and!.
  - intros l k. unfold release, count_at. simpl. split_and!; try done.
    intros H. by rewrite (proj2 (Z.ltb_lt _ _) H).
Qed.

(** * The accept loop *)

(** [Submission.Serve] ends with the error of [Accept] unless the context is done;
    [Forwarding.Serve] also takes a closed listener for an end. *)
Definition ErrClosed : error := New "use of closed network connection".
Definition submission_accept_error (cancelled : bool) (e : error) : option error :=
  if cancelled then None else Some e.
Definition forwarding_accept_error (cancelled : bool) (e : error) : option error :=
  if cancelled || errors_Is e ErrClosed then None else Some e.

Inductive serve_event :=
| Accepted (id : nat) (addr : remote_addr) (c : conn)
| AcceptFails (cancelled : bool) (e : error)
| SessionEnds (id : nat).

Record listening (G : Type) := Listening {
  l_gate : G;
  l_live : list (nat * string);             (** sessions and the names they are counted under *)
  l_refused : list conn;                    (** connections turned away, as they were left *)
  l_returned : option (option error);       (** what [Serve] returned *)
}.
Arguments Listening {G} _ _ _ _.
Arguments l_gate {G} _.
Arguments l_live {G} _.
Arguments l_refused {G} _.
Arguments l_returned {G} _.

Section serve.
Context {G : Type} `{X : Gate G} (remoteHost : remote_addr → string) (accept_error : bool → error → option error).

(** The release closure of a session, which is called once, when it ends. *)
Fixpoint end_session (id : nat) (live : list (nat * string)) : option (string * list (nat * string)) :=
  match live with
  | [] => None
  | (i, k) :: live =>
      if decide (i = id) then Some (k, live) else '(k', rest) ← end_session id live; Some (k', (i, k) :: rest)
  end.

Definition Serve_event (st : listening G) (ev : serve_event) : listening G :=
  match ev with
  | Accepted id addr c =>
      if l_returned st then st else
      match g_acquire (l_gate st) (remoteHost addr) with
      | Err _ =>
          Listening (l_gate st) (l_live st)
            (l_refused st ++ [rejectSMTPConnection c "421 Too many concurrent SMTP sessions"]) None
      | Ok (k, g) => Listening g ((id, k) :: l_live st) (l_refused st) None
      end
  | AcceptFails cancelled e =>
      if l_returned st then st else
      Listening (l_gate st) (l_live st) (l_refused st) (Some (accept_error cancelled e))
  | SessionEnds id =>
      match end_session id (l_live st) with
      | None => st
      | Some (k, live) => Listening (g_release (l_gate st) k) live (l_refused st) (l_returned st)
      end
  end.

(** Anything that can happen to a running server, in any order. *)
Inductive serve_step : listening G → listening G → Prop :=
| step_event st ev : serve_step st (Serve_event st ev)
| step_call st g : g_call (l_gate st) g →
    serve_step st (Listening g (l_live st) (l_refused st) (l_returned st)).
End serve.

(** * Slots and sessions agree *)
Record slots_inv {G} `{X : Gate G} (maxConcurrent perHost : Z) (st : listening G) : Prop := {
  slots_limits : g_max (l_gate st) = maxConcurrent ∧ g_per_host (l_gate st) = perHost;
  slots_total : g_total (l_gate st) = Z.of_nat (length (l_live st));
  slots_hosts k : count_at (g_hosts (l_gate st)) k = sessions_of k (snd <$> l_live st);
  slots_positive k n : g_hosts (l_gate st) !! k = Some n → 0 < n;
  slots_le : Z.of_nat (length (l_live st)) ≤ maxConcurrent;
  slots_hosts_le k : sessions_of k (snd <$> l_live st) ≤ perHost;
}.

Lemma end_session_Some id live k rest :
  end_session id live = Some (k, rest) → ∃ a b, live = a ++ (id, k) :: b ∧ rest = a ++ b.
Proof.
  revert rest. induction live as [|[i k'] live IH]; simpl; intros rest; [done|].
  case_decide as Hi; [intros [= -> ->]; by exists [], rest; subst|].
  destruct (end_session id live) as [[k0 r0]|] eqn:E; [|done]. simpl. intros [= -> <-].
  destruct (IH r0 eq_refl) as (a & b & -> & ->). by exists ((i, k') :: a), b.
Qed.

Section invariant.
Context {G : Type} `{X : Gate G} `{GL : !GateLaws G}.
Context (remoteHost : remote_addr → string) (accept_error : bool → error → option error).
Context (maxConcurrent perHost : Z).

Lemma slots_accept st id addr c g :
  slots_inv maxConcurrent perHost st → g_acquire (l_gate st) (remoteHost addr) = Ok g →
  slots_inv maxConcurrent perHost (Listening g.2 ((id, g.1) :: l_live st) c None).
Proof.
  intros [[<- <-] Ht Hh Hp Hle Hhle] Ha. pose proof (acquire_law (l_gate st) (remoteHost addr)) as Hl. simpl in Hl.
  destruct (_ <? _) eqn:E1; simpl in Hl; [|destruct Hl; congruence].
  destruct (_ <? _) eqn:E2 in Hl; [|destruct Hl; congruence]. to_prop.
  destruct Hl as (g' & Hg & H1 & H2 & H3 & H4). rewrite Hg in Ha. injection Ha as <-.
  constructor; simpl; rewrite ?H1, ?H2, ?H3, ?H4; [done|lia|..].
  - intros k. rewrite count_at_insert, sessions_of_cons. case_decide; subst; by rewrite Hh.
  - intros k n [[<- <-]|[_ Hk]]%lookup_insert_Some; [|by eapply Hp].
    rewrite Hh. pose proof (sessions_of_nonneg (host_key (remoteHost addr)) (snd <$> l_live st)). lia.
  - lia.
  - intros k. rewrite sessions_of_cons. case_decide; [subst; rewrite <- Hh; lia|done].
Qed.

Lemma slots_end st id k rest x r :
  slots_inv maxConcurrent perHost st → end_session id (l_live st) = Some (k, rest) →
  slots_inv maxConcurrent perHost (Listening (g_release (l_gate st) k) rest x r).
Proof.
  intros [[<- <-] Ht Hh Hp Hle Hhle] (a & b & Hab & ->)%end_session_Some.
  pose proof (release_law (l_gate st) k) as (H1 & H2 & H3 & H4).
  rewrite Hab in *. rewrite length_app in *. simpl in *.
  assert (∀ h, sessions_of h (snd <$> a ++ (id, k) :: b) =
    sessions_of h (snd <$> a ++ b) + if decide (k = h) then 1 else 0) as Hk.
  { intros h. rewrite !fmap_app, !sessions_of_app. csimpl. rewrite sessions_of_cons. case_decide; lia. }
  constructor; simpl; rewrite ?H2, ?H3, ?H4, ?length_app; [done|rewrite H1; lia| | |lia|].
  - intros h. pose proof (sessions_of_nonneg h (snd <$> a ++ b)). pose proof (Hh k) as Hn. rewrite Hk in Hn.
    rewrite decide_True in Hn by done. specialize (Hh h). rewrite Hk in Hh.
    destruct (Z.leb_spec (count_at (g_hosts (l_gate st)) k) 1); rewrite ?count_at_delete, ?count_at_insert;
      case_decide; subst; lia.
  - intros h n. destruct (Z.leb_spec (count_at (g_hosts (l_gate st)) k) 1).
    + intros [_ Hd]%lookup_delete_Some. by eapply Hp.
    + intros [[_ <-]|[_ Hd]]%lookup_insert_Some; [lia|by eapply Hp].
  - intros h. specialize (Hhle h). rewrite Hk in Hhle. case_decide; lia.
Qed.

Lemma slots_step st st' :
  slots_inv maxConcurrent perHost st → serve_step remoteHost accept_error st st' → slots_inv maxConcurrent perHost st'.
Proof.
  intros Hi Hs. destruct Hs as [st0 ev|st0 g Hc]; [|apply call_law in Hc as (H1 & H2 & H3 & H4)].
  - destruct ev as [id addr c|cancelled e|id]; simpl.
    + destruct (l_returned st0); [done|]. destruct (g_acquire _ _) as [[k g]|e] eqn:Ea.
      * apply (slots_accept st0 id addr _ _ Hi Ea).
      * destruct Hi; by constructor.
    + destruct (l_returned st0); [done|]. destruct Hi; by constructor.
    + destruct (end_session id _) as [[k rest]|] eqn:Ee; [|done]. by eapply slots_end.
  - destruct Hi. by constructor; simpl; rewrite ?H1, ?H2, ?H3, ?H4.
Qed.

Definition fresh (g : G) : listening G := Listening g [] [] None.

Lemma slots_reachable g st :
  0 ≤ maxConcurrent → 0 ≤ perHost → g_total g = 0 → g_hosts g = ∅ → g_max g = maxConcurrent → g_per_host g = perHost →
  rtc (serve_step remoteHost accept_error) (fresh g) st → slots_inv maxConcurrent perHost st.
Proof.
  intros H1 H2 Ht Hh Hm Hp Hr. assert (slots_inv maxConcurrent perHost (fresh g)) as Hi.
  { constructor; simpl; by rewrite ?Ht, ?Hh. }
  induction Hr; eauto using slots_step.
Qed.

(** What a new connection gets, and what the gate holds, in terms of the live sessions. *)
Definition admits (st : listening G) (addr : remote_addr) : Prop :=
  Z.of_nat (length (l_live st)) < maxConcurrent ∧
  sessions_of (host_key (remoteHost addr)) (snd <$> l_live st) < perHost.

Lemma accept_exact st id addr c :
  slots_inv maxConcurrent perHost st → l_returned st = None →
  let st' := Serve_event remoteHost accept_error st (Accepted id addr c) in
  (admits st addr → l_live st' = (id, host_key (remoteHost addr)) :: l_live st ∧ l_refused st' = l_refused st) ∧
  (¬ admits st addr → l_live st' = l_live st ∧ l_gate st' = l_gate st ∧
     l_refused st' = l_refused st ++ [reply c "421 Too many concurrent SMTP sessions"]).
Proof.
  intros [[<- <-] Ht Hh _ _ _] Hr. simpl. rewrite Hr. unfold admits. rewrite <- Ht, <- Hh.
  pose proof (acquire_law (l_gate st) (remoteHost addr)) as Hl. simpl in Hl.
  destruct (Z.ltb_spec (g_total (l_gate st)) (g_max (l_gate st))); simpl in Hl.
  - destruct (Z.ltb_spec (count_at (g_hosts (l_gate st)) (host_key (remoteHost addr))) (g_per_host (l_gate st)));
      destruct Hl as [g' Hl]; [destruct Hl as [-> _]|rewrite Hl]; (split; [|done || intros []; lia]); [done|lia].
  - destruct Hl as [e ->]. split; [lia|done].
Qed.
End invariant.

(** The promise of a server about its connections: slots are the live sessions, within the
    limits; a connection is taken exactly when both limits leave room, and is otherwise told
    so and changes nothing; nothing is remembered of hosts that are gone. *)
Definition slots_exact {G} `{X : Gate G} (remoteHost : remote_addr → string)
    (accept_error : bool → error → option error) (maxConcurrent perHost : Z) (st : listening G) : Prop :=
  g_total (l_gate st) = Z.of_nat (length (l_live st)) ∧ Z.of_nat (length (l_live st)) ≤ maxConcurrent ∧
  (∀ k, sessions_of k (snd <$> l_live st) ≤ perHost ∧
        (is_Some (g_hosts (l_gate st) !! k) ↔ k ∈ (snd <$> l_live st))) ∧
  ∀ id addr c, l_returned st = None →
    let st' := Serve_event remoteHost accept_error st (Accepted id addr c) in
    (admits remoteHost maxConcurrent perHost st addr →
       l_live st' = (id, host_key (remoteHost addr)) :: l_live st ∧ l_refused st' = l_refused st) ∧
    (¬ admits remoteHost maxConcurrent perHost st addr →
       l_live st' = l_live st ∧ l_gate st' = l_gate st ∧
       l_refused st' = l_refused st ++ [reply c "421 Too many concurrent SMTP sessions"]).

Lemma sessions_of_pos k ss : 0 < sessions_of k ss ↔ k ∈ ss.
Proof.
  unfold sessions_of. induction ss as [|x ss IH]; simpl; [by rewrite elem_of_nil|].
  rewrite filter_cons, elem_of_cons. case_decide; simpl; [subst; split; [by left|lia]|].
  rewrite IH. naive_solver.
Qed.

Lemma slots_inv_exact {G} `{X : Gate G} `{GL : !GateLaws G} remoteHost accept_error maxConcurrent perHost (st : listening G) :
  slots_inv maxConcurrent perHost st → slots_exact remoteHost accept_error maxConcurrent perHost st.
Proof.
  intros Hi. pose proof Hi as [_ Ht Hh Hp Hle Hhle]. split_and!; [done..| |].
  - intros k. split; [done|]. rewrite <- sessions_of_pos, <- Hh. unfold count_at.
    destruct (_ !! k) as [n|] eqn:E; simpl; [split; [|by eauto]; intros _; by eapply Hp|].
    split; [by intros []|lia].
  - intros id addr c Hr. by apply accept_exact.
Qed.

(** C18: slots are sessions, for both SMTP servers, under any interleaving.  Whatever
    connections arrive, sessions end, and calls of the shared throttle sessions make, in any
    order, a server made by [NewServer] holds exactly one slot per live session, never more than
    its limits in total and per remote host; a new connection is taken exactly when the live
    sessions leave room under both limits, and is otherwise answered with one 421 line and
    changes nothing; no slot is lost when a session ends, and a host without live sessions
    leaves no entry behind. *)
Theorem listeners_exact `{U : Unicode} :
  (∀ cfg cfg' t st, Submission.NewServer cfg = Ok (cfg', t) →
     rtc (serve_step submission_remoteHost submission_accept_error) (fresh t) st →
     slots_exact submission_remoteHost submission_accept_error
       (lim_MaxConcurrentSessions (Limits cfg')) (lim_MaxSessionsPerRemoteHost (Limits cfg')) st) ∧
  (∀ cfg cfg' l st, Forwarding.NewServer cfg = Ok (cfg', l) →
     rtc (serve_step forwarding_remoteHost forwarding_accept_error) (fresh l) st →
     slots_exact forwarding_remoteHost forwarding_accept_error
       (MaxConcurrentSessions cfg') (MaxSessionsPerRemoteHost cfg') st).
Proof.
  split; intros cfg cfg' g st Hnew Hr; apply slots_inv_exact.
  - unfold Submission.NewServer in Hnew. repeat (apply bind_Ok in Hnew as ([] & _ & Hnew)). injection Hnew as <- <-.
    eapply slots_reachable; [..|exact Hr]; simpl; try done; unfold positive_or; case_match; lia.
  - unfold Forwarding.NewServer in Hnew. repeat (apply bind_Ok in Hnew as ([] & _ & Hnew)). injection Hnew as <- <-.
    eapply slots_reachable; [..|exact Hr]; simpl; try done; unfold positive_or; case_match; lia.
Qed.

(** * [Start] *)

(** Listeners, and the channel on which each [Serve] goroutine sends what it returned:
    [recv_result] is the next value to arrive.  While it waits, the goroutine that watches the
    context may close listeners. *)
Class Net (W : Type) := {
  net_Listen : string → eff W nat;
  tls_Listen : string → eff W nat;
  listener_Close : nat → W → W;
  recv_result : W → W * result unit;
  serve_forwarding : nat → W → W * result unit;
}.

Section start.
Context {W : Type} `{N : Net W}.

Definition closeListeners (listeners : list (nat * bool)) (w : W) : W :=
  foldl (λ w l, listener_Close l.1 w) w listeners.

(** The inner loop, which waits for the other goroutines. *)
Fixpoint drain (n : nat) (w : W) : W := match n with O => w | S n => drain n (recv_result w).1 end.

Fixpoint await (listeners : list (nat * bool)) (n : nat) : eff W unit := λ w,
  match n with
  | O => (w, Ok ())
  | S n =>
      let '(w, r) := recv_result w in
      match r with
      | Err e => if errors_Is e ErrClosed then await listeners n w
                 else (drain n (closeListeners listeners w), Err e)
      | Ok _ => await listeners n w
      end
  end.
Definition serveListeners (listeners : list (nat * bool)) : eff W unit := await listeners (length listeners).

(** The listener on a configured address, and the ones already open. *)
Definition open_plain (cfg : Submission.Config) : eff W (list (nat * bool)) :=
  if bool_decide (TrimSpace (Submission.ListenAddr cfg) = ""%string) then mret [] else
  l ← map_err (Wrapf "smtp submission: listen %s: %w" [FStr (Submission.ListenAddr cfg)])
        (net_Listen (Submission.ListenAddr cfg));
  mret [(l, false)].
Definition open_tls (cfg : Submission.Config) (listeners : list (nat * bool)) : eff W (list (nat * bool)) :=
  if bool_decide (TrimSpace (TLSListenAddr cfg) = ""%string) then mret listeners else λ w,
  let '(w, r) := tls_Listen (TLSListenAddr cfg) w in
  match r with
  | Err e => (closeListeners listeners w, Err (Wrapf "smtp submission: tls listen %s: %w" [FStr (TLSListenAddr cfg)] e))
  | Ok l => (w, Ok (listeners ++ [(l, true)]))
  end.

Definition submission_Start (cfg : Submission.Config) : eff W unit :=
  listeners ← open_plain cfg;
  listeners ← open_tls cfg listeners;
  if decide (listeners = []) then lift (Err (Text "smtp submission: no listeners configured" []))
  else serveListeners listeners.

Definition forwarding_Start (cfg : Forwarding.Config) : eff W unit := λ w,
  let '(w, r) := net_Listen (Forwarding.ListenAddr cfg) w in
  match r with
  | Err e => (w, Err (Wrapf "smtp forwarding: listen %s: %w" [FStr (Forwarding.ListenAddr cfg)] e))
  | Ok l => let '(w, r) := serve_forwarding l w in (listener_Close l w, r)
  end.
End start.

(** What the operating system promises: a failed listen opens nothing, closing closes, and
    waiting opens nothing. *)
Class NetLaws (W : Type) `{N : Net W} := {
  open_listeners : W → gset nat;
  results_received : W → nat;
  net_Listen_law a w w' r : net_Listen a w = (w', r) → results_received w' = results_received w ∧
    open_listeners w' = match r with Ok l => {[l]} ∪ open_listeners w | Err _ => open_listeners w end;
  tls_Listen_law a w w' r : tls_Listen a w = (w', r) → results_received w' = results_received w ∧
    open_listeners w' = match r with Ok l => {[l]} ∪ open_listeners w | Err _ => open_listeners w end;
  listener_Close_law l w : open_listeners (listener_Close l w) = open_listeners w ∖ {[l]} ∧
    results_received (listener_Close l w) = results_received w;
  recv_result_law w : open_listeners (recv_result w).1 ⊆ open_listeners w ∧
    results_received (recv_result w).1 = S (results_received w);
  serve_forwarding_law l w : open_listeners (serve_forwarding l w).1 ⊆ open_listeners w;
}.

Section start_lemmas.
Context {W : Type} `{N : Net W} `{NL : !NetLaws W}.

Lemma closeListeners_spec ls (w : W) :
  open_listeners (closeListeners ls w) = open_listeners w ∖ list_to_set (fst <$> ls) ∧
  results_received (closeListeners ls w) = results_received w.
Proof.
  revert w. induction ls as [|[l b] ls IH]; intros w; csimpl; [split; [set_solver|done]|].
  unfold closeListeners in *. simpl. destruct (IH (listener_Close l w)) as [-> ->].
  destruct (listener_Close_law l w) as [-> ->]. split; [set_solver|done].
Qed.

Lemma drain_spec n (w : W) :
  open_listeners (drain n w) ⊆ open_listeners w ∧ results_received (drain n w) = (n + results_received w)%nat.
Proof.
  revert w. induction n as [|n IH]; intros w; simpl; [done|].
  destruct (IH (recv_result w).1) as [H1 H2], (recv_result_law w) as [H3 H4]. rewrite H2, H4. split; [set_solver|lia].
Qed.

Lemma await_spec ls n (w w' : W) r :
  await ls n w = (w', r) →
  results_received w' = (n + results_received w)%nat ∧ open_listeners w' ⊆ open_listeners w ∧
  ∀ e, r = Err e → errors_Is e ErrClosed = false ∧ open_listeners w' ## list_to_set (fst <$> ls).
Proof.
  revert w. induction n as [|n IH]; intros w; simpl; [intros [= <- <-]; done|].
  destruct (recv_result_law w) as [H3 H4]. destruct (recv_result w) as [w1 [[]|e]]; simpl in *.
  - intros (H1 & H2 & He)%IH. rewrite H1, H4. split_and!; [lia|set_solver|done].
  - destruct (errors_Is e ErrClosed) eqn:Ec.
    + intros (H1 & H2 & He)%IH. rewrite H1, H4. split_and!; [lia|set_solver|done].
    + intros [= <- <-]. destruct (drain_spec n (closeListeners ls w1)) as [H1 H2].
      destruct (closeListeners_spec ls w1) as [H5 H6]. rewrite H2, H6, H4. split_and!; [lia|set_solver|].
      intros e' [= <-]. split; [done|set_solver].
Qed.

Lemma open_plain_spec cfg (w w' : W) r :
  open_plain cfg w = (w', r) → results_received w' = results_received w ∧
  match r with
  | Ok ls => open_listeners w' = list_to_set (fst <$> ls) ∪ open_listeners w
  | Err _ => open_listeners w' = open_listeners w
  end.
Proof.
  unfold open_plain. case_bool_decide; [intros [= <- <-]; split; [done|set_solver]|].
  intros [(e & H1 & ->)|(w1 & l & H1 & [= <- <-])]%eff_bind_inv; apply map_err_inv in H1 as (x & H1 & Hx);
    apply net_Listen_law in H1 as [Hr Ho]; destruct x; simplify_eq/=; split; done || set_solver.
Qed.

Lemma open_tls_spec cfg ls (w w' : W) r :
  open_tls cfg ls w = (w', r) → results_received w' = results_received w ∧
  match r with
  | Ok ls' => ∃ more, ls' = ls ++ more ∧ open_listeners w' = list_to_set (fst <$> more) ∪ open_listeners w
  | Err _ => open_listeners w' = open_listeners w ∖ list_to_set (fst <$> ls)
  end.
Proof.
  unfold open_tls. case_bool_decide.
  { intros [= <- <-]. split; [done|]. exists []. rewrite app_nil_r. split; [done|set_solver]. }
  destruct (tls_Listen _ w) as [w1 [l|e]] eqn:E; apply tls_Listen_law in E as [Hr Ho]; intros [= <- <-].
  - split; [done|]. exists [(l, true)]. split; [done|]. simpl. set_solver.
  - destruct (closeListeners_spec ls w1) as [-> ->]. by rewrite Ho, Hr.
Qed.
End start_lemmas.

(** A server that stops leaves nothing open.  [Start] of the submission server returns only
    after every one of its accept loops has returned, and when it returns an error, whether from
    opening a listener or from an accept loop, every listener it had opened is closed; an accept
    loop that ends because its listener was closed is not an error.  [Start] of the forwarding
    server has closed its listener whenever it returns. *)
Theorem start_closes {W} `{N : Net W} `{NL : !NetLaws W} cfg fcfg (w w' : W) r :
  (submission_Start cfg w = (w', r) →
   (∀ e, r = Err e → open_listeners w' ⊆ open_listeners w) ∧
   (∀ w1 w2 plain tls, open_plain cfg w = (w1, Ok plain) → open_tls cfg plain w1 = (w2, Ok tls) → tls ≠ [] →
      results_received w' = (length tls + results_received w)%nat ∧
      ∀ e, r = Err e → errors_Is e ErrClosed = false ∧ open_listeners w' ## list_to_set (fst <$> tls))) ∧
  (forwarding_Start fcfg w = (w', r) → open_listeners w' ⊆ open_listeners w).
Proof.
  split.
  - unfold submission_Start. intros H. split.
    + intros e ->. apply eff_bind_inv in H as [(e' & H1 & _)|(w1 & plain & H1 & H)].
      { apply open_plain_spec in H1 as [_ ->]. done. }
      apply open_plain_spec in H1 as [_ H1].
      apply eff_bind_inv in H as [(e' & H2 & _)|(w2 & tls & H2 & H)].
      { apply open_tls_spec in H2 as [_ ->]. set_solver. }
      apply open_tls_spec in H2 as [_ (more & -> & H2)]. case_decide as Hn.
      { injection H as <- _. apply app_nil in Hn as [-> ->]. set_solver. }
      apply await_spec in H as (_ & H3 & H4). destruct (H4 e eq_refl) as [_ H5].
      rewrite fmap_app, list_to_set_app_L in H5. set_solver.
    + intros w1 w2 plain tls H1 H2 Hne. rewrite (eff_bind_run _ _ _ _ _ H1), (eff_bind_run _ _ _ _ _ H2) in H.
      rewrite decide_False in H by done. apply await_spec in H as (H3 & _ & H5).
      apply open_plain_spec in H1 as [<- _]. apply open_tls_spec in H2 as [<- _]. done.
  - unfold forwarding_Start. destruct (net_Listen _ w) as [w1 [l|e]] eqn:E; apply net_Listen_law in E as [_ E].
    + pose proof (serve_forwarding_law l w1) as Hs. destruct (serve_forwarding l w1) as [w2 r2]. intros [= <- _].
      destruct (listener_Close_law l w2) as [-> _]. simpl in Hs. set_solver.
    + intros [= <- _]. by rewrite E.
Qed.

(** * Witnesses *)

(** A host that gives listeners numbers; "taken" is an address in use.  The queue holds what
    the accept loops will return. *)
Record demo_host := DemoHost { dh_next : nat; dh_open : gset nat; dh_queue : list (result unit); dh_received : nat }.
Definition demo_listen (a : string) : eff demo_host nat := λ w,
  if decide (a = "taken"%string) then (w, Err (Text "address already in use" []))
  else (DemoHost (S (dh_next w)) ({[dh_next w]} ∪ dh_open w) (dh_queue w) (dh_received w), Ok (dh_next w)).
Definition demo_close (l : nat) (w : demo_host) : demo_host :=
  DemoHost (dh_next w) (dh_open w ∖ {[l]}) (dh_queue w) (dh_received w).
Definition demo_recv (w : demo_host) : demo_host * result unit :=
  (DemoHost (dh_next w) (dh_open w) (tail (dh_queue w)) (S (dh_received w)), default (Ok ()) (head (dh_queue w))).
#[export] Instance demo_net : Net demo_host :=
  {| net_Listen := demo_listen; tls_Listen := demo_listen; listener_Close := demo_close; recv_result := demo_recv;
     serve_forwarding := λ _, demo_recv |}.
#[export] Instance demo_net_laws : NetLaws demo_host.
Proof.
  refine {| open_listeners := dh_open; results_received := dh_received |}; simpl; try done.
  1,2: unfold demo_listen; intros a w w' r; case_decide; by intros [= <- <-].
Defined.

Definition two_listeners : Submission.Config :=
  Submission.MkConfig "h" ":587" ":465" true 0 0 0 (ThrottleLimits 2 1 0 0 0 0) false true true true.
(** The plain accept loop fails first; the other one then ends because it was closed. *)
Definition failing_host : demo_host := DemoHost 0 ∅ [Err (Text "accept" []); Err ErrClosed] 0.

Lemma start_closes_witness :
  ∃ w', submission_Start two_listeners failing_host = (w', Err (Text "accept" [])) ∧
    dh_open w' ⊆ ∅ ∧ dh_received w' = 2%nat.
Proof.
  exists (submission_Start two_listeners failing_host).1. split; [vm_compute; reflexivity|].
  destruct (start_closes two_listeners demo_cfg0 failing_host (submission_Start two_listeners failing_host).1
    (Err (Text "accept" []))) as [H _].
  destruct (H ltac:(vm_compute; reflexivity)) as [H1 _].
  split; [exact (H1 _ eq_refl)|vm_compute; reflexivity].
Defined.

(** One session per host: the second connection of a host is refused while the first lives. *)
Definition demo_client (ip : string) (id : nat) : serve_event := Accepted id (TCPAddr ip "") (Conn [] [] 9 9 None).
Definition demo_events : list serve_event :=
  [demo_client "10.0.0.1" 1; demo_client "10.0.0.2" 2; SessionEnds 1; demo_client " " 3; demo_client "10.0.0.2" 4].
Definition demo_server `{U : Unicode} : result (Submission.Config * smtpThrottle) := Submission.NewServer two_listeners.

Lemma serve_events {G} `{X : Gate G} remoteHost accept_error (st : listening G) evs :
  rtc (serve_step remoteHost accept_error) st (foldl (Serve_event remoteHost accept_error) st evs).
Proof. revert st. induction evs as [|ev evs IH]; intros st; [apply rtc_refl|]. eapply rtc_l; [apply step_event|apply IH]. Qed.

Lemma listeners_exact_witness :
  ∃ t st, snd <$> demo_server (U := ascii_unicode) = Ok t ∧
    st = foldl (Serve_event submission_remoteHost submission_accept_error (X := throttle_gate (U := ascii_unicode)))
           (fresh t) demo_events ∧
    l_live st = [(3%nat, "unknown"%string); (2%nat, "10.0.0.2"%string)] ∧ length (l_refused st) = 1%nat ∧
    ¬ admits submission_remoteHost 2 1 st (TCPAddr "10.0.0.9" "").
Proof.
  eexists _, _. split; [vm_compute; reflexivity|]. split; [reflexivity|].
  destruct (listeners_exact (U := ascii_unicode)) as [H _].
  destruct (H two_listeners _ _ _ ltac:(vm_compute; reflexivity)
    (serve_events submission_remoteHost submission_accept_error (fresh _) demo_events)) as (_ & Hle & _ & _).
  split; [vm_compute; reflexivity|]. split; [vm_compute; reflexivity|].
  intros [Hn _]. vm_compute in Hn. discriminate Hn.
Defined.
