(* ===== verification/Lifetime.v ===== *)
(** The life of the server process after its start: the goroutines of src/cmd/server/main.go
    ([startSMTPSubmission], [startSMTPForwarding], [startHTTPServer], the retry worker), the
    return of [serveGRPC] with the deferred shutdown, and the exit code.

    A goroutine may return at any time, with any result its [Start] can have then; for the SMTP
    servers that is what [Listener] says of [Start].  [life_step] is one such event.  What
    [Start] is told by the operating system, beyond [NetLaws], is the class [ServeLaws]: its
    accept loops return what [Serve] makes of the error of [Accept], and a listener that nobody
    closed does not report that it was closed. *)
From S2P Require Import Prelude GoStrings Throttle Smtp Submission Forwarding Config Service Retry Delivery HttpApi Startup Listener.
Open Scope Z_scope.

(** * HTTP: [Start] and [Shutdown] *)
Definition ErrServerClosed : error := New "http: Server closed".
(** [ListenAndServe] returned [err]. *)
Definition Server_Start (err : option error) : result unit :=
  match err with
  | Some e => if negb (errors_Is e ErrServerClosed) then Err e else Ok ()
  | None => Ok ()
  end.
(** How long [Shutdown] waits, under the 5 seconds of its caller's context. *)
Definition Shutdown_timeout (srv : HttpApi.Server) : Z :=
  Z.min (5 * Second) (pickDuration (ShutdownGraceTimeout (srv_config srv)) HttpApi.defaultTimeout).

(** * Goroutines: what the end of a server means for the process *)
Definition startSMTPSubmission (r : result unit) : option Z := match r with Err _ => Some 1 | Ok _ => None end.
Definition startSMTPForwarding (r : result unit) : option Z := match r with Err _ => Some 1 | Ok _ => None end.
Definition startHTTPServer (r : result unit) : option Z :=
  match r with
  | Err e => if negb (errors_Is e ErrServerClosed) then Some 1 else None
  | Ok _ => None
  end.
Definition goroutine_exit (c : component) (r : result unit) : option Z :=
  match c with
  | RetryWorker _ _ => None
  | SubmissionServer _ _ => startSMTPSubmission r
  | ForwardingServer _ _ => startSMTPForwarding r
  | HttpServer _ _ _ _ => startHTTPServer r
  | GrpcServer _ => None
  end.

(** * What [Start] can return *)
Definition serve_returned (e : option error) : result unit := match e with None => Ok () | Some e => Err e end.
Class ServeLaws (W : Type) `{N : Net W} := {
  cancelled : W → bool;                     (** the server's context is done *)
  closed : W → bool;                        (** [Start] closed a listener *)
  net_Listen_closed a w : closed (Listener.net_Listen a w).1 = closed w;
  tls_Listen_closed a w : closed (tls_Listen a w).1 = closed w;
  recv_closed w : closed (recv_result w).1 = closed w;
  recv_cancelled w : cancelled w = true → cancelled (recv_result w).1 = true;
  close_cancelled l w : cancelled (listener_Close l w) = cancelled w;
  recv_serve w w' r : recv_result w = (w', r) → ∃ c e, r = serve_returned (submission_accept_error c e) ∧
    (c = true → cancelled w' = true) ∧ (errors_Is e ErrClosed = true → cancelled w' = true ∨ closed w = true);
  forwarding_serve l w w' r : serve_forwarding l w = (w', r) → ∃ c e, r = serve_returned (forwarding_accept_error c e) ∧
    (c = true → cancelled w' = true) ∧ (errors_Is e ErrClosed = true → cancelled w' = true ∨ closed w = true);
}.

Section returns.
Context {W : Type} `{N : Net W} `{SL : !ServeLaws W}.

Lemma recv_live (w w' : W) r :
  recv_result w = (w', r) → closed w = false → cancelled w' = false → ∃ e, r = Err e ∧ errors_Is e ErrClosed = false.
Proof.
  intros H Hc Hn. apply recv_serve in H as (c & e & -> & H1 & H2). destruct c; [by rewrite H1 in Hn|].
  exists e. split; [done|]. destruct (errors_Is e ErrClosed); [|done]. destruct H2 as [H2|H2]; congruence.
Qed.
Lemma await_live ls n (w w' : W) :
  closed w = false → await ls (S n) w = (w', Ok ()) → cancelled w' = true.
Proof.
  intros Hc. cbn [await]. destruct (recv_result w) as [w1 r] eqn:E.
  destruct (cancelled w1) eqn:Hn.
  - assert (∀ m (v v' : W), cancelled v = true → await ls m v = (v', Ok ()) → cancelled v' = true) as Hkeep.
    { induction m as [|m IH]; intros v v' Hv; cbn [await]; [by intros [= <-]|].
      pose proof (recv_cancelled v Hv) as Hv1. destruct (recv_result v) as [v1 [|e]]; simpl in Hv1; [by apply IH|].
      destruct (errors_Is e ErrClosed); [by apply IH|done]. }
    destruct r as [|e]; [by apply Hkeep|]. destruct (errors_Is e ErrClosed); [by apply Hkeep|done].
  - destruct (recv_live _ _ _ E Hc Hn) as (e & -> & He). by rewrite He.
Qed.

(** [Start] of the submission server does not end without an error before it is told to. *)
Lemma submission_Start_live cfg (w w' : W) :
  closed w = false → submission_Start cfg w = (w', Ok ()) → cancelled w' = true.
Proof.
  intros Hc (w1 & ls & H1 & (w2 & ls2 & H2 & H)%eff_bind_Ok)%eff_bind_Ok.
  case_decide as Hn; [done|]. destruct ls2 as [|x ls2]; [done|].
  assert (closed w1 = false) as Hc1.
  { unfold open_plain in H1. case_bool_decide; [by injection H1 as <- _|].
    apply eff_bind_Ok in H1 as (w3 & l & H1%map_err_Ok & [= <- _]).
    pose proof (net_Listen_closed (Submission.ListenAddr cfg) w) as Hl. rewrite H1 in Hl. simpl in Hl. congruence. }
  assert (closed w2 = false) as Hc2.
  { unfold open_tls in H2. case_bool_decide; [by injection H2 as <- _|].
    pose proof (tls_Listen_closed (TLSListenAddr cfg) w1) as Hl. destruct (tls_Listen _ w1) as [w3 [l|e]]; [|done].
    injection H2 as <- _. simpl in Hl. congruence. }
  exact (await_live (x :: ls2) (length ls2) w2 w' Hc2 H).
Qed.
Lemma forwarding_Start_live cfg (w w' : W) :
  closed w = false → forwarding_Start cfg w = (w', Ok ()) → cancelled w' = true.
Proof.
  intros Hc. unfold forwarding_Start. pose proof (net_Listen_closed (Forwarding.ListenAddr cfg) w) as Hl.
  destruct (Listener.net_Listen _ w) as [w1 [l|e]]; [|done]. simpl in Hl.
  destruct (serve_forwarding l w1) as [w2 r] eqn:E. intros [= <- ->]. rewrite close_cancelled.
  apply forwarding_serve in E as (c & e & Hr & H1 & H2). destruct c; [by apply H1|]. unfold forwarding_accept_error in Hr. simpl in Hr.
  destruct (errors_Is e ErrClosed); [|done]. destruct H2 as [H2|H2]; [done..|congruence].
Qed.

(** * The process *)
Record life := Life {
  f_live : list component;                  (** whose goroutine, or [serveGRPC], has not returned *)
  f_told : list component;                  (** told to stop: contexts cancelled, HTTP shut down *)
  f_main : option Z;                        (** what [runServer] will return *)
  f_exit : option Z;
}.
(** The deferred calls of [runServer] run in the opposite order of the starts. *)
Definition deferred (cs : list component) : list component :=
  List.filter (λ c, match c with GrpcServer _ => false | _ => true end) (reverse cs).
(** [serveGRPC] returned. *)
Definition serve_code (r : result unit) : Z := match r with Err _ => 1 | Ok _ => 0 end.
(** The exit code of the process: [exit] is called for others than 0. *)
Definition runServerAndExit (exitCode : Z) : Z := if decide (exitCode ≠ 0) then exitCode else 0.

(** The scheduler's constructor may refuse its configuration. *)
Context (NewWorker : scheduler_config → result unit).

(** The results a goroutine can end with, told to stop or not. *)
Definition may_return (c : component) (told : Prop) (r : result unit) : Prop :=
  match c with
  | RetryWorker _ worker => r = Ok () ∧ (told ∨ ∃ e, NewWorker worker = Err e)
  | SubmissionServer cfg _ =>
      ∃ w w' : W, closed w = false ∧ submission_Start cfg w = (w', r) ∧ (cancelled w' = true → told)
  | ForwardingServer cfg _ =>
      ∃ w w' : W, closed w = false ∧ forwarding_Start cfg w = (w', r) ∧ (cancelled w' = true → told)
  | HttpServer _ _ _ _ => ∃ e, r = Server_Start (Some e) ∧ (errors_Is e ErrServerClosed = true → told)
  | GrpcServer _ => False
  end.

Inductive life_step (cs : list component) : life → life → Prop :=
| goroutine_returns a c b told main r :
    may_return c (c ∈ told) r →
    life_step cs (Life (a ++ c :: b) told main None) (Life (a ++ b) told main (goroutine_exit c r))
| grpc_returns a token b told r :
    life_step cs (Life (a ++ GrpcServer token :: b) told None None) (Life (a ++ b) told (Some (serve_code r)) None)
| deferred_call live told c rest code :
    deferred cs = told ++ c :: rest →
    life_step cs (Life live told (Some code) None) (Life live (told ++ [c]) (Some code) None)
| main_returns live code :
    life_step cs (Life live (deferred cs) (Some code) None)
      (Life live (deferred cs) (Some code) (Some (runServerAndExit code))).

Record life_inv (cs : list component) (s : life) : Prop := {
  li_told : f_main s = None → f_told s = [];
  li_order : f_told s `prefix_of` deferred cs;
  li_exit code : f_exit s = Some code → code = 1 ∨ f_main s = Some code ∧ (code = 0 ∨ code = 1);
  li_main code : f_main s = Some code → code = 0 ∨ code = 1;
  li_live c : f_exit s = None → c ∈ cs → c ∈ f_live s ∨ c ∈ f_told s ∨
    (∃ token, c = GrpcServer token ∧ f_main s ≠ None) ∨
    ∃ svc worker e, c = RetryWorker svc worker ∧ NewWorker worker = Err e;
}.

Lemma serve_code_range r : serve_code r = 0 ∨ serve_code r = 1.
Proof. destruct r; [by left|by right]. Qed.
Lemma goroutine_exit_one c r code : goroutine_exit c r = Some code → code = 1.
Proof. destruct c; simpl; unfold startSMTPSubmission, startSMTPForwarding, startHTTPServer; repeat case_match; congruence. Qed.

(** A goroutine that returns without ending the process had been told to, or is the worker
    whose configuration was refused. *)
Lemma quiet_return c (told : Prop) r :
  may_return c told r → goroutine_exit c r = None →
  told ∨ ∃ svc worker e, c = RetryWorker svc worker ∧ NewWorker worker = Err e.
Proof.
  destruct c as [svc worker|cfg relay|cfg sender|srv key cookie settings|token]; simpl.
  - intros [_ [?|[e He]]] _; [by left|right; by exists svc, worker, e].
  - intros (w & w' & Hc & H & Ht) Hn. left. destruct r as [[]|]; [|done]. by eapply Ht, submission_Start_live.
  - intros (w & w' & Hc & H & Ht) Hn. left. destruct r as [[]|]; [|done]. by eapply Ht, forwarding_Start_live.
  - intros (e & -> & Ht) Hn. left. unfold Server_Start in Hn. apply Ht. destruct (errors_Is e ErrServerClosed) eqn:E; [done|].
    simpl in Hn. by rewrite E in Hn.
  - done.
Qed.

Lemma life_step_inv cs s s' : life_inv cs s → life_step cs s s' → life_inv cs s'.
Proof.
  intros [Ht Ho He Hm Hl] Hs. destruct Hs as [a c b told main r Hr|a token b told r|live told c rest code Hd|live code]; simpl in *.
  - constructor; simpl; [done|done| |done|].
    + intros code ->%goroutine_exit_one. by left.
    + intros x Hx Hin. specialize (Hl x eq_refl Hin). rewrite elem_of_app, elem_of_cons in Hl. rewrite elem_of_app.
      destruct (quiet_return _ _ _ Hr Hx) as [?|?]; naive_solver.
  - constructor; simpl; [done|done|done|intros code [= <-]; apply serve_code_range|].
    intros x _ Hin. specialize (Hl x eq_refl Hin). rewrite elem_of_app, elem_of_cons in Hl. rewrite elem_of_app. naive_solver.
  - constructor; simpl; [done| |done..|]; [rewrite Hd; by exists rest; rewrite <- app_assoc|].
    intros x _ Hin. specialize (Hl x eq_refl Hin). rewrite elem_of_app. naive_solver.
  - constructor; simpl; [done|done| |done|done]. intros x [= <-]. right.
    destruct (Hm code eq_refl) as [->| ->]; [by split; [|left]|by split; [|right]].
Qed.
End returns.


(** * Witness *)

(** A host whose listeners fail unless the context is done. *)
Record small_os := SmallOS { so_cancelled : bool; so_closed : bool; so_next : nat }.
Definition os_listen (_ : string) : eff small_os nat := λ w,
  (SmallOS (so_cancelled w) (so_closed w) (S (so_next w)), Ok (so_next w)).
Definition os_close (_ : nat) (w : small_os) : small_os := SmallOS (so_cancelled w) true (so_next w).
Definition os_recv (accept_error : bool → error → option error) (w : small_os) : small_os * result unit :=
  (w, serve_returned (accept_error (so_cancelled w) (if so_closed w then ErrClosed else Text "accept" []))).
#[local] Instance small_net : Net small_os :=
  {| Listener.net_Listen := os_listen; tls_Listen := os_listen; listener_Close := os_close;
     recv_result := os_recv submission_accept_error; serve_forwarding := λ _, os_recv forwarding_accept_error |}.
#[local] Instance small_serve : ServeLaws small_os.
Proof.
  refine {| cancelled := so_cancelled; closed := so_closed |}; try done.
  1: intros w w' r [= <- <-]. 2: intros _ w w' r [= <- <-].
  all: eexists _, _; (split; [reflexivity|]); (split; [done|]); destruct (so_closed w); [by right|done].
Defined.

(** A server with a submission listener: its accept loop fails, and the process ends with 1. *)
Definition mail_config : Config.Config :=
  let relay := MkRelayConfig "" 0 "" "" in
  Config.MkConfig "" "" "" 3 60 "" "" [] false "" [] [] (MkSubmissionConfig true "h" ":587" "" "" "" 0 "" "" 1 1 true relay)
    (MkForwardingConfig false "" "" 0 0 relay) "" "" "" "" "" 0 "" "" "" "" 30 30.
Definition accepts_worker (_ : scheduler_config) : result unit := Ok ().
Section witness.
#[local] Existing Instance ascii_unicode.
Definition mail_parts : list component := configured_components mail_config.
Definition crashed : life := Life [retry_worker mail_config; GrpcServer ""] [] None (Some 1).
Lemma crash_reachable :
  rtc (life_step (W := small_os) accepts_worker mail_parts) (Life mail_parts [] None None) crashed.
Proof.
  apply rtc_once. apply (goroutine_returns _ _ [retry_worker mail_config]
    (SubmissionServer (effective_submission mail_config) (newSMTPRelay mail_config)) [GrpcServer ""] [] None (Err (Text "accept" []))).
  exists (SmallOS false false 0), (SmallOS false true 1). split_and!; [done|vm_compute; reflexivity|done].
Qed.

End witness.
